(** * BS9: the Bit Shift Assembler for the 6809 / 6309 (bs9.c)

    A shallow embedding of the parts of [bs9.c] that decide the
    specification's claims: the ROM image with its lock map ([Put]),
    the expression evaluator ([EvalOperand] and its operator tables),
    conditional assembly ([CheckCondition]), the instruction encoder's
    push/pull, relative-branch and emission paths ([ScanPushList],
    [GenerateCode], [SetInstructionLength], [Synchronize]), the
    S-record writer ([WriteS19Line], [WriteS19Format]) and the pass
    driver ([Phase2], [main]).

    Conventions.
    - A C [int] is a [Z]; where the C arithmetic can leave the 32-bit
      range the wrap-around is written out with [int_wrap].
    - A C string is a [string]; a [char *] into it is the suffix that
      starts at the pointer, so [*p] is [hd p] and [p+n] is [adv n p].
      Reading the terminator yields the NUL character.
    - The arrays [ROM], [LOCK] and [ADL] are total functions on [Z],
      updated pointwise by [wra].
    - A C function that may call [exit(1)] returns an [outcome]:
      [Done] for a normal return, [Exit] with the text given to
      [ErrorMsg] for termination of the assembler, [Stuck] where C
      leaves the behaviour undefined or the path is not embedded. *)

From Stdlib Require Import ZArith List String Ascii Bool Lia.
Import ListNotations.
Open Scope string_scope.
Open Scope Z_scope.

(* ================================================================= *)
(** ** Outcomes of calls that may terminate the assembler *)

Inductive outcome (A : Type) : Type :=
| Done (a : A)          (* the function returns *)
| Exit (msg : string)   (* ErrorMsg(msg); exit(1) *)
| Stuck (why : string)  (* undefined in C, or outside the embedded part *)
| OutOfFuel.            (* the recursion bound of the model was reached *)

Arguments Done {A} a.
Arguments Exit {A} msg.
Arguments Stuck {A} why.
Arguments OutOfFuel {A}.

Definition bind {A B : Type} (x : outcome A) (f : A -> outcome B) : outcome B :=
  match x with
  | Done a => f a
  | Exit msg => Exit msg
  | Stuck why => Stuck why
  | OutOfFuel => OutOfFuel
  end.

Notation "x <- c ;; k" := (bind c (fun x => k))
  (at level 61, c at next level, right associativity).
Notation "' pat <- c ;; k" := (bind c (fun x => match x with pat => k end))
  (at level 61, pat pattern, c at next level, right associativity).
Notation "c ;;; k" := (bind c (fun _ => k))
  (at level 61, right associativity).

(* ================================================================= *)
(** ** C integers *)

(** [#define UNDEF (int) 0xff0000] *)
Definition UNDEF : Z := 0xff0000.

(** Reduction of a mathematical integer to the value of a 32-bit [int]. *)
Definition int_wrap (z : Z) : Z := (z + 2147483648) mod 4294967296 - 2147483648.

(** Truth value of a C condition as an [int]. *)
Definition b2i (b : bool) : Z := if b then 1 else 0.

(** A C [int] used as a condition. *)
Definition truthy (z : Z) : bool := negb (z =? 0).

(* ================================================================= *)
(** ** Characters and strings of <ctype.h> and <string.h> *)

Definition code (c : ascii) : Z := Z.of_N (N_of_ascii c).
Definition chr (z : Z) : ascii := ascii_of_N (Z.to_N (z mod 256)).

Definition NUL : ascii := zero.

Definition in_range (lo hi : Z) (c : ascii) : bool :=
  (lo <=? code c) && (code c <=? hi).

Definition isdigit (c : ascii) : bool := in_range 48 57 c.
Definition isupper (c : ascii) : bool := in_range 65 90 c.
Definition islower (c : ascii) : bool := in_range 97 122 c.
Definition isalpha (c : ascii) : bool := isupper c || islower c.
Definition isalnum (c : ascii) : bool := isalpha c || isdigit c.
Definition isxdigit (c : ascii) : bool :=
  isdigit c || in_range 65 70 c || in_range 97 102 c.
Definition isspace (c : ascii) : bool := in_range 9 13 c || (code c =? 32).
Definition toupper (c : ascii) : ascii :=
  if islower c then chr (code c - 32) else c.

Definition is_char (c d : ascii) : bool := code c =? code d.

(** [*p] *)
Definition hd (p : string) : ascii :=
  match p with
  | EmptyString => NUL
  | String c _ => c
  end.

(** [p + n], for [n] up to the terminator. *)
Fixpoint adv (n : nat) (p : string) : string :=
  match n, p with
  | O, _ => p
  | S n', String _ q => adv n' q
  | S _, EmptyString => EmptyString
  end.

Definition strlen (p : string) : nat := String.length p.

(** [strchr(set, c) != NULL] for a character [c] other than NUL. *)
Fixpoint strchr (set : string) (c : ascii) : bool :=
  match set with
  | EmptyString => false
  | String d rest => is_char c d || strchr rest c
  end.

(** [strncmp(p, m, strlen(m)) == 0]: [m] is a prefix of [p]. *)
Fixpoint has_prefix (p m : string) : bool :=
  match m, p with
  | EmptyString, _ => true
  | String d m', String c p' => is_char c d && has_prefix p' m'
  | String _ _, EmptyString => false
  end.

(** [SkipSpace]:
    [if ( *p) while (isspace( *p)) ++p; return p;] *)
Fixpoint SkipSpace (p : string) : string :=
  match p with
  | EmptyString => p
  | String c q => if isspace c then SkipSpace q else p
  end.

(** [NeedChar]: the position of [c] after blanks, or NULL. *)
Definition NeedChar (p : string) (c : ascii) : option string :=
  let p := SkipSpace p in
  if is_char (hd p) c then Some p else None.

(** [isym]: characters of a symbol. *)
Definition isym (c : ascii) : bool :=
  is_char c "." || is_char c "$" || is_char c "_" || isalnum c.

(** Three-way comparison of two characters after [toupper], as in the
    loops of [StrCaseCmp] and [StrNCaseCmp]. *)
Definition cmp_upper (x y : ascii) : Z :=
  if code (toupper x) <? code (toupper y) then -1
  else if code (toupper y) <? code (toupper x) then 1
  else 0.

(** [StrNCaseCmp]:
    [for (i=0 ; i < n && i <= l && i <= m ; ++i)] compares the
    characters in upper case, the terminators included; the loop ends
    behind the first terminator. *)
Fixpoint StrNCaseCmp (a b : string) (n : nat) : Z :=
  match n with
  | O => 0
  | S n' =>
      match a, b with
      | EmptyString, EmptyString => 0
      | EmptyString, String y _ => cmp_upper NUL y
      | String x _, EmptyString => cmp_upper x NUL
      | String x a', String y b' =>
          if cmp_upper x y =? 0 then StrNCaseCmp a' b' n' else cmp_upper x y
      end
  end.

(** [StrCaseCmp]: the same loop without the bound [n]. *)
Definition StrCaseCmp (a b : string) : Z :=
  StrNCaseCmp a b (S (Nat.max (strlen a) (strlen b))).

(** [strcmp(a, b) == 0] *)
Definition streq (a b : string) : bool := String.eqb a b.

(** [strcmpword]: is [s2] a word at the start of [s1]?
    [r = StrNCaseCmp(s1,s2,l); if (r == 0 && isym(s1[l])) r = 1;] *)
Definition strcmpword (s1 s2 : string) : Z :=
  let l := strlen s2 in
  let r := StrNCaseCmp s1 s2 l in
  if (r =? 0) && isym (hd (adv l s1)) then 1 else r.

(** [StrMatch]: first position of [m] in [s], ignoring case. *)
Fixpoint match_here (s m : string) : bool :=
  match m, s with
  | EmptyString, _ => true
  | String d m', String c s' =>
      (code (toupper c) =? code (toupper d)) && match_here s' m'
  | String _ _, EmptyString => false
  end.

Fixpoint StrMatch (s m : string) : option string :=
  if match_here s m then Some s
  else match s with
       | EmptyString => None
       | String _ s' => StrMatch s' m
       end.

(* ================================================================= *)
(** ** Tables *)

(** [enum Addressing_Mode] *)
Definition AM_None      : nat := 0.
Definition AM_Inherent  : nat := 1.
Definition AM_Register  : nat := 2.
Definition AM_Relative  : nat := 3.
Definition AM_Immediate : nat := 4.
Definition AM_Direct    : nat := 5.
Definition AM_Indexed   : nat := 6.
Definition AM_Extended  : nat := 7.

(** [struct MatStruct]: a mnemonic and its opcode per addressing mode;
    entry 0 is the CPU tag, [-1] marks an unsupported mode. *)
Record MatStruct : Type := mne { Mne : string; Opc : list Z }.

Definition Mat : list MatStruct := [
  mne "NEG" [0; (-1); (-1); (-1); (-1); 0x00; 0x60; 0x70];
  mne "COM" [0; (-1); (-1); (-1); (-1); 0x03; 0x63; 0x73];
  mne "LSR" [0; (-1); (-1); (-1); (-1); 0x04; 0x64; 0x74];
  mne "ROR" [0; (-1); (-1); (-1); (-1); 0x06; 0x66; 0x76];
  mne "ASR" [0; (-1); (-1); (-1); (-1); 0x07; 0x67; 0x77];
  mne "ASL" [0; (-1); (-1); (-1); (-1); 0x08; 0x68; 0x78];
  mne "LSL" [0; (-1); (-1); (-1); (-1); 0x08; 0x68; 0x78];
  mne "ROL" [0; (-1); (-1); (-1); (-1); 0x09; 0x69; 0x79];
  mne "DEC" [0; (-1); (-1); (-1); (-1); 0x0a; 0x6a; 0x7a];
  mne "INC" [0; (-1); (-1); (-1); (-1); 0x0c; 0x6c; 0x7c];
  mne "TST" [0; (-1); (-1); (-1); (-1); 0x0d; 0x6d; 0x7d];
  mne "JMP" [0; (-1); (-1); (-1); (-1); 0x0e; 0x6e; 0x7e];
  mne "CLR" [0; (-1); (-1); (-1); (-1); 0x0f; 0x6f; 0x7f];
  mne "NOP" [0; 0x12; (-1); (-1); (-1); (-1); (-1); (-1)];
  mne "SYNC" [0; 0x13; (-1); (-1); (-1); (-1); (-1); (-1)];
  mne "LBRA" [0; (-1); (-1); 0x16; (-1); (-1); (-1); (-1)];
  mne "LBSR" [0; (-1); (-1); 0x17; (-1); (-1); (-1); (-1)];
  mne "DAA" [0; 0x19; (-1); (-1); (-1); (-1); (-1); (-1)];
  mne "ORCC" [0; (-1); (-1); (-1); 0x1a; (-1); (-1); (-1)];
  mne "ANDCC" [0; (-1); (-1); (-1); 0x1c; (-1); (-1); (-1)];
  mne "SEX" [0; 0x1d; (-1); (-1); (-1); (-1); (-1); (-1)];
  mne "EXG" [0; (-1); 0x1e; (-1); (-1); (-1); (-1); (-1)];
  mne "TFR" [0; (-1); 0x1f; (-1); (-1); (-1); (-1); (-1)];
  mne "BRA" [0; (-1); (-1); 0x20; (-1); (-1); (-1); (-1)];
  mne "BRN" [0; (-1); (-1); 0x21; (-1); (-1); (-1); (-1)];
  mne "BHI" [0; (-1); (-1); 0x22; (-1); (-1); (-1); (-1)];
  mne "BLS" [0; (-1); (-1); 0x23; (-1); (-1); (-1); (-1)];
  mne "BCC" [0; (-1); (-1); 0x24; (-1); (-1); (-1); (-1)];
  mne "BHS" [0; (-1); (-1); 0x24; (-1); (-1); (-1); (-1)];
  mne "BCS" [0; (-1); (-1); 0x25; (-1); (-1); (-1); (-1)];
  mne "BLO" [0; (-1); (-1); 0x25; (-1); (-1); (-1); (-1)];
  mne "BNE" [0; (-1); (-1); 0x26; (-1); (-1); (-1); (-1)];
  mne "BEQ" [0; (-1); (-1); 0x27; (-1); (-1); (-1); (-1)];
  mne "BVC" [0; (-1); (-1); 0x28; (-1); (-1); (-1); (-1)];
  mne "BVS" [0; (-1); (-1); 0x29; (-1); (-1); (-1); (-1)];
  mne "BPL" [0; (-1); (-1); 0x2a; (-1); (-1); (-1); (-1)];
  mne "BMI" [0; (-1); (-1); 0x2b; (-1); (-1); (-1); (-1)];
  mne "BGE" [0; (-1); (-1); 0x2c; (-1); (-1); (-1); (-1)];
  mne "BLT" [0; (-1); (-1); 0x2d; (-1); (-1); (-1); (-1)];
  mne "BGT" [0; (-1); (-1); 0x2e; (-1); (-1); (-1); (-1)];
  mne "BLE" [0; (-1); (-1); 0x2f; (-1); (-1); (-1); (-1)];
  mne "LEAX" [0; (-1); (-1); (-1); (-1); (-1); 0x30; (-1)];
  mne "LEAY" [0; (-1); (-1); (-1); (-1); (-1); 0x31; (-1)];
  mne "LEAS" [0; (-1); (-1); (-1); (-1); (-1); 0x32; (-1)];
  mne "LEAU" [0; (-1); (-1); (-1); (-1); (-1); 0x33; (-1)];
  mne "PSHS" [0; (-1); 0x34; (-1); (-1); (-1); (-1); (-1)];
  mne "PULS" [0; (-1); 0x35; (-1); (-1); (-1); (-1); (-1)];
  mne "PSHU" [0; (-1); 0x36; (-1); (-1); (-1); (-1); (-1)];
  mne "PULU" [0; (-1); 0x37; (-1); (-1); (-1); (-1); (-1)];
  mne "RTS" [0; 0x39; (-1); (-1); (-1); (-1); (-1); (-1)];
  mne "ABX" [0; 0x3a; (-1); (-1); (-1); (-1); (-1); (-1)];
  mne "RTI" [0; 0x3b; (-1); (-1); (-1); (-1); (-1); (-1)];
  mne "CWAI" [0; (-1); (-1); (-1); 0x3c; (-1); (-1); (-1)];
  mne "MUL" [0; 0x3d; (-1); (-1); (-1); (-1); (-1); (-1)];
  mne "RESET" [0; 0x3e; (-1); (-1); (-1); (-1); (-1); (-1)];
  mne "SWI" [0; 0x3f; (-1); (-1); (-1); (-1); (-1); (-1)];
  mne "NEGA" [0; 0x40; (-1); (-1); (-1); (-1); (-1); (-1)];
  mne "COMA" [0; 0x43; (-1); (-1); (-1); (-1); (-1); (-1)];
  mne "LSRA" [0; 0x44; (-1); (-1); (-1); (-1); (-1); (-1)];
  mne "RORA" [0; 0x46; (-1); (-1); (-1); (-1); (-1); (-1)];
  mne "ASRA" [0; 0x47; (-1); (-1); (-1); (-1); (-1); (-1)];
  mne "ASLA" [0; 0x48; (-1); (-1); (-1); (-1); (-1); (-1)];
  mne "LSLA" [0; 0x48; (-1); (-1); (-1); (-1); (-1); (-1)];
  mne "ROLA" [0; 0x49; (-1); (-1); (-1); (-1); (-1); (-1)];
  mne "DECA" [0; 0x4a; (-1); (-1); (-1); (-1); (-1); (-1)];
  mne "INCA" [0; 0x4c; (-1); (-1); (-1); (-1); (-1); (-1)];
  mne "TSTA" [0; 0x4d; (-1); (-1); (-1); (-1); (-1); (-1)];
  mne "CLRA" [0; 0x4f; (-1); (-1); (-1); (-1); (-1); (-1)];
  mne "NEGB" [0; 0x50; (-1); (-1); (-1); (-1); (-1); (-1)];
  mne "COMB" [0; 0x53; (-1); (-1); (-1); (-1); (-1); (-1)];
  mne "LSRB" [0; 0x54; (-1); (-1); (-1); (-1); (-1); (-1)];
  mne "RORB" [0; 0x56; (-1); (-1); (-1); (-1); (-1); (-1)];
  mne "ASRB" [0; 0x57; (-1); (-1); (-1); (-1); (-1); (-1)];
  mne "ASLB" [0; 0x58; (-1); (-1); (-1); (-1); (-1); (-1)];
  mne "LSLB" [0; 0x58; (-1); (-1); (-1); (-1); (-1); (-1)];
  mne "ROLB" [0; 0x59; (-1); (-1); (-1); (-1); (-1); (-1)];
  mne "DECB" [0; 0x5a; (-1); (-1); (-1); (-1); (-1); (-1)];
  mne "INCB" [0; 0x5c; (-1); (-1); (-1); (-1); (-1); (-1)];
  mne "TSTB" [0; 0x5d; (-1); (-1); (-1); (-1); (-1); (-1)];
  mne "CLRB" [0; 0x5f; (-1); (-1); (-1); (-1); (-1); (-1)];
  mne "SUBA" [0; (-1); (-1); (-1); 0x80; 0x90; 0xa0; 0xb0];
  mne "CMPA" [0; (-1); (-1); (-1); 0x81; 0x91; 0xa1; 0xb1];
  mne "SBCA" [0; (-1); (-1); (-1); 0x82; 0x92; 0xa2; 0xb2];
  mne "SUBD" [0; (-1); (-1); (-1); 0x83; 0x93; 0xa3; 0xb3];
  mne "ANDA" [0; (-1); (-1); (-1); 0x84; 0x94; 0xa4; 0xb4];
  mne "BITA" [0; (-1); (-1); (-1); 0x85; 0x95; 0xa5; 0xb5];
  mne "LDA" [0; (-1); (-1); (-1); 0x86; 0x96; 0xa6; 0xb6];
  mne "EORA" [0; (-1); (-1); (-1); 0x88; 0x98; 0xa8; 0xb8];
  mne "ADCA" [0; (-1); (-1); (-1); 0x89; 0x99; 0xa9; 0xb9];
  mne "ORA" [0; (-1); (-1); (-1); 0x8a; 0x9a; 0xaa; 0xba];
  mne "ADDA" [0; (-1); (-1); (-1); 0x8b; 0x9b; 0xab; 0xbb];
  mne "CMPX" [0; (-1); (-1); (-1); 0x8c; 0x9c; 0xac; 0xbc];
  mne "BSR" [0; (-1); (-1); 0x8d; (-1); (-1); (-1); (-1)];
  mne "LDX" [0; (-1); (-1); (-1); 0x8e; 0x9e; 0xae; 0xbe];
  mne "STA" [0; (-1); (-1); (-1); (-1); 0x97; 0xa7; 0xb7];
  mne "JSR" [0; (-1); (-1); (-1); (-1); 0x9d; 0xad; 0xbd];
  mne "STX" [0; (-1); (-1); (-1); (-1); 0x9f; 0xaf; 0xbf];
  mne "SUBB" [0; (-1); (-1); (-1); 0xc0; 0xd0; 0xe0; 0xf0];
  mne "CMPB" [0; (-1); (-1); (-1); 0xc1; 0xd1; 0xe1; 0xf1];
  mne "SBCB" [0; (-1); (-1); (-1); 0xc2; 0xd2; 0xe2; 0xf2];
  mne "ADDD" [0; (-1); (-1); (-1); 0xc3; 0xd3; 0xe3; 0xf3];
  mne "ANDB" [0; (-1); (-1); (-1); 0xc4; 0xd4; 0xe4; 0xf4];
  mne "BITB" [0; (-1); (-1); (-1); 0xc5; 0xd5; 0xe5; 0xf5];
  mne "LDB" [0; (-1); (-1); (-1); 0xc6; 0xd6; 0xe6; 0xf6];
  mne "EORB" [0; (-1); (-1); (-1); 0xc8; 0xd8; 0xe8; 0xf8];
  mne "ADCB" [0; (-1); (-1); (-1); 0xc9; 0xd9; 0xe9; 0xf9];
  mne "ORB" [0; (-1); (-1); (-1); 0xca; 0xda; 0xea; 0xfa];
  mne "ADDB" [0; (-1); (-1); (-1); 0xcb; 0xdb; 0xeb; 0xfb];
  mne "LDD" [0; (-1); (-1); (-1); 0xcc; 0xdc; 0xec; 0xfc];
  mne "LDU" [0; (-1); (-1); (-1); 0xce; 0xde; 0xee; 0xfe];
  mne "STB" [0; (-1); (-1); (-1); (-1); 0xd7; 0xe7; 0xf7];
  mne "STD" [0; (-1); (-1); (-1); (-1); 0xdd; 0xed; 0xfd];
  mne "STU" [0; (-1); (-1); (-1); (-1); 0xdf; 0xef; 0xff];
  mne "LBRN" [0; (-1); (-1); 0x1021; (-1); (-1); (-1); (-1)];
  mne "LBHI" [0; (-1); (-1); 0x1022; (-1); (-1); (-1); (-1)];
  mne "LBLS" [0; (-1); (-1); 0x1023; (-1); (-1); (-1); (-1)];
  mne "LBCC" [0; (-1); (-1); 0x1024; (-1); (-1); (-1); (-1)];
  mne "LBHS" [0; (-1); (-1); 0x1024; (-1); (-1); (-1); (-1)];
  mne "LBCS" [0; (-1); (-1); 0x1025; (-1); (-1); (-1); (-1)];
  mne "LBLO" [0; (-1); (-1); 0x1025; (-1); (-1); (-1); (-1)];
  mne "LBNE" [0; (-1); (-1); 0x1026; (-1); (-1); (-1); (-1)];
  mne "LBEQ" [0; (-1); (-1); 0x1027; (-1); (-1); (-1); (-1)];
  mne "LBVC" [0; (-1); (-1); 0x1028; (-1); (-1); (-1); (-1)];
  mne "LBVS" [0; (-1); (-1); 0x1029; (-1); (-1); (-1); (-1)];
  mne "LBPL" [0; (-1); (-1); 0x102a; (-1); (-1); (-1); (-1)];
  mne "LBMI" [0; (-1); (-1); 0x102b; (-1); (-1); (-1); (-1)];
  mne "LBGE" [0; (-1); (-1); 0x102c; (-1); (-1); (-1); (-1)];
  mne "LBLT" [0; (-1); (-1); 0x102d; (-1); (-1); (-1); (-1)];
  mne "LBGT" [0; (-1); (-1); 0x102e; (-1); (-1); (-1); (-1)];
  mne "LBLE" [0; (-1); (-1); 0x102f; (-1); (-1); (-1); (-1)];
  mne "SWI2" [0; 0x103f; (-1); (-1); (-1); (-1); (-1); (-1)];
  mne "CMPD" [0; (-1); (-1); (-1); 0x1083; 0x1093; 0x10a3; 0x10b3];
  mne "CMPY" [0; (-1); (-1); (-1); 0x108c; 0x109c; 0x10ac; 0x10bc];
  mne "LDY" [0; (-1); (-1); (-1); 0x108e; 0x109e; 0x10ae; 0x10be];
  mne "STY" [0; (-1); (-1); (-1); (-1); 0x109f; 0x10af; 0x10bf];
  mne "LDS" [0; (-1); (-1); (-1); 0x10ce; 0x10de; 0x10ee; 0x10fe];
  mne "STS" [0; (-1); (-1); (-1); (-1); 0x10df; 0x10ef; 0x10ff];
  mne "SWI3" [0; 0x113f; (-1); (-1); (-1); (-1); (-1); (-1)];
  mne "CMPU" [0; (-1); (-1); (-1); 0x1183; 0x1193; 0x11a3; 0x11b3];
  mne "CMPS" [0; (-1); (-1); (-1); 0x118c; 0x119c; 0x11ac; 0x11bc];
  mne "SEXW" [1; 0x14; (-1); (-1); (-1); (-1); (-1); (-1)];
  mne "ADDR" [1; (-1); 0x1030; (-1); (-1); (-1); (-1); (-1)];
  mne "ADCR" [1; (-1); 0x1031; (-1); (-1); (-1); (-1); (-1)];
  mne "SUBR" [1; (-1); 0x1032; (-1); (-1); (-1); (-1); (-1)];
  mne "SBCR" [1; (-1); 0x1033; (-1); (-1); (-1); (-1); (-1)];
  mne "ANDR" [1; (-1); 0x1034; (-1); (-1); (-1); (-1); (-1)];
  mne "ORR" [1; (-1); 0x1035; (-1); (-1); (-1); (-1); (-1)];
  mne "EORR" [1; (-1); 0x1036; (-1); (-1); (-1); (-1); (-1)];
  mne "CMPR" [1; (-1); 0x1037; (-1); (-1); (-1); (-1); (-1)];
  mne "TFM" [1; (-1); 0x1138; (-1); (-1); (-1); (-1); (-1)];
  mne "BITMD" [1; (-1); (-1); (-1); 0x113c; (-1); (-1); (-1)];
  mne "LDMD" [1; (-1); (-1); (-1); 0x113d; (-1); (-1); (-1)];
  mne "PSHSW" [1; 0x1038; (-1); (-1); (-1); (-1); (-1); (-1)];
  mne "PULSW" [1; 0x1039; (-1); (-1); (-1); (-1); (-1); (-1)];
  mne "PSHUW" [1; 0x103a; (-1); (-1); (-1); (-1); (-1); (-1)];
  mne "PULUW" [1; 0x103b; (-1); (-1); (-1); (-1); (-1); (-1)];
  mne "NEGD" [1; 0x1040; (-1); (-1); (-1); (-1); (-1); (-1)];
  mne "COMD" [1; 0x1043; (-1); (-1); (-1); (-1); (-1); (-1)];
  mne "LSRD" [1; 0x1044; (-1); (-1); (-1); (-1); (-1); (-1)];
  mne "RORD" [1; 0x1046; (-1); (-1); (-1); (-1); (-1); (-1)];
  mne "ASRD" [1; 0x1047; (-1); (-1); (-1); (-1); (-1); (-1)];
  mne "ASLD" [1; 0x1048; (-1); (-1); (-1); (-1); (-1); (-1)];
  mne "LSLD" [1; 0x1048; (-1); (-1); (-1); (-1); (-1); (-1)];
  mne "ROLD" [1; 0x1049; (-1); (-1); (-1); (-1); (-1); (-1)];
  mne "DECD" [1; 0x104a; (-1); (-1); (-1); (-1); (-1); (-1)];
  mne "INCD" [1; 0x104c; (-1); (-1); (-1); (-1); (-1); (-1)];
  mne "TSTD" [1; 0x104d; (-1); (-1); (-1); (-1); (-1); (-1)];
  mne "CLRD" [1; 0x104f; (-1); (-1); (-1); (-1); (-1); (-1)];
  mne "COMW" [1; 0x1053; (-1); (-1); (-1); (-1); (-1); (-1)];
  mne "LSRW" [1; 0x1054; (-1); (-1); (-1); (-1); (-1); (-1)];
  mne "RORW" [1; 0x1056; (-1); (-1); (-1); (-1); (-1); (-1)];
  mne "ROLW" [1; 0x1059; (-1); (-1); (-1); (-1); (-1); (-1)];
  mne "DECW" [1; 0x105a; (-1); (-1); (-1); (-1); (-1); (-1)];
  mne "INCW" [1; 0x105c; (-1); (-1); (-1); (-1); (-1); (-1)];
  mne "TSTW" [1; 0x105d; (-1); (-1); (-1); (-1); (-1); (-1)];
  mne "CLRW" [1; 0x105f; (-1); (-1); (-1); (-1); (-1); (-1)];
  mne "COME" [1; 0x1143; (-1); (-1); (-1); (-1); (-1); (-1)];
  mne "DECE" [1; 0x114a; (-1); (-1); (-1); (-1); (-1); (-1)];
  mne "INCE" [1; 0x114c; (-1); (-1); (-1); (-1); (-1); (-1)];
  mne "TSTE" [1; 0x114d; (-1); (-1); (-1); (-1); (-1); (-1)];
  mne "CLRE" [1; 0x114f; (-1); (-1); (-1); (-1); (-1); (-1)];
  mne "COMF" [1; 0x1153; (-1); (-1); (-1); (-1); (-1); (-1)];
  mne "DECF" [1; 0x115a; (-1); (-1); (-1); (-1); (-1); (-1)];
  mne "INCF" [1; 0x115c; (-1); (-1); (-1); (-1); (-1); (-1)];
  mne "TSTF" [1; 0x115d; (-1); (-1); (-1); (-1); (-1); (-1)];
  mne "CLRF" [1; 0x115f; (-1); (-1); (-1); (-1); (-1); (-1)];
  mne "OIM" [1; (-1); (-1); (-1); (-1); 0x01; 0x61; 0x71];
  mne "AIM" [1; (-1); (-1); (-1); (-1); 0x02; 0x62; 0x72];
  mne "EIM" [1; (-1); (-1); (-1); (-1); 0x05; 0x65; 0x75];
  mne "TIM" [1; (-1); (-1); (-1); (-1); 0x0b; 0x6b; 0x7b];
  mne "STW" [1; (-1); (-1); (-1); (-1); 0x1097; 0x10a7; 0x10b7];
  mne "STQ" [1; (-1); (-1); (-1); (-1); 0x10dd; 0x10ed; 0x10fd];
  mne "STE" [1; (-1); (-1); (-1); (-1); 0x1197; 0x11a7; 0x11b7];
  mne "STF" [1; (-1); (-1); (-1); (-1); 0x11d7; 0x11e7; 0x11f7];
  mne "LDQ" [1; (-1); (-1); (-1); 0xcd; 0x10dc; 0x10ec; 0x10fc];
  mne "SUBW" [1; (-1); (-1); (-1); 0x1080; 0x1090; 0x10a0; 0x10b0];
  mne "CMPW" [1; (-1); (-1); (-1); 0x1081; 0x1091; 0x10a1; 0x10b1];
  mne "SBCD" [1; (-1); (-1); (-1); 0x1082; 0x1092; 0x10a2; 0x10b2];
  mne "ANDD" [1; (-1); (-1); (-1); 0x1084; 0x1094; 0x10a4; 0x10b4];
  mne "BITD" [1; (-1); (-1); (-1); 0x1085; 0x1095; 0x10a5; 0x10b5];
  mne "LDW" [1; (-1); (-1); (-1); 0x1086; 0x1096; 0x10a6; 0x10b6];
  mne "EORD" [1; (-1); (-1); (-1); 0x1088; 0x1098; 0x10a8; 0x10b8];
  mne "ADCD" [1; (-1); (-1); (-1); 0x1089; 0x1099; 0x10a9; 0x10b9];
  mne "ORD" [1; (-1); (-1); (-1); 0x108a; 0x109a; 0x10aa; 0x10ba];
  mne "ADDW" [1; (-1); (-1); (-1); 0x108b; 0x109b; 0x10ab; 0x10bb];
  mne "SUBE" [1; (-1); (-1); (-1); 0x1180; 0x1190; 0x11a0; 0x11b0];
  mne "CMPE" [1; (-1); (-1); (-1); 0x1181; 0x1191; 0x11a1; 0x11b1];
  mne "LDE" [1; (-1); (-1); (-1); 0x1186; 0x1196; 0x11a6; 0x11b6];
  mne "ADDE" [1; (-1); (-1); (-1); 0x118b; 0x119b; 0x11ab; 0x11bb];
  mne "DIVD" [1; (-1); (-1); (-1); 0x118d; 0x119d; 0x11ad; 0x11bd];
  mne "DIVQ" [1; (-1); (-1); (-1); 0x118e; 0x119e; 0x11ae; 0x11be];
  mne "MULD" [1; (-1); (-1); (-1); 0x118f; 0x119f; 0x11af; 0x11bf];
  mne "SUBF" [1; (-1); (-1); (-1); 0x11c0; 0x11d0; 0x11e0; 0x11f0];
  mne "CMPF" [1; (-1); (-1); (-1); 0x11c1; 0x11d1; 0x11e1; 0x11f1];
  mne "LDF" [1; (-1); (-1); (-1); 0x11c6; 0x11d6; 0x11e6; 0x11f6];
  mne "ADDF" [1; (-1); (-1); (-1); 0x11cb; 0x11db; 0x11eb; 0x11fb];
  mne "BAND" [1; (-1); (-1); (-1); (-1); 0x1130; (-1); (-1)];
  mne "BIAND" [1; (-1); (-1); (-1); (-1); 0x1131; (-1); (-1)];
  mne "BOR" [1; (-1); (-1); (-1); (-1); 0x1132; (-1); (-1)];
  mne "BIOR" [1; (-1); (-1); (-1); (-1); 0x1133; (-1); (-1)];
  mne "BEOR" [1; (-1); (-1); (-1); (-1); 0x1134; (-1); (-1)];
  mne "BIEOR" [1; (-1); (-1); (-1); (-1); 0x1135; (-1); (-1)];
  mne "LDBT" [1; (-1); (-1); (-1); (-1); 0x1136; (-1); (-1)];
  mne "STBT" [1; (-1); (-1); (-1); (-1); 0x1137; (-1); (-1)]
].

Definition DIMOP_6809 : Z := 139.
Definition DIMOP_6309 : Z := Z.of_nat (List.length Mat).

(** [Mat[i]] and [Mat[i].Opc[am]] *)
Definition Mat_at (i : Z) : MatStruct := nth (Z.to_nat i) Mat (mne "" []).
Definition Mat_Opc (i : Z) (am : nat) : Z := nth am (Opc (Mat_at i)) (-1).

(** The keywords of [PseudoTab], in table order. *)
Definition PseudoTab : list string := [
  "ALIGN"; "BITS"; "BSS"; "BYTE"; "C5TO3"; "CASE"; "CMAP"; "CPU"; "END";
  "ENDMOD"; "ENDSUB"; "EXTERN"; "FCB"; "FCC"; "FDB"; "FILL"; "FORMLN";
  "INCLUDE"; "INTERN"; "LIST"; "LOAD"; "LONG"; "MODULE"; "ORG"; "RMB";
  "REAL"; "SECT"; "SETDP"; "SIZE"; "STORE"; "SUBROUTINE"; "TTL"; "WORD" ].

(** [struct PushStruct PushList[10]] *)
Record PushStruct : Type := push { Reg : string; Val : Z }.

Definition PushList : list PushStruct := [
  push "CC" 0x01;   (* bit 0 *)
  push "A"  0x02;   (* bit 1 *)
  push "B"  0x04;   (* bit 2 *)
  push "D"  0x06;   (* bit 1 and 2 *)
  push "DP" 0x08;   (* bit 3 *)
  push "X"  0x10;   (* bit 4 *)
  push "Y"  0x20;   (* bit 5 *)
  push "S"  0x40;   (* bit 6 *)
  push "U"  0x40;   (* bit 6 *)
  push "PC" 0x80    (* bit 7 *)
].

(* ================================================================= *)
(** ** The assembler's global state *)

(** The [int] globals the embedded functions read or write. *)
Inductive ivar : Set :=
| ErrNum | ERRMAX | Phase | pc | oc | pb | il | ol | ql | nops | optc
| DP | ForcedMode | Optimize | CodeStyle | IgnoreCase | DimOp | MneIndex
| IfLevel | Skipping | ForcedEnd | GenEnd | CPU | EnumValue | ListOn
| ModuleStart.

(** The global arrays of [int] or [char].  [plulab[l][i]] is stored at
    index [l * PLUMAX + i], as the C array lays it out. *)
Inductive avar : Set :=
| ROM | LOCK | ADL | SkipLine | minlab | plucnt | plulab.

Scheme Equality for ivar.
Scheme Equality for avar.

Definition PLUMAX : Z := 200.
Definition MAXLAB : Z := 8000.
Definition SFMAX  : Z := 20.

(** [struct LabelStruct], without the reference lists of the listing. *)
Record LabelStruct : Type := mkLabel {
  Name    : string;  (* label name *)
  Address : Z;       (* value, or UNDEF *)
  Bytes   : Z;       (* length of the object *)
  Locked  : Z        (* cannot change value *)
}.

(** [enum OutfileFormat] *)
Inductive OutfileFormat : Set := BINARY | SRECORD.

(** Entry [i] of the parallel arrays [SFA], [SFL], [SFF], [SFE], [SFT]. *)
Record StoreReq : Type := mkStore {
  SFA : Z;              (* start address of data block *)
  SFL : Z;              (* length of data block *)
  SFF : string;         (* filename *)
  SFE : Z;              (* execution start address, -1 if none *)
  SFT : OutfileFormat   (* file format *)
}.

(** One S-record as [WriteS19Line] prints it: the record type, the
    count byte, the address field, the data bytes and the checksum. *)
Record SRec : Type := mkSRec {
  sr_type  : string;
  sr_count : Z;
  sr_addr  : Z;
  sr_data  : list Z;
  sr_cksum : Z
}.

(** What was written to an output file. *)
Inductive FileData : Type :=
| BinData (bytes : list Z)
| S19Data (recs : list SRec).

Record Asm : Type := mkAsm {
  ints   : ivar -> Z;
  arrs   : avar -> Z -> Z;
  lab    : list LabelStruct;          (* lab[0 .. Labels-1] *)
  Scope  : string;                    (* for local symbols *)
  OpText : string;                    (* operand source *)
  Hint   : string;                    (* optimization hint of the line *)
  stores : list StoreReq;             (* entries 0 .. StoreCount-1 *)
  files  : list (string * FileData)   (* output files written so far *)
}.

Definition rd (x : ivar) (s : Asm) : Z := ints s x.
Definition wr (x : ivar) (v : Z) (s : Asm) : Asm :=
  mkAsm (fun y => if ivar_beq y x then v else ints s y)
        (arrs s) (lab s) (Scope s) (OpText s) (Hint s) (stores s) (files s).

Definition rda (a : avar) (i : Z) (s : Asm) : Z := arrs s a i.
Definition wra (a : avar) (i v : Z) (s : Asm) : Asm :=
  mkAsm (ints s)
        (fun b j => if avar_beq b a && (j =? i) then v else arrs s b j)
        (lab s) (Scope s) (OpText s) (Hint s) (stores s) (files s).

Definition set_lab (l : list LabelStruct) (s : Asm) : Asm :=
  mkAsm (ints s) (arrs s) l (Scope s) (OpText s) (Hint s) (stores s) (files s).
Definition set_Scope (x : string) (s : Asm) : Asm :=
  mkAsm (ints s) (arrs s) (lab s) x (OpText s) (Hint s) (stores s) (files s).
Definition set_OpText (x : string) (s : Asm) : Asm :=
  mkAsm (ints s) (arrs s) (lab s) (Scope s) x (Hint s) (stores s) (files s).
Definition set_Hint (x : string) (s : Asm) : Asm :=
  mkAsm (ints s) (arrs s) (lab s) (Scope s) (OpText s) x (stores s) (files s).
Definition set_stores (x : list StoreReq) (s : Asm) : Asm :=
  mkAsm (ints s) (arrs s) (lab s) (Scope s) (OpText s) (Hint s) x (files s).
Definition set_files (x : list (string * FileData)) (s : Asm) : Asm :=
  mkAsm (ints s) (arrs s) (lab s) (Scope s) (OpText s) (Hint s) (stores s) x.

(** [Labels] and [StoreCount] are the lengths of the filled prefixes. *)
Definition Labels (s : Asm) : Z := Z.of_nat (List.length (lab s)).
Definition StoreCount (s : Asm) : Z := Z.of_nat (List.length (stores s)).

(** The state when [main] starts: the initialisers of the globals
    ([CPU = 6309], [ERRMAX = 10], [pc = -1], [EnumValue = -1],
    [ListOn = 1], [DimOp = DIMOP_6309]), everything else zero. *)
Definition init_ints (x : ivar) : Z :=
  match x with
  | ERRMAX => 10
  | pc => -1
  | CPU => 6309
  | EnumValue => -1
  | ListOn => 1
  | DimOp => DIMOP_6309
  | _ => 0
  end.

Definition init_Asm : Asm :=
  mkAsm init_ints (fun _ _ => 0) [] "" "" "" [] [].

(* ================================================================= *)
(** ** The ROM image *)

(** [Put]: store code or data into the ROM array.
[[
   v &= 0xff;
   if (LOCK[i] && ROM[i] != v)
   {
      ++ErrNum;
      ErrorMsg("Tried to overwrite address %4.4x\n",i);
      exit(1);
   }
   ROM[i]  = v;
   LOCK[i] = 1;
]] *)
Definition Put (i v : Z) (s : Asm) : outcome Asm :=
  let v := Z.land v 0xff in
  if truthy (rda LOCK i s) && negb (rda ROM i s =? v)
  then Exit "Tried to overwrite address"
  else Done (wra LOCK i 1 (wra ROM i v s)).

(** A sequence of [Put] calls, each an address and a value. *)
Fixpoint PutMany (ws : list (Z * Z)) (s : Asm) : outcome Asm :=
  match ws with
  | [] => Done s
  | (i, v) :: rest => s1 <- Put i v s ;; PutMany rest s1
  end.

(* ================================================================= *)
(** ** The expression evaluator *)

Definition dquote : ascii := chr 34.
Definition apostrophe : ascii := chr 39.

(** What a call [p = f(p, &v)] hands back: the new [p], the value
    stored through [v] ([None] when the callee returned without
    writing it) and the state. *)
Definition parse (A : Type) : Type := outcome (string * A * Asm).

(** The content of [*v] after the call, [cur] being its content before. *)
Definition stored (cur : Z) (w : option Z) : Z :=
  match w with
  | Some x => x
  | None => cur
  end.

(** [StrCmp(s1, s2) == 0]: [strcmp], or [StrCaseCmp] under [IgnoreCase]. *)
Definition StrCmp_eq (s : Asm) (s1 s2 : string) : bool :=
  if truthy (rd IgnoreCase s) then StrCaseCmp s1 s2 =? 0 else streq s1 s2.

(** [GetSymbol]: copies a symbol from [p]; a leading [.] is expanded
    with [Scope] when a scope is active.  Returns the rest and the symbol. *)
Fixpoint take_sym (p : string) : string * string :=
  match p with
  | EmptyString => (p, "")
  | String c q =>
      if isym c then let '(r, sym) := take_sym q in (r, String c sym)
      else (p, "")
  end.

Definition GetSymbol (s : Asm) (p : string) : string * string :=
  let '(p, pre) :=
    match p, Scope s with
    | String "." q, String _ _ => (q, (Scope s ++ ".")%string)
    | _, _ => (p, "")
    end in
  if is_char (hd p) "_" || isalpha (hd p)
  then let '(r, sym) := take_sym p in (r, (pre ++ sym)%string)
  else (p, pre).

(** [AddLabel]: a new symbol with value [UNDEF]; reserved words are
    refused. *)
Definition AddLabel (p : string) (s : Asm) : outcome Asm :=
  if MAXLAB - 2 <? Labels s then Exit "Too many labels" else
  if existsb (fun m => StrCaseCmp p (Mne m) =? 0)
             (firstn (Z.to_nat (rd DimOp s)) Mat)
  then Exit "Use of reserved mnemonic as label or operand" else
  if existsb (fun k => StrCaseCmp p k =? 0) PseudoTab
  then Exit "Use of reserved keyword as label or operand" else
  Done (set_lab (lab s ++ [mkLabel p UNDEF 0 0]) s).

(** [EvalSymValue] and [EvalSymBytes]: the [Address] or the [Bytes] of
    the first label with that name; an unknown symbol is added and
    evaluates to [UNDEF]. *)
Definition EvalSym (field : LabelStruct -> Z) (p : string) (s : Asm) : parse Z :=
  let '(p, Sym) := GetSymbol s p in
  match find (fun l => StrCmp_eq s Sym (Name l)) (lab s) with
  | Some l => Done (p, field l, s)
  | None => s1 <- AddLabel Sym s ;; Done (p, UNDEF, s1)
  end.

Definition EvalSymValue : string -> Asm -> parse Z := EvalSym Address.
Definition EvalSymBytes : string -> Asm -> parse Z := EvalSym Bytes.

(** Value of a digit in a base up to 16, [None] for another character. *)
Definition digit_val (c : ascii) : option Z :=
  if isdigit c then Some (code c - 48)
  else if in_range 65 70 c then Some (code c - 55)
  else if in_range 97 102 c then Some (code c - 87)
  else None.

(** The digits of base [base] at the start of [p], accumulated onto
    [acc]: the value, the rest and whether a digit was seen. *)
Fixpoint digits (base : Z) (p : string) (acc : Z) (seen : bool)
  : Z * string * bool :=
  match p with
  | EmptyString => (acc, p, seen)
  | String c q =>
      match digit_val c with
      | Some d => if d <? base then digits base q (acc * base + d) true
                  else (acc, p, seen)
      | None => (acc, p, seen)
      end
  end.

Definition LLONG_MAX : Z := 9223372036854775807.
Definition LLONG_MIN : Z := -9223372036854775808.

(** [strtoll(p, &EndPtr, 16)]: blanks, a sign, an optional [0x] that
    is followed by a hex digit, then hex digits; the result saturates;
    without any digit the value is 0 and [EndPtr] is [p]. *)
Definition strtoll16 (p : string) : Z * string :=
  let q := SkipSpace p in
  let '(neg, q) :=
    match q with
    | String "-" q' => (true, q')
    | String "+" q' => (false, q')
    | _ => (false, q)
    end in
  let q :=
    match q with
    | String "0" (String x q') =>
        if (is_char x "x" || is_char x "X") && isxdigit (hd q') then q' else q
    | _ => q
    end in
  let '(v, rest, seen) := digits 16 q 0 false in
  if seen
  then (if neg then Z.max LLONG_MIN (- v) else Z.min LLONG_MAX v, rest)
  else (0, p).

(** [EvalHexValue]: [*v = lol & 0xffffffff;] *)
Definition EvalHexValue (p : string) (s : Asm) : parse Z :=
  let '(lol, EndPtr) := strtoll16 p in
  Done (EndPtr, int_wrap (Z.land lol 0xffffffff), s).

(** [atoi] at a digit: the decimal digits, reduced to an [int]. *)
Definition atoi (p : string) : Z :=
  let '(v, _, _) := digits 10 p 0 false in int_wrap (Z.min LLONG_MAX v).

Fixpoint skip_digits (p : string) : string :=
  match p with
  | String c q => if isdigit c then skip_digits q else p
  | EmptyString => p
  end.

(** Number of leading hex digits of [p], at most [n]. *)
Fixpoint count_xdigits (n : nat) (p : string) : nat :=
  match n, p with
  | S n', String c q => if isxdigit c then S (count_xdigits n' q) else O
  | _, _ => O
  end.

(** [EvalDecValue]: [xxxxH] hex syntax, or a decimal constant. *)
Definition EvalDecValue (p : string) (s : Asm) : parse Z :=
  let i := count_xdigits 5 p in
  if is_char (hd (adv i p)) "H" || is_char (hd (adv i p)) "h"
  then '(q, v, s1) <- EvalHexValue p s ;; Done (adv 1 q, v, s1)
  else
    let v := atoi p in
    let q := skip_digits p in
    if negb (isalpha (hd q)) then Done (q, v, s)
    else if in_range 65 70 (hd q) || in_range 97 102 (hd q)
    then Exit "Wrong decimal constant or leading $ for hex missing"
    else Exit "Illegal character in decimal constant".

(** The value of a [char] as an [int]: plain [char] is signed, so the
    codes from 128 on are negative. *)
Definition char_value (c : ascii) : Z :=
  if code c <? 128 then code c else code c - 256.

(** [EvalCharValue].  At the end of the line [*v = *p++] steps over
    the terminating NUL and the test that follows reads what an
    earlier line left in the buffer. *)
Definition char_operand (p : string) : Z * string :=
  match p with
  | String "\" q =>
      let c := hd q in
      let v := if is_char c "r" then 13
               else if is_char c "n" then 10
               else if is_char c "a" then 7
               else if is_char c "e" then 27
               else if is_char c "0" then 0
               else char_value c in
      (v, adv 1 q)
  | _ => (char_value (hd p), adv 1 p)
  end.

Definition EvalCharValue (p : string) (s : Asm) : parse Z :=
  if is_char (hd p) NUL
  then Stuck "the delimiter is read behind the end of the line"
  else
    let '(v, p) := char_operand p in
    if negb (is_char (hd p) apostrophe) && negb (is_char (hd p) NUL)
    then Exit "Missing ' delimiter after character operand"
    else Done (adv 1 p, v, s).

(** [EvalMultiCharValue]: up to four characters, packed big-endian. *)
Fixpoint multi_chars (n : nat) (p : string) (v : Z) : Z * string :=
  match n with
  | O => (v, p)
  | S n' =>
      if is_char (hd p) dquote then (v, p)
      else multi_chars n' (adv 1 p)
             (int_wrap (Z.lor (Z.shiftl v 8) (char_value (hd p))))
  end.

Definition EvalMultiCharValue (p : string) (s : Asm) : parse Z :=
  let '(v, p) := multi_chars 4 p 0 in
  Done (if is_char (hd p) dquote then adv 1 p else p, v, s).

(** [EvalBinValue]: [%] constants of [0 1 . *] and blanks. *)
Fixpoint EvalBin (p : string) (r : Z) : Z * string :=
  match p with
  | String c q =>
      if is_char c "1" || is_char c "*" then EvalBin q (int_wrap (2 * r + 1))
      else if is_char c "0" || is_char c "." then EvalBin q (int_wrap (2 * r))
      else if is_char c " " then EvalBin q r
      else (r, p)
  | EmptyString => (r, p)
  end.

Definition EvalBinValue (p : string) (s : Asm) : parse Z :=
  let '(r, q) := EvalBin p 0 in Done (q, r, s).

(** *** Unary operators and constants

    [EvalOperand] and the handlers of the table [unaop] call each
    other; the handlers take the recursive call as [rec].  [r] is the
    content of [*v] when the handler is entered. *)

Section UnaryOperators.

Variable rec : string -> Z -> Asm -> parse (option Z).

(** [p = EvalOperand(p+1,v,prio)] followed by a read of [*v]. *)
Definition operand_after (prio : Z) (p : string) (r : Z) (s : Asm) : parse Z :=
  '(q, w, s1) <- rec (adv 1 p) prio s ;; Done (q, stored r w, s1).

(** [op_par]: [(] ... [)] or [[] ... []]. *)
Definition op_par (p : string) (r : Z) (s : Asm) : parse Z :=
  let c := if is_char (hd p) "[" then "]"%char else ")"%char in
  '(q, v, s1) <- operand_after 0 p r s ;;
  match NeedChar q c with
  | None => Exit "Missing closing bracket or parenthesis"
  | Some q' => Done (adv 1 q', v, s1)
  end.

Definition op_plu (p : string) (r : Z) (s : Asm) : parse Z :=
  operand_after 12 p r s.
Definition op_min (p : string) (r : Z) (s : Asm) : parse Z :=
  '(q, v, s1) <- operand_after 12 p r s ;; Done (q, int_wrap (- v), s1).
Definition op_lno (p : string) (r : Z) (s : Asm) : parse Z :=
  '(q, v, s1) <- operand_after 12 p r s ;; Done (q, b2i (v =? 0), s1).
Definition op_bno (p : string) (r : Z) (s : Asm) : parse Z :=
  '(q, v, s1) <- operand_after 12 p r s ;; Done (q, Z.lnot v, s1).

Definition op_low (p : string) (r : Z) (s : Asm) : parse Z :=
  '(q, v, s1) <- operand_after 12 p r s ;; Done (q, v, wr ForcedMode (-1) s1).
Definition op_hig (p : string) (r : Z) (s : Asm) : parse Z :=
  '(q, v, s1) <- operand_after 12 p r s ;; Done (q, v, wr ForcedMode 1 s1).

Definition op_prc (p : string) (r : Z) (s : Asm) : parse Z :=
  Done (adv 1 p, rd pc s, s).
Definition op_hex (p : string) (r : Z) (s : Asm) : parse Z :=
  EvalHexValue (adv 1 p) s.
Definition op_cha (p : string) (r : Z) (s : Asm) : parse Z :=
  EvalCharValue (adv 1 p) s.
Definition op_muc (p : string) (r : Z) (s : Asm) : parse Z :=
  EvalMultiCharValue (adv 1 p) s.
Definition op_bin (p : string) (r : Z) (s : Asm) : parse Z :=
  EvalBinValue (adv 1 p) s.
Definition op_len (p : string) (r : Z) (s : Asm) : parse Z :=
  EvalSymBytes (adv 1 p) s.

(** [struct unaop_struct unaop[]]: table of unary operators. *)
Definition unaop : list (ascii * (string -> Z -> Asm -> parse Z)) := [
  ("<"%char, op_low);        (* low byte *)
  (">"%char, op_hig);        (* extended *)
  ("["%char, op_par);        (* bracket *)
  ("("%char, op_par);        (* parenthesis *)
  ("+"%char, op_plu);        (* positive sign *)
  ("-"%char, op_min);        (* negative sign *)
  ("!"%char, op_lno);        (* logical NOT *)
  ("~"%char, op_bno);        (* bitwise NOT *)
  ("*"%char, op_prc);        (* program counter *)
  ("$"%char, op_hex);        (* hex constant *)
  (apostrophe, op_cha);      (* char constant *)
  (dquote, op_muc);          (* multi char constant *)
  ("%"%char, op_bin);        (* binary constant *)
  ("?"%char, op_len)         (* length of .BYTE data line *)
].

End UnaryOperators.

(** *** Binary operators *)

Definition op_mul (l r : Z) : Z := int_wrap (l * r).
Definition op_div (l r : Z) : Z := if truthy r then int_wrap (Z.quot l r) else UNDEF.
Definition op_add (l r : Z) : Z := int_wrap (l + r).
Definition op_sub (l r : Z) : Z := int_wrap (l - r).
(** The shifts, for the counts 0 .. 31 (see [foo_defined]). *)
Definition op_asl (l r : Z) : Z := int_wrap (Z.shiftl l r).
Definition op_lsr (l r : Z) : Z := Z.shiftr l r.
Definition op_cle (l r : Z) : Z := b2i (l <=? r).
Definition op_clt (l r : Z) : Z := b2i (l <? r).
Definition op_cge (l r : Z) : Z := b2i (r <=? l).
Definition op_cgt (l r : Z) : Z := b2i (r <? l).
Definition op_ceq (l r : Z) : Z := b2i (l =? r).
Definition op_cne (l r : Z) : Z := b2i (negb (l =? r)).
Definition op_xor (l r : Z) : Z := Z.lxor l r.
Definition op_and (l r : Z) : Z := b2i (truthy l && truthy r).
Definition op_bnd (l r : Z) : Z := Z.land l r.
Definition op_lor (l r : Z) : Z := b2i (truthy l || truthy r).
Definition op_bor (l r : Z) : Z := Z.lor l r.

(** [struct binop_struct]: operator text, priority, function. *)
Record binop_struct : Type := mkBinop {
  op   : string;
  prio : Z;
  foo  : Z -> Z -> Z
}.

(** [binop[BINOPS]]: table of binary operators in C style and priority. *)
Definition binop : list binop_struct := [
  mkBinop "*"  11 op_mul;   (* Multiplication *)
  mkBinop "/"  11 op_div;   (* Division *)
  mkBinop "+"  10 op_add;   (* Addition *)
  mkBinop "-"  10 op_sub;   (* Subtraction *)
  mkBinop "<<"  9 op_asl;   (* bitwise left  shift *)
  mkBinop ">>"  9 op_lsr;   (* bitwise right shift *)
  mkBinop "<="  8 op_cle;   (* less than or equal to *)
  mkBinop "<"   8 op_clt;   (* less than *)
  mkBinop ">="  8 op_cge;   (* greater than or equal to *)
  mkBinop ">"   8 op_cgt;   (* greater than *)
  mkBinop "=="  7 op_ceq;   (* equal to *)
  mkBinop "!="  7 op_cne;   (* not equal to *)
  mkBinop "^"   5 op_xor;   (* bitwise XOR *)
  mkBinop "&&"  3 op_and;   (* logical AND *)
  mkBinop "&"   6 op_bnd;   (* bitwise AND *)
  mkBinop "||"  2 op_lor;   (* logical OR *)
  mkBinop "|"   4 op_bor    (* bitwise OR *)
].

(** The first operator of the table that [p] starts with:
    [if (!strncmp(p,binop[i].op,l))]. *)
Definition find_binop (p : string) : option binop_struct :=
  find (fun b => has_prefix p (op b)) binop.

(** The assignment to [r] in the loop over the binary operators:
    [if (w == UNDEF) r = UNDEF; else r = binop[i].foo(r,w);] *)
Definition apply_binop (b : binop_struct) (r w : Z) : Z :=
  if w =? UNDEF then UNDEF else foo b r w.

(** The calls of [foo] that have a result: [l << r] and [l >> r] are
    defined for the counts 0 .. 31 of a 32-bit [int] only, and the
    quotient of [INT_MIN] and [-1] is not an [int].  [op_asl],
    [op_lsr] and [op_div] describe the result where there is one. *)
Definition foo_defined (b : binop_struct) (r w : Z) : bool :=
  if streq (op b) "<<" || streq (op b) ">>" then (0 <=? w) && (w <? 32)
  else if streq (op b) "/" then negb ((r =? - 2 ^ 31) && (w =? -1))
  else true.

Definition binop_defined (b : binop_struct) (r w : Z) : bool :=
  (w =? UNDEF) || foo_defined b r w.

(** [*p && strchr("*/+-<>=!&^|", *p)]: a binary operator may start at [p]. *)
Definition at_binop (p : string) : bool :=
  negb (is_char (hd p) NUL) && strchr "*/+-<>=!&^|" (hd p).

(** End of [EvalOperand]: under [CodeStyle == 1] a blank ends the line. *)
Definition style_rest (s : Asm) (p : string) : string :=
  if (rd CodeStyle s =? 1) && is_char (hd p) " " then adv (strlen p) p else p.

Section EvalOperandBody.

Variable rec : string -> Z -> Asm -> parse (option Z).

(** The left operand: a unary operator or constant of [unaop], a
    decimal constant or a symbol. [r] is preset to [UNDEF]. *)
Definition left_operand (p : string) (s : Asm) : parse Z :=
  let c := hd p in
  let r := UNDEF in
  if negb (is_char c NUL) && strchr (String dquote "[(+-!~<>*$'%?") c then
    match find (fun u => is_char c (fst u)) (unaop rec) with
    | Some u => snd u p r s
    | None => Done (p, r, s)
    end
  else if isdigit c then EvalDecValue p s
  else if isym c then EvalSymValue p s
  else Exit "Illegal operand".

(** [while ( *p && strchr("*/+-<>=!&^|", *p))]: the loop over the
    binary operators.  [r] is the left operand, [w] the variable
    that receives the right operand; [n] bounds the iterations. *)
Fixpoint binop_loop (n : nat) (prio0 : Z) (p : string) (r : Z)
         (w : option Z) (s : Asm) {struct n} : parse (option Z) :=
  if at_binop p then
    match n with
    | O => OutOfFuel
    | S n' =>
        match find_binop p with
        | None => Exit "Syntax error: binary operator expected"
        | Some b =>
            if prio b <=? prio0 then Done (style_rest s p, Some r, s)
            else
              '(q, w', s1) <- rec (adv (strlen (op b)) p) (prio b) s ;;
              match (match w' with Some x => Some x | None => w end) with
              | None => Stuck "right operand w is read uninitialised"
              | Some x =>
                  if binop_defined b r x
                  then binop_loop n' prio0 q (apply_binop b r x) (Some x) s1
                  else Stuck "the operation has no defined result"
              end
        end
    end
  else Done (style_rest s p, Some r, s).

(** The body of [EvalOperand]. *)
Definition EvalOperand_body (p : string) (prio0 : Z) (s : Asm)
  : parse (option Z) :=
  let p := SkipSpace p in
  if is_char (hd p) "," then Done (p, None, s)    (* comma separator *)
  else
    '(p, r, s1) <- left_operand p s ;;
    if (rd CodeStyle s1 =? 1) && is_char (hd p) " "
    then Done (adv (strlen p) p, Some r, s1)
    else
      let p := SkipSpace p in
      binop_loop (S (strlen p)) prio0 p r None s1.

End EvalOperandBody.

(** [EvalOperand(p, &v, prio)].  [fuel] bounds the depth of the
    recursion; every nested call is on a shorter text. *)
Fixpoint EvalOperand_fuel (fuel : nat) (p : string) (prio0 : Z) (s : Asm)
  : parse (option Z) :=
  match fuel with
  | O => OutOfFuel
  | S fuel' => EvalOperand_body (EvalOperand_fuel fuel') p prio0 s
  end.

Definition EvalOperand (p : string) (prio0 : Z) (s : Asm) : parse (option Z) :=
  EvalOperand_fuel (S (strlen p)) p prio0 s.

(** [p = EvalOperand(p, &v, prio)] where [v] is a local variable that
    was not initialised: returning without storing leaves it undefined. *)
Definition EvalOperand_local (p : string) (prio0 : Z) (s : Asm) : parse Z :=
  '(q, w, s1) <- EvalOperand p prio0 s ;;
  match w with
  | Some v => Done (q, v, s1)
  | None => Stuck "operand value is read uninitialised"
  end.

(* ================================================================= *)
(** ** Conditional assembly *)

(** [CheckSkip]: [Skipping] is the OR of [SkipLine[1 .. IfLevel]]. *)
Fixpoint or_SkipLine (n : nat) (s : Asm) : Z :=
  match n with
  | O => 0
  | S k => Z.lor (or_SkipLine k s) (rda SkipLine (Z.of_nat (S k)) s)
  end.

Definition CheckSkip (s : Asm) : Asm :=
  wr Skipping (or_SkipLine (Z.to_nat (rd IfLevel s)) s) s.

Definition too_many_conditions : string :=
  "More than 10  IF or IFDEF conditions nested".

(** [CheckCondition]: handles [error], [if], [ifdef], [ifndef],
    [else] and [endif], with or without a leading [#].  Returns [r]
    (1 when the line was a conditional directive) and the state. *)
Definition CheckCondition (p : string) (s : Asm) : outcome (Z * Asm) :=
  let p := if is_char (hd p) "#" then adv 1 p else p in
  if (strcmpword p "error" =? 0) && (rd Phase s =? 1) then
    let s := CheckSkip s in
    if truthy (rd Skipping s) then Done (0, s)
    else Exit (adv 6 p)
  else
    let Ifdef  := strcmpword p "ifdef" =? 0 in
    let Ifndef := strcmpword p "ifndef" =? 0 in
    let Ifval  := strcmpword p "if" =? 0 in
    '(r, p, s) <-
      (if Ifdef || Ifndef || Ifval then
         let s := wr IfLevel (rd IfLevel s + 1) s in
         if 9 <? rd IfLevel s then Exit too_many_conditions
         else
           '(p, skip, s) <-
             (if Ifdef then
                '(q, v, s1) <- EvalOperand_local (adv 6 p) 0 s ;;
                Done (q, b2i (v =? UNDEF), s1)
              else if Ifndef then
                '(q, v, s1) <- EvalOperand_local (adv 7 p) 0 s ;;
                Done (q, b2i (negb (v =? UNDEF)), s1)
              else
                '(q, v, s1) <- EvalOperand_local (adv 3 p) 0 s ;;
                Done (q, b2i ((v =? UNDEF) || (v =? 0)), s1)) ;;
           Done (1, p, CheckSkip (wra SkipLine (rd IfLevel s) skip s))
       else if strcmpword p "else" =? 0 then
         let l := rd IfLevel s in
         Done (1, p, CheckSkip (wra SkipLine l (b2i (rda SkipLine l s =? 0)) s))
       else Done (0, p, s)) ;;
    if strcmpword p "endif" =? 0 then
      let s := wr IfLevel (rd IfLevel s - 1) s in
      if rd IfLevel s <? 0 then Exit "endif without if"
      else Done (1, CheckSkip s)
    else Done (r, s).

(* ================================================================= *)
(** ** The instruction encoder *)

(** [IsInstruction]: index of the first mnemonic of [Mat[0 .. DimOp-1]]
    that is the word at [p], or [-1]. *)
Fixpoint find_index {A : Type} (f : A -> bool) (l : list A) (i : Z) : Z :=
  match l with
  | [] => -1
  | x :: rest => if f x then i else find_index f rest (i + 1)
  end.

Definition IsInstruction (p : string) (s : Asm) : Z :=
  find_index
    (fun m => (StrNCaseCmp p (Mne m) (strlen (Mne m)) =? 0)
              && negb (isym (hd (adv (strlen (Mne m)) p))))
    (firstn (Z.to_nat (rd DimOp s)) Mat) 0.

(** [OperandError]: [++ErrNum; ErrorMsg("Syntax error in operand\n"); exit(1);] *)
Definition OperandError {A : Type} : outcome A := Exit "Syntax error in operand".

(** [ScanPushList]: the post-byte of PSHS, PULS, PSHU and PULU.
    The table is scanned from entry 9 down to 0 (DP before D). *)
Definition find_push (p : string) : option PushStruct :=
  find (fun r => strcmpword p (Reg r) =? 0) (rev PushList).

Fixpoint push_loop (n : nat) (p : string) (v : Z) : outcome Z :=
  if is_char (hd p) NUL then Done v
  else
    match n with
    | O => OutOfFuel
    | S n' =>
        match find_push p with
        | None => OperandError
        | Some r =>
            let p := SkipSpace (adv (strlen (Reg r)) p) in
            if negb (is_char (hd p) ",") && negb (is_char (hd p) NUL)
            then OperandError
            else
              let p := if is_char (hd p) "," then adv 1 p else p in
              push_loop n' (SkipSpace p) (Z.lor v (Val r))
        end
    end.

Definition ScanPushList (p : string) : outcome Z :=
  if strcmpword p "ALL" =? 0 then Done 0xff
  else push_loop (strlen p) p 0.

(** [RegisterSize]: operand size from the last letter of the mnemonic. *)
Definition RegisterSize (n : Z) : outcome Z :=
  let m := Mne (Mat_at n) in
  if StrNCaseCmp m "LDMD" 4 =? 0 then Done 1
  else if StrNCaseCmp m "CWAI" 4 =? 0 then Done 1
  else
    let r := hd (adv (strlen m - 1) m) in
    if strchr "ABCEF" r then Done 1
    else if strchr "DXYW" r then Done 2
    else if strchr "SU" r then Done 2
    else if is_char r "Q" then Done 4
    else Exit "Illegal register name".

(** [1 + (oc > 255)] *)
Definition opcode_length (o : Z) : Z := 1 + b2i (255 <? o).

(** Local labels in a branch operand: the number of leading [c]
    characters of [OpText], and the search of [plulab[l]] for the
    nearest following label:
    [i = plucnt[l]; while (--i >= 0 && plulab[l][i] > pc) v = plulab[l][i];] *)
Fixpoint leading (c : ascii) (p : string) : nat :=
  match p with
  | String d q => if is_char d c then S (leading c q) else O
  | EmptyString => O
  end.

Fixpoint plulab_search (i : nat) (l : Z) (v : Z) (s : Asm) : Z :=
  match i with
  | O => v
  | S k =>
      let x := rda plulab (l * PLUMAX + Z.of_nat k) s in
      if rd pc s <? x then plulab_search k l x s else v
  end.

(** The block [if (Optimize) { ... }] of the relative address mode:
    short branch to long branch, long branch to short branch, LBRA to
    BRA.  [v] is the displacement, or [UNDEF]. *)
Definition optimize_branch (v : Z) (s : Asm) : Asm :=
  if truthy (rd Optimize s) then
    (* fix short branch to long branch *)
    let s :=
      if (v <? -128) && (0x20 <=? rd oc s) && (rd oc s <? 0x30)
         && ((rd Phase s =? 1)
             || ((rd Phase s =? 2) && (3 <=? rda ADL (rd pc s) s)))
      then
        let s := if rd oc s =? 0x20
                 then wr ol 1 (wr oc 0x16 s)                    (* LBRA *)
                 else wr ol 2 (wr oc (Z.lor (rd oc s) 0x1000) s) in
        let s := wr ql 2 s in
        wr il (rd ol s + rd ql s) s
      else s in
    (* optimize long branch to short branch *)
    let s :=
      if (-128 <=? v) && (v <? 0) && (0x1020 <? rd oc s) && (rd oc s <? 0x1030)
         && ((rd Phase s =? 1)
             || ((rd Phase s =? 2) && (rda ADL (rd pc s) s =? 2)))
      then
        let s := wr il 2 (wr ql 1 (wr ol 1 (wr oc (Z.land (rd oc s) 0xff) s))) in
        if rd Phase s =? 2
        then set_Hint (" ; " ++ adv 1 (Mne (Mat_at (rd MneIndex s))))
                      (wr optc (rd optc s + 1) s)
        else s
      else s in
    (* optimize LBRA to BRA *)
    if (-128 <=? v) && (v <? 0) && (rd oc s =? 0x16)
       && ((rd Phase s =? 1)
           || ((rd Phase s =? 2) && (rda ADL (rd pc s) s =? 2)))
    then wr il 2 (wr ql 1 (wr ol 1 (wr oc 0x20 s)))
    else s
  else s.

(** The relative address mode of [GenerateCode]; [oc] holds
    [Mat[MneIndex].Opc[AM_Relative]].  Returns [v]. *)
Definition GenerateCode_relative (s : Asm) : outcome (Z * Asm) :=
  let m := Mne (Mat_at (rd MneIndex s)) in
  let s := wr ol (opcode_length (rd oc s)) s in
  let s := wr ql (1 + b2i (is_char (hd m) "L")) s in
  let s := wr il (rd ol s + rd ql s) s in
  let T := OpText s in
  let l := strlen T in
  let expr (s : Asm) : outcome (string * Z * Asm) :=
    '(rop, w, s1) <- EvalOperand T 0 s ;; Done (rop, stored UNDEF w, s1) in
  '(v, s) <-
    (if is_char (hd T) "-" then               (* local backward label *)
       if Nat.eqb (leading "-" T) l
       then Done (rda minlab (Z.of_nat l) s, s)
       else
         '(rop, v, s1) <- expr s ;;
         if negb (is_char (hd rop) NUL)
         then Exit "Extra text after branch operand"
         else Done (v, s1)
     else if is_char (hd T) "+" then          (* local forward label *)
       if Nat.eqb (leading "+" T) l
       then Done (plulab_search (Z.to_nat (rda plucnt (Z.of_nat l) s))
                                (Z.of_nat l) UNDEF s, s)
       else '(_, v, s1) <- expr s ;; Done (v, s1)
     else '(_, v, s1) <- expr s ;; Done (v, s1)) ;;
  let v := if negb (v =? UNDEF) then int_wrap (v - (rd pc s + rd il s)) else v in
  if (rd Phase s =? 2) && (v =? UNDEF) then Exit "Branch to undefined label"
  else
    let s := optimize_branch v s in
    if (rd Phase s =? 2) && (rd ql s =? 1) && ((v <? -128) || (127 <? v))
    then Exit "Short Branch out of range"
    else
      let s :=
        if truthy (rd Optimize s) && (rd Phase s =? 2) && (rd ql s =? 2)
           && (-128 <=? v) && (v <? 128)
        then wr optc (rd optc s + 1) s
        else s in
      Done (Z.land v 0xffff, s).

(** The immediate address mode of [GenerateCode]. *)
Definition GenerateCode_immediate (s : Asm) : outcome (Z * Asm) :=
  let s := wr oc (Mat_Opc (rd MneIndex s) AM_Immediate) s in
  if rd oc s <? 0 then Exit "Illegal immediate instruction"
  else
    '(rop, w, s) <- EvalOperand (adv 1 (OpText s)) 0 s ;;
    let v := stored UNDEF w in
    if negb (is_char (hd rop) NUL) then Exit "Extra text after operand"
    else
      let s := wr ol (opcode_length (rd oc s)) s in
      size <- RegisterSize (rd MneIndex s) ;;
      let s := wr ql (if (size =? 4) && negb (rd oc s =? 0xcd) then 2 else size) s in
      let s := wr il (rd ol s + rd ql s) s in
      if (rd Phase s =? 2) && (v =? UNDEF) then Exit "Undefined immediate value"
      else if (rd ql s =? 1) && (rd Phase s =? 2) && ((v <? -128) || (255 <? v))
      then Exit "Immediate value out of range"
      else if (rd ql s =? 2) && (rd Phase s =? 2) && ((v <? -32768) || (0xffff <? v))
      then Exit "Immediate value out of range"
      else Done (v, s).

(** [SetInstructionLength]: pass 1 stores the opcode and locks the
    instruction length in [ADL], an array of [0x10000] entries of
    [signed char]: the marks [ADL[pc+i] = -1] of an instruction that
    ends behind [$FFFF] fall behind the array, and the length is
    stored as a [signed char]. *)
Definition signed_char (z : Z) : Z := (z + 128) mod 256 - 128.

Fixpoint mark_ADL (n : nat) (a : Z) (s : Asm) : Asm :=
  match n with
  | O => s
  | S k => mark_ADL k (a + 1) (wra ADL a (-1) s)
  end.

Definition SetInstructionLength (s : Asm) : outcome Asm :=
  s <- (if 0 <=? rd oc s then
          if rd oc s <? 256 then Put (rd pc s) (rd oc s) s
          else s1 <- Put (rd pc s) (Z.shiftr (rd oc s) 8) s ;;
               Put (rd pc s + 1) (Z.land (rd oc s) 0xff) s1
        else Done s) ;;
  if (0 <=? rd pc s) && (rd pc s <? 0x10000) then
    if negb (rda ADL (rd pc s) s =? 0) && negb (rda ADL (rd pc s) s =? rd il s)
    then Exit "Phase error"
    else if 0x10000 <? rd pc s + rd il s
    then Stuck "ADL[pc+i] lies behind the array"
    else Done (mark_ADL (Z.to_nat (rd il s - 1)) (rd pc s + 1)
                        (wra ADL (rd pc s) (signed_char (rd il s)) s))
  else Done s.

(** [Synchronize]:
[[
   nops = ADL[pc] - il;
   il = ADL[pc];
   if (nops) LOCK[pc] = 0;
]] *)
Definition Synchronize (s : Asm) : Asm :=
  let s := wr nops (rda ADL (rd pc s) s - rd il s) s in
  let s := wr il (rda ADL (rd pc s) s) s in
  if truthy (rd nops s) then wra LOCK (rd pc s) 0 s else s.

(** [for (i=0 ; i < nops ; ++i) Put(pc+ibi++,0x12,p);] *)
Fixpoint put_nops (n : nat) (ibi : Z) (s : Asm) : outcome (Z * Asm) :=
  match n with
  | O => Done (ibi, s)
  | S k => s1 <- Put (rd pc s + ibi) 0x12 s ;; put_nops k (ibi + 1) s1
  end.

(** The 8 bit operand as it is stored:
[[
   if (v >= 0xff00 && v <= 0xffff) v &= 0xff;
   if ((v-(DP<<8)) < 256 && (v-(DP<<8)) >= -128) v -= DP<<8;
]] *)
Definition byte_operand (dp v : Z) : Z :=
  let v := if (0xff00 <=? v) && (v <=? 0xffff) then Z.land v 0xff else v in
  let d := Z.shiftl dp 8 in
  if (v - d <? 256) && (-128 <=? v - d) then v - d else v.

(** The steps of the block [if (Phase == 2) { ... }] at the end of
    [GenerateCode], in the order of the source.  [ibi] is the
    instruction byte index, [v] the operand value. *)

(** [if (oc > 255) { Put(pc,oc >> 8,p); Put(pc+1,oc,p); ibi = 2; }
    else { Put(pc,oc,p); ibi = 1; }] *)
Definition insert_opcode (s : Asm) : outcome (Z * Asm) :=
  if 255 <? rd oc s then
    s1 <- Put (rd pc s) (Z.shiftr (rd oc s) 8) s ;;
    s2 <- Put (rd pc s + 1) (rd oc s) s1 ;;
    Done (2, s2)
  else
    s1 <- Put (rd pc s) (rd oc s) s ;; Done (1, s1).

(** [if (pb >= 0) Put(pc+ibi++,pb,p);] *)
Definition insert_postbyte (ibi : Z) (s : Asm) : outcome (Z * Asm) :=
  if 0 <=? rd pb s then
    s1 <- Put (rd pc s + ibi) (rd pb s) s ;; Done (ibi + 1, s1)
  else Done (ibi, s).

(** [if (ql == 4)]: 32 bit value *)
Definition insert_value32 (v ibi : Z) (s : Asm) : outcome (Z * Asm) :=
  if rd ql s =? 4 then
    s1 <- Put (rd pc s + ibi) (Z.shiftr v 24) s ;;
    s2 <- Put (rd pc s + (ibi + 1)) (Z.shiftr v 16) s1 ;;
    s3 <- Put (rd pc s + (ibi + 2)) (Z.shiftr v 8) s2 ;;
    s4 <- Put (rd pc s + (ibi + 3)) v s3 ;;
    Done (ibi + 4, s4)
  else Done (ibi, s).

(** [if (ql == 2)]: 16 bit value *)
Definition insert_value16 (v ibi : Z) (s : Asm) : outcome (Z * Asm) :=
  if rd ql s =? 2 then
    if (0xffff <? v) || (v <? -32768)
    then Exit "16 bit address/value out of range"
    else
      s1 <- Put (rd pc s + ibi) (Z.shiftr v 8) s ;;
      s2 <- Put (rd pc s + (ibi + 1)) v s1 ;;
      Done (ibi + 2, s2)
  else Done (ibi, s).

(** [if (ql == 1)]: 8 bit value *)
Definition insert_value8 (v ibi : Z) (s : Asm) : outcome (Z * Asm) :=
  if rd ql s =? 1 then
    let v := byte_operand (rd DP s) v in
    if (255 <? v) || (v <? -128)
    then Exit "8 bit address/value out of range"
    else s1 <- Put (rd pc s + ibi) v s ;; Done (ibi + 1, s1)
  else Done (ibi, s).

(** The block [if (Phase == 2) { ... }]: synchronize with pass 1,
    then insert the binary code and the NOPs.  The result carries
    [ibi], the number of bytes that were stored. *)
Definition GenerateCode_insert (v : Z) (s : Asm) : outcome (Z * Asm) :=
  let s := Synchronize s in
  if (v =? UNDEF) && (0 <? rd ql s) then Exit "Use of an undefined label"
  else
    '(ibi, s) <- insert_opcode s ;;
    '(ibi, s) <- insert_postbyte ibi s ;;
    '(ibi, s) <- insert_value32 v ibi s ;;
    '(ibi, s) <- insert_value16 v ibi s ;;
    '(ibi, s) <- insert_value8 v ibi s ;;
    put_nops (Z.to_nat (rd nops s)) ibi s.

(** The end of [GenerateCode]: pass 1 locks the length, pass 2 inserts
    the code; then the length is checked and [pc] advanced. *)
Definition GenerateCode_finish (v : Z) (s : Asm) : outcome Asm :=
  s <- (if rd Phase s =? 1 then SetInstructionLength s else Done s) ;;
  s <- (if rd Phase s =? 2
        then '(_, s1) <- GenerateCode_insert v s ;; Done s1
        else Done s) ;;
  let s :=
    if (rd il s <? 1) || (5 <? rd il s)
    then wr il 1 (wr ErrNum (rd ErrNum s + 1) s)   (* Wrong instruction length *)
    else s in
  if 0xffff <? rd pc s + rd il s then
    if 1 <? rd Phase s
    then Done (wr ErrNum (rd ErrNum s + 1) s)      (* Program counter exceeds 64 KB *)
    else Done s
  else Done (wr pc (rd pc s + rd il s) s).

(** [GenerateCode(OpText)] for the mnemonic [Mat[MneIndex]].  Embedded
    are the inherent, push/pull, relative and immediate forms. *)
Definition GenerateCode (s : Asm) : outcome Asm :=
  let s := wr ql 0 (wr pb (-1) s) in
  let p := SkipSpace (OpText s) in
  let m := Mne (Mat_at (rd MneIndex s)) in
  if rd pc s <? 0 then Exit "Undefined program counter (PC)"
  else if is_char (hd (adv 1 m)) "I" && is_char (hd (adv 2 m)) "M"
  then Stuck "immediate data to memory"
  else
    '(v, s) <-
      (let s := wr oc (Mat_Opc (rd MneIndex s) AM_Inherent) s in
       if 0 <=? rd oc s then
         let s := wr ol (opcode_length (rd oc s)) s in
         Done (UNDEF, wr il (rd ol s) s)
       else if is_char (hd (OpText s)) NUL then Exit "Missing operand"
       else if is_char (hd (OpText s)) apostrophe
       then Exit "Operand cannot start with apostrophe"
       else
         let s := wr oc (Mat_Opc (rd MneIndex s) AM_Register) s in
         if 0 <=? rd oc s then
           if is_char (hd m) "P" then
             let s := wr ol (opcode_length (rd oc s)) s in
             let s := wr il (rd ol s + 1) s in
             b <- ScanPushList p ;;
             Done (UNDEF, wr pb b s)
           else Stuck "register to register and TFM"
         else
           let s := wr oc (Mat_Opc (rd MneIndex s) AM_Relative) s in
           if 0 <=? rd oc s then GenerateCode_relative s
           else if is_char (hd p) "#" then GenerateCode_immediate s
           else Stuck "indexed, direct and extended address modes") ;;
    GenerateCode_finish v s.

(* ================================================================= *)
(** ** Source lines *)

(** [ExtractOpText]: the operand text up to a comment, without
    trailing blanks; under [CodeStyle == 1] up to the first blank.
    A leading [<] or [>] sets [ForcedMode].  Returns the rest. *)
Fixpoint cut_operand (p : string) (inquo inapo : bool) : string * string :=
  match p with
  | EmptyString => ("", p)
  | String c q =>
      let inquo := if is_char c dquote && negb inapo then negb inquo else inquo in
      let inapo := if is_char c apostrophe && negb inquo then negb inapo else inapo in
      if is_char c ";" && negb inquo && negb inapo then ("", p)
      else let '(o, r) := cut_operand q inquo inapo in (String c o, r)
  end.

Fixpoint cut_word (p : string) : string * string :=
  match p with
  | EmptyString => ("", p)
  | String c q =>
      if is_char c " " then ("", p)
      else let '(o, r) := cut_word q in (String c o, r)
  end.

(** [while (l && isspace(OpText[l-1])) OpText[--l] = 0;] *)
Fixpoint trim_right (o : string) : string :=
  match o with
  | EmptyString => o
  | String c q =>
      match trim_right q with
      | EmptyString => if isspace c then "" else String c ""
      | t => String c t
      end
  end.

Definition ExtractOpText (p : string) (s : Asm) : string * Asm :=
  let s := set_OpText "" (wr ForcedMode 0 s) in
  let p := SkipSpace p in
  if is_char (hd p) NUL then (p, s)
  else
    let '(p, s) :=
      if is_char (hd p) "<" || is_char (hd p) ">"
      then (adv 1 p, wr ForcedMode (code (hd p) - 0x3d) s)
      else (p, s) in
    if rd CodeStyle s =? 1
    then let '(o, r) := cut_word p in (r, set_OpText o s)
    else let '(o, r) := cut_operand p false false in
         (r, set_OpText (trim_right o) s).

(** [ExtractValue]: the value of the operand, which must be there and
    must not be followed by other text. *)
Definition ExtractValue (p : string) (s : Asm) : parse (option Z) :=
  let '(p, s) := ExtractOpText p s in
  if is_char (hd (OpText s)) NUL then Exit "Empty operand"
  else
    '(r, v, s) <- EvalOperand (OpText s) 0 s ;;
    if negb (is_char (hd r) NUL) then Exit "Extra text after operand"
    else Done (p, v, s).

(** [ps_org]: [p = ExtractValue(p,&pc);] *)
Definition ps_org (p : string) (s : Asm) : outcome Asm :=
  '(_, v, s) <- ExtractValue p s ;; Done (wr pc (stored (rd pc s) v) s).

(** [ps_setdp]: [if (DP > 255) DP >>= 8;] *)
Definition ps_setdp (p : string) (s : Asm) : outcome Asm :=
  '(_, v, s) <- ExtractValue p s ;;
  let d := stored (rd DP s) v in
  Done (wr DP (if 255 <? d then Z.shiftr d 8 else d) s).

(** [ps_rmb]: [pc += size] on [int]; the sum is defined inside the
    range of [int] only. *)
Definition ps_rmb (p : string) (s : Asm) : outcome Asm :=
  '(_, v, s) <- ExtractValue p s ;;
  match v with
  | None => Stuck "size is read uninitialised"
  | Some size =>
      if size <? 0 then Exit "negative amount of space"
      else
        let sum := rd pc s + size in
        if (sum <? - 2 ^ 31) || (2 ^ 31 <=? sum) then Stuck "pc + size leaves int"
        else Done (wr pc sum s)
  end.

(** [ps_end] *)
Definition ps_end (p : string) (s : Asm) : outcome Asm :=
  Done (wr ForcedEnd 1 s).

(** [ParseStoreData]: registers a storage request in pass 2.  The
    request is stored at index [StoreCount] of the tables [SFA], [SFL],
    [SFE], [SFF] and [SFT] before [StoreCount] is compared with
    [SFMAX]; the tables have [SFMAX] entries, so with [SFMAX] requests
    already registered the store falls behind them and the run has no
    defined result.  The error exit behind the comparison is never
    reached with the tables intact. *)
Fixpoint until_quote (p : string) : string * string :=
  match p with
  | EmptyString => ("", p)
  | String c q =>
      if is_char c dquote then ("", p)
      else let '(f, r) := until_quote q in (String c f, r)
  end.

Definition ParseStoreData (p : string) (s : Asm) : outcome Asm :=
  if rd Phase s <? 2 then Done s
  else
    '(p, Start, s) <- EvalOperand_local p 0 s ;;
    if (Start <? 0) || (0xffff <? Start) then Exit "Illegal start address for STORE"
    else
    match NeedChar p "," with
    | None => Exit "Missing ',' after start address"
    | Some p =>
    '(p, Length, s) <- EvalOperand_local (adv 1 p) 0 s ;;
    if (Length <? 0) || (0x10000 <? Length) then Exit "Illegal length for STORE"
    else
    match NeedChar p "," with
    | None => Exit "Missing ',' after length"
    | Some p =>
    match NeedChar (adv 1 p) dquote with
    | None => Exit "Missing quote for filename"
    | Some p =>
    let '(Filename, EndPtr) := until_quote (adv 1 p) in
    '(FileFormat, Entry, s) <-
      match NeedChar EndPtr "," with
      | Some p =>
          let p := adv 1 p in
          fmt <- (match StrMatch p "BIN", StrMatch p "SREC", StrMatch p "S19" with
                  | Some _, _, _ => Done BINARY
                  | None, Some _, _ => Done SRECORD
                  | None, None, Some _ => Done SRECORD
                  | None, None, None => Exit "Unknown output file format"
                  end) ;;
          match NeedChar p "," with
          | Some p =>
              '(_, Entry, s) <- EvalOperand (adv 1 p) 0 s ;;
              let Entry := stored (-1) Entry in
              if (Entry <? 0) || (0xffff <? Entry)
              then Exit "Illegal execution start address for STORE"
              else Done (fmt, Entry, s)
          | None => Done (fmt, -1, s)
          end
      | None => Done (BINARY, -1, s)
      end ;;
    if StoreCount s <? SFMAX
    then Done (set_stores (stores s ++ [mkStore Start Length Filename Entry FileFormat]) s)
    else Stuck "SFA[StoreCount] lies behind the SFMAX entries of the table"
    end end end.

(** [CheckPseudo]: the first keyword of [PseudoTab] that is the word
    at [p] selects the handler.  [None] is the NULL that flags a
    processed pseudo op; otherwise [p] is handed back. *)
Definition pseudo_handler (k : string) (p : string) (s : Asm) : outcome Asm :=
  if streq k "ORG" then ps_org p s
  else if streq k "STORE" then ParseStoreData p s
  else if streq k "SETDP" then ps_setdp p s
  else if streq k "RMB" then ps_rmb p s
  else if streq k "END" then ps_end p s
  else if streq k "TTL" || streq k "INTERN" || streq k "EXTERN" then Done s
  else Stuck "pseudo op".

Definition CheckPseudo (p : string) (s : Asm) : outcome (option string * Asm) :=
  let p := SkipSpace p in
  match find (fun k => strcmpword p k =? 0) PseudoTab with
  | Some k =>
      s <- pseudo_handler k (adv (strlen k) p) s ;;
      if 0x10000 <? rd pc s then Exit "Program counter overflow"
      else Done (None, s)
  | None => Done (Some p, s)
  end.

(** [SetPC]: the [* = address] syntax. *)
Definition SetPC (p : string) (s : Asm) : outcome Asm :=
  match NeedChar p "=" with
  | Some p => ps_org (adv 1 p) s
  | None => Exit "Setting PC with * = address syntax error"
  end.

(** Shape of a line that starts with the hex dump of a listing, which
    [SkipHexCode] would skip. *)
Definition has_hex_dump (p : string) : bool :=
  (20 <? Z.of_nat (strlen p)) && isdigit (hd (adv 4 p)) && isspace (hd (adv 5 p))
  && isxdigit (hd (adv 6 p)) && isxdigit (hd (adv 7 p))
  && isxdigit (hd (adv 8 p)) && isxdigit (hd (adv 9 p))
  && negb (is_char (hd p) ";").

(** [while ( *cp++ == c && i < 10 && i < l) ++i;] of the local labels:
    the count [i] and [cp] after the loop. *)
Fixpoint local_label (n : nat) (c : ascii) (cp : string) (i : Z) (l : Z)
  : Z * string :=
  match n with
  | O => (i, cp)
  | S n' =>
      if is_char (hd cp) c && (i <? 10) && (i <? l)
      then local_label n' c (adv 1 cp) (i + 1) l
      else (i, adv 1 cp)
  end.

(** [ParseLine].  Label definitions, macros, the BSS counter and the
    data directives are not embedded. *)
Definition ParseLine (cp : string) (s : Asm) : outcome Asm :=
  let s := set_OpText "" (wr oc (-1) s) in
  if has_hex_dump cp then Stuck "hex dump columns" else
  let cp := SkipSpace cp in
  '(r, s) <- CheckCondition cp s ;;
  if truthy r then Done s
  else if truthy (rd Skipping s) then Done s
  else if has_prefix cp "/*" || has_prefix cp "\*" then Done (wr CodeStyle 1 s)
  else if is_char (hd cp) NUL then Done s
  else if is_char (hd cp) ";" then Done s
  else if is_char (hd cp) "*" && (match NeedChar (adv 1 cp) "=" with
                                   | None => true | Some _ => false end)
  then Done s
  else
    (* set local backward label *)
    let '(cp, s) :=
      if is_char (hd cp) "-" then
        let '(i, cp') := local_label 11 "-" cp 0 (Z.of_nat (strlen cp)) in
        (cp', wra minlab i (rd pc s) s)
      else (cp, s) in
    (* set local forward label *)
    '(cp, s) <-
      (if is_char (hd cp) "+" then
         let '(i, cp') := local_label 11 "+" cp 0 (Z.of_nat (strlen cp)) in
         if rd Phase s =? 1 then
           let s := wra plulab (i * PLUMAX + rda plucnt i s) (rd pc s) s in
           let s := wra plucnt i (rda plucnt i s + 1) s in
           if PLUMAX - 2 <? rda plucnt i s then Exit "too many local labels"
           else Done (cp', s)
         else Done (cp', s)
       else Done (cp, s)) ;;
    '(r, s) <- CheckPseudo cp s ;;
    match r with
    | None => Done s      (* Pseudo Op successfull processed *)
    | Some cp =>
        '(cp, s) <-
          (if is_char (hd cp) "." || is_char (hd cp) "_" || isalpha (hd cp) then
             match StrMatch cp "MACRO" with
             | Some _ => Stuck "macro definition"
             | None =>
                 let s := wr MneIndex (IsInstruction cp s) s in
                 if rd MneIndex s <? 0 then Stuck "label or macro call"
                 else Done (cp, s)
             end
           else Done (cp, s)) ;;
        if truthy (rd ForcedEnd s) then Done s
        else if is_char (hd cp) NUL then Done s
        else if is_char (hd cp) ";" then Done s
        else if is_char (hd cp) "&" then Stuck "BSS counter"
        else if is_char (hd cp) "*" then SetPC (adv 1 cp) s
        else
          '(r, s) <- CheckPseudo cp s ;;
          match r with
          | None => Done s
          | Some cp =>
              let s := if rd MneIndex s <? 0
                       then wr MneIndex (IsInstruction cp s) s else s in
              if 0 <=? rd MneIndex s then
                let '(_, s) :=
                  ExtractOpText (adv (strlen (Mne (Mat_at (rd MneIndex s)))) cp) s in
                GenerateCode s
              else if is_char (hd cp) NUL || is_char (hd cp) ";" || is_char (hd cp) "*"
              then Done s
              else Exit "Syntax error"
          end
    end.

(* ================================================================= *)
(** ** Output files *)

(** [ROM[a .. a+n-1]] *)
Fixpoint ROM_bytes (n : nat) (a : Z) (s : Asm) : list Z :=
  match n with
  | O => []
  | S k => rda ROM a s :: ROM_bytes k (a + 1) s
  end.

(** [n] bytes from [a] lie inside [unsigned char ROM[0x10100]]. *)
Definition in_ROM (a n : Z) : bool :=
  (0 <=? a) && (0 <=? n) && (a + n <=? 0x10100).

(** [WriteBinaryFormat]: the raw bytes, after the two bytes of the
    start address when an entry address was given.
    [fwrite(ROM+SFA[i],1,SFL[i],bf)] has a result when the bytes lie
    inside [ROM]. *)
Definition WriteBinaryFormat (q : StoreReq) (s : Asm) : outcome Asm :=
  let head := if -1 <? SFE q
              then [Z.land (Z.shiftr (SFA q) 8) 0xff; Z.land (SFA q) 0xff]
              else [] in
  if in_ROM (SFA q) (SFL q) then
    Done (set_files (files s ++ [(SFF q, BinData (head ++ ROM_bytes (Z.to_nat (SFL q)) (SFA q) s))]) s)
  else Stuck "fwrite reads behind ROM".

Definition sum_bytes (l : list Z) : Z := fold_left Z.add l 0.

(** [WriteS19Line]: one record.  The record keeps the address as a
    number; [%04X] prints it in four digits, the two address bytes of
    the format, for an address of 16 bits, and in more above [$FFFF].
    [Data] stands for the [PayloadSize] bytes that the loop reads.
[[
   Checksum = PayloadSize + 3 + (Address & 0xff) + (Address >> 8);
   fprintf(bf, "%02X%04X", PayloadSize + 3, Address);
   for (i=0; i < PayloadSize; ++i)
   {
      fprintf(bf, "%02X", Data[i]);
      Checksum += Data[i];
   }
   fprintf(bf, "%02X\r\n", ~Checksum & 0xff);
]] *)
Definition WriteS19Line (RecordType : string) (PayloadSize Address : Z)
           (Data : list Z) : SRec :=
  let Data := firstn (Z.to_nat PayloadSize) Data in
  let Checksum :=
    PayloadSize + 3 + Z.land Address 0xff + Z.shiftr Address 8 + sum_bytes Data in
  mkSRec RecordType (PayloadSize + 3) Address Data (Z.land (Z.lnot Checksum) 0xff).

(** The characters of a string as bytes. *)
Fixpoint bytes_of (t : string) : list Z :=
  match t with
  | EmptyString => []
  | String c r => code c :: bytes_of r
  end.

(** The loop of [WriteS19Format] over the S1 records; [BytesInThisLine]
    is set before the loop:
[[
    while (UnwrittenBytes > 0)
    {
       WriteS19Line(bf, "S1", BytesInThisLine, Addr, &ROM[Addr]);
       ++SFR[i];
       Addr += BytesInThisLine;
       UnwrittenBytes -= BytesInThisLine;
    }
]] *)
Fixpoint S1_loop (n : nat) (UnwrittenBytes Addr BytesInThisLine : Z) (s : Asm)
  : list SRec :=
  match n with
  | O => []
  | S k =>
      if 0 <? UnwrittenBytes then
        WriteS19Line "S1" BytesInThisLine Addr
                     (ROM_bytes (Z.to_nat BytesInThisLine) Addr s)
        :: S1_loop k (UnwrittenBytes - BytesInThisLine)
                     (Addr + BytesInThisLine) BytesInThisLine s
      else []
  end.

(** The S1 records of a request. *)
Definition S1_records (q : StoreReq) (s : Asm) : list SRec :=
  let BytesInThisLine := if SFL q <? 32 then SFL q else 32 in
  S1_loop (Z.to_nat (SFL q)) (SFL q) (SFA q) BytesInThisLine s.

(** The records of [WriteS19Format]: S0, the S1 records, S5 with the
    number [SFR[i]] of S1 records, and S9 when [SFE[i] > -1]. *)
Definition S19_records (q : StoreReq) (s : Asm) : list SRec :=
  let buf := "Bit Shift Assembler" in
  let S1 := S1_records q s in
  let SFR := Z.of_nat (List.length S1) in
  [WriteS19Line "S0" (Z.of_nat (strlen buf)) 0 (bytes_of buf)]
  ++ S1
  ++ [WriteS19Line "S5" 0 SFR []]
  ++ (if -1 <? SFE q then [WriteS19Line "S9" 0 (SFE q) []] else []).

(** [strrchr(filename, '.')] finds a dot. *)
Definition has_dot (f : string) : bool := strchr f ".".

(** [WriteS19Format]: the file gets the extension [.S19] when the
    name has none.  Every S1 record is written from
    [BytesInThisLine] bytes at [&ROM[Addr]], which have to lie inside
    [ROM]. *)
Definition WriteS19Format (q : StoreReq) (s : Asm) : outcome Asm :=
  let filename := if has_dot (SFF q) then SFF q else (SFF q ++ ".S19")%string in
  if forallb (fun r => in_ROM (sr_addr r) (sr_count r - 3)) (S1_records q s) then
    Done (set_files (files s ++ [(filename, S19Data (S19_records q s))]) s)
  else Stuck "WriteS19Line reads behind ROM".

(** [WriteBinaries]: every storage request, in the order of the
    [STORE] lines:
    [if (SFT[i] == SRECORD) WriteS19Format(i); else WriteBinaryFormat(i);] *)
Definition write_one (s : Asm) (q : StoreReq) : outcome Asm :=
  match SFT q with
  | SRECORD => WriteS19Format q s
  | BINARY => WriteBinaryFormat q s
  end.

Fixpoint write_all (l : list StoreReq) (s : Asm) : outcome Asm :=
  match l with
  | [] => Done s
  | q :: l' => s <- write_one s q ;; write_all l' s
  end.

Definition WriteBinaries (s : Asm) : outcome Asm := write_all (stores s) s.

(** The text of a record: [S<type><count><address><data><checksum>]
    in upper-case hex, [%02X] and [%04X] being minimum widths. *)
Definition hex_digit (d : Z) : ascii :=
  if d <? 10 then chr (48 + d) else chr (55 + d).

Fixpoint hex_of (fuel : nat) (n : Z) (acc : string) : string :=
  match fuel with
  | O => acc
  | S k => if n <=? 0 then acc
           else hex_of k (n / 16) (String (hex_digit (n mod 16)) acc)
  end.

Fixpoint pad_zero (n : nat) (t : string) : string :=
  match n with
  | O => t
  | S k => pad_zero k (String "0" t)
  end.

Definition printf_X (width : nat) (n : Z) : string :=
  let t := hex_of 16 n "" in
  pad_zero (width - strlen t) t.

Definition SRec_text (r : SRec) : string :=
  (sr_type r ++ printf_X 2 (sr_count r) ++ printf_X 4 (sr_addr r)
   ++ concat "" (map (printf_X 2) (sr_data r)) ++ printf_X 2 (sr_cksum r))%string.

(* ================================================================= *)
(** ** The pass driver *)

(** [for (i=0 ; i < 11 ; ++i) minlab[i] = UNDEF;] *)
Fixpoint reset_minlab (n : nat) (s : Asm) : Asm :=
  match n with
  | O => s
  | S k => wra minlab (Z.of_nat k) UNDEF (reset_minlab k s)
  end.

(** [ListUndefinedSymbols]: every label that is still [UNDEF] is
    counted as an error. *)
Definition ListUndefinedSymbols (s : Asm) : Asm :=
  wr ErrNum
     (rd ErrNum s
      + Z.of_nat (List.length (filter (fun l => Address l =? UNDEF) (lab s)))) s.

Section PassDriver.

(** The handler of one source line.  The driver is embedded for any
    handler; [ParseLine] above is the one the runs below use. *)
Variable parse_line : string -> Asm -> outcome Asm.

(** The loop of [Phase1] over the lines of the source file. *)
Fixpoint Phase1_lines (src : list string) (s : Asm) : outcome Asm :=
  match src with
  | [] => Done s
  | Line :: rest =>
      s <- parse_line Line s ;;
      if truthy (rd ForcedEnd s) then Done s else Phase1_lines rest s
  end.

Definition Phase1_with (src : list string) (s : Asm) : outcome Asm :=
  Phase1_lines src (reset_minlab 11 (wr ForcedEnd 0 (wr Phase 1 s))).

(** The loop of [Phase2]:
[[
    ParseLine(Line);
    ...
    Eof = feof(sf) || ForcedEnd;
    if (GenEnd < pc) GenEnd = pc;
    if (ErrNum >= ERRMAX)
    {
       printf("Assembly stopped\n");
       return;
    }
]] *)
Fixpoint Phase2_lines (src : list string) (s : Asm) : outcome Asm :=
  match src with
  | [] => Done s
  | Line :: rest =>
      s <- parse_line Line s ;;
      let s := if rd GenEnd s <? rd pc s then wr GenEnd (rd pc s) s else s in
      if rd ERRMAX s <=? rd ErrNum s then Done s      (* Assembly stopped *)
      else if truthy (rd ForcedEnd s) then Done s
      else Phase2_lines rest s
  end.

Definition Phase2_reset (s : Asm) : Asm :=
  reset_minlab 11
    (wr ModuleStart 0 (set_Scope "" (wr CPU 6309 (wr ListOn 1
      (wr ForcedEnd 0 (wr EnumValue (-1) (wr pc (-1) (wr Phase 2 s)))))))).

Definition Phase2_with (src : list string) (s : Asm) : outcome Asm :=
  let s := Phase2_reset s in
  if truthy (rd IfLevel s) then Exit "Error in conditional assembly"
  else Phase2_lines src s.

(** [main] after the options are read: both passes, the binaries,
    the undefined symbols; the exit code is [ErrNum]. *)
Definition main_with (src : list string) (s : Asm) : outcome Asm :=
  s <- Phase1_with src s ;;
  s <- Phase2_with src s ;;
  s <- WriteBinaries s ;;
  Done (ListUndefinedSymbols s).

End PassDriver.

Definition Phase1 : list string -> Asm -> outcome Asm := Phase1_with ParseLine.
Definition Phase2 : list string -> Asm -> outcome Asm := Phase2_with ParseLine.
Definition main : list string -> Asm -> outcome Asm := main_with ParseLine.

(* ================================================================= *)
(** * Vocabulary of the statements *)

(** The value an evaluation stored, if it returned and stored one. *)
Definition eval_value (o : parse (option Z)) : option Z :=
  match o with
  | Done (_, v, _) => v
  | _ => None
  end.

(** A computation returned. *)
Definition returns {A : Type} (o : outcome A) : Prop :=
  match o with Done _ => True | _ => False end.

(** The state a computation returned with. *)
Definition after (o : outcome Asm) : Asm :=
  match o with Done s => s | _ => init_Asm end.

(** The entry of the division in [binop]. *)
Definition binop_div : binop_struct := mkBinop "/" 11 op_div.

(** The text in upper case, as [toupper] maps each character. *)
Fixpoint upcase (t : string) : string :=
  match t with
  | EmptyString => ""
  | String c r => String (toupper c) (upcase r)
  end.

(** Every character of [t] satisfies [P]. *)
Fixpoint all_chars (P : ascii -> bool) (t : string) : bool :=
  match t with
  | EmptyString => true
  | String c r => P c && all_chars P r
  end.

(** The bitwise OR of [v] and the masks of the registers. *)
Definition push_mask (rs : list PushStruct) (v : Z) : Z :=
  fold_left (fun v r => Z.lor v (Val r)) rs v.

(** One register of a push list as it stands in the operand: the
    entry of [PushList], its name as it is written, the blanks after
    the name, and the blanks after the comma that follows, [None] when
    no comma follows. *)
Record pushed : Type := mkPushed {
  p_reg   : PushStruct;
  p_name  : string;
  p_gap   : string;
  p_comma : option string
}.

(** The name is that of the table in any case, the gaps are blanks. *)
Definition well_spelled (x : pushed) : Prop :=
  In (p_reg x) PushList
  /\ upcase (p_name x) = Reg (p_reg x)
  /\ all_chars isspace (p_gap x) = true
  /\ match p_comma x with
     | Some g => all_chars isspace g = true
     | None => True
     end.

(** Every register but the last is followed by a comma; the last one
    may be. *)
Fixpoint separated (xs : list pushed) : Prop :=
  match xs with
  | x :: ((_ :: _) as rest) => p_comma x <> None /\ separated rest
  | _ => True
  end.

(** The operand text of the list. *)
Fixpoint push_text (xs : list pushed) : string :=
  match xs with
  | [] => ""
  | x :: rest =>
      (p_name x ++ p_gap x
       ++ match p_comma x with Some g => "," ++ g | None => "" end
       ++ push_text rest)%string
  end.

(** What may follow a register name: the end of the text, a comma or
    a blank. *)
Definition ends_word (tail : string) : Prop :=
  tail = "" \/ exists c t, tail = String c t
                           /\ (c = ","%char \/ isspace c = true).

(** The operands that [ScanPushList] accepts, with the post byte they
    stand for: the word [ALL] in any case, whatever follows it, and
    the lists of registers. *)
Definition push_operand (T : string) (b : Z) : Prop :=
  (exists w rest, T = (w ++ rest)%string /\ upcase w = "ALL"
                  /\ isym (hd rest) = false /\ b = 0xff)
  \/ (exists xs, T = push_text xs /\ Forall well_spelled xs /\ separated xs
                 /\ b = push_mask (map p_reg xs) 0).


(** [s'] differs from [s] at most in the array cells [a .. a+n-1]. *)
Definition agrees (a n : Z) (s s' : Asm) : Prop :=
  (forall x, rd x s' = rd x s)
  /\ (forall arr j, ~ (a <= j < a + n) -> rda arr j s' = rda arr j s).

(** The bytes of the opcode can be stored: each is unlocked or holds
    the opcode byte already, as pass 1 left it. *)
Definition opcode_writable (s : Asm) : Prop :=
  if 255 <? rd oc s
  then (rda LOCK (rd pc s) s = 0
        \/ rda ROM (rd pc s) s = Z.land (Z.shiftr (rd oc s) 8) 0xff)
       /\ (rda LOCK (rd pc s + 1) s = 0
           \/ rda ROM (rd pc s + 1) s = Z.land (rd oc s) 0xff)
  else rda LOCK (rd pc s) s = 0
       \/ rda ROM (rd pc s) s = Z.land (rd oc s) 0xff.

(** The first byte of the opcode as [Put] stores it. *)
Definition opcode_byte (o : Z) : Z :=
  if 255 <? o then Z.land (Z.shiftr o 8) 0xff else Z.land o 0xff.

Definition len_if (b : bool) (n : Z) : Z := if b then n else 0.

(** Length of the code that pass 2 is about to insert: opcode, post
    byte, operand. *)
Definition encoded_length (s : Asm) : Z :=
  opcode_length (rd oc s) + b2i (0 <=? rd pb s) + rd ql s.

(** The condition under which the optimizer may shorten in a pass. *)
Definition may_shorten (s : Asm) : Prop :=
  rd Phase s = 1 \/ (rd Phase s = 2 /\ rda ADL (rd pc s) s = 2).

(** *** S-records, as the format has them *)

Definition is_byte (b : Z) : Prop := 0 <= b <= 255.

(** The bytes of a record that the checksum covers, in the order of
    the line: the count, the high and the low byte of the address
    field, the data. *)
Definition record_bytes (r : SRec) : list Z :=
  sr_count r :: sr_addr r / 256 :: sr_addr r mod 256 :: sr_data r.

(** The byte-wise sum. *)
Fixpoint byte_total (l : list Z) : Z :=
  match l with
  | [] => 0
  | b :: l' => b + byte_total l'
  end.

(** A record of the format: count, address bytes, data and checksum
    are bytes, and the count is the number of bytes after it, that is
    two of the address, the data and the checksum. *)
Definition well_formed (r : SRec) : Prop :=
  Forall is_byte (record_bytes r)
  /\ is_byte (sr_cksum r)
  /\ sr_count r = 2 + Z.of_nat (List.length (sr_data r)) + 1.

(** The checksum is the one's complement of the low byte of the sum,
    so that sum and checksum add up to [0xFF] modulo 256. *)
Definition checksum_ok (r : SRec) : Prop :=
  sr_cksum r = 0xff - byte_total (record_bytes r) mod 256
  /\ byte_total (record_bytes r ++ [sr_cksum r]) mod 256 = 0xff.

(** A request whose bytes are read inside [ROM[0x10100]].  The
    S-record writer reads whole lines, up to 31 bytes behind the end
    of the request. *)
Definition inside_ROM (q : StoreReq) : Prop :=
  0 <= SFA q /\ 0 <= SFL q
  /\ SFA q + SFL q + (match SFT q with SRECORD => 31 | BINARY => 0 end)
     <= 0x10100.

(** The file that [WriteBinaries] writes for a storage request. *)
Definition store_output (s : Asm) (q : StoreReq) : string * FileData :=
  match SFT q with
  | SRECORD =>
      (if has_dot (SFF q) then SFF q else (SFF q ++ ".S19")%string,
       S19Data (S19_records q s))
  | BINARY =>
      (SFF q,
       BinData ((if -1 <? SFE q
                 then [Z.land (Z.shiftr (SFA q) 8) 0xff; Z.land (SFA q) 0xff]
                 else [])
                ++ ROM_bytes (Z.to_nat (SFL q)) (SFA q) s))
  end.

(** A line opens a conditional frame: the word after an optional [#]
    is [if], [ifdef] or [ifndef]. *)
Definition opens_condition (p : string) : bool :=
  let p := if is_char (hd p) "#" then adv 1 p else p in
  negb (strcmpword p "error" =? 0)
  && ((strcmpword p "ifdef" =? 0) || (strcmpword p "ifndef" =? 0)
      || (strcmpword p "if" =? 0)).

(** ** Sample sources and states *)

Definition quoted (name : string) : string :=
  (String dquote name ++ String dquote "")%string.

Definition NOP_line : string := "        NOP".

(** Ten [NOP]s at [$FFFF], each raising the error that the program
    counter exceeds 64 KB, after one [STORE] and before another. *)
Definition capped_source : list string :=
  ([ "        ORG $FFFF";
     ("        STORE $FFFF,1," ++ quoted "rom.bin")%string ]
   ++ repeat NOP_line 10
   ++ [ ("        STORE $FFFF,1," ++ quoted "late.bin")%string ])%list.

(** A source whose two passes assemble different instructions at
    [$1000]: the line [/*] switches [CodeStyle] to 1 for the rest of
    the run, so pass 1 evaluates [0 + 1] to 1 and assembles [NOP],
    while pass 2 stops at the blank, evaluates it to 0 and assembles
    [LDX #1]. *)
Definition two_faced_source : list string := [
  "        ORG $1000";
  " if 0 + 1";
  "        NOP";
  " else";
  "        LDX #1";
  " endif";
  "/* Motorola operand style from here on"
].

(** Ten conditions nested, and nine. *)
Definition ten_nested_ifs : list string :=
  ("        ORG $1000" :: repeat " if 1" 10
   ++ [NOP_line] ++ repeat " endif" 10)%list.

Definition nine_nested_ifs : list string :=
  ("        ORG $1000" :: repeat " if 1" 9
   ++ [NOP_line] ++ repeat " endif" 9)%list.

(** Long branches to [$1010] from [$1000], with the optimizer on. *)
Definition forward_long_branches : list string := [
  "        ORG $1000";
  "        LBEQ $1010";
  "        LBRA $1010"
].

(** A long branch back to [$1000] from [$1001]. *)
Definition backward_long_branch : list string := [
  "        ORG $1000";
  "        NOP";
  "        LBEQ $1000"
].

(** One byte stored with the format field [S19]. *)
Definition S19_source : list string := [
  "        ORG $0100";
  "        NOP";
  ("        STORE $0100,1," ++ quoted "out.s19" ++ ",S19")%string
].

(** Pass 2 at [LDA FOO,X] at [$1000] where pass 1, with [FOO] still
    undefined, recorded the length 4 and stored the opcode [$A6]; now
    [FOO] is 5 and the code is [$A6 $05]. *)
Definition LDA_5_X : Asm :=
  wr oc 0xa6 (wr pb 0x05 (wr ql 0 (wr il 2 (wr pc 0x1000 (wr Phase 2
    (wra LOCK 0x1000 1 (wra ROM 0x1000 0xa6 (wra ADL 0x1000 4 init_Asm)))))))).

(** Pass 2 at [LDX #1] at [$1000] where pass 1 assembled [NOP]: the
    length 1 is recorded, [$12] is stored and locked (the state that
    [two_faced_source] reaches at its fifth line). *)
Definition LDX_over_NOP : Asm :=
  wr oc 0x8e (wr pb (-1) (wr ql 2 (wr il 3 (wr pc 0x1000 (wr Phase 2
    (wra LOCK 0x1000 1 (wra ROM 0x1000 0x12 (wra ADL 0x1000 1 init_Asm)))))))).

(** Pass 1 at [LBEQ] with a target 20 bytes before the end of the
    long instruction, the optimizer on. *)
Definition LBEQ_backward : Asm :=
  wr il 4 (wr ql 2 (wr ol 2 (wr oc 0x1027 (wr Optimize 1 (wr Phase 1
    (wr pc 0x1000 init_Asm)))))).

(** Pass 2 at [PSHS a, B ,x] at [$1000], where pass 1 recorded the
    length 2, and the list as it is written. *)
Definition PSHS_A_B_X : Asm :=
  set_OpText "a, B ,x" (wr MneIndex 45 (wr pc 0x1000 (wr Phase 2
    (wra ADL 0x1000 2 init_Asm)))).

Definition a_B_x : list pushed := [
  mkPushed (push "A" 0x02) "a" "" (Some " ");
  mkPushed (push "B" 0x04) "B" " " (Some "");
  mkPushed (push "X" 0x10) "x" "" None ].

(** A request for 40 bytes from [$0100] in S-record format. *)
Definition forty_bytes : StoreReq := mkStore 0x0100 40 "out.s19" (-1) SRECORD.

(* ================================================================= *)
(** ** Proof steps *)

(** One case for each of the 256 characters. *)
Ltac each_char c :=
  destruct c as [[] [] [] [] [] [] [] []].

(** One case for each entry of [PushList]. *)
Ltac each_register H :=
  simpl in H;
  repeat (destruct H as [<-|H]; [|]); [..|contradiction].

(** [lia] after forgetting the bodies of local definitions. *)
Ltac zlia :=
  repeat match goal with x := _ |- _ => clearbody x end; lia.


(* ================================================================= *)
(** * Vocabulary of the further properties *)

(** A C string holds no NUL before its terminator. *)
Fixpoint no_NUL (t : string) : bool :=
  match t with
  | EmptyString => true
  | String c r => negb (is_char c NUL) && no_NUL r
  end.

(** The numeral of [n > 0] in base [base], most significant digit
    first, put before [acc]; [dig] gives the character of a digit. *)
Fixpoint numeral (dig : Z -> ascii) (base : Z) (fuel : nat) (n : Z)
         (acc : string) : string :=
  match fuel with
  | O => acc
  | S k => if n <=? 0 then acc
           else numeral dig base k (n / base) (String (dig (n mod base)) acc)
  end.

(** The decimal numeral of [n >= 0]. *)
Definition decimal (n : Z) : string :=
  if n =? 0 then "0" else numeral (fun d => chr (48 + d)) 10 20 n "".

(** The digits that [%X] prints. *)
Definition upper_hex (c : ascii) : bool := isdigit c || in_range 65 70 c.

(** The value of a hex numeral with digits in either case: the place
    of a digit among [0123456789ABCDEF] after [toupper], most
    significant digit first. *)
Fixpoint place_of (c : ascii) (t : string) : Z :=
  match t with
  | EmptyString => 0
  | String d r => if is_char c d then 0 else 1 + place_of c r
  end.

Definition hex_digit_value (c : ascii) : Z :=
  place_of (toupper c) "0123456789ABCDEF".

Fixpoint hex_value_from (acc : Z) (t : string) : Z :=
  match t with
  | EmptyString => acc
  | String c r => hex_value_from (16 * acc + hex_digit_value c) r
  end.

Definition hex_value (t : string) : Z := hex_value_from 0 t.

(** [s'] differs from [s] at most by symbols added to the label table
    with the value [UNDEF], and in [ForcedMode]. *)
Definition only_new_symbols (s s' : Asm) : Prop :=
  (forall x, x <> ForcedMode -> rd x s' = rd x s)
  /\ (forall a i, rda a i s' = rda a i s)
  /\ (exists new, lab s' = (lab s ++ new)%list
                  /\ Forall (fun l => Address l = UNDEF) new)
  /\ Scope s' = Scope s /\ OpText s' = OpText s /\ Hint s' = Hint s
  /\ stores s' = stores s /\ files s' = files s.

(** The bytes of an instruction in the order of [GenerateCode]: the
    opcode (two bytes when above 255), the post byte when there is
    one, then the operand, its high byte first. *)
Definition code_bytes (oc pb ql v dp : Z) : list Z :=
  ((if 255 <? oc then [Z.shiftr oc 8; oc] else [oc])
   ++ (if 0 <=? pb then [pb] else [])
   ++ (if ql =? 4 then [Z.shiftr v 24; Z.shiftr v 16; Z.shiftr v 8; v] else [])
   ++ (if ql =? 2 then [Z.shiftr v 8; v] else [])
   ++ (if ql =? 1 then [byte_operand dp v] else []))%list.

(** [ROM[a ..]] holds the low bytes of [l], every one locked. *)
Definition slot_holds (a : Z) (l : list Z) (s : Asm) : Prop :=
  ROM_bytes (List.length l) a s = map (fun b => Z.land b 0xff) l
  /\ forall k, 0 <= k < Z.of_nat (List.length l) -> rda LOCK (a + k) s = 1.

(** The [q] low bytes of [n], the most significant first. *)
Fixpoint big_endian (q : nat) (n : Z) : list Z :=
  match q with
  | O => []
  | S q' => Z.shiftr n (8 * Z.of_nat q') mod 256 :: big_endian q' n
  end.

(** The bytes of an opcode: the prefix byte first when there is one. *)
Definition opcode_bytes (o : Z) : list Z :=
  if 255 <? o then [Z.shiftr o 8; Z.land o 0xff] else [o].

(** The slot of [L] bytes at [pc] can take an instruction with opcode
    [o]: each opcode byte is still free or already holds the opcode
    (pass 1 stores it), the operand bytes are free. *)
Definition slot_ready (o L : Z) (s : Asm) : Prop :=
  (forall j, 0 <= j < opcode_length o ->
     rda LOCK (rd pc s + j) s = 0
     \/ rda ROM (rd pc s + j) s = nth (Z.to_nat j) (opcode_bytes o) 0)
  /\ (forall j, opcode_length o <= j < L -> rda LOCK (rd pc s + j) s = 0).

(** Pass 2 at [NOP #1,X] at [$1000]: pass 1 recorded the length 1 and
    stored the opcode [$12]. *)
Definition NOP_with_operand : Asm :=
  set_OpText "#1,X" (wr MneIndex 13 (wr pc 0x1000 (wr Phase 2
    (wra LOCK 0x1000 1 (wra ROM 0x1000 0x12 (wra ADL 0x1000 1 init_Asm)))))).

(** Pass 2 at [CMPY #4660] at [$1000]: pass 1 recorded the length 4 and
    stored the opcode [$10 $8C]. *)
Definition CMPY_4660 : Asm :=
  set_OpText "#4660" (wr MneIndex 132 (wr pc 0x1000 (wr Phase 2
    (wra LOCK 0x1001 1 (wra ROM 0x1001 0x8c
      (wra LOCK 0x1000 1 (wra ROM 0x1000 0x10
        (wra ADL 0x1000 4 init_Asm)))))))).

(** Pass 2 at [BNE 4080] at [$1000], a branch 18 bytes back from the
    next instruction; pass 1 recorded the length 2 and stored [$26]. *)
Definition BNE_back : Asm :=
  set_OpText "4080" (wr MneIndex 31 (wr pc 0x1000 (wr Phase 2
    (wra LOCK 0x1000 1 (wra ROM 0x1000 0x26 (wra ADL 0x1000 2 init_Asm)))))).

(** The same branch with the target [8192], which is out of reach. *)
Definition BNE_far : Asm := set_OpText "8192" BNE_back.

(** The operand of a [STORE] line that asks for the S19 format. *)
Definition STORE_S19_operand : string :=
  (" $0100,1," ++ quoted "out.s19" ++ ",S19")%string.

(** The words that [CheckCondition] handles, after blanks and an
    optional [#]. *)
Definition conditional_directive (cp : string) : bool :=
  let p := SkipSpace cp in
  let p := if is_char (hd p) "#" then adv 1 p else p in
  existsb (fun k => strcmpword p k =? 0)
          ["error"; "ifdef"; "ifndef"; "if"; "else"; "endif"].

(** A character that opens neither a comment nor a quotation. *)
Definition plain (c : ascii) : bool :=
  negb (is_char c ";" || is_char c dquote || is_char c apostrophe).

(** A character at which [ExtractOpText] starts the operand: no blank
    and no [<] or [>]. *)
Definition starts_operand (c : ascii) : bool :=
  negb (isspace c || is_char c "<" || is_char c ">").

(** The value of a prefix [u] before an operand with the value [a],
    and the state it leaves: [-], [!] and [~] compute, [<] and [>] set
    [ForcedMode], [+] does nothing. *)
Definition prefix_value (u : ascii) (a : Z) : Z :=
  if is_char u "-" then - a
  else if is_char u "!" then b2i (a =? 0)
  else if is_char u "~" then Z.lnot a
  else a.

Definition prefix_mode (u : ascii) (s : Asm) : Asm :=
  if is_char u "<" then wr ForcedMode (-1) s
  else if is_char u ">" then wr ForcedMode 1 s
  else s.

(** The counts for which C defines a shift of an [int]: [w] is in
    0 .. 31 when [b] is [<<] or [>>]. *)
Definition shift_in_range (b : binop_struct) (w : Z) : Prop :=
  op b = "<<" \/ op b = ">>" -> 0 <= w < 32.

(* ================================================================= *)
(** * The post byte of the indexed address modes *)

(** [PostIndex]: the register bits of the post byte, by the letter at
    [p]; [reg] must not be set yet. *)
Definition PostIndex (reg : Z) (p : string) : outcome Z :=
  let c := hd p in
  let bits (b : Z) : outcome Z := if reg <? 0 then Done b else OperandError in
  if is_char c "x" || is_char c "X" then bits 0x00
  else if is_char c "y" || is_char c "Y" then bits 0x20
  else if is_char c "u" || is_char c "U" then bits 0x40
  else if is_char c "s" || is_char c "S" then bits 0x60
  else OperandError.

(** [PostIndexReg]: [reg = PostIndex(reg,p); if ( *(++p)) OperandError(p);] *)
Definition PostIndexReg (reg : Z) (p : string) : outcome Z :=
  reg <- PostIndex reg p ;;
  if negb (is_char (hd (adv 1 p)) NUL) then OperandError else Done reg.

(** [PostIndexW]: [W] is flagged by [0xf]. *)
Definition PostIndexW (reg : Z) (p : string) : outcome Z :=
  if is_char (hd p) "w" || is_char (hd p) "W" then Done 0xf
  else PostIndex reg p.

(** The text without its last character: [p[opl-1] = 0]. *)
Fixpoint drop_last (p : string) : string :=
  match p with
  | EmptyString => ""
  | String c EmptyString => ""
  | String c q => String c (drop_last q)
  end.

(** [SetPostByte(p, &v)] after the brackets of an indirect operand
    are taken off: [ind] is the indirect bit, [buf] the buffer that the
    caller passed, as the call leaves it, [p] the operand text, whose
    length is [opl].  The result holds the post byte, the value stored
    to [*v] if any, [buf], and the state, in which [ql] is set.  [reg]
    is -1 when [PostIndex] is called, [off] is preset with 0. *)
Definition SetPostByte_body (ind : Z) (buf p : string) (s : Asm)
  : outcome (Z * option Z * string * Asm) :=
  let opl := strlen p in
  (* A,R  B,R  D,R  E,R  F,R  W,R *)
  let acc (a : ascii) : bool :=
    is_char (toupper (hd p)) a && is_char (hd (adv 1 p)) "," in
  let acc_byte (bits : Z) : outcome (Z * option Z * string * Asm) :=
    reg <- PostIndexReg (-1) (adv 2 p) ;;
    Done (Z.lor (Z.lor (Z.lor 0x80 reg) ind) bits, None, buf, wr ql 0 s) in
  if acc "A"%char then acc_byte 0x06
  else if acc "B"%char then acc_byte 0x05
  else if acc "D"%char then acc_byte 0x0b
  else if acc "E"%char then acc_byte 0x07
  else if acc "F"%char then acc_byte 0x0a
  else if acc "W"%char then acc_byte 0x0e
  (* PC relative *)
  else if ((4 <? Z.of_nat opl) && (StrNCaseCmp (adv (opl - 4) p) ",PCR" 4 =? 0))
          || ((3 <? Z.of_nat opl) && (StrNCaseCmp (adv (opl - 3) p) ",PC" 3 =? 0))
  then
    '(_, w, s1) <- EvalOperand p 0 s ;;
    let off := int_wrap (stored 0 w - (rd pc s1 + 3)) in
    if (rd ForcedMode s1 <? 0)
       || ((-128 <=? off) && (off <? 128)
           && negb (rda ROM (rd pc s1) s1 =? 0x8d))
    then Done (Z.lor 0x8c ind, Some off, buf, wr ql 1 s1)
    else Done (Z.lor 0x8d ind, Some (int_wrap (off - 1)), buf, wr ql 2 s1)
  else
    (* offset *)
    '(q, off, s1) <-
      (if negb (is_char (hd p) ",") then
         '(q, w, s1) <- EvalOperand p 0 s ;; Done (q, stored 0 w, s1)
       else Done (p, 0, s)) ;;
    if is_char (hd q) "," && (off =? 0) then
      (* zero offset *)
      let dec := leading "-" (adv 1 q) in
      let q := adv (1 + dec) q in
      reg <- PostIndexW (-1) q ;;
      let inc := leading "+" (adv 1 q) in
      if reg <? 0 then OperandError
      else
        amo <- (if Nat.eqb inc 1 && Nat.eqb dec 0 then Done 0x00
                else if Nat.eqb inc 2 && Nat.eqb dec 0 then Done 0x01
                else if Nat.eqb inc 0 && Nat.eqb dec 1 then Done 0x02
                else if Nat.eqb inc 0 && Nat.eqb dec 2 then Done 0x03
                else if Nat.eqb inc 0 && Nat.eqb dec 0 then Done 0x04
                else OperandError) ;;
        let s2 := wr ql 0 s1 in
        if reg =? 0xf then                    (* W register *)
          r <- (if amo =? 4 then Done 0x8f          (* ,W *)
                else if amo =? 1 then Done 0xcf     (* ,W++ *)
                else if amo =? 3 then Done 0xef     (* ,--W *)
                else OperandError) ;;
          Done (if truthy ind then r + 1 else r, None, buf, s2)
        else Done (Z.lor (Z.lor (Z.lor 0x80 reg) ind) amo, None, buf, s2)
    else if is_char (hd q) "," then
      (* constant offset *)
      reg <- PostIndexW (-1) (adv 1 q) ;;
      if reg =? 0xf then                      (* W register *)
        Done (if truthy ind then 0xb0 else 0xaf, Some off, buf, wr ql 2 s1)
      else if (rd ForcedMode s1 <=? 0) && (-16 <=? off) && (off <? 16)
              && (ind =? 0)
      then Done (Z.lor reg (Z.land off 0x1f), Some off, buf, wr ql 0 s1)
      else if (rd ForcedMode s1 <? 0) || ((-128 <=? off) && (off <? 128))
      then Done (Z.lor (Z.lor (Z.lor 0x80 reg) ind) 0x08, Some off, buf,
                 wr ql 1 s1)
      else Done (Z.lor (Z.lor (Z.lor 0x80 reg) ind) 0x09, Some off, buf,
                 wr ql 2 s1)
    else OperandError.

(** [SetPostByte(p, &v)]: the post byte of an indexed operand.  For
    an operand in brackets the closing bracket is overwritten by the
    terminator and [p] moves behind the opening one:
    [ind = 0x10; p[opl-1] = 0; opl-=2; ++p;]
    [GenerateCode] passes an operand that is not empty; for the empty
    text, where the source reads [p[-1]], the operand is taken as not
    bracketed. *)
Definition SetPostByte (p : string) (s : Asm)
  : outcome (Z * option Z * string * Asm) :=
  let indirect :=
    is_char (hd p) "[" && is_char (hd (adv (strlen p - 1) p)) "]" in
  if indirect then SetPostByte_body 0x10 (drop_last p) (adv 1 (drop_last p)) s
  else SetPostByte_body 0 p p s.

(** The index registers with their bits in the post byte, the forms
    of auto increment and decrement (the text before and after the
    register, and the mode bits), and the accumulators that can be the
    offset, with their mode bits. *)
Definition index_registers : list (ascii * Z) := [
  ("X"%char, 0x00); ("Y"%char, 0x20); ("U"%char, 0x40); ("S"%char, 0x60);
  ("x"%char, 0x00); ("y"%char, 0x20); ("u"%char, 0x40); ("s"%char, 0x60) ].

Definition auto_forms : list (string * string * Z) := [
  ("", "+", 0x00); ("", "++", 0x01); ("-", "", 0x02); ("--", "", 0x03);
  ("", "", 0x04) ].

Definition accumulator_offsets : list (ascii * Z) := [
  ("A"%char, 0x06); ("B"%char, 0x05); ("D"%char, 0x0b); ("E"%char, 0x07);
  ("F"%char, 0x0a); ("W"%char, 0x0e);
  ("a"%char, 0x06); ("b"%char, 0x05); ("d"%char, 0x0b); ("e"%char, 0x07);
  ("f"%char, 0x0a); ("w"%char, 0x0e) ].

(** The state in which [GenerateCode] reaches its end for an
    immediate operand. *)
Definition after_immediate (o q : Z) (s : Asm) : Asm :=
  wr il (opcode_length o + q) (wr ql q (wr ol (opcode_length o) (wr oc o
    (wr oc (Mat_Opc (rd MneIndex s) AM_Relative)
       (wr oc (Mat_Opc (rd MneIndex s) AM_Register)
          (wr oc (Mat_Opc (rd MneIndex s) AM_Inherent)
             (wr ql 0 (wr pb (-1) s)))))))).

(** The state in which [GenerateCode] reaches its end for a branch. *)
Definition after_relative (o q : Z) (s : Asm) : Asm :=
  wr il (opcode_length o + q) (wr ql q (wr ol (opcode_length o)
    (wr oc o
       (wr oc (Mat_Opc (rd MneIndex s) AM_Register)
          (wr oc (Mat_Opc (rd MneIndex s) AM_Inherent)
             (wr ql 0 (wr pb (-1) s))))))).

(* ================================================================= *)
(** * Properties *)

(** ** Reading and writing the state *)

Lemma ivar_beq_refl (x : ivar) : ivar_beq x x = true.
Proof. destruct x; reflexivity. Qed.

Lemma avar_beq_refl (a : avar) : avar_beq a a = true.
Proof. destruct a; reflexivity. Qed.

Lemma avar_beq_neq (a b : avar) : a <> b -> avar_beq a b = false.
Proof. destruct a, b; intros H; try reflexivity; contradiction H; reflexivity. Qed.

Lemma rd_wr_same (x : ivar) (v : Z) (s : Asm) : rd x (wr x v s) = v.
Proof. unfold rd, wr; simpl. now rewrite ivar_beq_refl. Qed.

Lemma rd_wr_other (x y : ivar) (v : Z) (s : Asm) :
  ivar_beq x y = false -> rd x (wr y v s) = rd x s.
Proof. intros H. unfold rd, wr; simpl. now rewrite H. Qed.

Lemma rd_wra (x : ivar) (a : avar) (i v : Z) (s : Asm) :
  rd x (wra a i v s) = rd x s.
Proof. reflexivity. Qed.

Lemma rda_wr (a : avar) (i : Z) (x : ivar) (v : Z) (s : Asm) :
  rda a i (wr x v s) = rda a i s.
Proof. reflexivity. Qed.

Lemma rda_wra_same (a : avar) (i v : Z) (s : Asm) :
  rda a i (wra a i v s) = v.
Proof. unfold rda, wra; simpl. now rewrite avar_beq_refl, Z.eqb_refl. Qed.

Lemma rda_wra_idx (a b : avar) (i j v : Z) (s : Asm) :
  i <> j -> rda a i (wra b j v s) = rda a i s.
Proof.
  intros H. unfold rda, wra; simpl.
  apply Z.eqb_neq in H. now rewrite H, andb_false_r.
Qed.

Lemma rda_wra_arr (a b : avar) (i j v : Z) (s : Asm) :
  a <> b -> rda a i (wra b j v s) = rda a i s.
Proof.
  intros H. unfold rda, wra; simpl. now rewrite (avar_beq_neq _ _ H).
Qed.

Lemma truthy_false (z : Z) : truthy z = false <-> z = 0.
Proof.
  unfold truthy. rewrite negb_false_iff. apply Z.eqb_eq.
Qed.

Lemma truthy_true (z : Z) : truthy z = true <-> z <> 0.
Proof.
  unfold truthy. rewrite negb_true_iff. apply Z.eqb_neq.
Qed.

(** ** The ROM image and its lock map *)

(** What a returning [Put] did, and why it was allowed to. *)
Lemma Put_Done (i v : Z) (s s' : Asm) :
  Put i v s = Done s' ->
  s' = wra LOCK i 1 (wra ROM i (Z.land v 0xff) s)
  /\ (rda LOCK i s = 0 \/ rda ROM i s = Z.land v 0xff).
Proof.
  unfold Put. intros H.
  destruct (truthy (rda LOCK i s)) eqn:HL; simpl in H.
  - destruct (rda ROM i s =? Z.land v 255) eqn:HR; simpl in H; [|discriminate].
    inversion H; subst. split; [reflexivity|]. right. now apply Z.eqb_eq.
  - inversion H; subst. split; [reflexivity|]. left. now apply truthy_false.
Qed.

(** [Put] on a byte that is not locked always returns. *)
Lemma Put_unlocked (i v : Z) (s : Asm) :
  rda LOCK i s = 0 ->
  Put i v s = Done (wra LOCK i 1 (wra ROM i (Z.land v 0xff) s)).
Proof.
  intros H. unfold Put.
  now rewrite (proj2 (truthy_false _) H).
Qed.

(** [Put] of the value a byte already holds always returns. *)
Lemma Put_same_value (i v : Z) (s : Asm) :
  rda ROM i s = Z.land v 0xff ->
  Put i v s = Done (wra LOCK i 1 (wra ROM i (Z.land v 0xff) s)).
Proof.
  intros H. unfold Put.
  rewrite H, Z.eqb_refl. simpl. now rewrite andb_false_r.
Qed.

(** [Put] only touches [ROM[i]] and [LOCK[i]]. *)
Lemma Put_frame (i v : Z) (s s' : Asm) (a : avar) (j : Z) :
  Put i v s = Done s' -> j <> i -> rda a j s' = rda a j s.
Proof.
  intros H Hj. apply Put_Done in H as [-> _].
  now rewrite !rda_wra_idx.
Qed.

Lemma Put_ints (i v : Z) (s s' : Asm) (x : ivar) :
  Put i v s = Done s' -> rd x s' = rd x s.
Proof. intros H. now apply Put_Done in H as [-> _]. Qed.

(** A locked byte survives one [Put], whatever its address. *)
Lemma Put_keeps_locked (i v : Z) (s s' : Asm) (a : Z) :
  rda LOCK a s = 1 -> Put i v s = Done s' ->
  rda ROM a s' = rda ROM a s /\ rda LOCK a s' = 1.
Proof.
  intros HL H.
  destruct (Z.eq_dec a i) as [->|Hne].
  - apply Put_Done in H as [-> [H0|HR]]; [congruence|].
    split.
    + rewrite rda_wra_arr by discriminate. now rewrite rda_wra_same.
    + apply rda_wra_same.
  - split.
    + apply (Put_frame _ _ _ _ _ _ H Hne).
    + now rewrite (Put_frame _ _ _ _ _ _ H Hne).
Qed.

Lemma PutMany_keeps_locked (ws : list (Z * Z)) (s s' : Asm) (a : Z) :
  rda LOCK a s = 1 -> PutMany ws s = Done s' ->
  rda ROM a s' = rda ROM a s /\ rda LOCK a s' = 1.
Proof.
  revert s. induction ws as [|[i v] ws IH]; simpl; intros s HL H.
  - inversion H; subst. now split.
  - destruct (Put i v s) as [s1| | |] eqn:HP; simpl in H; try discriminate.
    destruct (Put_keeps_locked _ _ _ _ _ HL HP) as [HR1 HL1].
    destruct (IH _ HL1 H) as [HR2 HL2].
    split; [congruence|assumption].
Qed.




(** ** The expression evaluator *)

Lemma is_char_eq (c d : ascii) : is_char c d = true -> c = d.
Proof.
  unfold is_char, code. intros H. apply Z.eqb_eq in H.
  apply N2Z.inj in H.
  rewrite <- (ascii_N_embedding c), <- (ascii_N_embedding d). now rewrite H.
Qed.

Lemma is_char_refl (c : ascii) : is_char c c = true.
Proof. unfold is_char. apply Z.eqb_refl. Qed.

Lemma has_prefix_hd (p m : string) (d : ascii) :
  has_prefix p (String d m) = true -> hd p = d.
Proof.
  destruct p as [|c p]; simpl; [discriminate|].
  intros H. apply andb_prop in H as [H _]. now apply is_char_eq.
Qed.

Lemma find_binop_at (p : string) (b : binop_struct) :
  find_binop p = Some b -> at_binop p = true.
Proof.
  unfold find_binop. intros H.
  apply find_some in H as [Hin Hp].
  unfold at_binop.
  simpl in Hin.
  repeat (destruct Hin as [<-|Hin];
          [apply has_prefix_hd in Hp; rewrite Hp; reflexivity|]).
  contradiction.
Qed.

Section OneBinaryOperation.

Variable rec : string -> Z -> Asm -> parse (option Z).

Lemma binop_loop_end (n : nat) (prio0 : Z) (p : string) (r : Z)
      (w : option Z) (s : Asm) :
  at_binop p = false ->
  binop_loop rec n prio0 p r w s = Done (style_rest s p, Some r, s).
Proof. intros H. destruct n; simpl; now rewrite H. Qed.

Lemma binop_loop_step (n : nat) (prio0 : Z) (p : string) (r : Z)
      (w : option Z) (s : Asm) (b : binop_struct)
      (q : string) (x : Z) (s1 : Asm) :
  find_binop p = Some b ->
  prio0 < prio b ->
  rec (adv (strlen (op b)) p) (prio b) s = Done (q, Some x, s1) ->
  binop_defined b r x = true ->
  binop_loop rec (S n) prio0 p r w s
  = binop_loop rec n prio0 q (apply_binop b r x) (Some x) s1.
Proof.
  intros Hb Hp Hr Hd. simpl.
  rewrite (find_binop_at _ _ Hb), Hb.
  destruct (prio b <=? prio0) eqn:E; [apply Z.leb_le in E; lia|].
  rewrite Hr. cbn [bind]. now rewrite Hd.
Qed.

Lemma EvalOperand_one_binop (p : string) (prio0 : Z) (s : Asm)
      (q : string) (r : Z) (s1 : Asm) (b : binop_struct)
      (q2 : string) (x : Z) (s2 : Asm) :
  is_char (hd (SkipSpace p)) "," = false ->
  left_operand rec (SkipSpace p) s = Done (q, r, s1) ->
  (rd CodeStyle s1 =? 1) && is_char (hd q) " " = false ->
  find_binop (SkipSpace q) = Some b ->
  prio0 < prio b ->
  rec (adv (strlen (op b)) (SkipSpace q)) (prio b) s1 = Done (q2, Some x, s2) ->
  binop_defined b r x = true ->
  at_binop q2 = false ->
  EvalOperand_body rec p prio0 s
  = Done (style_rest s2 q2, Some (apply_binop b r x), s2).
Proof.
  intros Hc Hl Hs Hb Hp Hr Hd He.
  unfold EvalOperand_body. rewrite Hc, Hl. cbn [bind]. rewrite Hs.
  rewrite (binop_loop_step _ _ _ _ _ _ _ _ _ _ Hb Hp Hr Hd).
  now apply binop_loop_end.
Qed.

(** A right operand [UNDEF] is not handed to the operator; a division
    by zero has the result that [op_div] gives it. *)
Lemma UNDEF_is_not_applied (b : binop_struct) (r : Z) :
  binop_defined b r UNDEF = true.
Proof. reflexivity. Qed.

Lemma division_by_zero_is_defined (r : Z) :
  binop_defined binop_div r 0 = true.
Proof.
  unfold binop_defined, foo_defined. cbn.
  now rewrite andb_false_r.
Qed.

End OneBinaryOperation.

(** C8.  A division whose right operand is zero gives [UNDEF] and
    does not end the run: [op_div l 0] is [UNDEF] for every [l], and
    an evaluation whose first binary operator is [/] with a right
    operand that evaluates to 0 returns, with the value [UNDEF]. *)
Theorem division_by_zero_yields_UNDEF :
  (forall l : Z, op_div l 0 = UNDEF)
  /\ (forall (f : nat) (p : string) (prio0 : Z) (s : Asm)
             (q : string) (r : Z) (s1 : Asm) (q2 : string) (s2 : Asm),
      is_char (hd (SkipSpace p)) "," = false ->
      left_operand (EvalOperand_fuel f) (SkipSpace p) s = Done (q, r, s1) ->
      (rd CodeStyle s1 =? 1) && is_char (hd q) " " = false ->
      find_binop (SkipSpace q) = Some binop_div ->
      prio0 < 11 ->
      EvalOperand_fuel f (adv 1 (SkipSpace q)) 11 s1 = Done (q2, Some 0, s2) ->
      at_binop q2 = false ->
      EvalOperand_fuel (S f) p prio0 s = Done (style_rest s2 q2, Some UNDEF, s2)).
Proof.
  split; [reflexivity|].
  intros f p prio0 s q r s1 q2 s2 Hc Hl Hs Hb Hp Hr He.
  simpl.
  now rewrite (EvalOperand_one_binop _ p prio0 s q r s1 binop_div q2 0 s2)
    by (assumption || apply division_by_zero_is_defined).
Qed.

Lemma division_by_zero_witness :
  EvalOperand_fuel 2 "7 / 0" 0 init_Asm = Done ("", Some UNDEF, init_Asm).
Proof.
  apply (proj2 division_by_zero_yields_UNDEF 1%nat "7 / 0" 0 init_Asm
               " / 0" 7 init_Asm "" init_Asm);
    try reflexivity.
Defined.

(** C3, as the code has it.  A binary operator whose right operand
    evaluates to [UNDEF] gives [UNDEF], whatever the operator and the
    left operand; the prefixes [+], [<] and [>] and the brackets hand
    [UNDEF] on; the prefixes [-], [!] and [~] compute on the number
    [UNDEF] and give [-UNDEF], [0] and [-UNDEF - 1]. *)
Theorem UNDEF_right_operand_and_prefixes :
  (forall (f : nat) (p : string) (prio0 : Z) (s : Asm)
          (q : string) (r : Z) (s1 : Asm) (b : binop_struct)
          (q2 : string) (s2 : Asm),
      is_char (hd (SkipSpace p)) "," = false ->
      left_operand (EvalOperand_fuel f) (SkipSpace p) s = Done (q, r, s1) ->
      (rd CodeStyle s1 =? 1) && is_char (hd q) " " = false ->
      find_binop (SkipSpace q) = Some b ->
      prio0 < prio b ->
      EvalOperand_fuel f (adv (strlen (op b)) (SkipSpace q)) (prio b) s1
      = Done (q2, Some UNDEF, s2) ->
      at_binop q2 = false ->
      EvalOperand_fuel (S f) p prio0 s = Done (style_rest s2 q2, Some UNDEF, s2))
  /\ (forall (rec : string -> Z -> Asm -> parse (option Z))
             (p : string) (r : Z) (s : Asm) (q : string) (s1 : Asm),
      rec (adv 1 p) 12 s = Done (q, Some UNDEF, s1) ->
      op_plu rec p r s = Done (q, UNDEF, s1)
      /\ op_low rec p r s = Done (q, UNDEF, wr ForcedMode (-1) s1)
      /\ op_hig rec p r s = Done (q, UNDEF, wr ForcedMode 1 s1)
      /\ op_min rec p r s = Done (q, - UNDEF, s1)
      /\ op_lno rec p r s = Done (q, 0, s1)
      /\ op_bno rec p r s = Done (q, - UNDEF - 1, s1))
  /\ (forall (rec : string -> Z -> Asm -> parse (option Z))
             (p : string) (r : Z) (s : Asm) (q q' : string) (s1 : Asm),
      rec (adv 1 p) 0 s = Done (q, Some UNDEF, s1) ->
      NeedChar q (if is_char (hd p) "[" then "]"%char else ")"%char) = Some q' ->
      op_par rec p r s = Done (adv 1 q', UNDEF, s1)).
Proof.
  split; [|split].
  - intros f p prio0 s q r s1 b q2 s2 Hc Hl Hs Hb Hp Hr He.
    simpl.
    rewrite (EvalOperand_one_binop _ p prio0 s q r s1 b q2 UNDEF s2);
      try assumption; [|apply UNDEF_is_not_applied].
    reflexivity.
  - intros rec p r s q s1 H.
    unfold op_plu, op_low, op_hig, op_min, op_lno, op_bno, operand_after.
    rewrite H. repeat split.
  - intros rec p r s q q' s1 H Hn.
    unfold op_par, operand_after. rewrite H. cbn [bind stored].
    now rewrite Hn.
Qed.

Lemma UNDEF_right_operand_witness :
  EvalOperand_fuel 2 "1+FWD" 0 init_Asm
  = Done ("", Some UNDEF, set_lab [mkLabel "FWD" UNDEF 0 0] init_Asm)
  /\ op_plu (EvalOperand_fuel 1) "+FWD" UNDEF init_Asm
     = Done ("", UNDEF, set_lab [mkLabel "FWD" UNDEF 0 0] init_Asm)
  /\ op_par (EvalOperand_fuel 1) "(FWD)" UNDEF init_Asm
     = Done ("", UNDEF, set_lab [mkLabel "FWD" UNDEF 0 0] init_Asm).
Proof.
  split; [|split].
  - apply (proj1 UNDEF_right_operand_and_prefixes 1%nat "1+FWD" 0 init_Asm
                 "+FWD" 1 init_Asm (mkBinop "+" 10 op_add) ""
                 (set_lab [mkLabel "FWD" UNDEF 0 0] init_Asm));
      try reflexivity.
  - apply (proj1 (proj2 UNDEF_right_operand_and_prefixes) (EvalOperand_fuel 1)
                 "+FWD" UNDEF init_Asm ""
                 (set_lab [mkLabel "FWD" UNDEF 0 0] init_Asm)).
    reflexivity.
  - apply (proj2 (proj2 UNDEF_right_operand_and_prefixes) (EvalOperand_fuel 1)
                 "(FWD)" UNDEF init_Asm ")" ")"
                 (set_lab [mkLabel "FWD" UNDEF 0 0] init_Asm));
      reflexivity.
Defined.

(** C3 as stated fails: with [FWD] still undefined, [-FWD], [!FWD]
    and [~FWD] are not [UNDEF]; nor is [FWD+1], where the undefined
    operand is the left one. *)
Lemma UNDEF_is_not_absorbing :
  eval_value (EvalOperand "FWD" 0 init_Asm) = Some UNDEF
  /\ eval_value (EvalOperand "-FWD" 0 init_Asm) = Some (-16711680)
  /\ eval_value (EvalOperand "!FWD" 0 init_Asm) = Some 0
  /\ eval_value (EvalOperand "~FWD" 0 init_Asm) = Some (-16711681)
  /\ eval_value (EvalOperand "FWD+1" 0 init_Asm) = Some 16711681
  /\ UNDEF = 16711680.
Proof. vm_compute. repeat split; reflexivity. Qed.

(** ** Conditional assembly *)

Lemma CheckCondition_at_level_9 (p : string) (s : Asm) :
  opens_condition p = true -> rd IfLevel s = 9 ->
  CheckCondition p s = Exit too_many_conditions.
Proof.
  unfold opens_condition, CheckCondition. cbv zeta.
  intros H HL. apply andb_prop in H as [H1 H2].
  apply negb_true_iff in H1. rewrite H1. cbn [andb].
  rewrite H2, rd_wr_same, HL. reflexivity.
Qed.

(** C9.  The guard [IfLevel > 9] stops the run at the tenth nested
    condition: a source with ten nested [if]s ends in the fatal error,
    one with nine is assembled, and any line that opens a condition
    at level 9 ends the run. *)
Theorem tenth_nested_condition_is_fatal :
  main ten_nested_ifs init_Asm = Exit too_many_conditions
  /\ (exists sf, main nine_nested_ifs init_Asm = Done sf /\ rd ErrNum sf = 0)
  /\ (forall (p : string) (s : Asm),
      opens_condition p = true -> rd IfLevel s = 9 ->
      CheckCondition p s = Exit too_many_conditions).
Proof.
  split; [vm_compute; reflexivity|]. split.
  - destruct (main nine_nested_ifs init_Asm) as [sf| | |] eqn:E;
      try (vm_compute in E; discriminate E).
    exists sf. split; [reflexivity|].
    assert (H : match main nine_nested_ifs init_Asm with
                | Done sf => rd ErrNum sf = 0
                | _ => False
                end) by (vm_compute; reflexivity).
    now rewrite E in H.
  - apply CheckCondition_at_level_9.
Qed.

Lemma tenth_nested_condition_witness :
  CheckCondition "ifdef FOO" (wr IfLevel 9 init_Asm) = Exit too_many_conditions.
Proof.
  apply (proj2 (proj2 tenth_nested_condition_is_fatal)); reflexivity.
Defined.

(** ** The register list of PSHS, PULS, PSHU and PULU *)

Lemma adv_append (a t : string) : adv (strlen a) (a ++ t) = t.
Proof. induction a as [|c a IH]; simpl; [reflexivity|exact IH]. Qed.

Lemma strlen_append (a t : string) :
  strlen (a ++ t) = (strlen a + strlen t)%nat.
Proof. induction a as [|c a IH]; simpl; [reflexivity|now rewrite <- IH]. Qed.

Lemma SkipSpace_lead (lead y : string) :
  all_chars isspace lead = true -> isspace (hd y) = false ->
  SkipSpace (lead ++ y) = y.
Proof.
  intros Hl Hy. induction lead as [|c lead IH].
  - destruct y as [|d y]; [reflexivity|]. simpl in *. now rewrite Hy.
  - simpl in Hl. apply andb_prop in Hl as [Hc Hl].
    simpl. rewrite Hc. now apply IH.
Qed.

(** *** Names in any case *)

Lemma upcase_cons (w : string) (X : ascii) (u : string) :
  upcase w = String X u ->
  exists c w', w = String c w' /\ toupper c = X /\ upcase w' = u.
Proof.
  destruct w as [|c w']; simpl; [discriminate|].
  intros H. injection H as H1 H2. now exists c, w'.
Qed.

Lemma upcase_nil (w : string) : upcase w = "" -> w = "".
Proof. destruct w; simpl; [reflexivity|discriminate]. Qed.

(** The two characters that [toupper] maps to a capital letter. *)
Lemma toupper_upper (c X : ascii) :
  isupper X = true -> toupper c = X ->
  c = X \/ c = chr (code X + 32).
Proof.
  each_char c; intros HX H; vm_compute in H; subst X;
    first [discriminate HX | left; reflexivity | right; reflexivity].
Qed.

Lemma isspace_cases (c : ascii) :
  isspace c = true ->
  c = " "%char \/ c = "009"%char \/ c = "010"%char \/ c = "011"%char
  \/ c = "012"%char \/ c = "013"%char.
Proof. each_char c; intros H; try discriminate H; auto 10. Qed.

(** The spellings of a word of capital letters, one case for each. *)
Ltac spell_out Hw :=
  repeat (apply upcase_cons in Hw as (?c & ?w & -> & ?Hc & Hw));
  apply upcase_nil in Hw as ->;
  repeat match goal with
         | H : toupper ?c = ?X |- _ =>
             destruct (toupper_upper c X eq_refl H) as [->| ->]; clear H
         end.

Lemma ends_word_cases (tail : string) :
  ends_word tail ->
  tail = ""
  \/ exists c t, tail = String c t
       /\ (c = ","%char \/ c = " "%char \/ c = "009"%char \/ c = "010"%char
           \/ c = "011"%char \/ c = "012"%char \/ c = "013"%char).
Proof.
  intros [H|(c & t & E & [H|H])]; [now left| |];
    right; exists c, t; split; try assumption; [now left|].
  right. now apply isspace_cases.
Qed.

(** A register name in any case, at the start of the text: the scan
    of the table from its end finds that register, the text is not
    [ALL], and it starts with a letter. *)
Lemma find_push_spelled (r : PushStruct) (w tail : string) :
  In r PushList -> upcase w = Reg r -> ends_word tail ->
  find_push (w ++ tail) = Some r
  /\ (strcmpword (w ++ tail) "ALL" =? 0) = false
  /\ is_char (hd (w ++ tail)) NUL = false
  /\ is_char (hd (w ++ tail)) apostrophe = false
  /\ isspace (hd (w ++ tail)) = false
  /\ strlen w = strlen (Reg r).
Proof.
  intros Hin Hw Ht. apply ends_word_cases in Ht.
  each_register Hin; cbn [Reg] in Hw; spell_out Hw;
    (destruct Ht as [->|(c & t & -> & Hc)];
     [|repeat (destruct Hc as [->|Hc]); try subst c]);
    repeat split; reflexivity.
Qed.

Lemma StrNCaseCmp_O (a b : string) : StrNCaseCmp a b 0 = 0.
Proof. destruct a; reflexivity. Qed.

Lemma StrNCaseCmp_ALL (c1 c2 c3 : ascii) (rest : string) :
  cmp_upper c1 "A" = 0 -> cmp_upper c2 "L" = 0 -> cmp_upper c3 "L" = 0 ->
  StrNCaseCmp (String c1 (String c2 (String c3 rest))) "ALL" 3 = 0.
Proof.
  intros H1 H2 H3. cbn [StrNCaseCmp]. rewrite H1, H2, H3.
  change (0 =? 0) with true. cbv iota. apply StrNCaseCmp_O.
Qed.

Lemma word_ALL (w rest : string) :
  upcase w = "ALL" -> isym (hd rest) = false ->
  ScanPushList (w ++ rest) = Done 0xff
  /\ is_char (hd (w ++ rest)) NUL = false
  /\ is_char (hd (w ++ rest)) apostrophe = false
  /\ isspace (hd (w ++ rest)) = false.
Proof.
  intros Hw Hr. spell_out Hw;
    (split; [|repeat split; reflexivity]);
    unfold ScanPushList, strcmpword;
    change (strlen "ALL") with 3%nat;
    cbn [String.append adv hd];
    rewrite StrNCaseCmp_ALL by reflexivity;
    rewrite Hr; reflexivity.
Qed.

(** *** The loop over the list *)

Lemma push_text_starts (xs : list pushed) :
  Forall well_spelled xs -> separated xs ->
  isspace (hd (push_text xs)) = false
  /\ (xs <> [] -> is_char (hd (push_text xs)) NUL = false
                  /\ is_char (hd (push_text xs)) apostrophe = false
                  /\ (strcmpword (push_text xs) "ALL" =? 0) = false).
Proof.
  intros H Hs. destruct H as [|x rest (Hin & Hw & Hg & Hc) Hrest];
    [split; [reflexivity|intros F; now contradiction F]|].
  cbn [push_text].
  assert (Ht : ends_word (p_gap x
                ++ match p_comma x with Some g => "," ++ g | None => "" end
                ++ push_text rest)).
  { destruct (p_gap x) as [|c g] eqn:Eg.
    - destruct (p_comma x) as [g2|] eqn:Ec.
      + right. eexists _, _. split; [reflexivity|now left].
      + destruct rest as [|y rest']; [now left|].
        cbn [separated] in Hs. rewrite Ec in Hs. now destruct Hs as [F _].
    - right. exists c, (g ++ match p_comma x with Some g0 => "," ++ g0
                                                | None => "" end
                         ++ push_text rest)%string.
      split; [reflexivity|]. right.
      simpl in Hg. now apply andb_prop in Hg as [Hg _]. }
  destruct (find_push_spelled _ _ _ Hin Hw Ht) as (_ & HA & HN & HP & HS & _).
  split; [exact HS|]. intros _. now repeat split.
Qed.

Lemma push_loop_spelled (xs : list pushed) :
  Forall well_spelled xs -> separated xs ->
  forall (n : nat) (v : Z),
    (strlen (push_text xs) <= n)%nat ->
    push_loop n (push_text xs) v = Done (push_mask (map p_reg xs) v).
Proof.
  induction 1 as [|x rest Hx Hrest IH]; intros Hs n v Hn.
  - destruct n; reflexivity.
  - assert (Hs' : separated rest).
    { destruct rest as [|y rest']; [exact I|]. exact (proj2 Hs). }
    destruct (push_text_starts rest Hrest Hs') as [Hnext _].
    destruct Hx as (Hin & Hw & Hg & Hc).
    cbn [push_text] in *.
    set (more := push_text rest) in *.
    set (sep := match p_comma x with Some g => ("," ++ g)%string
                                 | None => "" end) in *.
    (* the text behind the blanks after the name *)
    assert (Hsep : (sep = "" /\ more = "")
                   \/ exists g, p_comma x = Some g
                                /\ all_chars isspace g = true).
    { unfold sep. destruct (p_comma x) as [g|] eqn:Ec.
      - right. now exists g.
      - left. split; [reflexivity|]. unfold more.
        destruct rest as [|y rest']; [reflexivity|].
        cbn [separated] in Hs. rewrite Ec in Hs. now destruct Hs as [F _]. }
    assert (Hhead : isspace (hd (sep ++ more)) = false).
    { destruct Hsep as [[-> ->]|(g & Ec & _)]; [reflexivity|].
      unfold sep. rewrite Ec. reflexivity. }
    assert (Ht : ends_word (p_gap x ++ sep ++ more)).
    { destruct (p_gap x) as [|c g] eqn:Eg.
      - destruct Hsep as [[-> ->]|(g2 & Ec & _)]; [now left|].
        unfold sep. rewrite Ec.
        right. eexists _, _. split; [reflexivity|now left].
      - right. exists c, (g ++ sep ++ more)%string.
        split; [reflexivity|]. right.
        simpl in Hg. now apply andb_prop in Hg as [Hg' _]. }
    destruct (find_push_spelled _ _ _ Hin Hw Ht) as (Hf & _ & HN & _ & _ & Hl).
    rewrite !strlen_append in Hn.
    assert (L1 : (1 <= strlen (p_name x))%nat).
    { rewrite Hl. clear - Hin. each_register Hin; simpl; lia. }
    destruct n as [|n]; [lia|].
    cbn [push_loop]. rewrite HN, Hf. cbv iota.
    rewrite <- Hl, adv_append.
    rewrite (SkipSpace_lead _ _ Hg Hhead).
    destruct Hsep as [[E1 E2]|(g & Ec & Hg2)].
    + rewrite E1, E2. cbn [String.append hd]. 
      change (negb (is_char NUL ",") && negb (is_char NUL NUL)) with false.
      cbv iota. change (is_char NUL ",") with false. cbv iota.
      cbn [SkipSpace]. rewrite <- E2. apply IH; [exact Hs'|].
      fold more. rewrite E2. simpl. lia.
    + unfold sep in *. rewrite Ec in *.
      cbn [String.append hd].
      change (negb (is_char "," ",") && negb (is_char "," NUL)) with false.
      cbv iota. change (is_char "," ",") with true. cbv iota.
      cbn [adv]. rewrite (SkipSpace_lead _ _ Hg2 Hnext).
      apply IH; [exact Hs'|].
      fold more. simpl in Hn. lia.
Qed.

(** [ScanPushList] on every operand that it accepts. *)
Lemma ScanPushList_accepts (T : string) (b : Z) :
  push_operand T b -> ScanPushList T = Done b.
Proof.
  intros [(w & rest & -> & Hw & Hr & ->)|(xs & -> & Hxs & Hs & ->)].
  - now apply word_ALL.
  - unfold ScanPushList.
    destruct xs as [|x rest]; [reflexivity|].
    destruct (push_text_starts _ Hxs Hs) as [_ H].
    destruct (H ltac:(discriminate)) as (_ & _ & ->).
    now apply push_loop_spelled.
Qed.

Lemma push_operand_starts (T : string) (b : Z) :
  push_operand T b ->
  isspace (hd T) = false
  /\ (T <> "" -> is_char (hd T) NUL = false
                 /\ is_char (hd T) apostrophe = false).
Proof.
  intros [(w & rest & -> & Hw & Hr & ->)|(xs & -> & Hxs & Hs & ->)].
  - destruct (word_ALL w rest Hw Hr) as (_ & H1 & H2 & H3). now repeat split.
  - destruct (push_text_starts _ Hxs Hs) as [H0 H]. split; [exact H0|].
    intros Hne. destruct xs as [|x rest]; [now contradiction Hne|].
    destruct (H ltac:(discriminate)) as (H1 & H2 & _). now split.
Qed.

Lemma push_mask_byte (rs : list PushStruct) :
  Forall (fun r => In r PushList) rs ->
  forall v, Z.land v 0xff = v -> Z.land (push_mask rs v) 0xff = push_mask rs v.
Proof.
  induction 1 as [|r rest Hr Hrest IH]; intros v Hv; simpl; [exact Hv|].
  apply IH. rewrite Z.land_lor_distr_l, Hv. f_equal.
  each_register Hr; reflexivity.
Qed.

Lemma push_operand_byte (T : string) (b : Z) :
  push_operand T b -> Z.land b 0xff = b.
Proof.
  intros [(w & rest & -> & Hw & Hr & ->)|(xs & -> & Hxs & Hs & ->)];
    [reflexivity|].
  apply push_mask_byte; [|reflexivity].
  apply Forall_map. apply Forall_impl with (2 := Hxs).
  intros x Hx. exact (proj1 Hx).
Qed.

(** ** Inserting the code of an instruction in pass 2 *)

Lemma agrees_refl (a : Z) (s : Asm) : agrees a 0 s s.
Proof. split; reflexivity. Qed.

Lemma agrees_trans (a n m : Z) (s s1 s2 : Asm) :
  0 <= n -> 0 <= m ->
  agrees a n s s1 -> agrees (a + n) m s1 s2 -> agrees a (n + m) s s2.
Proof.
  intros Hn Hm [I1 A1] [I2 A2]. split.
  - intros x. now rewrite I2, I1.
  - intros arr j Hj. rewrite A2, A1 by lia. reflexivity.
Qed.

(** A [Put] that finds the byte unlocked, or holding the value. *)
Lemma Put_agrees (a b : Z) (s : Asm) :
  rda LOCK a s = 0 \/ rda ROM a s = Z.land b 0xff ->
  exists s', Put a b s = Done s'
             /\ agrees a 1 s s'
             /\ rda ROM a s' = Z.land b 0xff.
Proof.
  intros H.
  exists (wra LOCK a 1 (wra ROM a (Z.land b 0xff) s)).
  split; [destruct H; [now apply Put_unlocked|now apply Put_same_value]|].
  split.
  - split; [reflexivity|].
    intros arr j Hj. rewrite !rda_wra_idx by lia. reflexivity.
  - rewrite rda_wra_arr by discriminate. apply rda_wra_same.
Qed.

Lemma put_nops_free (n : nat) :
  forall (ibi : Z) (s : Asm),
    (forall k, 0 <= k < Z.of_nat n -> rda LOCK (rd pc s + ibi + k) s = 0) ->
    exists s', put_nops n ibi s = Done (ibi + Z.of_nat n, s')
               /\ agrees (rd pc s + ibi) (Z.of_nat n) s s'
               /\ (forall k, 0 <= k < Z.of_nat n ->
                             rda ROM (rd pc s + ibi + k) s' = 0x12).
Proof.
  induction n as [|n IH]; intros ibi s Hfree.
  - exists s. simpl. rewrite Z.add_0_r. split; [reflexivity|].
    split; [apply agrees_refl|]. intros k Hk. lia.
  - destruct (Put_agrees (rd pc s + ibi) 0x12 s) as [s1 [HP [[I1 A1] R1]]].
    { left. rewrite <- (Z.add_0_r (rd pc s + ibi)). apply Hfree. lia. }
    destruct (IH (ibi + 1) s1) as [s2 [HN [[I2 A2] R2]]].
    { intros k Hk. rewrite I1, A1 by lia.
      replace (rd pc s + (ibi + 1) + k) with (rd pc s + ibi + (k + 1)) by lia.
      apply Hfree. lia. }
    exists s2. simpl put_nops. rewrite HP. cbn [bind]. rewrite HN.
    split; [f_equal; f_equal; lia|].
    rewrite I1 in *.
    split.
    + split.
      * intros x. now rewrite I2, I1.
      * intros arr j Hj. rewrite A2, A1 by lia. reflexivity.
    + intros k Hk. destruct (Z.eq_dec k 0) as [->|Hk0].
      * rewrite A2 by lia. rewrite Z.add_0_r. exact R1.
      * replace (rd pc s + ibi + k) with (rd pc s + (ibi + 1) + (k - 1)) by lia.
        apply R2. lia.
Qed.

Lemma Put_free_agrees (a b : Z) (s : Asm) :
  rda LOCK a s = 0 ->
  exists s', Put a b s = Done s' /\ agrees a 1 s s'
             /\ rda ROM a s' = Z.land b 0xff.
Proof. intros H. apply Put_agrees. now left. Qed.

Lemma insert_opcode_ok (s : Asm) :
  opcode_writable s ->
  exists s', insert_opcode s = Done (opcode_length (rd oc s), s')
             /\ agrees (rd pc s) (opcode_length (rd oc s)) s s'
             /\ rda ROM (rd pc s) s' = opcode_byte (rd oc s).
Proof.
  unfold opcode_writable, insert_opcode, opcode_length, opcode_byte.
  destruct (255 <? rd oc s); simpl b2i.
  - intros [H0 H1].
    destruct (Put_agrees _ _ _ H0) as [s1 [-> [[I1 A1] R1]]]. cbn [bind].
    destruct (Put_agrees (rd pc s + 1) (rd oc s) s1) as [s2 [-> [G _]]].
    { rewrite !A1 by lia. exact H1. }
    cbn [bind]. exists s2. split; [reflexivity|]. split.
    + apply (agrees_trans (rd pc s) 1 1 s s1 s2); try lia; [now split|exact G].
    + destruct G as [_ A2]. rewrite A2 by lia. exact R1.
  - intros H0.
    destruct (Put_agrees _ _ _ H0) as [s1 [-> [G R1]]]. cbn [bind].
    exists s1. split; [reflexivity|]. split; [exact G|exact R1].
Qed.

Lemma insert_postbyte_ok (ibi : Z) (s : Asm) :
  (0 <= rd pb s -> rda LOCK (rd pc s + ibi) s = 0) ->
  exists s', insert_postbyte ibi s = Done (ibi + b2i (0 <=? rd pb s), s')
             /\ agrees (rd pc s + ibi) (b2i (0 <=? rd pb s)) s s'
             /\ (0 <= rd pb s ->
                 rda ROM (rd pc s + ibi) s' = Z.land (rd pb s) 0xff).
Proof.
  unfold insert_postbyte. intros H.
  destruct (0 <=? rd pb s) eqn:E; simpl b2i.
  - apply Z.leb_le in E.
    destruct (Put_free_agrees _ (rd pb s) _ (H E)) as [s1 [-> [G R]]].
    cbn [bind]. exists s1. split; [reflexivity|]. split; [exact G|now intros _].
  - exists s. rewrite Z.add_0_r. split; [reflexivity|].
    split; [apply agrees_refl|]. apply Z.leb_gt in E. lia.
Qed.

Lemma insert_value32_ok (v ibi : Z) (s : Asm) :
  (rd ql s = 4 -> forall k, 0 <= k < 4 -> rda LOCK (rd pc s + ibi + k) s = 0) ->
  exists s', insert_value32 v ibi s = Done (ibi + len_if (rd ql s =? 4) 4, s')
             /\ agrees (rd pc s + ibi) (len_if (rd ql s =? 4) 4) s s'.
Proof.
  unfold insert_value32, len_if. intros H.
  destruct (rd ql s =? 4) eqn:E.
  - apply Z.eqb_eq in E. specialize (H E).
    destruct (Put_free_agrees (rd pc s + ibi) (Z.shiftr v 24) s)
      as [s1 [-> [[I1 A1] _]]].
    { rewrite <- (Z.add_0_r (rd pc s + ibi)). apply H. lia. }
    cbn [bind].
    destruct (Put_free_agrees (rd pc s + (ibi + 1)) (Z.shiftr v 16) s1)
      as [s2 [-> [[I2 A2] _]]].
    { rewrite A1 by lia. rewrite Z.add_assoc. apply H. lia. }
    cbn [bind].
    destruct (Put_free_agrees (rd pc s + (ibi + 2)) (Z.shiftr v 8) s2)
      as [s3 [-> [[I3 A3] _]]].
    { rewrite A2, A1 by lia. rewrite Z.add_assoc. apply H. lia. }
    cbn [bind].
    destruct (Put_free_agrees (rd pc s + (ibi + 3)) v s3)
      as [s4 [-> [[I4 A4] _]]].
    { rewrite A3, A2, A1 by lia. rewrite Z.add_assoc. apply H. lia. }
    cbn [bind]. exists s4. split; [reflexivity|]. split.
    + intros x. now rewrite I4, I3, I2, I1.
    + intros arr j Hj. rewrite A4, A3, A2, A1 by lia. reflexivity.
  - exists s. rewrite Z.add_0_r. split; [reflexivity|apply agrees_refl].
Qed.

Lemma insert_value16_ok (v ibi : Z) (s : Asm) :
  (rd ql s = 2 -> -32768 <= v <= 0xffff
                  /\ forall k, 0 <= k < 2 -> rda LOCK (rd pc s + ibi + k) s = 0) ->
  exists s', insert_value16 v ibi s = Done (ibi + len_if (rd ql s =? 2) 2, s')
             /\ agrees (rd pc s + ibi) (len_if (rd ql s =? 2) 2) s s'.
Proof.
  unfold insert_value16, len_if. intros H.
  destruct (rd ql s =? 2) eqn:E.
  - apply Z.eqb_eq in E. destruct (H E) as [Hv Hf].
    replace ((65535 <? v) || (v <? -32768)) with false
      by (symmetry; apply orb_false_iff; split; apply Z.ltb_ge; lia).
    destruct (Put_free_agrees (rd pc s + ibi) (Z.shiftr v 8) s)
      as [s1 [-> [[I1 A1] _]]].
    { rewrite <- (Z.add_0_r (rd pc s + ibi)). apply Hf. lia. }
    cbn [bind].
    destruct (Put_free_agrees (rd pc s + (ibi + 1)) v s1)
      as [s2 [-> [[I2 A2] _]]].
    { rewrite A1 by lia. rewrite Z.add_assoc. apply Hf. lia. }
    cbn [bind]. exists s2. split; [reflexivity|]. split.
    + intros x. now rewrite I2, I1.
    + intros arr j Hj. rewrite A2, A1 by lia. reflexivity.
  - exists s. rewrite Z.add_0_r. split; [reflexivity|apply agrees_refl].
Qed.

Lemma insert_value8_ok (v ibi : Z) (s : Asm) :
  (rd ql s = 1 -> -128 <= byte_operand (rd DP s) v <= 255
                  /\ rda LOCK (rd pc s + ibi) s = 0) ->
  exists s', insert_value8 v ibi s = Done (ibi + len_if (rd ql s =? 1) 1, s')
             /\ agrees (rd pc s + ibi) (len_if (rd ql s =? 1) 1) s s'.
Proof.
  unfold insert_value8, len_if. intros H.
  destruct (rd ql s =? 1) eqn:E.
  - apply Z.eqb_eq in E. destruct (H E) as [Hv Hf].
    cbv zeta.
    replace ((255 <? byte_operand (rd DP s) v) || (byte_operand (rd DP s) v <? -128))
      with false
      by (symmetry; apply orb_false_iff; split; apply Z.ltb_ge; lia).
    destruct (Put_free_agrees (rd pc s + ibi) (byte_operand (rd DP s) v) s Hf)
      as [s1 [-> [G _]]].
    cbn [bind]. exists s1. split; [reflexivity|exact G].
  - exists s. rewrite Z.add_0_r. split; [reflexivity|apply agrees_refl].
Qed.

Lemma Synchronize_facts (s : Asm) :
  let s' := Synchronize s in
  rd pc s' = rd pc s /\ rd oc s' = rd oc s /\ rd pb s' = rd pb s
  /\ rd ql s' = rd ql s /\ rd DP s' = rd DP s /\ rd Phase s' = rd Phase s
  /\ rd ErrNum s' = rd ErrNum s
  /\ rd nops s' = rda ADL (rd pc s) s - rd il s
  /\ rd il s' = rda ADL (rd pc s) s
  /\ (forall j, rda ROM j s' = rda ROM j s)
  /\ (forall j, j <> rd pc s -> rda LOCK j s' = rda LOCK j s)
  /\ (rda LOCK (rd pc s) s' = 0 \/ rda LOCK (rd pc s) s' = rda LOCK (rd pc s) s).
Proof.
  unfold Synchronize. cbv zeta.
  set (s1 := wr il _ (wr nops _ s)).
  assert (E : rd nops s1 = rda ADL (rd pc s) s - rd il s) by reflexivity.
  destruct (truthy (rd nops s1)); repeat split; try reflexivity; auto.
  - intros j Hj. now rewrite rda_wra_idx.
  - left. apply rda_wra_same.
Qed.

Lemma Synchronize_frame (s : Asm) (arr : avar) (j : Z) :
  j <> rd pc s -> rda arr j (Synchronize s) = rda arr j s.
Proof.
  intros Hj. unfold Synchronize. cbv zeta.
  destruct (truthy _); [|reflexivity].
  rewrite rda_wra_idx by exact Hj. reflexivity.
Qed.

Lemma len_if_ql (q : Z) :
  In q [0; 1; 2; 4] ->
  len_if (q =? 4) 4 + len_if (q =? 2) 2 + len_if (q =? 1) 1 = q.
Proof.
  simpl. intros [<-|[<-|[<-|[<-|[]]]]]; reflexivity.
Qed.

Lemma insert_fills_the_slot (v : Z) (s : Asm) :
  In (rd ql s) [0; 1; 2; 4] ->
  rd il s = encoded_length s ->
  rd il s <= rda ADL (rd pc s) s ->
  (v <> UNDEF \/ rd ql s = 0) ->
  (rd ql s = 2 -> -32768 <= v <= 0xffff) ->
  (rd ql s = 1 -> -128 <= byte_operand (rd DP s) v <= 255) ->
  opcode_writable s ->
  (forall k, opcode_length (rd oc s) <= k < rda ADL (rd pc s) s ->
             rda LOCK (rd pc s + k) s = 0) ->
  exists s',
    GenerateCode_insert v s = Done (rda ADL (rd pc s) s, s')
    /\ (forall k, rd il s <= k < rda ADL (rd pc s) s ->
                  rda ROM (rd pc s + k) s' = 0x12)
    /\ (forall arr j, ~ (rd pc s <= j < rd pc s + rda ADL (rd pc s) s) ->
                      rda arr j s' = rda arr j s)
    /\ rda ROM (rd pc s) s' = opcode_byte (rd oc s)
    /\ (0 <= rd pb s ->
        rda ROM (rd pc s + opcode_length (rd oc s)) s' = Z.land (rd pb s) 0xff)
    /\ rd il s' = rda ADL (rd pc s) s
    /\ rd pc s' = rd pc s /\ rd Phase s' = rd Phase s
    /\ rd ErrNum s' = rd ErrNum s.
Proof.
  intros Hql Hil HL Hv Hv16 Hv8 Hop Hfree.
  set (P := rd pc s) in *. set (L := rda ADL P s) in *.
  assert (Hol : 1 <= opcode_length (rd oc s) <= 2)
    by (unfold opcode_length; destruct (255 <? rd oc s); simpl; lia).
  assert (Hpb : 0 <= b2i (0 <=? rd pb s) <= 1)
    by (destruct (0 <=? rd pb s); simpl; lia).
  assert (Hq0 : 0 <= rd ql s <= 4)
    by (simpl in Hql; destruct Hql as [<-|[<-|[<-|[<-|[]]]]]; lia).
  destruct (Synchronize_facts s)
    as (Spc & Soc & Spb & Sql & SDP & SPh & SErr & Snops & Sil & SROM & SLOCK & SP).
  fold P in Spc, Snops, Sil, SLOCK, SP. fold L in Snops, Sil.
  unfold GenerateCode_insert. cbv zeta.
  set (sa := Synchronize s) in *.
  replace ((v =? UNDEF) && (0 <? rd ql sa)) with false.
  2:{ symmetry. rewrite Sql. destruct Hv as [Hv|Hv].
      - apply Z.eqb_neq in Hv. now rewrite Hv.
      - rewrite Hv. apply andb_false_r. }
  (* opcode *)
  destruct (insert_opcode_ok sa) as [s1 [-> [[I1 A1] R1]]].
  { unfold opcode_writable in *. rewrite Spc, Soc, !SROM.
    destruct (255 <? rd oc s).
    - destruct Hop as [H0 H1]. split.
      + destruct SP as [SP|SP]; [now left|]. now rewrite SP.
      + rewrite SLOCK by lia. exact H1.
    - destruct SP as [SP|SP]; [now left|]. now rewrite SP. }
  cbn [bind]. rewrite Spc, Soc in *.
  set (ol0 := opcode_length (rd oc s)) in *.
  assert (F : forall s2 n, agrees P n sa s2 ->
              forall k, n <= k < L -> ol0 <= k -> rda LOCK (P + k) s2 = 0).
  { intros s2 n [_ A] k Hk Hk'. rewrite A by lia. rewrite SLOCK by lia.
    apply Hfree. lia. }
  (* post byte *)
  destruct (insert_postbyte_ok ol0 s1) as [s2 [-> [G2 R2]]].
  { rewrite !I1, Spb, Spc. intros Hp.
    apply (F s1 ol0 (conj I1 A1)); [|lia].
    unfold encoded_length in Hil. fold ol0 in Hil.
    apply Z.leb_le in Hp. rewrite Hp in Hil. simpl b2i in Hil. lia. }
  cbn [bind]. rewrite !I1, Spb, Spc in *.
  set (pl0 := b2i (0 <=? rd pb s)) in *.
  assert (G2' : agrees P (ol0 + pl0) sa s2)
    by (apply (agrees_trans P ol0 pl0 sa s1 s2); try lia; [now split|exact G2]).
  destruct G2' as [I2 A2].
  unfold encoded_length in Hil. fold ol0 pl0 in Hil.
  (* 32 bit value *)
  destruct (insert_value32_ok v (ol0 + pl0) s2) as [s3 [-> G3]].
  { rewrite !I2, Sql, Spc. intros Hq k Hk.
    rewrite <- Z.add_assoc. apply (F s2 (ol0 + pl0) (conj I2 A2)); lia. }
  cbn [bind]. rewrite !I2, Sql, Spc in *.
  set (q4 := len_if (rd ql s =? 4) 4) in *.
  assert (Hq4 : 0 <= q4) by (unfold q4, len_if; destruct (rd ql s =? 4); lia).
  assert (G3' : agrees P (ol0 + pl0 + q4) sa s3)
    by (apply (agrees_trans P (ol0 + pl0) q4 sa s2 s3); try lia;
        [now split|exact G3]).
  destruct G3' as [I3 A3].
  (* 16 bit value *)
  destruct (insert_value16_ok v (ol0 + pl0 + q4) s3) as [s4 [-> G4]].
  { rewrite !I3, Sql, Spc. intros Hq. split; [now apply Hv16|].
    intros k Hk. rewrite <- Z.add_assoc.
    assert (q4 = 0) by (unfold q4; rewrite Hq; reflexivity).
    apply (F s3 (ol0 + pl0 + q4) (conj I3 A3)); lia. }
  cbn [bind]. rewrite !I3, Sql, Spc in *.
  set (q2 := len_if (rd ql s =? 2) 2) in *.
  assert (Hq2 : 0 <= q2) by (unfold q2, len_if; destruct (rd ql s =? 2); lia).
  assert (G4' : agrees P (ol0 + pl0 + q4 + q2) sa s4)
    by (apply (agrees_trans P (ol0 + pl0 + q4) q2 sa s3 s4); try lia;
        [now split|exact G4]).
  destruct G4' as [I4 A4].
  (* 8 bit value *)
  destruct (insert_value8_ok v (ol0 + pl0 + q4 + q2) s4) as [s5 [-> G5]].
  { rewrite !I4, Sql, SDP, Spc. intros Hq. split; [now apply Hv8|].
    assert (q4 = 0) by (unfold q4; rewrite Hq; reflexivity).
    assert (q2 = 0) by (unfold q2; rewrite Hq; reflexivity).
    apply (F s4 (ol0 + pl0 + q4 + q2) (conj I4 A4)); lia. }
  cbn [bind]. rewrite !I4, Sql, Spc in *.
  set (q1 := len_if (rd ql s =? 1) 1) in *.
  assert (Hq1 : 0 <= q1) by (unfold q1, len_if; destruct (rd ql s =? 1); lia).
  assert (G5' : agrees P (ol0 + pl0 + q4 + q2 + q1) sa s5)
    by (apply (agrees_trans P (ol0 + pl0 + q4 + q2) q1 sa s4 s5); try lia;
        [now split|exact G5]).
  destruct G5' as [I5 A5].
  assert (Elen : ol0 + pl0 + q4 + q2 + q1 = rd il s).
  { pose proof (len_if_ql _ Hql). fold q4 q2 q1 in H. lia. }
  rewrite Elen in *.
  (* NOP *)
  destruct (put_nops_free (Z.to_nat (rd nops s5)) (rd il s) s5)
    as [s6 [HN [[I6 A6] R6]]].
  { rewrite !I5, Snops, Spc. intros k Hk.
    rewrite <- Z.add_assoc.
    apply (F s5 (rd il s) (conj I5 A5)); lia. }
  rewrite HN. rewrite !I5, Snops, Spc in *.
  rewrite Z2Nat.id in * by lia.
  exists s6. split; [f_equal; f_equal; lia|].
  split; [|split; [|split; [|split; [|repeat split]]]].
  - intros k Hk.
    replace (P + k) with (P + rd il s + (k - rd il s)) by lia.
    apply R6. lia.
  - intros arr j Hj. rewrite A6, A5 by lia.
    apply Synchronize_frame. fold P. lia.
  - assert (Hil1 : 1 <= rd il s) by lia.
    rewrite A6 by lia.
    rewrite (proj2 G5) by zlia. rewrite (proj2 G4) by zlia.
    rewrite (proj2 G3) by zlia. rewrite (proj2 G2) by zlia.
    exact R1.
  - intros Hp. specialize (R2 Hp).
    assert (pl0 = 1) by (unfold pl0; apply Z.leb_le in Hp; now rewrite Hp).
    rewrite A6 by zlia.
    rewrite (proj2 G5) by zlia. rewrite (proj2 G4) by zlia.
    rewrite (proj2 G3) by zlia.
    exact R2.
  - now rewrite I6, I5.
  - now rewrite I6, I5.
  - now rewrite I6, I5.
  - now rewrite I6, I5.
Qed.

(** The end of [GenerateCode] in pass 2, once the bytes are stored:
    a length between 1 and 5 that stays below 64 KB moves [pc] on. *)
Lemma finish_after_insert (v : Z) (s s' : Asm) (L : Z) :
  rd Phase s = 2 ->
  GenerateCode_insert v s = Done (L, s') ->
  rd il s' = L -> rd pc s' = rd pc s ->
  1 <= L <= 5 -> rd pc s + L <= 0xffff ->
  GenerateCode_finish v s = Done (wr pc (rd pc s + L) s').
Proof.
  intros HPh HI Eil Epc HL Hpc.
  unfold GenerateCode_finish. rewrite HPh. simpl Z.eqb. cbn [bind].
  rewrite HPh. simpl Z.eqb. cbv iota.
  rewrite HI. cbn [bind].
  rewrite Eil.
  replace ((L <? 1) || (5 <? L)) with false
    by (symmetry; apply orb_false_iff; split; apply Z.ltb_ge; lia).
  rewrite Eil, Epc.
  replace (65535 <? rd pc s + L) with false
    by (symmetry; apply Z.ltb_ge; lia).
  reflexivity.
Qed.

Lemma encoded_length_pos (s : Asm) :
  In (rd ql s) [0; 1; 2; 4] -> 1 <= encoded_length s.
Proof.
  intros Hql. unfold encoded_length, opcode_length.
  simpl in Hql.
  destruct (255 <? rd oc s), (0 <=? rd pb s); simpl;
    destruct Hql as [<-|[<-|[<-|[<-|[]]]]]; lia.
Qed.




(* ================================================================= *)
(** ** The post byte of the push and pull instructions *)

Lemma OpText_wr (x : ivar) (v : Z) (s : Asm) : OpText (wr x v s) = OpText s.
Proof. reflexivity. Qed.

(** [GenerateCode] in pass 2 for [Mat[45..48]], whose register form
    has the opcodes [0x34 .. 0x37], on an operand that [ScanPushList]
    accepts. *)
Lemma GenerateCode_push_pull (s : Asm) (k b : Z) :
  45 <= k <= 48 ->
  rd MneIndex s = k ->
  is_char (hd (OpText s)) NUL = false ->
  is_char (hd (OpText s)) apostrophe = false ->
  ScanPushList (SkipSpace (OpText s)) = Done b ->
  Z.land b 0xff = b ->
  rd Phase s = 2 ->
  0 <= rd pc s -> rd pc s + 2 <= 0xffff ->
  rda ADL (rd pc s) s = 2 ->
  (rda LOCK (rd pc s) s = 0 \/ rda ROM (rd pc s) s = k + 7) ->
  rda LOCK (rd pc s + 1) s = 0 ->
  exists s',
    GenerateCode s = Done s'
    /\ rda ROM (rd pc s) s' = k + 7
    /\ rda ROM (rd pc s + 1) s' = b
    /\ rd pc s' = rd pc s + 2.
Proof.
  intros Hk HM Hnul Hapo Hscan Hb HPh Hpc0 Hpc HADL HL0 HL1.
  assert (Hb0 : 0 <= b).
  { rewrite <- Hb. change 0xff with (Z.ones 8). rewrite Z.land_ones by lia.
    apply Z.mod_pos_bound. lia. }
  (* the state that the push/pull branch hands to the end of GenerateCode *)
  set (sp := wr pb b (wr il 2 (wr ol 1 (wr oc (k + 7)
              (wr oc (-1) (wr ql 0 (wr pb (-1) s))))))).
  assert (E : GenerateCode s = GenerateCode_finish UNDEF sp).
  { unfold GenerateCode. cbv zeta.
    assert (Hcases : k = 45 \/ k = 46 \/ k = 47 \/ k = 48) by lia.
    unfold sp.
    rewrite !rd_wr_other by reflexivity.
    replace (rd pc s <? 0) with false by (symmetry; apply Z.ltb_ge; lia).
    destruct Hcases as [-> | [-> | [-> | ->]]];
      repeat (rewrite ?OpText_wr, ?rd_wr_same, ?HM;
              rewrite ?rd_wr_other by reflexivity;
              rewrite ?Hnul, ?Hapo, ?Hscan;
              cbv beta iota zeta
                  delta [Mat_Opc Mat_at Mat nth Opc Mne Z.to_nat Pos.to_nat
                         Pos.iter_op Nat.add AM_Inherent AM_Register
                         opcode_length b2i bind andb orb negb is_char hd adv
                         code N_of_ascii N_of_digits Z.of_N Z.eqb Z.leb Z.ltb
                         Z.compare Pos.compare Pos.compare_cont Pos.eqb N.add N.mul
                         Pos.add Pos.succ Pos.mul Z.add Z.pos_sub Z.opp
                         Z.double Z.succ_double Z.pred_double Pos.pred_double]);
      reflexivity. }
  rewrite E.
  assert (Enc : (255 <? k + 7) = false) by (apply Z.ltb_ge; lia).
  assert (Eol : opcode_length (k + 7) = 1)
    by (unfold opcode_length; rewrite Enc; reflexivity).
  assert (H2 : In (rd ql sp) [0; 1; 2; 4]) by (left; reflexivity).
  assert (H3 : rd il sp = encoded_length sp).
  { unfold encoded_length.
    change (rd il sp) with 2. change (rd oc sp) with (k + 7).
    change (rd pb sp) with b. change (rd ql sp) with 0.
    replace (0 <=? b) with true by (symmetry; apply Z.leb_le; lia).
    rewrite Eol. reflexivity. }
  assert (H4 : rd il sp <= rda ADL (rd pc sp) sp).
  { change (rd il sp) with 2. change (rd pc sp) with (rd pc s).
    change (rda ADL (rd pc s) sp) with (rda ADL (rd pc s) s). lia. }
  assert (H6 : UNDEF <> UNDEF \/ rd ql sp = 0) by (right; reflexivity).
  assert (H7 : rd ql sp = 2 -> -32768 <= UNDEF <= 0xffff)
    by (intros H; discriminate H).
  assert (H8 : rd ql sp = 1 -> -128 <= byte_operand (rd DP sp) UNDEF <= 255)
    by (intros H; discriminate H).
  assert (Ebyte : Z.land (k + 7) 255 = k + 7).
  { change 255 with (Z.ones 8). rewrite Z.land_ones by lia.
    apply Z.mod_small. lia. }
  assert (H9 : opcode_writable sp).
  { unfold opcode_writable.
    change (rd oc sp) with (k + 7). change (rd pc sp) with (rd pc s).
    rewrite Enc.
    change (rda LOCK (rd pc s) sp) with (rda LOCK (rd pc s) s).
    change (rda ROM (rd pc s) sp) with (rda ROM (rd pc s) s).
    rewrite Ebyte. exact HL0. }
  assert (H10 : forall j, opcode_length (rd oc sp) <= j < rda ADL (rd pc sp) sp ->
                          rda LOCK (rd pc sp + j) sp = 0).
  { intros j Hj.
    change (rd oc sp) with (k + 7) in Hj. change (rd pc sp) with (rd pc s) in *.
    change (rda ADL (rd pc s) sp) with (rda ADL (rd pc s) s) in Hj.
    rewrite Eol in Hj.
    assert (j = 1) by lia. subst j. exact HL1. }
  destruct (insert_fills_the_slot UNDEF sp H2 H3 H4 H6 H7 H8 H9 H10)
    as (s' & HI & _ & _ & Hopc & Hpost & Eil & Epc & _ & _).
  change (rd pc sp) with (rd pc s) in *.
  change (rda ADL (rd pc s) sp) with (rda ADL (rd pc s) s) in *.
  change (rd oc sp) with (k + 7) in *.
  change (rd pb sp) with b in *.
  rewrite HADL in *.
  exists (wr pc (rd pc s + 2) s').
  split; [|split; [|split]].
  - apply (finish_after_insert UNDEF sp s' 2); try assumption; lia.
  - rewrite rda_wr, Hopc. unfold opcode_byte. rewrite Enc. exact Ebyte.
  - rewrite rda_wr. rewrite Eol in Hpost. rewrite (Hpost Hb0). exact Hb.
  - apply rd_wr_same.
Qed.


(** ** The branch optimizer *)

Lemma land_0xff (z : Z) : Z.land z 0xff = z mod 256.
Proof. change 0xff with (Z.ones 8). now rewrite Z.land_ones. Qed.


Lemma may_shorten_test (s : Asm) :
  may_shorten s ->
  (rd Phase s =? 1) || ((rd Phase s =? 2) && (rda ADL (rd pc s) s =? 2)) = true.
Proof.
  intros [H|[H1 H2]].
  - now rewrite H.
  - now rewrite H1, H2.
Qed.

Lemma may_shorten_test_false (s : Asm) :
  ~ may_shorten s ->
  (rd Phase s =? 1) || ((rd Phase s =? 2) && (rda ADL (rd pc s) s =? 2)) = false.
Proof.
  intros H. unfold may_shorten in H.
  destruct (rd Phase s =? 1) eqn:E1; [apply Z.eqb_eq in E1; tauto|].
  destruct (rd Phase s =? 2) eqn:E2; [|reflexivity].
  destruct (rda ADL (rd pc s) s =? 2) eqn:E3; [|reflexivity].
  apply Z.eqb_eq in E2, E3. tauto.
Qed.

(** The two tests [v >= -128 && v < 0] and [Phase == 1 || (Phase == 2
    && ADL[pc] == 2)] of the shortening blocks. *)
Lemma shorten_test_false (v : Z) (s : Asm) :
  ~ (-128 <= v < 0 /\ may_shorten s) ->
  forall b : bool,
    (-128 <=? v) && (v <? 0) && b
    && ((rd Phase s =? 1) || ((rd Phase s =? 2) && (rda ADL (rd pc s) s =? 2)))
    = false.
Proof.
  intros H b.
  destruct (-128 <=? v) eqn:E1; [|reflexivity].
  destruct (v <? 0) eqn:E2; [|reflexivity].
  apply Z.leb_le in E1. apply Z.ltb_lt in E2.
  rewrite may_shorten_test_false by tauto.
  apply andb_false_r.
Qed.




(** The displacement is computed before the block, [v -= (pc + il)]
    with the length of the long form, and the block changes the length
    but not [v]: with the optimizer on, [LBEQ $1000] at [$1001] is
    shortened to [BEQ] and stored as [27 FB], five bytes back from
    [$1003], where the branch to [$1000] is [27 FD]. *)
Lemma shortened_branch_keeps_the_long_displacement :
  match main backward_long_branch (wr Optimize 1 init_Asm) with
  | Done s =>
      map (fun a => rda ROM a s) [0x1000; 0x1001; 0x1002] = [0x12; 0x27; 0xfb]
      /\ rd pc s = 0x1003 /\ rd ErrNum s = 0
  | _ => False
  end.
Proof. vm_compute. repeat split; reflexivity. Qed.

(** ** S-records *)

Lemma byte_total_app (l m : list Z) :
  byte_total (l ++ m) = byte_total l + byte_total m.
Proof. induction l as [|b l IH]; simpl; [reflexivity|]. rewrite IH. lia. Qed.

(** The sum that [WriteS19Line] accumulates in [Checksum]. *)
Lemma sum_bytes_from (l : list Z) :
  forall a, fold_left Z.add l a = a + byte_total l.
Proof.
  induction l as [|b l IH]; intros a; simpl; [lia|]. rewrite IH. lia.
Qed.

Lemma sum_bytes_total (l : list Z) : sum_bytes l = byte_total l.
Proof. unfold sum_bytes. now rewrite sum_bytes_from. Qed.

Lemma firstn_bytes (n : nat) (l : list Z) :
  Forall is_byte l -> Forall is_byte (firstn n l).
Proof.
  intros H. revert n. induction H as [|b l Hb _ IH]; intros [|n]; simpl;
    constructor; auto.
Qed.

Lemma ROM_bytes_are_bytes (s : Asm) :
  (forall a, is_byte (rda ROM a s)) ->
  forall n a, Forall is_byte (ROM_bytes n a s).
Proof.
  intros H n. induction n as [|n IH]; intros a; simpl; constructor; auto.
Qed.

Lemma ROM_bytes_length (s : Asm) (n : nat) :
  forall a, List.length (ROM_bytes n a s) = n.
Proof. induction n as [|n IH]; intros a; simpl; [reflexivity|]. now rewrite IH. Qed.

Lemma bytes_of_length (t : string) : List.length (bytes_of t) = strlen t.
Proof. induction t as [|c t IH]; simpl; [reflexivity|]. now rewrite IH. Qed.

(** One record of [WriteS19Line], written from [PayloadSize] bytes of
    [Data] at an address of 16 bits. *)
Lemma WriteS19Line_record (RecordType : string) (PayloadSize Address : Z)
      (Data : list Z) :
  0 <= PayloadSize <= 252 ->
  (Z.to_nat PayloadSize <= List.length Data)%nat ->
  0 <= Address <= 0xffff ->
  Forall is_byte Data ->
  well_formed (WriteS19Line RecordType PayloadSize Address Data)
  /\ checksum_ok (WriteS19Line RecordType PayloadSize Address Data).
Proof.
  intros HP HL HA HD.
  unfold well_formed, checksum_ok, record_bytes, WriteS19Line.
  cbn [sr_count sr_addr sr_data sr_cksum].
  set (D := firstn (Z.to_nat PayloadSize) Data).
  assert (HDb : Forall is_byte D) by now apply firstn_bytes.
  assert (HDl : Z.of_nat (List.length D) = PayloadSize).
  { unfold D. rewrite length_firstn, Nat.min_l by exact HL. lia. }
  rewrite byte_total_app. cbn [byte_total].
  rewrite sum_bytes_total, !land_0xff, Z.shiftr_div_pow2 by lia.
  change (2 ^ 8) with 256.
  set (T := byte_total D).
  unfold Z.lnot, Z.pred.
  assert (E : (- (PayloadSize + 3 + Address mod 256 + Address / 256 + T) + -1) mod 256
              = 255 - (PayloadSize + 3 + (Address / 256 + (Address mod 256 + T))) mod 256).
  { Z.div_mod_to_equations. lia. }
  rewrite E.
  repeat split.
  - repeat constructor; unfold is_byte; try lia; try exact HDb;
      Z.div_mod_to_equations; lia.
  - Z.div_mod_to_equations; lia.
  - Z.div_mod_to_equations; lia.
  - lia.
  - Z.div_mod_to_equations. lia.
Qed.

(** The loop over the S1 records of a request that ends inside the
    64 KB. *)
Lemma S1_loop_records (s : Asm) (B : Z) :
  0 <= B <= 32 ->
  (forall a, is_byte (rda ROM a s)) ->
  forall (n : nat) (U A : Z),
    0 <= A -> A + U <= 0x10000 ->
    Forall (fun r => well_formed r /\ checksum_ok r) (S1_loop n U A B s).
Proof.
  intros HB HR n. induction n as [|n IH]; intros U A HA HU; simpl;
    [constructor|].
  destruct (0 <? U) eqn:E; [|constructor].
  apply Z.ltb_lt in E.
  constructor.
  - apply WriteS19Line_record; [lia| |lia|now apply ROM_bytes_are_bytes].
    rewrite ROM_bytes_length. lia.
  - apply IH; lia.
Qed.

(** The number of S1 records: lines of [B] bytes until nothing is
    left. *)
Lemma S1_loop_count (s : Asm) (B : Z) :
  0 < B ->
  forall (n : nat) (U A : Z),
    Z.of_nat (List.length (S1_loop n U A B s)) * B < Z.max U 0 + B.
Proof.
  intros HB n. induction n as [|n IH]; intros U A; simpl; [lia|].
  destruct (0 <? U) eqn:E; [|simpl; lia].
  apply Z.ltb_lt in E. cbn [List.length].
  specialize (IH (U - B) (A + B)).
  rewrite Nat2Z.inj_succ, (Z.max_l U 0) by lia.
  set (L := Z.of_nat _) in *.
  assert (H0 : 0 <= L) by (unfold L; lia).
  destruct (Z.max_spec (U - B) 0) as [[H1 H2]|[H1 H2]]; rewrite H2 in IH.
  - assert (L = 0) by nia. subst L. lia.
  - unfold Z.succ. rewrite Z.mul_add_distr_r. lia.
Qed.

Lemma S1_loop_nothing (s : Asm) (n : nat) (U A B : Z) :
  U <= 0 -> S1_loop n U A B s = [].
Proof.
  intros H. destruct n; simpl; [reflexivity|].
  destruct (0 <? U) eqn:E; [apply Z.ltb_lt in E; lia|reflexivity].
Qed.

Lemma S1_records_count (q : StoreReq) (s : Asm) :
  0 <= SFL q <= 0x10000 ->
  0 <= Z.of_nat (List.length (S1_records q s)) <= 2048.
Proof.
  intros H. unfold S1_records. split; [lia|].
  destruct (SFL q <? 32) eqn:E.
  - apply Z.ltb_lt in E.
    destruct (Z.eq_dec (SFL q) 0) as [Z0|NZ].
    + rewrite S1_loop_nothing by lia. simpl. lia.
    + pose proof (S1_loop_count s (SFL q) ltac:(lia)
                    (Z.to_nat (SFL q)) (SFL q) (SFA q)). nia.
  - apply Z.ltb_ge in E.
    pose proof (S1_loop_count s 32 ltac:(lia)
                  (Z.to_nat (SFL q)) (SFL q) (SFA q)). lia.
Qed.

(** C5.  In every record that [WriteS19Line] writes from
    [PayloadSize] bytes, at most 252, at an address of 16 bits, and so
    in every record (S0, S1, S5, S9) of the S-record file of a request
    inside the 64 KB, the count, the two address bytes, the data and
    the checksum are bytes, the count is the number of bytes after
    it, and the checksum is the one's complement of the low byte of
    the sum of the count, the two address bytes and the data bytes;
    sum and checksum add up to [0xFF] modulo 256. *)
Theorem S_record_checksum :
  (forall (RecordType : string) (PayloadSize Address : Z) (Data : list Z),
      0 <= PayloadSize <= 252 ->
      (Z.to_nat PayloadSize <= List.length Data)%nat ->
      0 <= Address <= 0xffff ->
      Forall is_byte Data ->
      well_formed (WriteS19Line RecordType PayloadSize Address Data)
      /\ checksum_ok (WriteS19Line RecordType PayloadSize Address Data))
  /\ (forall (q : StoreReq) (s : Asm),
      0 <= SFA q -> 0 <= SFL q -> SFA q + SFL q <= 0x10000 ->
      SFE q <= 0xffff ->
      (forall a, is_byte (rda ROM a s)) ->
      Forall (fun r => well_formed r /\ checksum_ok r) (S19_records q s)).
Proof.
  split; [apply WriteS19Line_record|].
  intros q s HA HL HU HE HR. unfold S19_records. cbv zeta.
  apply Forall_app; split.
  { constructor; [|constructor].
    apply WriteS19Line_record; [simpl; lia| |lia|].
    - rewrite bytes_of_length. simpl. lia.
    - apply Forall_forall. intros x Hx. simpl in Hx. unfold is_byte.
      repeat (destruct Hx as [<-|Hx]; [vm_compute; split; discriminate|]).
      contradiction. }
  apply Forall_app; split.
  { unfold S1_records.
    apply S1_loop_records; [destruct (SFL q <? 32) eqn:E;
                            [apply Z.ltb_lt in E|]; lia|exact HR|lia|lia]. }
  apply Forall_app; split.
  { constructor; [|constructor].
    pose proof (S1_records_count q s ltac:(lia)).
    apply WriteS19Line_record; [lia|simpl; lia|lia|constructor]. }
  destruct (-1 <? SFE q) eqn:E; [|constructor].
  apply Z.ltb_lt in E.
  constructor; [|constructor].
  apply WriteS19Line_record; [lia|simpl; lia|lia|constructor].
Qed.

Lemma S_record_checksum_witness :
  Forall (fun r => well_formed r /\ checksum_ok r)
         (S19_records forty_bytes init_Asm)
  /\ map SRec_text (S19_records (mkStore 0x0100 2 "out.s19" 0x0100 SRECORD)
                                (wra ROM 0x0100 0x12 init_Asm))
     = ["S016000042697420536869667420417373656D626C6572EE";
        "S10501001200E7"; "S5030001FB"; "S9030100FB"].
Proof.
  split; [|reflexivity].
  apply (proj2 S_record_checksum forty_bytes init_Asm);
    try (simpl; lia).
  intros a. unfold is_byte, rda. simpl. lia.
Defined.

(** The writer of the S1 records on a request for 40 bytes from
    [$0100]: the length of a line is set once, before the loop, so the
    second S1 record has 32 data bytes as well, and the data are
    [ROM[$0100 .. $013F]], 24 bytes beyond the end of the request. *)
Lemma S1_lines_keep_their_length (s : Asm) :
  map (fun r => (sr_type r, sr_addr r, Z.of_nat (List.length (sr_data r))))
      (S19_records forty_bytes s)
  = [("S0", 0, 19); ("S1", 0x0100, 32); ("S1", 0x0120, 32); ("S5", 2, 0)]
  /\ List.concat (map sr_data (S1_records forty_bytes s))
     = ROM_bytes 64 0x0100 s
  /\ SFA forty_bytes + SFL forty_bytes = 0x0128.
Proof. repeat split. Qed.

(** C4 on a [STORE] line with the format field [S19]: the request is
    recorded as a raw binary and the file holds the one byte of the
    ROM, no S-record.  [ParseStoreData] looks for the comma of the
    format field at the closing quote of the file name, so the field
    is never read. *)
Theorem S19_request_is_written_as_binary :
  match main S19_source init_Asm with
  | Done sf =>
      files sf = [("out.s19", BinData [0x12])]
      /\ map SFT (stores sf) = [BINARY]
  | _ => False
  end.
Proof. vm_compute. repeat split; reflexivity. Qed.

(** ** The pass driver and the output files *)

Lemma ROM_bytes_ext (s s' : Asm) :
  arrs s = arrs s' -> forall n a, ROM_bytes n a s = ROM_bytes n a s'.
Proof.
  intros E n. induction n as [|n IH]; intros a; simpl; [reflexivity|].
  unfold rda. now rewrite E, IH.
Qed.

Lemma S1_loop_ext (s s' : Asm) :
  arrs s = arrs s' ->
  forall n U A B, S1_loop n U A B s = S1_loop n U A B s'.
Proof.
  intros E n. induction n as [|n IH]; intros U A B; simpl; [reflexivity|].
  now rewrite IH, (ROM_bytes_ext s s' E).
Qed.

Lemma store_output_ext (s s' : Asm) (q : StoreReq) :
  arrs s = arrs s' -> store_output s q = store_output s' q.
Proof.
  intros E. unfold store_output, S19_records, S1_records.
  now rewrite (ROM_bytes_ext s s' E), (S1_loop_ext s s' E).
Qed.

(** Every S1 record of a request is read inside [ROM] when the
    request ends 31 bytes before the end of [ROM]. *)
Lemma S1_loop_in_ROM (s : Asm) (B : Z) :
  0 <= B <= 32 ->
  forall (n : nat) (U A : Z),
    0 <= A -> A + U + 31 <= 0x10100 ->
    forallb (fun r => in_ROM (sr_addr r) (sr_count r - 3)) (S1_loop n U A B s)
    = true.
Proof.
  intros HB n. induction n as [|n IH]; intros U A HA HU; simpl;
    [reflexivity|].
  destruct (0 <? U) eqn:E; [|reflexivity].
  apply Z.ltb_lt in E. cbn [forallb].
  rewrite IH by lia.
  unfold WriteS19Line, in_ROM. cbn [sr_addr sr_count].
  rewrite andb_true_r, !andb_true_iff, !Z.leb_le. lia.
Qed.

Lemma write_one_spec (s : Asm) (q : StoreReq) :
  inside_ROM q ->
  exists s', write_one s q = Done s'
             /\ files s' = (files s ++ [store_output s q])%list
             /\ arrs s' = arrs s
             /\ ints s' = ints s
             /\ lab s' = lab s.
Proof.
  intros (HA & HL & HU).
  unfold write_one, store_output, WriteS19Format, WriteBinaryFormat.
  destruct (SFT q).
  - replace (in_ROM (SFA q) (SFL q)) with true.
    + eexists. repeat split.
    + symmetry. unfold in_ROM. rewrite !andb_true_iff, !Z.leb_le. lia.
  - unfold S1_records. rewrite S1_loop_in_ROM.
    + eexists. repeat split.
    + destruct (SFL q <? 32) eqn:E; [apply Z.ltb_lt in E|]; lia.
    + exact HA.
    + exact HU.
Qed.

Lemma write_all_spec (l : list StoreReq) :
  Forall inside_ROM l ->
  forall s : Asm,
    exists s', write_all l s = Done s'
      /\ files s' = (files s ++ map (store_output s) l)%list
      /\ arrs s' = arrs s
      /\ ints s' = ints s
      /\ lab s' = lab s.
Proof.
  induction 1 as [|q l Hq _ IH]; intros s; simpl.
  - exists s. rewrite app_nil_r. repeat split.
  - destruct (write_one_spec s q Hq) as (s1 & E1 & F1 & A1 & I1 & L1).
    rewrite E1. cbn [bind].
    destruct (IH s1) as (s2 & E2 & F2 & A2 & I2 & L2).
    exists s2. rewrite E2, F2, F1, A2, A1, I2, I1, L2, L1, <- app_assoc.
    simpl. repeat split.
    f_equal. f_equal. apply map_ext. intros q'.
    now apply store_output_ext.
Qed.

Lemma WriteBinaries_files (s : Asm) :
  Forall inside_ROM (stores s) ->
  exists s', WriteBinaries s = Done s'
             /\ files s' = (files s ++ map (store_output s) (stores s))%list.
Proof.
  intros H. destruct (write_all_spec (stores s) H s) as (s' & E & F & _).
  now exists s'.
Qed.

Section AnyLineHandler.

Variable parse_line : string -> Asm -> outcome Asm.

Lemma Phase2_stops_at_the_cap (Line : string) (rest : list string)
      (s s1 : Asm) :
  parse_line Line s = Done s1 ->
  rd ERRMAX s1 <= rd ErrNum s1 ->
  exists s2, Phase2_lines parse_line (Line :: rest) s = Done s2
             /\ stores s2 = stores s1 /\ rd ErrNum s2 = rd ErrNum s1.
Proof.
  intros H Hcap. simpl. rewrite H. cbn [bind].
  set (s2 := if rd GenEnd s1 <? rd pc s1 then _ else s1).
  assert (E : stores s2 = stores s1 /\ rd ErrNum s2 = rd ErrNum s1
              /\ rd ERRMAX s2 = rd ERRMAX s1).
  { unfold s2. destruct (rd GenEnd s1 <? rd pc s1); repeat split. }
  destruct E as (E1 & E2 & E3).
  exists s2. rewrite E2, E3.
  apply Z.leb_le in Hcap. rewrite Hcap. repeat split; assumption.
Qed.

(** C1, as the code has it.  When the error count reaches [ERRMAX]
    the loop of pass 2 stops and [Phase2] returns, with the requests
    recorded so far; whenever [Phase2] returns, [main] goes on to
    [WriteBinaries], and with every recorded [STORE] request inside
    the ROM array the run returns and each request is written from
    the ROM as it stands; only a fatal exit of pass 2 leaves the run
    without output files. *)
Theorem STORE_output_after_pass2_returns :
  (forall (Line : string) (rest : list string) (s s1 : Asm),
      parse_line Line s = Done s1 ->
      rd ERRMAX s1 <= rd ErrNum s1 ->
      exists s2, Phase2_lines parse_line (Line :: rest) s = Done s2
                 /\ stores s2 = stores s1 /\ rd ErrNum s2 = rd ErrNum s1)
  /\ (forall (src : list string) (s0 s1 s2 : Asm),
      Phase1_with parse_line src s0 = Done s1 ->
      Phase2_with parse_line src s1 = Done s2 ->
      Forall inside_ROM (stores s2) ->
      exists sf, main_with parse_line src s0 = Done sf
                 /\ files sf = (files s2 ++ map (store_output s2) (stores s2))%list)
  /\ (forall (src : list string) (s0 s1 : Asm) (msg : string),
      Phase1_with parse_line src s0 = Done s1 ->
      Phase2_with parse_line src s1 = Exit msg ->
      main_with parse_line src s0 = Exit msg).
Proof.
  split; [|split].
  - apply Phase2_stops_at_the_cap.
  - intros src s0 s1 s2 H1 H2 Hin. unfold main_with. rewrite H1. cbn [bind].
    rewrite H2. cbn [bind].
    destruct (WriteBinaries_files s2 Hin) as (s3 & E & F).
    rewrite E. cbn [bind]. eexists. split; [reflexivity|exact F].
  - intros src s0 s1 msg H1 H2. unfold main_with. rewrite H1. cbn [bind].
    now rewrite H2.
Qed.

End AnyLineHandler.

Lemma returns_after (o : outcome Asm) : returns o -> o = Done (after o).
Proof. destruct o; simpl; intros H; [reflexivity|contradiction..]. Qed.

Lemma STORE_output_witness :
  exists sf, main capped_source init_Asm = Done sf
             /\ files sf = [("rom.bin", BinData [0x12])].
Proof.
  pose (s1 := after (Phase1 capped_source init_Asm)).
  pose (s2 := after (Phase2 capped_source s1)).
  assert (E1 : Phase1_with ParseLine capped_source init_Asm = Done s1)
    by (apply returns_after; vm_compute; exact I).
  assert (E2 : Phase2_with ParseLine capped_source s1 = Done s2)
    by (apply returns_after; vm_compute; exact I).
  assert (E3 : stores s2 = [mkStore 0xffff 1 "rom.bin" (-1) BINARY])
    by (vm_compute; reflexivity).
  assert (Hin : Forall inside_ROM (stores s2)).
  { rewrite E3. constructor; [|constructor]. unfold inside_ROM. simpl. lia. }
  destruct (proj1 (proj2 (STORE_output_after_pass2_returns ParseLine))
              capped_source init_Asm s1 s2 E1 E2 Hin) as (sf & Hm & Hf).
  exists sf. split; [exact Hm|].
  rewrite Hf. vm_compute. reflexivity.
Defined.

(** C1 as stated fails: pass 2 stops at the tenth error, the cap, and
    the file of the [STORE] line before it is written all the same. *)
Lemma STORE_output_despite_early_stop :
  match main capped_source init_Asm with
  | Done sf =>
      rd ErrNum sf = 10 /\ rd ERRMAX sf = 10
      /\ files sf = [("rom.bin", BinData [0x12])]
      /\ map SFF (stores sf) = ["rom.bin"]
  | _ => False
  end.
Proof. vm_compute. repeat split; reflexivity. Qed.

(* ================================================================= *)
(** * Further properties of the code *)

(** ** Blanks, characters and words *)

Lemma code_inj (c d : ascii) : code c = code d -> c = d.
Proof.
  unfold code. intros H. apply N2Z.inj in H.
  rewrite <- (ascii_N_embedding c), <- (ascii_N_embedding d). now rewrite H.
Qed.

Lemma is_char_true (c d : ascii) : is_char c d = true <-> c = d.
Proof.
  unfold is_char. rewrite Z.eqb_eq. split; [apply code_inj|now intros ->].
Qed.

Lemma is_char_false (c d : ascii) : is_char c d = false <-> c <> d.
Proof.
  rewrite <- is_char_true. destruct (is_char c d); split; congruence.
Qed.

Lemma SkipSpace_suffix (p : string) : exists n, SkipSpace p = adv n p.
Proof.
  induction p as [|c q [n IH]]; [now exists O|]. simpl.
  destruct (isspace c); [exists (S n); exact IH|now exists O].
Qed.

Lemma SkipSpace_hd (p : string) : isspace (hd (SkipSpace p)) = false.
Proof.
  induction p as [|c q IH]; [reflexivity|]. simpl.
  destruct (isspace c) eqn:E; [exact IH|exact E].
Qed.

Lemma SkipSpace_fixed (p : string) :
  isspace (hd p) = false -> SkipSpace p = p.
Proof. destruct p as [|c q]; simpl; [reflexivity|]. now intros ->. Qed.

(** X1.  [SkipSpace] returns a suffix of its argument that does not
    start with a blank, and skipping twice changes nothing.
    [NeedChar p c] returns that suffix exactly when its first character
    is [c] and NULL otherwise; for a blank [c] it is always NULL. *)
Theorem SkipSpace_NeedChar :
  (forall p, isspace (hd (SkipSpace p)) = false)
  /\ (forall p, exists n, SkipSpace p = adv n p)
  /\ (forall p, SkipSpace (SkipSpace p) = SkipSpace p)
  /\ (forall p c q, NeedChar p c = Some q <-> q = SkipSpace p /\ hd q = c)
  /\ (forall p c, NeedChar p c = None <-> hd (SkipSpace p) <> c)
  /\ (forall p c, isspace c = true -> NeedChar p c = None).
Proof.
  split; [exact SkipSpace_hd|]. split; [exact SkipSpace_suffix|].
  split; [intros p; apply SkipSpace_fixed, SkipSpace_hd|].
  split; [|split].
  - intros p c q. unfold NeedChar. split.
    + destruct (is_char (hd (SkipSpace p)) c) eqn:E; [|discriminate].
      intros H. injection H as <-. split; [reflexivity|].
      now apply is_char_true.
    + intros [-> <-]. now rewrite is_char_refl.
  - intros p c. unfold NeedChar. split.
    + destruct (is_char (hd (SkipSpace p)) c) eqn:E; [discriminate|].
      intros _. now apply is_char_false.
    + intros H. apply is_char_false in H. now rewrite H.
  - intros p c Hc. unfold NeedChar.
    destruct (is_char (hd (SkipSpace p)) c) eqn:E; [|reflexivity].
    apply is_char_true in E. rewrite <- E, SkipSpace_hd in Hc. discriminate.
Qed.

Lemma SkipSpace_NeedChar_witness :
  NeedChar "   ,x" "," = Some ",x" /\ NeedChar "   ;x" "," = None.
Proof.
  split.
  - reflexivity.
  - apply (proj1 (proj2 (proj2 (proj2 (proj2 SkipSpace_NeedChar))))).
    vm_compute. discriminate.
Defined.

(** ** Comparison without case *)

Lemma toupper_NUL (c : ascii) : toupper c = NUL -> c = NUL.
Proof. each_char c; vm_compute; intros H; solve [reflexivity | discriminate H]. Qed.

Lemma cmp_upper_zero (x y : ascii) :
  cmp_upper x y = 0 <-> toupper x = toupper y.
Proof.
  unfold cmp_upper.
  destruct (code (toupper x) <? code (toupper y)) eqn:E1.
  { apply Z.ltb_lt in E1. split; [discriminate|]. intros H. rewrite H in E1. lia. }
  destruct (code (toupper y) <? code (toupper x)) eqn:E2.
  { apply Z.ltb_lt in E2. split; [discriminate|]. intros H. rewrite H in E2. lia. }
  apply Z.ltb_ge in E1, E2. split; [|reflexivity].
  intros _. apply code_inj. lia.
Qed.

Lemma cmp_upper_opp (x y : ascii) : cmp_upper y x = - cmp_upper x y.
Proof.
  unfold cmp_upper.
  destruct (code (toupper x) <? code (toupper y)) eqn:E1;
    destruct (code (toupper y) <? code (toupper x)) eqn:E2;
    try reflexivity.
  apply Z.ltb_lt in E1, E2. lia.
Qed.

Lemma cmp_upper_range (x y : ascii) : -1 <= cmp_upper x y <= 1.
Proof.
  unfold cmp_upper.
  destruct (code (toupper x) <? code (toupper y));
    [|destruct (code (toupper y) <? code (toupper x))]; lia.
Qed.

Lemma StrNCaseCmp_opp (n : nat) :
  forall a b, StrNCaseCmp b a n = - StrNCaseCmp a b n.
Proof.
  induction n as [|n IH]; intros a b;
    destruct a as [|x a], b as [|y b]; simpl; try reflexivity;
    try apply cmp_upper_opp.
  rewrite (cmp_upper_opp x y).
  destruct (cmp_upper x y =? 0) eqn:E.
  - apply Z.eqb_eq in E. rewrite E. simpl. apply IH.
  - apply Z.eqb_neq in E.
    replace (- cmp_upper x y =? 0) with false
      by (symmetry; apply Z.eqb_neq; lia).
    reflexivity.
Qed.

Lemma StrNCaseCmp_range (n : nat) :
  forall a b, -1 <= StrNCaseCmp a b n <= 1.
Proof.
  induction n as [|n IH]; intros a b;
    destruct a as [|x a], b as [|y b]; simpl; try lia; try apply cmp_upper_range.
  destruct (cmp_upper x y =? 0); [apply IH|apply cmp_upper_range].
Qed.

Lemma StrNCaseCmp_zero (a : string) :
  forall (b : string) (n : nat),
    no_NUL a = true -> no_NUL b = true ->
    (Nat.max (strlen a) (strlen b) < n)%nat ->
    (StrNCaseCmp a b n = 0 <-> upcase a = upcase b).
Proof.
  induction a as [|x a IH]; intros b n Ha Hb Hn;
    (destruct n as [|n]; [inversion Hn|]);
    destruct b as [|y b]; simpl in *.
  - split; reflexivity.
  - apply andb_prop in Hb as [Hy _]. apply negb_true_iff, is_char_false in Hy.
    split; [|discriminate]. intros H. apply cmp_upper_zero in H.
    symmetry in H. now apply toupper_NUL in H.
  - apply andb_prop in Ha as [Hx _]. apply negb_true_iff, is_char_false in Hx.
    split; [|discriminate]. intros H. apply cmp_upper_zero in H.
    now apply toupper_NUL in H.
  - apply andb_prop in Ha as [_ Ha]. apply andb_prop in Hb as [_ Hb].
    destruct (cmp_upper x y =? 0) eqn:E.
    + apply Z.eqb_eq, cmp_upper_zero in E. rewrite E.
      rewrite (IH b n Ha Hb) by (unfold strlen in *; lia).
      split; [now intros ->|]. intros H. now injection H.
    + apply Z.eqb_neq in E. split; [contradiction|].
      intros H. injection H as H _. now apply cmp_upper_zero in H.
Qed.

(** X2.  [StrCaseCmp] is 0 exactly for two strings that are equal
    after [toupper]; exchanging the arguments negates the result, which
    is -1, 0 or 1. *)
Theorem StrCaseCmp_ignores_case :
  (forall a b, no_NUL a = true -> no_NUL b = true ->
               (StrCaseCmp a b = 0 <-> upcase a = upcase b))
  /\ (forall a b, StrCaseCmp b a = - StrCaseCmp a b)
  /\ (forall a b, -1 <= StrCaseCmp a b <= 1).
Proof.
  split; [|split].
  - intros a b Ha Hb. unfold StrCaseCmp.
    apply StrNCaseCmp_zero; try assumption. lia.
  - intros a b. unfold StrCaseCmp.
    rewrite (Nat.max_comm (strlen b)). apply StrNCaseCmp_opp.
  - intros a b. apply StrNCaseCmp_range.
Qed.

Lemma StrCaseCmp_ignores_case_witness :
  StrCaseCmp "Ldx" "lDX" = 0.
Proof.
  apply (proj1 StrCaseCmp_ignores_case "Ldx" "lDX"); reflexivity.
Defined.

(** ** Words *)

Lemma upcase_length (a : string) :
  forall b, upcase a = upcase b -> strlen a = strlen b.
Proof.
  induction a as [|x a IH]; intros [|y b] H; simpl in *;
    try discriminate; [reflexivity|].
  injection H as _ H. f_equal. now apply IH.
Qed.

Lemma StrNCaseCmp_prefix (w : string) :
  forall w' rest, upcase w' = upcase w ->
                  StrNCaseCmp (w' ++ rest) w (strlen w) = 0.
Proof.
  induction w as [|y w IH]; intros [|x w'] rest H; simpl in *;
    try discriminate; [now destruct rest|].
  injection H as Hx H.
  replace (cmp_upper x y =? 0) with true
    by (symmetry; apply Z.eqb_eq, cmp_upper_zero; exact Hx).
  now apply IH.
Qed.

Lemma StrNCaseCmp_prefix_inv (w : string) :
  forall p, no_NUL w = true -> StrNCaseCmp p w (strlen w) = 0 ->
            exists w' rest, p = (w' ++ rest)%string /\ upcase w' = upcase w.
Proof.
  induction w as [|y w IH]; intros p Hw H; simpl in *.
  - exists "", p. split; reflexivity.
  - apply andb_prop in Hw as [Hy Hw].
    apply negb_true_iff, is_char_false in Hy.
    destruct p as [|x p].
    + simpl in H. apply cmp_upper_zero in H. symmetry in H.
      change (toupper NUL) with NUL in H. apply toupper_NUL in H. contradiction.
    + simpl in H. destruct (cmp_upper x y =? 0) eqn:E;
        [|apply Z.eqb_neq in E; exfalso; apply E; exact H].
      apply Z.eqb_eq, cmp_upper_zero in E.
      destruct (IH p Hw H) as (w' & rest & -> & Hu).
      exists (String x w'), rest. split; [reflexivity|].
      simpl. now rewrite E, Hu.
Qed.

(** The word [w] at the start of [p], up to case. *)
Lemma word_at_start :
  (forall w w' rest, upcase w' = upcase w ->
                     strcmpword (w' ++ rest) w = b2i (isym (hd rest)))
  /\ (forall p w, no_NUL w = true -> strcmpword p w = 0 ->
                  exists w' rest, p = (w' ++ rest)%string
                                  /\ upcase w' = upcase w
                                  /\ isym (hd rest) = false).
Proof.
  split.
  - intros w w' rest H. unfold strcmpword.
    rewrite (StrNCaseCmp_prefix w w' rest H).
    rewrite <- (upcase_length _ _ H), adv_append.
    simpl. now destruct (isym (hd rest)).
  - intros p w Hw H. unfold strcmpword in H.
    destruct (StrNCaseCmp p w (strlen w) =? 0) eqn:E.
    + apply Z.eqb_eq in E.
      destruct (StrNCaseCmp_prefix_inv w p Hw E) as (w' & rest & -> & Hu).
      exists w', rest. split; [reflexivity|]. split; [exact Hu|].
      rewrite <- (upcase_length _ _ Hu), adv_append in H.
      simpl in H. destruct (isym (hd rest)); [discriminate|reflexivity].
    + simpl in H. apply Z.eqb_neq in E. contradiction.
Qed.

(** X3.  [strcmpword s1 s2] is 0 exactly when [s1] starts with [s2],
    case ignored, and the character after it is no symbol character; a
    symbol character after the word makes the result 1. *)
Theorem strcmpword_word_boundary :
  (forall w w' rest, upcase w' = upcase w ->
                     strcmpword (w' ++ rest) w = b2i (isym (hd rest)))
  /\ (forall p w, no_NUL w = true -> strcmpword p w = 0 ->
                  exists w' rest, p = (w' ++ rest)%string
                                  /\ upcase w' = upcase w
                                  /\ isym (hd rest) = false).
Proof. exact word_at_start. Qed.

Lemma strcmpword_word_boundary_witness :
  strcmpword "endif ; done" "ENDIF" = 0 /\ strcmpword "endif2" "ENDIF" = 1.
Proof.
  split.
  - apply (proj1 strcmpword_word_boundary "ENDIF" "endif" " ; done"). reflexivity.
  - apply (proj1 strcmpword_word_boundary "ENDIF" "endif" "2"). reflexivity.
Defined.

(** ** Search without case *)

Lemma match_here_spec (m : string) :
  forall r, match_here r m = true
            <-> exists m' rest, r = (m' ++ rest)%string /\ upcase m' = upcase m.
Proof.
  induction m as [|d m IH]; intros r.
  - split.
    + intros _. exists "", r. split; reflexivity.
    + intros _. now destruct r.
  - destruct r as [|c r]; simpl.
    + split; [discriminate|]. intros (m' & rest & H & Hu).
      destruct m'; simpl in *; discriminate.
    + rewrite andb_true_iff, Z.eqb_eq, IH. split.
      * intros [Hc (m' & rest & -> & Hu)].
        exists (String c m'), rest. split; [reflexivity|].
        simpl. apply code_inj in Hc. now rewrite Hc, Hu.
      * intros (m' & rest & H & Hu).
        destruct m' as [|c' m']; simpl in *; [discriminate|].
        injection H as -> ->. injection Hu as Hc Hu.
        split; [now rewrite Hc|]. exists m', rest. split; [reflexivity|exact Hu].
Qed.

Lemma StrMatch_Some (s : string) :
  forall m r, StrMatch s m = Some r ->
    match_here r m = true
    /\ exists pre, s = (pre ++ r)%string
                   /\ forall k, (k < strlen pre)%nat -> match_here (adv k s) m = false.
Proof.
  induction s as [|c s IH]; intros m r; cbn [StrMatch].
  - destruct (match_here "" m) eqn:E; [|discriminate].
    intros H. injection H as <-. split; [exact E|].
    exists "". split; [reflexivity|]. intros k Hk. inversion Hk.
  - destruct (match_here (String c s) m) eqn:E.
    + intros H. injection H as <-. split; [exact E|].
      exists "". split; [reflexivity|]. intros k Hk. inversion Hk.
    + intros H. destruct (IH m r H) as (Hm & pre & -> & Hleft).
      split; [exact Hm|]. exists (String c pre). split; [reflexivity|].
      intros [|k] Hk; [exact E|]. simpl. apply Hleft. simpl in Hk. lia.
Qed.

Lemma StrMatch_None (s : string) :
  forall m, StrMatch s m = None ->
            forall k, match_here (adv k s) m = false.
Proof.
  induction s as [|c s IH]; intros m; cbn [StrMatch].
  - destruct (match_here "" m) eqn:E; [discriminate|].
    intros _ [|k]; exact E.
  - destruct (match_here (String c s) m) eqn:E; [discriminate|].
    intros H [|k]; [exact E|]. simpl. now apply IH.
Qed.

(** X4.  [StrMatch] returns the leftmost place in [s] where [m]
    stands, case ignored: there is such a place whenever [s] holds [m],
    no earlier place matches, and a string shorter than [m] gives
    NULL. *)
Theorem StrMatch_first_occurrence :
  (forall s m r, StrMatch s m = Some r ->
     exists pre m' rest,
       s = (pre ++ m' ++ rest)%string /\ r = (m' ++ rest)%string
       /\ upcase m' = upcase m
       /\ forall k, (k < strlen pre)%nat -> match_here (adv k s) m = false)
  /\ (forall pre m m' rest, upcase m' = upcase m ->
                            StrMatch (pre ++ m' ++ rest) m <> None)
  /\ (forall s m, (strlen s < strlen m)%nat -> StrMatch s m = None).
Proof.
  split; [|split].
  - intros s m r H. destruct (StrMatch_Some s m r H) as (Hm & pre & -> & Hl).
    apply match_here_spec in Hm as (m' & rest & -> & Hu).
    exists pre, m', rest. repeat split; assumption.
  - intros pre m m' rest Hu H.
    pose proof (StrMatch_None _ _ H (strlen pre)) as Hk.
    rewrite adv_append in Hk.
    assert (Ht : match_here (m' ++ rest) m = true)
      by (apply match_here_spec; exists m', rest; split; [reflexivity|exact Hu]).
    congruence.
  - intros s m Hlen.
    destruct (StrMatch s m) as [r|] eqn:E; [|reflexivity].
    destruct (StrMatch_Some s m r E) as (Hm & pre & -> & _).
    apply match_here_spec in Hm as (m' & rest & -> & Hu).
    apply upcase_length in Hu.
    rewrite !strlen_append in Hlen. lia.
Qed.

Lemma StrMatch_first_occurrence_witness :
  StrMatch "s19" "SREC" = None /\ StrMatch "x,Srec,1" "SREC" <> None.
Proof.
  split.
  - apply (proj2 (proj2 StrMatch_first_occurrence)). vm_compute. lia.
  - apply (proj1 (proj2 StrMatch_first_occurrence) "x," "SREC" "Srec" ",1").
    reflexivity.
Defined.

(** ** The register list, in every spelling *)

Lemma SkipSpace_split (p : string) :
  exists g, p = (g ++ SkipSpace p)%string /\ all_chars isspace g = true.
Proof.
  induction p as [|c p (g & E & Hg)]; [now exists ""|].
  cbn [SkipSpace]. destruct (isspace c) eqn:Ec.
  - exists (String c g). split; [simpl; now rewrite <- E|].
    simpl. now rewrite Ec, Hg.
  - now exists "".
Qed.

Lemma no_NUL_app (a b : string) :
  no_NUL (a ++ b) = true -> no_NUL a = true /\ no_NUL b = true.
Proof.
  induction a as [|c a IH]; simpl; [now split|].
  intros H. apply andb_prop in H as [Hc H].
  destruct (IH H) as [Ha Hb]. now rewrite Hc, Ha.
Qed.

Lemma ends_at_NUL (p : string) :
  no_NUL p = true -> is_char (hd p) NUL = true -> p = "".
Proof.
  destruct p as [|c p]; [reflexivity|]. simpl. intros H Hc.
  rewrite Hc in H. discriminate H.
Qed.

Lemma hd_comma (q : string) :
  is_char (hd q) "," = true -> exists q', q = String "," q'.
Proof.
  destruct q as [|c q]; [discriminate|]. simpl. intros H.
  apply is_char_true in H. subst c. now exists q.
Qed.

Lemma register_names :
  forall r, In r PushList -> no_NUL (Reg r) = true /\ upcase (Reg r) = Reg r.
Proof. intros r H. each_register H; split; reflexivity. Qed.

(** What the loop of [ScanPushList] accepts is a list of registers as
    [push_text] writes them. *)
Lemma push_loop_accepts_only (n : nat) :
  forall (p : string) (v b : Z),
    no_NUL p = true ->
    push_loop n p v = Done b ->
    exists xs, p = push_text xs /\ Forall well_spelled xs /\ separated xs
               /\ b = push_mask (map p_reg xs) v.
Proof.
  induction n as [|n IH]; intros p v b Hp H; cbn [push_loop] in H.
  - destruct (is_char (hd p) NUL) eqn:E0; [|discriminate H].
    injection H as <-. rewrite (ends_at_NUL p Hp E0).
    exists []. repeat split; constructor.
  - destruct (is_char (hd p) NUL) eqn:E0.
    { injection H as <-. rewrite (ends_at_NUL p Hp E0).
      exists []. repeat split; constructor. }
    destruct (find_push p) as [r|] eqn:Ef; [|discriminate H].
    unfold find_push in Ef. apply find_some in Ef as [Hin Hw].
    apply in_rev in Hin. apply Z.eqb_eq in Hw.
    destruct (register_names r Hin) as [Hnn Hup].
    destruct (proj2 word_at_start p (Reg r) Hnn Hw)
      as (w & rest & -> & Hu & Hsym).
    rewrite Hup in Hu.
    assert (Hlen : strlen (Reg r) = strlen w).
    { symmetry. apply upcase_length. now rewrite Hup. }
    rewrite Hlen, adv_append in H.
    destruct (no_NUL_app _ _ Hp) as [_ Hrest].
    destruct (SkipSpace_split rest) as (g & Eg & Hg).
    set (q := SkipSpace rest) in *.
    assert (Hq : no_NUL q = true) by (rewrite Eg in Hrest; now apply no_NUL_app in Hrest).
    destruct (is_char (hd q) ",") eqn:Ec.
    + cbn [negb andb] in H.
      destruct (hd_comma q Ec) as [q' Eq]. rewrite Eq in H. cbn [adv] in H.
      destruct (SkipSpace_split q') as (g2 & Eg2 & Hg2).
      assert (Hq' : no_NUL (SkipSpace q') = true).
      { rewrite Eq in Hq. simpl in Hq. rewrite Eg2 in Hq.
        now apply no_NUL_app in Hq. }
      destruct (IH _ _ _ Hq' H) as (xs & Ex & Hxs & Hs & ->).
      exists (mkPushed r w g (Some g2) :: xs).
      split; [|split; [|split]].
      * cbn [push_text p_name p_gap p_comma]. rewrite <- Ex.
        rewrite Eg at 1. rewrite Eq. rewrite Eg2 at 1.
        cbn [String.append]. reflexivity.
      * constructor; [|exact Hxs]. now repeat split.
      * destruct xs; [exact I|]. split; [discriminate|exact Hs].
      * reflexivity.
    + cbn [negb andb] in H.
      destruct (is_char (hd q) NUL) eqn:En; [|discriminate H].
      cbn [negb] in H. pose proof (ends_at_NUL q Hq En) as Eq.
      rewrite Eq in H. cbn [SkipSpace] in H.
      assert (Hend : push_loop n "" (Z.lor v (Val r)) = Done (Z.lor v (Val r)))
        by (destruct n; reflexivity).
      rewrite Hend in H. injection H as <-.
      exists [mkPushed r w g None].
      split; [|split; [|split]].
      * cbn [push_text p_name p_gap p_comma]. rewrite Eg at 1. rewrite Eq.
        reflexivity.
      * constructor; [|constructor]. now repeat split.
      * exact I.
      * reflexivity.
Qed.

Lemma ScanPushList_accepts_only (T : string) (b : Z) :
  no_NUL T = true -> ScanPushList T = Done b -> push_operand T b.
Proof.
  intros HT H. unfold ScanPushList in H.
  destruct (strcmpword T "ALL" =? 0) eqn:E.
  - injection H as <-. apply Z.eqb_eq in E.
    destruct (proj2 word_at_start T "ALL" eq_refl E)
      as (w & rest & -> & Hu & Hsym).
    left. now exists w, rest.
  - right. destruct (push_loop_accepts_only _ _ _ _ HT H)
      as (xs & Ex & Hxs & Hs & Hb).
    now exists xs.
Qed.

(** C7.  The push list maps CC, A, B, D, DP, X, Y, S, U and PC to the
    masks $01, $02, $04, $06, $08, $10, $20, $40, $40 and $80;
    [ScanPushList] gives $FF for [ALL], reads [DP] as DP and not as D,
    and gives for every operand that it accepts its post byte: $FF
    for the word [ALL] in any case, and for a list of register names
    in any case, with blanks after the names and after the commas, the
    bitwise OR of their masks; it accepts no other operand; and for
    PSHS, PULS, PSHU and PULU ([Mat[45..48]]) [GenerateCode] in pass
    2, on such an operand after any blanks, stores the opcode at [pc]
    and that value as the post byte at [pc + 1]. *)
Theorem push_pull_post_byte :
  map (fun r => (Reg r, Val r)) PushList
  = [("CC", 0x01); ("A", 0x02); ("B", 0x04); ("D", 0x06); ("DP", 0x08);
     ("X", 0x10); ("Y", 0x20); ("S", 0x40); ("U", 0x40); ("PC", 0x80)]
  /\ map (fun k => (Mne (Mat_at k), Mat_Opc k AM_Register)) [45; 46; 47; 48]
     = [("PSHS", 0x34); ("PULS", 0x35); ("PSHU", 0x36); ("PULU", 0x37)]
  /\ ScanPushList "ALL" = Done 0xff
  /\ ScanPushList "DP" = Done 0x08
  /\ (forall (T : string) (b : Z),
      push_operand T b -> ScanPushList T = Done b)
  /\ (forall (T : string) (b : Z),
      no_NUL T = true -> ScanPushList T = Done b -> push_operand T b)
  /\ (forall (s : Asm) (k b : Z) (lead T : string),
      45 <= k <= 48 ->
      rd MneIndex s = k ->
      OpText s = (lead ++ T)%string ->
      all_chars isspace lead = true ->
      push_operand T b ->
      OpText s <> "" ->
      rd Phase s = 2 ->
      0 <= rd pc s -> rd pc s + 2 <= 0xffff ->
      rda ADL (rd pc s) s = 2 ->
      (rda LOCK (rd pc s) s = 0 \/ rda ROM (rd pc s) s = k + 7) ->
      rda LOCK (rd pc s + 1) s = 0 ->
      exists s',
        GenerateCode s = Done s'
        /\ rda ROM (rd pc s) s' = k + 7
        /\ rda ROM (rd pc s + 1) s' = b
        /\ rd pc s' = rd pc s + 2).
Proof.
  split; [reflexivity|]. split; [reflexivity|].
  split; [reflexivity|]. split; [reflexivity|].
  split; [exact ScanPushList_accepts|].
  split; [exact ScanPushList_accepts_only|].
  intros s k b lead T Hk HM HT Hlead Hop Hne HPh Hpc0 Hpc HADL HL0 HL1.
  destruct (push_operand_starts T b Hop) as [Hsp Hstart].
  assert (Hhd : is_char (hd (OpText s)) NUL = false
                /\ is_char (hd (OpText s)) apostrophe = false).
  { rewrite HT in *. destruct lead as [|c lead].
    - apply Hstart. exact Hne.
    - simpl in Hlead. apply andb_prop in Hlead as [Hc _]. cbn [String.append hd].
      apply isspace_cases in Hc.
      repeat (destruct Hc as [->|Hc]); try subst c; split; reflexivity. }
  apply GenerateCode_push_pull; try assumption; try tauto.
  - rewrite HT, (SkipSpace_lead _ _ Hlead Hsp).
    now apply ScanPushList_accepts.
  - exact (push_operand_byte T b Hop).
Qed.

Lemma push_pull_post_byte_witness :
  exists s',
    GenerateCode PSHS_A_B_X = Done s'
    /\ rda ROM 0x1000 s' = 0x34
    /\ rda ROM 0x1001 s' = 0x16
    /\ rd pc s' = 0x1002.
Proof.
  assert (Hop : push_operand "a, B ,x" 0x16).
  { right. exists a_B_x. split; [reflexivity|].
    split; [|split; [|reflexivity]].
    - repeat constructor; simpl; tauto.
    - simpl. repeat split; discriminate. }
  destruct (proj2 (proj2 (proj2 (proj2 (proj2 (proj2 push_pull_post_byte)))))
              PSHS_A_B_X 45 0x16 "" "a, B ,x") as (s' & HG & H0 & H1 & Hp).
  - lia.
  - reflexivity.
  - reflexivity.
  - reflexivity.
  - exact Hop.
  - discriminate.
  - reflexivity.
  - change (rd pc PSHS_A_B_X) with 0x1000. lia.
  - change (rd pc PSHS_A_B_X) with 0x1000. lia.
  - reflexivity.
  - left. reflexivity.
  - reflexivity.
  - exists s'. repeat split; assumption.
Defined.

(** ** Numerals *)

Lemma digits_stop (base : Z) (p : string) (acc : Z) (seen : bool) :
  match digit_val (hd p) with Some d => d <? base | None => false end = false ->
  digits base p acc seen = (acc, p, seen).
Proof.
  destruct p as [|c q]; simpl; [reflexivity|].
  destruct (digit_val c) as [d|]; [|reflexivity]. now intros ->.
Qed.

Section Numerals.

Variables (dig : Z -> ascii) (base : Z).
Hypothesis Hbase : 1 < base.
Hypothesis Hdig : forall d, 0 <= d < base -> digit_val (dig d) = Some d.

Lemma digits_numeral (rest : string) (k : nat) :
  forall (n : Z) (acc : string) (sn : bool),
    0 <= n < base ^ Z.of_nat k ->
    digits base (numeral dig base k n acc ++ rest) 0 sn
    = digits base (acc ++ rest) n (sn || (0 <? n)).
Proof.
  induction k as [|k IH]; intros n acc sn Hn.
  - simpl in Hn. assert (n = 0) by lia. subst n. simpl.
    now rewrite orb_false_r.
  - cbn [numeral]. destruct (n <=? 0) eqn:E.
    + apply Z.leb_le in E. assert (n = 0) by lia. subst n.
      simpl. now rewrite orb_false_r.
    + apply Z.leb_gt in E.
      rewrite Nat2Z.inj_succ, Z.pow_succ_r in Hn by lia.
      rewrite IH by (split; [apply Z.div_pos; lia|apply Z.div_lt_upper_bound; lia]).
      cbn [String.append digits].
      rewrite Hdig by (apply Z.mod_pos_bound; lia).
      replace (n mod base <? base) with true
        by (symmetry; apply Z.ltb_lt, Z.mod_pos_bound; lia).
      replace (0 <? n) with true by (symmetry; apply Z.ltb_lt; lia).
      rewrite orb_true_r. f_equal.
      rewrite (Z.div_mod n base) at 3 by lia. lia.
Qed.

End Numerals.

Lemma hex_of_numeral (k : nat) :
  forall n acc, hex_of k n acc = numeral hex_digit 16 k n acc.
Proof.
  induction k as [|k IH]; intros n acc; simpl; [reflexivity|].
  destruct (n <=? 0); [reflexivity|apply IH].
Qed.

Lemma digit_val_hex_digit (d : Z) :
  0 <= d < 16 -> digit_val (hex_digit d) = Some d.
Proof.
  intros H.
  assert (C : d = 0 \/ d = 1 \/ d = 2 \/ d = 3 \/ d = 4 \/ d = 5 \/ d = 6
              \/ d = 7 \/ d = 8 \/ d = 9 \/ d = 10 \/ d = 11 \/ d = 12
              \/ d = 13 \/ d = 14 \/ d = 15) by lia.
  repeat (destruct C as [->|C]; [reflexivity|]). now subst d.
Qed.

Lemma digit_val_decimal_digit (d : Z) :
  0 <= d < 10 -> digit_val (chr (48 + d)) = Some d.
Proof.
  intros H.
  assert (C : d = 0 \/ d = 1 \/ d = 2 \/ d = 3 \/ d = 4 \/ d = 5 \/ d = 6
              \/ d = 7 \/ d = 8 \/ d = 9) by lia.
  repeat (destruct C as [->|C]; [reflexivity|]). now subst d.
Qed.

Lemma digits_zeros (base : Z) (j : nat) :
  forall t sn, 1 < base ->
    digits base (pad_zero j t) 0 sn
    = digits base t 0 (sn || negb (Nat.eqb j 0)).
Proof.
  induction j as [|j IH]; intros t sn Hb; simpl.
  - now rewrite orb_false_r.
  - rewrite IH by exact Hb. cbn [digits].
    change (digit_val "0") with (Some 0). cbv iota.
    destruct (0 <? base) eqn:E; [|apply Z.ltb_ge in E; lia].
    rewrite orb_true_r. reflexivity.
Qed.

Lemma pad_zero_app (j : nat) : forall t r, (pad_zero j t ++ r)%string = pad_zero j (t ++ r).
Proof. induction j as [|j IH]; intros t r; simpl; [reflexivity|apply IH]. Qed.

Lemma numeral_all_chars (P : ascii -> bool) (dig : Z -> ascii) (base : Z) :
  1 < base ->
  (forall d, 0 <= d < base -> P (dig d) = true) ->
  forall k n acc, all_chars P acc = true ->
                  all_chars P (numeral dig base k n acc) = true.
Proof.
  intros Hb HP. induction k as [|k IH]; intros n acc Hacc; simpl; [exact Hacc|].
  destruct (n <=? 0); [exact Hacc|].
  apply IH. simpl. rewrite Hacc, HP; [reflexivity|].
  apply Z.mod_pos_bound. lia.
Qed.

Lemma numeral_positive (dig : Z -> ascii) (base : Z) (k : nat) :
  forall n acc, 0 < n -> numeral dig base (S k) n acc <> "".
Proof.
  intros n acc Hn. simpl.
  replace (n <=? 0) with false by (symmetry; apply Z.leb_gt; lia).
  generalize (n / base). generalize (dig (n mod base)). clear.
  induction k as [|k IH]; intros c m; simpl; [discriminate|].
  destruct (m <=? 0); [discriminate|]. 
  assert (G : forall acc, acc <> "" -> forall j x, numeral dig base j x acc <> "").
  { clear. intros acc Ha j. revert acc Ha.
    induction j as [|j IHj]; intros acc Ha x; simpl; [exact Ha|].
    destruct (x <=? 0); [exact Ha|]. apply IHj. discriminate. }
  apply G. discriminate.
Qed.

Lemma pad_zero_all_chars (P : ascii -> bool) (j : nat) :
  P "0"%char = true ->
  forall t, all_chars P t = true -> all_chars P (pad_zero j t) = true.
Proof.
  intros H0. induction j as [|j IH]; intros t Ht; simpl; [exact Ht|].
  apply IH. simpl. now rewrite H0, Ht.
Qed.

Lemma pad_zero_nonempty (j : nat) :
  forall t, (t <> "" \/ j <> O) -> pad_zero j t <> "".
Proof.
  induction j as [|j IH]; intros t [H|H]; simpl; try assumption;
    try contradiction; apply IH; left; discriminate.
Qed.

Lemma upper_hex_facts (c : ascii) :
  upper_hex c = true ->
  isspace c = false /\ is_char c "-" = false /\ is_char c "+" = false
  /\ is_char c "x" = false /\ is_char c "X" = false
  /\ isxdigit c = true.
Proof.
  each_char c; intros H; try discriminate H; repeat split; reflexivity.
Qed.

Lemma digits_seen (base : Z) (p : string) :
  forall acc, snd (digits base p acc true) = true.
Proof.
  induction p as [|c q IH]; intros acc; simpl; [reflexivity|].
  destruct (digit_val c) as [d|]; [|reflexivity].
  destruct (d <? base); [apply IH|reflexivity].
Qed.

(** [strtoll] at an upper-case hex digit that does not open [0x]. *)
Lemma strtoll16_at_digit (c : ascii) (u : string) :
  upper_hex c = true ->
  is_char (hd u) "x" = false -> is_char (hd u) "X" = false ->
  strtoll16 (String c u)
  = (Z.min LLONG_MAX (fst (fst (digits 16 (String c u) 0 false))),
     snd (fst (digits 16 (String c u) 0 false))).
Proof.
  intros Hc Hx HX.
  assert (E : forall q : string,
             match q with
             | String "0" (String x q') =>
                 if (is_char x "x" || is_char x "X") && isxdigit (hd q')
                 then q' else q
             | _ => q
             end = q -> q = String c u ->
             strtoll16 (String c u)
             = (Z.min LLONG_MAX (fst (fst (digits 16 q 0 false))),
                snd (fst (digits 16 q 0 false)))).
  { intros q Hq ->. unfold strtoll16.
    destruct (upper_hex_facts c Hc) as (Hs & Hm & Hp & _).
    cbn [SkipSpace]. rewrite Hs.
    assert (Hsign : match String c u with
                    | String "-" q' => (true, q')
                    | String "+" q' => (false, q')
                    | _ => (false, String c u)
                    end = (false, String c u)).
    { revert Hm Hp. each_char c; intros Hm Hp;
        solve [reflexivity | discriminate Hm | discriminate Hp]. }
    rewrite Hsign, Hq.
    destruct (digits 16 (String c u) 0 false) as [[v r] seen] eqn:D.
    assert (seen = true).
    { revert D. cbn [digits].
      assert (Hd : exists d, digit_val c = Some d /\ (d <? 16) = true).
      { revert Hc. clear. each_char c; intros H; try discriminate H;
          eexists; split; reflexivity. }
      destruct Hd as (d & -> & ->). intros D.
      pose proof (digits_seen 16 u (0 * 16 + d)) as S. rewrite D in S. exact S. }
    subst seen. reflexivity. }
  apply E; [|reflexivity].
  destruct u as [|x q']; [revert Hc; clear; each_char c; reflexivity|].
  simpl in Hx, HX. rewrite Hx, HX. cbn [orb andb].
  clear. each_char c; reflexivity.
Qed.

Lemma all_chars_hd (P : ascii -> bool) (t r : string) :
  all_chars P t = true -> t <> "" -> P (hd (t ++ r)) = true.
Proof.
  destruct t as [|c t]; [contradiction|]. simpl.
  intros H _. now apply andb_prop in H as [H _].
Qed.

Lemma printf_X_shape (w : nat) (n : Z) :
  (1 <= w)%nat -> 0 <= n ->
  all_chars upper_hex (printf_X w n) = true /\ printf_X w n <> "".
Proof.
  intros Hw Hn. unfold printf_X. rewrite hex_of_numeral. split.
  - apply pad_zero_all_chars; [reflexivity|].
    apply numeral_all_chars; [lia| |reflexivity].
    intros d Hd.
    assert (C : d = 0 \/ d = 1 \/ d = 2 \/ d = 3 \/ d = 4 \/ d = 5 \/ d = 6
                \/ d = 7 \/ d = 8 \/ d = 9 \/ d = 10 \/ d = 11 \/ d = 12
                \/ d = 13 \/ d = 14 \/ d = 15) by lia.
    repeat (destruct C as [->|C]; [reflexivity|]). now subst d.
  - apply pad_zero_nonempty.
    destruct (Z.eq_dec n 0) as [->|Hz].
    + right. simpl. lia.
    + left. apply numeral_positive. lia.
Qed.

(** The numeral that [%X] prints is read back. *)
Lemma hex_numeral_is_read (w : nat) (n : Z) (rest : string) (s : Asm) :
  (1 <= w)%nat -> 0 <= n < 2 ^ 32 ->
  isxdigit (hd rest) = false ->
  is_char (hd rest) "x" = false -> is_char (hd rest) "X" = false ->
  EvalHexValue (printf_X w n ++ rest) s = Done (rest, int_wrap n, s).
Proof.
  intros Hw Hn Hr Hx HX.
  destruct (printf_X_shape w n Hw (proj1 Hn)) as [Hall Hne].
  assert (Hdig : digits 16 (printf_X w n ++ rest) 0 false = (n, rest, true)).
  { unfold printf_X. rewrite pad_zero_app, digits_zeros by lia.
    rewrite hex_of_numeral.
    rewrite (digits_numeral hex_digit 16) by
      (try lia; try apply digit_val_hex_digit;
       change (Z.of_nat 16) with 16; lia).
    simpl String.append.
    rewrite digits_stop.
    - f_equal. simpl orb.
      destruct (Z.eq_dec n 0) as [->|Hz].
      + simpl. rewrite Nat.sub_0_r.
        destruct w; [lia|reflexivity].
      + replace (0 <? n) with true by (symmetry; apply Z.ltb_lt; lia).
        apply orb_true_r.
    - revert Hr. unfold isxdigit, digit_val.
      destruct (isdigit (hd rest)); [discriminate|].
      destruct (in_range 65 70 (hd rest)); [discriminate|].
      destruct (in_range 97 102 (hd rest)); [discriminate|reflexivity]. }
  unfold EvalHexValue.
  destruct (printf_X w n) as [|c T] eqn:ET; [contradiction|].
  simpl in Hall. apply andb_prop in Hall as [Hc HT].
  cbn [String.append] in *.
  rewrite strtoll16_at_digit; try assumption.
  - rewrite Hdig. cbn [fst snd].
    rewrite Z.min_r by (unfold LLONG_MAX; lia).
    change 0xffffffff with (Z.ones 32). rewrite Z.land_ones by lia.
    rewrite Z.mod_small by lia. reflexivity.
  - destruct T as [|d T]; [exact Hx|].
    simpl in HT. apply andb_prop in HT as [Hd _].
    now destruct (upper_hex_facts d Hd) as (_ & _ & _ & H & _).
  - destruct T as [|d T]; [exact HX|].
    simpl in HT. apply andb_prop in HT as [Hd _].
    now destruct (upper_hex_facts d Hd) as (_ & _ & _ & _ & H & _).
Qed.

(** X5.  [EvalHexValue] reads back what [%X] prints: the upper-case
    hex numeral of [n] below [2^32], with any leading zeros, followed by
    a character that is no hex digit and no [x], gives [n] as an [int]
    and stops at that character, leaving the state alone. *)
Theorem EvalHexValue_reads_printf_X (w : nat) (n : Z) (rest : string) (s : Asm) :
  (1 <= w)%nat -> 0 <= n < 2 ^ 32 ->
  isxdigit (hd rest) = false ->
  is_char (hd rest) "x" = false -> is_char (hd rest) "X" = false ->
  EvalHexValue (printf_X w n ++ rest) s = Done (rest, int_wrap n, s).
Proof. apply hex_numeral_is_read. Qed.

Lemma EvalHexValue_reads_printf_X_witness :
  EvalHexValue (printf_X 4 0x1f0 ++ ",X") init_Asm = Done (",X", int_wrap 0x1f0, init_Asm).
Proof.
  apply EvalHexValue_reads_printf_X; try reflexivity; lia.
Defined.

(** ** Decimal constants *)

Lemma decimal_shape (n : Z) :
  0 <= n -> all_chars isdigit (decimal n) = true /\ decimal n <> "".
Proof.
  intros Hn. unfold decimal. destruct (n =? 0) eqn:E.
  - split; [reflexivity|discriminate].
  - apply Z.eqb_neq in E. split.
    + apply numeral_all_chars; [lia| |reflexivity].
      intros d Hd.
      assert (C : d = 0 \/ d = 1 \/ d = 2 \/ d = 3 \/ d = 4 \/ d = 5 \/ d = 6
                  \/ d = 7 \/ d = 8 \/ d = 9) by lia.
      repeat (destruct C as [->|C]; [reflexivity|]). now subst d.
    + apply numeral_positive. lia.
Qed.

Lemma decimal_digits (n : Z) (rest : string) :
  0 <= n < 10 ^ 20 -> isdigit (hd rest) = false ->
  digits 10 (decimal n ++ rest) 0 false = (n, rest, true).
Proof.
  intros Hn Hr.
  assert (Hstop : forall a sn, digits 10 rest a sn = (a, rest, sn)).
  { intros a sn. apply digits_stop. revert Hr. generalize (hd rest). clear.
    intros c. each_char c; intros H; try discriminate H; reflexivity. }
  unfold decimal. destruct (n =? 0) eqn:E.
  - apply Z.eqb_eq in E. subst n. cbn [String.append digits].
    change (digit_val "0") with (Some 0). cbv iota. simpl (0 <? 10).
    cbv iota. apply Hstop.
  - apply Z.eqb_neq in E.
    rewrite (digits_numeral (fun d => chr (48 + d)) 10)
      by (try lia; try apply digit_val_decimal_digit;
          change (Z.of_nat 20) with 20; lia).
    simpl String.append. rewrite Hstop.
    replace (0 <? n) with true by (symmetry; apply Z.ltb_lt; lia).
    reflexivity.
Qed.

Lemma isdigit_facts (c : ascii) :
  isdigit c = true ->
  isxdigit c = true /\ is_char c "H" = false /\ is_char c "h" = false.
Proof. each_char c; intros H; try discriminate H; repeat split; reflexivity. Qed.

Lemma not_alpha_facts (c : ascii) :
  isalpha c = false ->
  is_char c "H" = false /\ is_char c "h" = false
  /\ (isdigit c = false -> isxdigit c = false).
Proof.
  each_char c; intros H; try discriminate H; repeat split;
    try reflexivity; intros H0; discriminate H0.
Qed.

Lemma no_H_suffix (T rest : string) :
  all_chars isdigit T = true ->
  isxdigit (hd rest) = false ->
  is_char (hd rest) "H" = false -> is_char (hd rest) "h" = false ->
  forall k : nat,
    let i := count_xdigits k (T ++ rest) in
    is_char (hd (adv i (T ++ rest))) "H" || is_char (hd (adv i (T ++ rest))) "h"
    = false.
Proof.
  intros HT Hx H1 H2.
  induction T as [|c T IH]; intros k; cbv zeta.
  - simpl String.append.
    assert (E : count_xdigits k rest = O).
    { destruct k, rest as [|c r]; simpl; try reflexivity.
      simpl in Hx. now rewrite Hx. }
    rewrite E. simpl adv. now rewrite H1, H2.
  - simpl in HT. apply andb_prop in HT as [Hc HT].
    destruct (isdigit_facts c Hc) as (Hxc & H1c & H2c).
    destruct k as [|k]; cbn [String.append count_xdigits].
    + simpl. now rewrite H1c, H2c.
    + rewrite Hxc. cbn [adv]. apply (IH HT k).
Qed.

Lemma skip_digits_app (T rest : string) :
  all_chars isdigit T = true -> isdigit (hd rest) = false ->
  skip_digits (T ++ rest) = rest.
Proof.
  induction T as [|c T IH]; simpl; intros HT Hr.
  - destruct rest as [|c r]; [reflexivity|]. simpl in *. now rewrite Hr.
  - apply andb_prop in HT as [Hc HT]. rewrite Hc. now apply IH.
Qed.

(** The decimal numeral is read back. *)
Lemma decimal_numeral_is_read (n : Z) (rest : string) (s : Asm) :
  0 <= n < 2 ^ 31 ->
  (isalnum (hd rest) = false ->
   EvalDecValue (decimal n ++ rest) s = Done (rest, n, s))
  /\ (isalpha (hd rest) = true -> isxdigit (hd rest) = false ->
      is_char (hd rest) "H" = false -> is_char (hd rest) "h" = false ->
      EvalDecValue (decimal n ++ rest) s
      = Exit "Illegal character in decimal constant").
Proof.
  intros Hn.
  destruct (decimal_shape n (proj1 Hn)) as [Hall Hne].
  split.
  - intros Hr. unfold isalnum in Hr. apply orb_false_iff in Hr as [Ha Hd].
    destruct (not_alpha_facts _ Ha) as (H1 & H2 & H3).
    unfold EvalDecValue.
    rewrite (no_H_suffix _ _ Hall (H3 Hd) H1 H2 5).
    unfold atoi. rewrite decimal_digits by (try assumption; lia).
    rewrite (skip_digits_app _ _ Hall Hd), Ha. cbn [negb].
    rewrite Z.min_r by (unfold LLONG_MAX; lia).
    unfold int_wrap. rewrite Z.mod_small by lia.
    do 3 f_equal. lia.
  - intros Ha Hx H1 H2.
    assert (Hd : isdigit (hd rest) = false).
    { revert Hx. unfold isxdigit. now destruct (isdigit (hd rest)). }
    unfold EvalDecValue.
    rewrite (no_H_suffix _ _ Hall Hx H1 H2 5).
    rewrite (skip_digits_app _ _ Hall Hd), Ha. cbn [negb].
    revert Hx. unfold isxdigit. rewrite Hd. cbn [orb]. now intros ->.
Qed.

(** X6.  [EvalDecValue] reads the decimal numeral of [n] below [2^31]:
    followed by a character that is neither letter nor digit it gives
    [n] and stops there; followed by a letter that is neither a hex
    digit nor [H] the run ends with the error of an illegal character
    in a decimal constant. *)
Theorem EvalDecValue_reads_decimal (n : Z) (rest : string) (s : Asm) :
  0 <= n < 2 ^ 31 ->
  (isalnum (hd rest) = false ->
   EvalDecValue (decimal n ++ rest) s = Done (rest, n, s))
  /\ (isalpha (hd rest) = true -> isxdigit (hd rest) = false ->
      is_char (hd rest) "H" = false -> is_char (hd rest) "h" = false ->
      EvalDecValue (decimal n ++ rest) s
      = Exit "Illegal character in decimal constant").
Proof. apply decimal_numeral_is_read. Qed.

Lemma EvalDecValue_reads_decimal_witness :
  EvalDecValue (decimal 6809 ++ "+1") init_Asm = Done ("+1", 6809, init_Asm)
  /\ EvalDecValue (decimal 6809 ++ "K") init_Asm
     = Exit "Illegal character in decimal constant".
Proof.
  split.
  - apply (proj1 (EvalDecValue_reads_decimal 6809 "+1" init_Asm ltac:(lia))).
    reflexivity.
  - apply (proj2 (EvalDecValue_reads_decimal 6809 "K" init_Asm ltac:(lia)));
      reflexivity.
Defined.

(** ** Hex constants with the suffix [H] *)

Lemma xdigit_facts (c : ascii) :
  isxdigit c = true ->
  isspace c = false /\ is_char c "x" = false /\ is_char c "X" = false
  /\ digit_val c = Some (hex_digit_value c)
  /\ 0 <= hex_digit_value c < 16.
Proof.
  each_char c; intros H; try discriminate H; repeat split; try reflexivity;
    vm_compute; discriminate.
Qed.

Lemma digits_hex (T : string) :
  all_chars isxdigit T = true ->
  forall (acc : Z) (seen : bool) (h : ascii) (rest : string),
    isxdigit h = false ->
    digits 16 (T ++ String h rest) acc seen
    = (hex_value_from acc T, String h rest,
       seen || negb (Nat.eqb (strlen T) 0)).
Proof.
  induction T as [|c T IH]; intros HT acc seen h rest Hh.
  - cbn [String.append hex_value_from]. change (strlen "") with O.
    cbn [Nat.eqb negb]. rewrite orb_false_r. apply digits_stop. cbn [hd].
    revert Hh. unfold isxdigit, digit_val.
    destruct (isdigit h); [discriminate|].
    destruct (in_range 65 70 h); [discriminate|].
    destruct (in_range 97 102 h); [discriminate|reflexivity].
  - simpl in HT. apply andb_prop in HT as [Hc HT].
    destruct (xdigit_facts c Hc) as (_ & _ & _ & Hv & Hr).
    cbn [String.append digits hex_value_from]. rewrite Hv.
    replace (hex_digit_value c <? 16) with true
      by (symmetry; apply Z.ltb_lt; lia).
    rewrite (IH HT) by exact Hh.
    change (strlen (String c T)) with (S (strlen T)).
    cbn [Nat.eqb negb]. rewrite orb_true_r.
    replace (acc * 16 + hex_digit_value c) with (16 * acc + hex_digit_value c)
      by lia.
    reflexivity.
Qed.

Lemma hex_value_bound (T : string) :
  all_chars isxdigit T = true ->
  forall acc, 0 <= acc ->
    0 <= hex_value_from acc T < (acc + 1) * 16 ^ Z.of_nat (strlen T).
Proof.
  induction T as [|c T IH]; intros HT acc Hacc.
  - simpl. lia.
  - simpl in HT. apply andb_prop in HT as [Hc HT].
    destruct (xdigit_facts c Hc) as (_ & _ & _ & _ & Hr).
    cbn [hex_value_from]. change (strlen (String c T)) with (S (strlen T)).
    specialize (IH HT (16 * acc + hex_digit_value c) ltac:(lia)).
    rewrite Nat2Z.inj_succ, Z.pow_succ_r by lia.
    assert (0 < 16 ^ Z.of_nat (strlen T)) by (apply Z.pow_pos_nonneg; lia).
    nia.
Qed.

(** [strtoll] at a hex digit that does not open [0x]. *)
Lemma strtoll16_at_xdigit (c : ascii) (u : string) :
  isxdigit c = true ->
  is_char (hd u) "x" = false -> is_char (hd u) "X" = false ->
  strtoll16 (String c u)
  = (Z.min LLONG_MAX (fst (fst (digits 16 (String c u) 0 false))),
     snd (fst (digits 16 (String c u) 0 false))).
Proof.
  intros Hc Hx HX.
  assert (E : forall q : string,
             match q with
             | String "0" (String x q') =>
                 if (is_char x "x" || is_char x "X") && isxdigit (hd q')
                 then q' else q
             | _ => q
             end = q -> q = String c u ->
             strtoll16 (String c u)
             = (Z.min LLONG_MAX (fst (fst (digits 16 q 0 false))),
                snd (fst (digits 16 q 0 false)))).
  { intros q Hq ->. unfold strtoll16.
    destruct (xdigit_facts c Hc) as (Hs & _).
    cbn [SkipSpace]. rewrite Hs.
    assert (Hsign : match String c u with
                    | String "-" q' => (true, q')
                    | String "+" q' => (false, q')
                    | _ => (false, String c u)
                    end = (false, String c u)).
    { revert Hc. clear. each_char c; intros Hc;
        solve [reflexivity | discriminate Hc]. }
    rewrite Hsign, Hq.
    destruct (digits 16 (String c u) 0 false) as [[v r] seen] eqn:D.
    assert (seen = true).
    { revert D. cbn [digits].
      destruct (xdigit_facts c Hc) as (_ & _ & _ & Hv & Hr).
      rewrite Hv.
      replace (hex_digit_value c <? 16) with true
        by (symmetry; apply Z.ltb_lt; lia).
      intros D.
      pose proof (digits_seen 16 u (0 * 16 + hex_digit_value c)) as S.
      rewrite D in S. exact S. }
    subst seen. reflexivity. }
  apply E; [|reflexivity].
  destruct u as [|x q']; [revert Hc; clear; each_char c; reflexivity|].
  simpl in Hx, HX. rewrite Hx, HX. cbn [orb andb].
  clear. each_char c; reflexivity.
Qed.

Lemma count_xdigits_any (T : string) :
  all_chars isxdigit T = true ->
  forall (k : nat) (c : ascii) (rest : string),
    (strlen T <= k)%nat -> isxdigit c = false ->
    adv (count_xdigits k (T ++ String c rest)) (T ++ String c rest)
    = String c rest.
Proof.
  induction T as [|d T IH]; intros HT k c rest Hk Hc.
  - simpl String.append. destruct k; simpl; [reflexivity|]. now rewrite Hc.
  - simpl in HT. apply andb_prop in HT as [Hd HT].
    destruct k as [|k]; [simpl in Hk; lia|].
    cbn [String.append count_xdigits]. rewrite Hd. cbn [adv].
    apply IH; try assumption. simpl in Hk. lia.
Qed.

(** X7.  One to five hex digits, in either case, followed by [H] or
    [h] are read by [EvalDecValue] as a hex constant: the value is that
    of the digits in base 16, and the suffix is consumed. *)
Theorem EvalDecValue_H_suffix (T : string) (h : ascii) (rest : string)
        (s : Asm) :
  all_chars isxdigit T = true -> T <> "" -> (strlen T <= 5)%nat ->
  h = "H"%char \/ h = "h"%char ->
  EvalDecValue (T ++ String h rest) s = Done (rest, hex_value T, s).
Proof.
  intros Hall Hne Hlen Hh.
  assert (Hx : isxdigit h = false) by (destruct Hh as [->| ->]; reflexivity).
  assert (Hhx : is_char h "x" = false /\ is_char h "X" = false)
    by (destruct Hh as [->| ->]; split; reflexivity).
  unfold EvalDecValue.
  rewrite (count_xdigits_any _ Hall 5 h rest Hlen Hx).
  cbn [hd].
  replace (is_char h "H" || is_char h "h") with true
    by (destruct Hh as [->| ->]; reflexivity).
  pose proof (hex_value_bound T Hall 0 ltac:(lia)) as Hb.
  assert (Hp : 16 ^ Z.of_nat (strlen T) <= 16 ^ 5)
    by (apply Z.pow_le_mono_r; lia).
  change (16 ^ 5) with 1048576 in Hp. unfold hex_value.
  pose proof (digits_hex T Hall 0 false h rest Hx) as Hd.
  unfold EvalHexValue.
  destruct T as [|c T]; [contradiction|].
  simpl in Hall. apply andb_prop in Hall as [Hc HT].
  cbn [String.append] in *.
  rewrite strtoll16_at_xdigit; [|exact Hc| |].
  - rewrite Hd. cbn [fst snd bind adv].
    rewrite Z.min_r by (unfold LLONG_MAX; lia).
    change 0xffffffff with (Z.ones 32). rewrite Z.land_ones by lia.
    rewrite Z.mod_small by lia.
    unfold int_wrap. rewrite Z.mod_small by lia.
    do 3 f_equal. lia.
  - destruct T as [|d T]; [exact (proj1 Hhx)|].
    simpl in HT. apply andb_prop in HT as [Hd' _].
    now destruct (xdigit_facts d Hd') as (_ & H & _).
  - destruct T as [|d T]; [exact (proj2 Hhx)|].
    simpl in HT. apply andb_prop in HT as [Hd' _].
    now destruct (xdigit_facts d Hd') as (_ & _ & H & _).
Qed.

Lemma EvalDecValue_H_suffix_witness :
  EvalDecValue ("0ff" ++ "h,X") init_Asm = Done (",X", 255, init_Asm)
  /\ EvalDecValue ("0FF0" ++ "H") init_Asm = Done ("", 0xff0, init_Asm).
Proof.
  split.
  - apply (EvalDecValue_H_suffix "0ff" "h" ",X" init_Asm);
      [reflexivity|discriminate|simpl; lia|right; reflexivity].
  - apply (EvalDecValue_H_suffix "0FF0" "H" "" init_Asm);
      [reflexivity|discriminate|simpl; lia|left; reflexivity].
Defined.

(** ** Expressions of decimal constants *)

Lemma append_nil (t : string) : (t ++ "")%string = t.
Proof. induction t as [|c t IH]; simpl; [reflexivity|now rewrite IH]. Qed.

Lemma append_assoc (a b c : string) :
  ((a ++ b) ++ c)%string = (a ++ b ++ c)%string.
Proof. induction a as [|x a IH]; simpl; [reflexivity|now rewrite IH]. Qed.

Lemma digit_head_facts (c : ascii) :
  isdigit c = true ->
  isspace c = false /\ is_char c "," = false /\ is_char c NUL = false
  /\ strchr (String dquote "[(+-!~<>*$'%?") c = false
  /\ strchr "*/+-<>=!&^|" c = false.
Proof. each_char c; intros H; try discriminate H; repeat split; reflexivity. Qed.

Lemma decimal_head (n : Z) (rest : string) :
  0 <= n ->
  exists d t, (decimal n ++ rest)%string = String d t /\ isdigit d = true.
Proof.
  intros Hn. destruct (decimal_shape n Hn) as [Hall Hne].
  destruct (decimal n) as [|d t]; [contradiction|].
  exists d, (t ++ rest)%string. split; [reflexivity|].
  simpl in Hall. now apply andb_prop in Hall as [H _].
Qed.

Lemma find_binop_digit (b : binop_struct) (d : ascii) (t : string) :
  In b binop -> isdigit d = true ->
  find_binop (op b ++ String d t) = Some b.
Proof.
  intros Hin Hd.
  assert (F : is_char d "<" = false /\ is_char d "=" = false
              /\ is_char d ">" = false /\ is_char d "&" = false
              /\ is_char d "|" = false).
  { revert Hd. clear. each_char d; intros H; try discriminate H;
      repeat split; reflexivity. }
  destruct F as (F1 & F2 & F3 & F4 & F5).
  simpl in Hin.
  repeat (destruct Hin as [<-|Hin];
          [unfold find_binop; simpl; rewrite ?F1, ?F2, ?F3, ?F4, ?F5;
           reflexivity|]).
  contradiction.
Qed.

Lemma binop_facts (b : binop_struct) (t : string) :
  In b binop ->
  2 <= prio b <= 11
  /\ isalnum (hd (op b ++ t)) = false
  /\ isspace (hd (op b ++ t)) = false
  /\ adv (strlen (op b)) (op b ++ t) = t.
Proof.
  intros Hin. simpl in Hin.
  repeat (destruct Hin as [<-|Hin];
          [repeat split; try reflexivity; simpl; lia|]).
  contradiction.
Qed.

Section Literals.

Variable rec : string -> Z -> Asm -> parse (option Z).

Lemma left_operand_decimal (n : Z) (rest : string) (s : Asm) :
  0 <= n < 2 ^ 31 -> isalnum (hd rest) = false ->
  left_operand rec (decimal n ++ rest) s = Done (rest, n, s).
Proof.
  intros Hn Hr.
  destruct (decimal_head n rest (proj1 Hn)) as (d & t & E & Hd).
  destruct (digit_head_facts d Hd) as (_ & _ & _ & Hu & _).
  unfold left_operand. rewrite E. cbn [hd]. rewrite Hu, andb_false_r, Hd.
  rewrite <- E.
  now apply (proj1 (decimal_numeral_is_read n rest s Hn)).
Qed.

(** A decimal constant, then a text that is neither a blank nor an
    operator: the constant is the value. *)
Lemma EvalOperand_body_decimal (n : Z) (rest : string) (prio0 : Z) (s : Asm) :
  0 <= n < 2 ^ 31 -> isalnum (hd rest) = false ->
  isspace (hd rest) = false -> at_binop rest = false ->
  EvalOperand_body rec (decimal n ++ rest) prio0 s = Done (rest, Some n, s).
Proof.
  intros Hn Hr Hs Hb.
  destruct (decimal_head n rest (proj1 Hn)) as (d & t & E & Hd).
  destruct (digit_head_facts d Hd) as (Hsp & Hco & _).
  unfold EvalOperand_body.
  rewrite (SkipSpace_fixed (decimal n ++ rest)) by (rewrite E; exact Hsp).
  replace (is_char (hd (decimal n ++ rest)) ",") with false
    by (rewrite E; symmetry; exact Hco).
  rewrite left_operand_decimal by assumption. cbn [bind].
  assert (Hblank : is_char (hd rest) " " = false).
  { revert Hs. generalize (hd rest). clear. intros c.
    each_char c; intros H; try discriminate H; reflexivity. }
  rewrite Hblank, andb_false_r.
  rewrite (SkipSpace_fixed rest Hs).
  rewrite binop_loop_end by exact Hb.
  unfold style_rest. now rewrite Hblank, andb_false_r.
Qed.

End Literals.

Lemma EvalOperand_fuel_decimal (f : nat) (n : Z) (prio0 : Z) (s : Asm) :
  0 <= n < 2 ^ 31 ->
  EvalOperand_fuel (S f) (decimal n) prio0 s = Done ("", Some n, s).
Proof.
  intros Hn. cbn [EvalOperand_fuel].
  rewrite <- (append_nil (decimal n)).
  now apply EvalOperand_body_decimal.
Qed.

Lemma style_rest_op (b : binop_struct) (t : string) (s : Asm) :
  In b binop -> style_rest s (op b ++ t) = (op b ++ t)%string.
Proof.
  intros Hin. unfold style_rest.
  replace (is_char (hd (op b ++ t)) " ") with false; [now rewrite andb_false_r|].
  simpl in Hin.
  repeat (destruct Hin as [<-|Hin]; [reflexivity|]). contradiction.
Qed.

Lemma style_rest_nil (s : Asm) : style_rest s "" = "".
Proof.
  unfold style_rest. change (is_char (hd "") " ") with false.
  now rewrite andb_false_r.
Qed.

(** An operator of the table has a result when a shift is by a count
    in 0 .. 31 and a quotient is not that of [INT_MIN] and [-1]. *)
Lemma binop_defined_in_range (b : binop_struct) (r w : Z) :
  In b binop -> shift_in_range b w -> - 2 ^ 31 < r \/ w <> -1 ->
  binop_defined b r w = true.
Proof.
  intros Hin Hs Hq. unfold binop_defined. apply orb_true_iff. right.
  unfold shift_in_range in Hs. unfold foo_defined.
  simpl in Hin.
  repeat (destruct Hin as [<-|Hin]; [try reflexivity|]); try contradiction.
  - cbn. apply negb_true_iff, andb_false_iff.
    destruct Hq as [Hq|Hq]; [left|right]; apply Z.eqb_neq; lia.
  - cbn in Hs |- *. specialize (Hs (or_introl eq_refl)).
    apply andb_true_iff. split; [apply Z.leb_le|apply Z.ltb_lt]; lia.
  - cbn in Hs |- *. specialize (Hs (or_intror eq_refl)).
    apply andb_true_iff. split; [apply Z.leb_le|apply Z.ltb_lt]; lia.
Qed.

(** A constant, an operator and a constant. *)
Lemma EvalOperand_fuel_binary (f : nat) (prio0 : Z) (a c : Z)
      (b : binop_struct) (s : Asm) :
  In b binop -> 0 <= a < 2 ^ 31 -> 0 <= c < 2 ^ 31 -> prio0 < prio b ->
  shift_in_range b c ->
  EvalOperand_fuel (S (S f)) (decimal a ++ op b ++ decimal c) prio0 s
  = Done ("", Some (apply_binop b a c), s).
Proof.
  intros Hin Ha Hc Hp Hsh.
  destruct (binop_facts b (decimal c) Hin) as (_ & Hal & Hsp & Hadv).
  destruct (decimal_head a (op b ++ decimal c) (proj1 Ha)) as (d & t & E & Hd).
  destruct (digit_head_facts d Hd) as (Hspd & Hco & _).
  destruct (decimal_head c "" (proj1 Hc)) as (d' & t' & E' & Hd').
  rewrite append_nil in E'.
  cbn [EvalOperand_fuel].
  rewrite (EvalOperand_one_binop _ _ prio0 s (op b ++ decimal c) a s b "" c s).
  - now rewrite style_rest_nil.
  - rewrite SkipSpace_fixed by (rewrite E; exact Hspd). rewrite E. exact Hco.
  - rewrite SkipSpace_fixed by (rewrite E; exact Hspd).
    now apply left_operand_decimal.
  - replace (is_char (hd (op b ++ decimal c)) " ") with false;
      [apply andb_false_r|].
    revert Hsp. generalize (hd (op b ++ decimal c)). clear. intros x.
    each_char x; intros H; try discriminate H; reflexivity.
  - rewrite SkipSpace_fixed by exact Hsp. rewrite E'.
    now apply find_binop_digit.
  - exact Hp.
  - rewrite SkipSpace_fixed by exact Hsp. rewrite Hadv.
    now apply EvalOperand_fuel_decimal.
  - apply binop_defined_in_range; [exact Hin|exact Hsh|lia].
  - reflexivity.
Qed.

(** X8.  For every operator [b] of the table [binop], a shift being
    by a count in 0 .. 31, the operand text [a b c] of two decimal
    constants evaluates to [b.foo(a,c)], consumes the whole text and
    leaves the state alone; only when [c] is the number [UNDEF] the
    value is [UNDEF]. *)
Theorem EvalOperand_binary_operator (a c : Z) (b : binop_struct) (s : Asm) :
  In b binop -> 0 <= a < 2 ^ 31 -> 0 <= c < 2 ^ 31 ->
  shift_in_range b c ->
  EvalOperand (decimal a ++ op b ++ decimal c) 0 s
  = Done ("", Some (if c =? UNDEF then UNDEF else foo b a c), s).
Proof.
  intros Hin Ha Hc Hsh. unfold EvalOperand.
  destruct (decimal_head a (op b ++ decimal c) (proj1 Ha)) as (d & t & E & _).
  destruct (binop_facts b (decimal c) Hin) as (Hp & _).
  assert (Hlen : exists f, strlen (decimal a ++ op b ++ decimal c) = S f).
  { rewrite E. simpl. eauto. }
  destruct Hlen as [f ->].
  now apply EvalOperand_fuel_binary; try lia.
Qed.

Lemma EvalOperand_binary_operator_witness :
  EvalOperand (decimal 6 ++ "<<" ++ decimal 3) 0 init_Asm
  = Done ("", Some 48, init_Asm).
Proof.
  apply (EvalOperand_binary_operator 6 3 (mkBinop "<<" 9 op_asl) init_Asm);
    [simpl; tauto|lia|lia|intros _; lia].
Defined.

Lemma binop_loop_stop (rec : string -> Z -> Asm -> parse (option Z))
      (n : nat) (prio0 : Z) (p : string) (r : Z) (w : option Z) (s : Asm)
      (b : binop_struct) :
  find_binop p = Some b -> prio b <= prio0 ->
  binop_loop rec (S n) prio0 p r w s = Done (style_rest s p, Some r, s).
Proof.
  intros Hb Hp. simpl. rewrite (find_binop_at _ _ Hb), Hb.
  now replace (prio b <=? prio0) with true by (symmetry; apply Z.leb_le; lia).
Qed.

(** A constant before an operator that does not bind tighter than
    [prio0]: the evaluation stops at the operator. *)
Lemma EvalOperand_fuel_yields (f : nat) (prio0 : Z) (a : Z)
      (b : binop_struct) (d : ascii) (t : string) (s : Asm) :
  In b binop -> 0 <= a < 2 ^ 31 -> isdigit d = true -> prio b <= prio0 ->
  EvalOperand_fuel (S f) (decimal a ++ op b ++ String d t) prio0 s
  = Done ((op b ++ String d t)%string, Some a, s).
Proof.
  intros Hin Ha Hd Hp.
  destruct (binop_facts b (String d t) Hin) as (_ & Hal & Hsp & Hadv).
  destruct (decimal_head a (op b ++ String d t) (proj1 Ha)) as (d0 & t0 & E & Hd0).
  destruct (digit_head_facts d0 Hd0) as (Hspd & Hco & _).
  cbn [EvalOperand_fuel]. unfold EvalOperand_body.
  rewrite (SkipSpace_fixed (decimal a ++ _)) by (rewrite E; exact Hspd).
  replace (is_char (hd (decimal a ++ op b ++ String d t)) ",") with false
    by (rewrite E; symmetry; exact Hco).
  rewrite left_operand_decimal by assumption. cbn [bind].
  assert (Hblank : is_char (hd (op b ++ String d t)) " " = false).
  { revert Hsp. generalize (hd (op b ++ String d t)). clear. intros c.
    each_char c; intros H; try discriminate H; reflexivity. }
  rewrite Hblank, andb_false_r.
  rewrite (SkipSpace_fixed _ Hsp).
  rewrite (binop_loop_stop _ _ _ _ _ _ _ b) by
    (try assumption; now apply find_binop_digit).
  now rewrite style_rest_op.
Qed.

Lemma EvalOperand_fuel_S (f : nat) (p : string) (prio0 : Z) (s : Asm) :
  EvalOperand_fuel (S f) p prio0 s
  = EvalOperand_body (EvalOperand_fuel f) p prio0 s.
Proof. reflexivity. Qed.

Lemma decimal_len (n : Z) : 0 <= n -> (1 <= strlen (decimal n))%nat.
Proof.
  intros Hn. destruct (decimal_shape n Hn) as [_ Hne].
  destruct (decimal n); [contradiction|simpl; lia].
Qed.

Lemma op_text_length (b : binop_struct) : In b binop -> (1 <= strlen (op b))%nat.
Proof.
  intros Hin. simpl in Hin.
  repeat (destruct Hin as [<-|Hin]; [simpl; lia|]). contradiction.
Qed.

(** X9.  Precedence in [EvalOperand]: in [a b1 b c b2 ...], that is
    three decimal constants joined by two operators of [binop], the
    second operator is applied first exactly when its priority is
    higher; with equal priorities evaluation goes from left to right.
    Every shift that is evaluated is by a count in 0 .. 31. *)
Theorem EvalOperand_precedence (a b c : Z) (b1 b2 : binop_struct) (s : Asm) :
  In b1 binop -> In b2 binop ->
  0 <= a < 2 ^ 31 -> 0 <= b < 2 ^ 31 -> 0 <= c < 2 ^ 31 ->
  (if prio b1 <? prio b2
   then shift_in_range b2 c /\ shift_in_range b1 (apply_binop b2 b c)
   else shift_in_range b1 b /\ shift_in_range b2 c) ->
  EvalOperand (decimal a ++ op b1 ++ decimal b ++ op b2 ++ decimal c) 0 s
  = Done ("",
          Some (if prio b1 <? prio b2
                then apply_binop b1 a (apply_binop b2 b c)
                else apply_binop b2 (apply_binop b1 a b) c),
          s).
Proof.
  intros H1 H2 Ha Hb Hc Hsh.
  set (q2 := (op b2 ++ decimal c)%string).
  set (q := (op b1 ++ decimal b ++ q2)%string).
  destruct (binop_facts b1 (decimal b ++ q2) H1) as (Hp1 & Hal & Hsp & Hadv).
  destruct (binop_facts b2 (decimal c) H2) as (Hp2 & Hal2 & Hsp2 & Hadv2).
  destruct (decimal_head a q (proj1 Ha)) as (d0 & t0 & E & Hd0).
  destruct (digit_head_facts d0 Hd0) as (Hspd & Hco & _).
  destruct (decimal_head b q2 (proj1 Hb)) as (d1 & t1 & E1 & Hd1).
  destruct (decimal_head c "" (proj1 Hc)) as (d2 & t2 & E2 & Hd2).
  rewrite append_nil in E2.
  pose proof (decimal_len a (proj1 Ha)) as La.
  pose proof (decimal_len b (proj1 Hb)) as Lb.
  pose proof (decimal_len c (proj1 Hc)) as Lc.
  pose proof (op_text_length b1 H1) as L1. pose proof (op_text_length b2 H2) as L2.
  assert (Lq : (4 <= strlen q)%nat)
    by (unfold q, q2; rewrite !strlen_append; lia).
  assert (Lp : strlen (decimal a ++ q) = (strlen (decimal a) + strlen q)%nat)
    by apply strlen_append.
  unfold EvalOperand. fold q2. fold q.
  destruct (strlen (decimal a ++ q)) as [|[|f]] eqn:Hf; [lia|lia|].
  rewrite EvalOperand_fuel_S. unfold EvalOperand_body.
  rewrite (SkipSpace_fixed (decimal a ++ q)) by (rewrite E; exact Hspd).
  replace (is_char (hd (decimal a ++ q)) ",") with false
    by (rewrite E; symmetry; exact Hco).
  rewrite left_operand_decimal by assumption. cbn [bind].
  assert (Hblank : is_char (hd q) " " = false).
  { revert Hsp. fold q. generalize (hd q). clear. intros x.
    each_char x; intros H; try discriminate H; reflexivity. }
  rewrite Hblank, andb_false_r.
  rewrite (SkipSpace_fixed q Hsp).
  destruct (strlen q) as [|[|n]] eqn:Hn; [lia|lia|].
  assert (Hfind1 : find_binop q = Some b1)
    by (unfold q; rewrite E1; now apply find_binop_digit).
  assert (Hfind2 : find_binop q2 = Some b2)
    by (unfold q2; rewrite E2; now apply find_binop_digit).
  destruct (prio b1 <? prio b2) eqn:P.
  - apply Z.ltb_lt in P. destruct Hsh as [Hs2 Hs1].
    rewrite (binop_loop_step _ _ 0 q a None s b1 "" (apply_binop b2 b c) s);
      try assumption; try lia.
    + rewrite binop_loop_end by reflexivity. now rewrite style_rest_nil.
    + unfold q at 1. rewrite Hadv. unfold q2.
      now apply EvalOperand_fuel_binary.
    + apply binop_defined_in_range; [exact H1|exact Hs1|lia].
  - apply Z.ltb_ge in P. destruct Hsh as [Hs1 Hs2].
    rewrite (binop_loop_step _ _ 0 q a None s b1 q2 b s);
      try assumption; try lia.
    + rewrite (binop_loop_step _ _ 0 q2 _ (Some b) s b2 "" c s);
        try assumption; try lia.
      * rewrite binop_loop_end by reflexivity. now rewrite style_rest_nil.
      * unfold q2 at 1. rewrite Hadv2.
        now apply EvalOperand_fuel_decimal.
      * apply binop_defined_in_range; [exact H2|exact Hs2|lia].
    + unfold q at 1. rewrite Hadv. unfold q2. rewrite E2.
      now apply EvalOperand_fuel_yields.
    + apply binop_defined_in_range; [exact H1|exact Hs1|lia].
Qed.

Lemma EvalOperand_precedence_witness :
  EvalOperand (decimal 2 ++ "+" ++ decimal 3 ++ "*" ++ decimal 4) 0 init_Asm
  = Done ("", Some 14, init_Asm)
  /\ EvalOperand (decimal 9 ++ "-" ++ decimal 3 ++ "-" ++ decimal 2) 0 init_Asm
     = Done ("", Some 4, init_Asm).
Proof.
  split.
  - apply (EvalOperand_precedence 2 3 4 (mkBinop "+" 10 op_add)
             (mkBinop "*" 11 op_mul) init_Asm);
      solve [simpl; tauto | lia
             | split; intros [H|H]; discriminate H].
  - apply (EvalOperand_precedence 9 3 2 (mkBinop "-" 10 op_sub)
             (mkBinop "-" 10 op_sub) init_Asm);
      solve [simpl; tauto | lia
             | split; intros [H|H]; discriminate H].
Defined.

(** ** The symbol table *)

Lemma StrNCaseCmp_refl (a : string) : forall n, StrNCaseCmp a a n = 0.
Proof.
  induction a as [|x a IH]; intros [|n]; simpl; try reflexivity.
  replace (cmp_upper x x =? 0) with true
    by (symmetry; apply Z.eqb_eq, cmp_upper_zero; reflexivity).
  apply IH.
Qed.

Lemma StrCmp_eq_refl (s : Asm) (a : string) : StrCmp_eq s a a = true.
Proof.
  unfold StrCmp_eq, StrCaseCmp, streq.
  destruct (truthy (rd IgnoreCase s)).
  - now rewrite StrNCaseCmp_refl.
  - apply String.eqb_refl.
Qed.

Lemma find_app_new {A : Type} (f : A -> bool) (l : list A) (x : A) :
  find f l = None -> f x = true -> find f (l ++ [x]) = Some x.
Proof.
  induction l as [|y l IH]; simpl; intros H Hx; [now rewrite Hx|].
  destruct (f y); [discriminate|]. now apply IH.
Qed.

(** X10.  A symbol that is not in the label table evaluates to
    [UNDEF] and is appended to the table, once, with the address
    [UNDEF]: evaluating it again finds that entry and adds no second
    one.  When [AddLabel] refuses the name the run ends with its
    message. *)
Theorem forward_reference_is_recorded_once (p rest Sym : string) (s : Asm) :
  GetSymbol s p = (rest, Sym) ->
  find (fun l => StrCmp_eq s Sym (Name l)) (lab s) = None ->
  (forall s1, AddLabel Sym s = Done s1 ->
     EvalSymValue p s = Done (rest, UNDEF, s1)
     /\ lab s1 = (lab s ++ [mkLabel Sym UNDEF 0 0])%list
     /\ EvalSymValue p s1 = Done (rest, UNDEF, s1))
  /\ (forall msg, AddLabel Sym s = Exit msg -> EvalSymValue p s = Exit msg).
Proof.
  intros HG HF. split.
  - intros s1 HA.
    assert (E1 : s1 = set_lab (lab s ++ [mkLabel Sym UNDEF 0 0]) s).
    { revert HA. unfold AddLabel.
      destruct (MAXLAB - 2 <? Labels s); [discriminate|].
      destruct (existsb _ (firstn _ Mat)); [discriminate|].
      destruct (existsb _ PseudoTab); [discriminate|].
      intros H. now injection H as <-. }
    split; [|split].
    + unfold EvalSymValue, EvalSym. rewrite HG, HF, HA. reflexivity.
    + now rewrite E1.
    + unfold EvalSymValue, EvalSym.
      assert (HG1 : GetSymbol s1 p = (rest, Sym)) by (rewrite E1; exact HG).
      rewrite HG1.
      assert (HF1 : find (fun l => StrCmp_eq s1 Sym (Name l)) (lab s1)
                    = Some (mkLabel Sym UNDEF 0 0)).
      { rewrite E1. cbn [lab set_lab].
        apply find_app_new; [exact HF|]. apply StrCmp_eq_refl. }
      rewrite HF1. reflexivity.
  - intros msg HA. unfold EvalSymValue, EvalSym. now rewrite HG, HF, HA.
Qed.

Lemma forward_reference_is_recorded_once_witness :
  EvalSymValue "LOOP+1" init_Asm
  = Done ("+1", UNDEF, set_lab [mkLabel "LOOP" UNDEF 0 0] init_Asm)
  /\ EvalSymValue "ldx+1" init_Asm
     = Exit "Use of reserved mnemonic as label or operand".
Proof.
  split.
  - apply (proj1 (forward_reference_is_recorded_once "LOOP+1" "+1" "LOOP" init_Asm
                    eq_refl eq_refl)
                 (set_lab [mkLabel "LOOP" UNDEF 0 0] init_Asm)).
    reflexivity.
  - apply (proj2 (forward_reference_is_recorded_once "ldx+1" "+1" "ldx" init_Asm
                    eq_refl eq_refl)).
    reflexivity.
Defined.

(** ** What an evaluation leaves as it is *)

Lemma bind_Done {A B : Type} (c : outcome A) (k : A -> outcome B) (r : B) :
  bind c k = Done r -> exists a, c = Done a /\ k a = Done r.
Proof. destruct c; simpl; intros H; try discriminate H. now exists a. Qed.

Lemma ons_refl (s : Asm) : only_new_symbols s s.
Proof.
  split; [reflexivity|]. split; [reflexivity|].
  split; [|repeat split].
  exists []. split; [now rewrite app_nil_r|constructor].
Qed.

Lemma ons_trans (s1 s2 s3 : Asm) :
  only_new_symbols s1 s2 -> only_new_symbols s2 s3 -> only_new_symbols s1 s3.
Proof.
  intros (I1 & A1 & (n1 & L1 & F1) & S1 & O1 & H1 & T1 & G1)
         (I2 & A2 & (n2 & L2 & F2) & S2 & O2 & H2 & T2 & G2).
  split; [intros x Hx; now rewrite I2, I1|].
  split; [intros a i; now rewrite A2, A1|].
  split; [|repeat split; congruence].
  exists (n1 ++ n2)%list. split.
  - now rewrite L2, L1, app_assoc.
  - apply Forall_app. now split.
Qed.

Lemma ons_ForcedMode (v : Z) (s : Asm) : only_new_symbols s (wr ForcedMode v s).
Proof.
  split.
  { intros x Hx. apply rd_wr_other.
    destruct x; try reflexivity. contradiction. }
  split; [reflexivity|]. split; [|repeat split].
  exists []. split; [simpl; now rewrite app_nil_r|constructor].
Qed.

Lemma AddLabel_ons (p : string) (s s1 : Asm) :
  AddLabel p s = Done s1 -> only_new_symbols s s1.
Proof.
  unfold AddLabel.
  destruct (MAXLAB - 2 <? Labels s); [discriminate|].
  destruct (existsb _ (firstn _ Mat)); [discriminate|].
  destruct (existsb _ PseudoTab); [discriminate|].
  intros H. injection H as <-.
  split; [reflexivity|]. split; [reflexivity|]. split; [|repeat split].
  exists [mkLabel p UNDEF 0 0]. split; [reflexivity|].
  constructor; [reflexivity|constructor].
Qed.

Lemma EvalSym_ons (field : LabelStruct -> Z) (p : string) (s : Asm)
      (q : string) (v : Z) (s' : Asm) :
  EvalSym field p s = Done (q, v, s') -> only_new_symbols s s'.
Proof.
  unfold EvalSym. destruct (GetSymbol s p) as [p' Sym].
  destruct (find _ (lab s)).
  - intros H. injection H as _ _ <-. apply ons_refl.
  - intros H. apply bind_Done in H as (s1 & HA & H).
    injection H as _ _ <-. now apply AddLabel_ons in HA.
Qed.

Lemma EvalHexValue_state (p : string) (s : Asm) (q : string) (v : Z) (s' : Asm) :
  EvalHexValue p s = Done (q, v, s') -> s' = s.
Proof.
  unfold EvalHexValue. destruct (strtoll16 p). intros H. now injection H.
Qed.

Lemma EvalDecValue_state (p : string) (s : Asm) (q : string) (v : Z) (s' : Asm) :
  EvalDecValue p s = Done (q, v, s') -> s' = s.
Proof.
  unfold EvalDecValue.
  destruct (_ || _).
  - intros H. apply bind_Done in H as ([[q0 v0] s0] & H0 & H).
    apply EvalHexValue_state in H0. injection H as _ _ <-. exact H0.
  - destruct (negb _); [intros H; now injection H|].
    destruct (_ || _); discriminate.
Qed.

Lemma EvalCharValue_state (p : string) (s : Asm) (q : string) (v : Z) (s' : Asm) :
  EvalCharValue p s = Done (q, v, s') -> s' = s.
Proof.
  unfold EvalCharValue. destruct (is_char (hd p) NUL); [discriminate|].
  destruct (char_operand p) as [v0 p0].
  destruct (_ && _); [discriminate|]. intros H. now injection H.
Qed.

Lemma EvalMultiCharValue_state (p : string) (s : Asm) (q : string) (v : Z)
      (s' : Asm) :
  EvalMultiCharValue p s = Done (q, v, s') -> s' = s.
Proof.
  unfold EvalMultiCharValue. destruct (multi_chars 4 p 0).
  intros H. now injection H.
Qed.

Lemma EvalBinValue_state (p : string) (s : Asm) (q : string) (v : Z) (s' : Asm) :
  EvalBinValue p s = Done (q, v, s') -> s' = s.
Proof.
  unfold EvalBinValue. destruct (EvalBin p 0). intros H. now injection H.
Qed.

Section Frame.

Variable rec : string -> Z -> Asm -> parse (option Z).
Hypothesis Hrec : forall p prio s q v s',
    rec p prio s = Done (q, v, s') -> only_new_symbols s s'.

Lemma operand_after_ons (prio : Z) (p : string) (r : Z) (s : Asm)
      (q : string) (v : Z) (s' : Asm) :
  operand_after rec prio p r s = Done (q, v, s') -> only_new_symbols s s'.
Proof.
  unfold operand_after. intros H.
  apply bind_Done in H as ([[q0 w] s0] & H0 & H).
  injection H as _ _ <-. now apply Hrec in H0.
Qed.

Lemma op_unary_ons (f : Z -> Z) (g : Asm -> Asm) (prio : Z) (p : string)
      (r : Z) (s : Asm) (q : string) (v : Z) (s' : Asm) :
  (forall s0, only_new_symbols s0 (g s0)) ->
  ('(q, v, s1) <- operand_after rec prio p r s ;; Done (q, f v, g s1))
  = Done (q, v, s') -> only_new_symbols s s'.
Proof.
  intros Hg H. apply bind_Done in H as ([[q0 v0] s0] & H0 & H).
  apply operand_after_ons in H0. injection H as _ _ <-.
  exact (ons_trans _ _ _ H0 (Hg s0)).
Qed.

Lemma op_par_ons (p : string) (r : Z) (s : Asm) (q : string) (v : Z) (s' : Asm) :
  op_par rec p r s = Done (q, v, s') -> only_new_symbols s s'.
Proof.
  unfold op_par. intros H.
  apply bind_Done in H as ([[q0 v0] s0] & H0 & H).
  apply operand_after_ons in H0.
  destruct (NeedChar q0 _); [|discriminate H].
  injection H as _ _ <-. exact H0.
Qed.

Lemma unaop_ons (u : ascii * (string -> Z -> Asm -> parse Z)) (p : string)
      (r : Z) (s : Asm) (q : string) (v : Z) (s' : Asm) :
  In u (unaop rec) -> snd u p r s = Done (q, v, s') -> only_new_symbols s s'.
Proof.
  intros Hin. simpl in Hin.
  destruct Hin as [<-|Hin].
  { apply (op_unary_ons (fun v => v) (wr ForcedMode (-1))). apply ons_ForcedMode. }
  destruct Hin as [<-|Hin].
  { apply (op_unary_ons (fun v => v) (wr ForcedMode 1)). apply ons_ForcedMode. }
  destruct Hin as [<-|Hin]; [apply op_par_ons|].
  destruct Hin as [<-|Hin]; [apply op_par_ons|].
  destruct Hin as [<-|Hin]; [apply operand_after_ons|].
  destruct Hin as [<-|Hin].
  { apply (op_unary_ons (fun v => int_wrap (- v)) (fun s => s)). apply ons_refl. }
  destruct Hin as [<-|Hin].
  { apply (op_unary_ons (fun v => b2i (v =? 0)) (fun s => s)). apply ons_refl. }
  destruct Hin as [<-|Hin].
  { apply (op_unary_ons Z.lnot (fun s => s)). apply ons_refl. }
  destruct Hin as [<-|Hin].
  { cbn [snd]. unfold op_prc. intros H. injection H as _ _ <-. apply ons_refl. }
  destruct Hin as [<-|Hin].
  { cbn [snd]. unfold op_hex. intros H. apply EvalHexValue_state in H.
    subst s'. apply ons_refl. }
  destruct Hin as [<-|Hin].
  { cbn [snd]. unfold op_cha. intros H. apply EvalCharValue_state in H.
    subst s'. apply ons_refl. }
  destruct Hin as [<-|Hin].
  { cbn [snd]. unfold op_muc. intros H. apply EvalMultiCharValue_state in H.
    subst s'. apply ons_refl. }
  destruct Hin as [<-|Hin].
  { cbn [snd]. unfold op_bin. intros H. apply EvalBinValue_state in H.
    subst s'. apply ons_refl. }
  destruct Hin as [<-|Hin].
  { cbn [snd]. intros H. exact (EvalSym_ons _ _ _ _ _ _ H). }
  contradiction.
Qed.

Lemma left_operand_ons (p : string) (s : Asm) (q : string) (v : Z) (s' : Asm) :
  left_operand rec p s = Done (q, v, s') -> only_new_symbols s s'.
Proof.
  unfold left_operand.
  destruct (_ && _).
  - destruct (find _ (unaop rec)) as [u|] eqn:F.
    + apply find_some in F as [Hin _]. now apply unaop_ons.
    + intros H. injection H as _ _ <-. apply ons_refl.
  - destruct (isdigit (hd p)).
    + intros H. apply EvalDecValue_state in H. subst s'. apply ons_refl.
    + destruct (isym (hd p)); [|discriminate].
      unfold EvalSymValue. apply EvalSym_ons.
Qed.

Lemma binop_loop_ons (n : nat) :
  forall prio0 p r w s q v s',
    binop_loop rec n prio0 p r w s = Done (q, v, s') -> only_new_symbols s s'.
Proof.
  induction n as [|n IH]; intros prio0 p r w s q v s'; simpl.
  - destruct (at_binop p); [discriminate|].
    intros H. injection H as _ _ <-. apply ons_refl.
  - destruct (at_binop p).
    + destruct (find_binop p) as [b|]; [|discriminate].
      destruct (prio b <=? prio0).
      * intros H. injection H as _ _ <-. apply ons_refl.
      * intros H. apply bind_Done in H as ([[q0 w0] s0] & H0 & H).
        apply Hrec in H0.
        destruct (match w0 with Some x => Some x | None => w end) as [x|];
          [|discriminate H].
        destruct (binop_defined b r x); [|discriminate H].
        apply IH in H. exact (ons_trans _ _ _ H0 H).
    + intros H. injection H as _ _ <-. apply ons_refl.
Qed.

Lemma EvalOperand_body_ons (p : string) (prio0 : Z) (s : Asm)
      (q : string) (v : option Z) (s' : Asm) :
  EvalOperand_body rec p prio0 s = Done (q, v, s') -> only_new_symbols s s'.
Proof.
  unfold EvalOperand_body.
  destruct (is_char (hd (SkipSpace p)) ",").
  - intros H. injection H as _ _ <-. apply ons_refl.
  - intros H. apply bind_Done in H as ([[q0 r0] s0] & H0 & H).
    apply left_operand_ons in H0.
    destruct (_ && _).
    + injection H as _ _ <-. exact H0.
    + apply binop_loop_ons in H. exact (ons_trans _ _ _ H0 H).
Qed.

End Frame.

Lemma EvalOperand_fuel_ons (f : nat) :
  forall p prio0 s q v s',
    EvalOperand_fuel f p prio0 s = Done (q, v, s') -> only_new_symbols s s'.
Proof.
  induction f as [|f IH]; intros p prio0 s q v s'; [discriminate|].
  rewrite EvalOperand_fuel_S. now apply EvalOperand_body_ons.
Qed.



(** ** Conditional assembly: the skip flags *)

Lemma or_SkipLine_zero (n : nat) (s : Asm) :
  or_SkipLine n s = 0
  <-> forall i, 1 <= i <= Z.of_nat n -> rda SkipLine i s = 0.
Proof.
  induction n as [|n IH].
  - simpl. split; [intros _ i Hi; lia|reflexivity].
  - cbn [or_SkipLine]. rewrite Z.lor_eq_0_iff, IH. split.
    + intros [H1 H2] i Hi.
      destruct (Z.eq_dec i (Z.of_nat (S n))) as [->|Hne]; [exact H2|].
      apply H1. lia.
    + intros H. split; [intros i Hi; apply H; lia|apply H; lia].
Qed.

Lemma or_SkipLine_ext (n : nat) (s s' : Asm) :
  (forall i, 1 <= i <= Z.of_nat n -> rda SkipLine i s' = rda SkipLine i s) ->
  or_SkipLine n s' = or_SkipLine n s.
Proof.
  induction n as [|n IH]; intros H; [reflexivity|].
  cbn [or_SkipLine]. rewrite IH by (intros i Hi; apply H; lia).
  f_equal. apply H. lia.
Qed.

(** X12.  After [CheckSkip], [Skipping] is 0 exactly when every frame
    [SkipLine[1 .. IfLevel]] is 0: one false condition at any level
    skips the lines.  [CheckSkip] changes nothing but [Skipping]. *)
Theorem CheckSkip_skips_inside_any_false_frame (s : Asm) :
  (rd Skipping (CheckSkip s) = 0
   <-> forall i, 1 <= i <= rd IfLevel s -> rda SkipLine i s = 0)
  /\ (forall x, x <> Skipping -> rd x (CheckSkip s) = rd x s)
  /\ (forall a i, rda a i (CheckSkip s) = rda a i s).
Proof.
  split; [|split].
  - unfold CheckSkip. rewrite rd_wr_same, or_SkipLine_zero.
    split; intros H i Hi; apply H; lia.
  - intros x Hx. unfold CheckSkip. apply rd_wr_other.
    destruct x; try reflexivity. contradiction.
  - reflexivity.
Qed.

Lemma CheckSkip_witness_zero :
  rd Skipping (CheckSkip (wra SkipLine 1 0 (wr IfLevel 1 init_Asm))) = 0.
Proof.
  apply (proj1 (CheckSkip_skips_inside_any_false_frame
                  (wra SkipLine 1 0 (wr IfLevel 1 init_Asm)))).
  intros i Hi. change (rd IfLevel _) with 1 in Hi.
  assert (i = 1) by lia. subst i. reflexivity.
Defined.

(** ** Conditional assembly: [if], [else], [endif] *)

Lemma EvalOperand_local_decimal (n : Z) (s : Asm) :
  0 <= n < 2 ^ 31 ->
  EvalOperand_local (decimal n) 0 s = Done ("", n, s).
Proof.
  intros Hn. unfold EvalOperand_local, EvalOperand.
  pose proof (decimal_len n (proj1 Hn)) as L.
  destruct (strlen (decimal n)) as [|f]; [lia|].
  now rewrite EvalOperand_fuel_decimal.
Qed.

Lemma CheckCondition_if (n : Z) (s : Asm) :
  0 <= n < 2 ^ 31 -> rd IfLevel s < 9 ->
  CheckCondition ("if " ++ decimal n) s
  = Done (1, CheckSkip (wra SkipLine (rd IfLevel s + 1)
                            (b2i ((n =? UNDEF) || (n =? 0)))
                            (wr IfLevel (rd IfLevel s + 1) s))).
Proof.
  intros Hn HL. unfold CheckCondition.
  remember (decimal n) as t eqn:Et.
  cbn [String.append hd]. change (is_char "i" "#") with false. cbv iota.
  change (strcmpword (String "i" (String "f" (String " " t))) "error" =? 0)
    with false.
  cbn [andb].
  assert (E1 : (strcmpword (String "i" (String "f" (String " " t))) "ifdef" =? 0)
               = false) by reflexivity.
  assert (E2 : (strcmpword (String "i" (String "f" (String " " t))) "ifndef" =? 0)
               = false) by reflexivity.
  assert (E3 : (strcmpword (String "i" (String "f" (String " " t))) "if" =? 0)
               = true) by reflexivity.
  rewrite E1, E2, E3. cbn [orb]. cbv zeta.
  rewrite rd_wr_same.
  replace (9 <? rd IfLevel s + 1) with false by (symmetry; apply Z.ltb_ge; lia).
  cbn [adv]. subst t.
  rewrite EvalOperand_local_decimal by exact Hn. cbn [bind].
  rewrite rd_wr_same.
  change (strcmpword "" "endif" =? 0) with false. reflexivity.
Qed.

Lemma CheckCondition_else (rest : string) (s : Asm) :
  isym (hd rest) = false ->
  CheckCondition ("else" ++ rest) s
  = Done (1, CheckSkip (wra SkipLine (rd IfLevel s)
                            (b2i (rda SkipLine (rd IfLevel s) s =? 0)) s)).
Proof.
  intros Hr. unfold CheckCondition.
  cbn [String.append hd]. change (is_char "e" "#") with false. cbv iota.
  set (p := String "e" (String "l" (String "s" (String "e" rest)))).
  assert (E0 : (strcmpword p "error" =? 0) = false) by reflexivity.
  assert (E1 : (strcmpword p "ifdef" =? 0) = false) by reflexivity.
  assert (E2 : (strcmpword p "ifndef" =? 0) = false) by reflexivity.
  assert (E3 : (strcmpword p "if" =? 0) = false) by reflexivity.
  assert (E4 : (strcmpword p "endif" =? 0) = false) by reflexivity.
  assert (E5 : (strcmpword p "else" =? 0) = true).
  { change p with ("else" ++ rest)%string.
    rewrite (proj1 word_at_start "else" "else" rest eq_refl), Hr.
    reflexivity. }
  rewrite E0, E1, E2, E3, E5. cbn [andb orb bind]. now rewrite E4.
Qed.

Lemma CheckCondition_endif (rest : string) (s : Asm) :
  isym (hd rest) = false ->
  CheckCondition ("endif" ++ rest) s
  = if rd IfLevel s - 1 <? 0 then Exit "endif without if"
    else Done (1, CheckSkip (wr IfLevel (rd IfLevel s - 1) s)).
Proof.
  intros Hr. unfold CheckCondition.
  cbn [String.append hd]. change (is_char "e" "#") with false. cbv iota.
  set (p := String "e" (String "n" (String "d" (String "i" (String "f" rest))))).
  assert (E0 : (strcmpword p "error" =? 0) = false) by reflexivity.
  assert (E1 : (strcmpword p "ifdef" =? 0) = false) by reflexivity.
  assert (E2 : (strcmpword p "ifndef" =? 0) = false) by reflexivity.
  assert (E3 : (strcmpword p "if" =? 0) = false) by reflexivity.
  assert (E4 : (strcmpword p "else" =? 0) = false) by reflexivity.
  assert (E5 : (strcmpword p "endif" =? 0) = true).
  { change p with ("endif" ++ rest)%string.
    rewrite (proj1 word_at_start "endif" "endif" rest eq_refl), Hr.
    reflexivity. }
  rewrite E0, E1, E2, E3, E4. cbn [andb orb bind]. rewrite E5.
  cbv zeta. now rewrite rd_wr_same.
Qed.

Lemma or_SkipLine_frame (n : nat) (s s' : Asm) :
  (forall i, rda SkipLine i s' = rda SkipLine i s) ->
  or_SkipLine n s' = or_SkipLine n s.
Proof. intros H. apply or_SkipLine_ext. intros i _. apply H. Qed.

Lemma or_SkipLine_above (n : nat) (l v : Z) (s : Asm) :
  Z.of_nat n < l ->
  or_SkipLine n (wra SkipLine l v s) = or_SkipLine n s.
Proof.
  intros H. apply or_SkipLine_ext. intros i Hi.
  apply rda_wra_idx. lia.
Qed.

(** X13.  The lines [if n], [else], [endif], with a decimal constant
    [n], at a nesting level below 9: after [if] the lines are skipped
    when an outer frame skips or [n] is 0 or [UNDEF]; after [else] when
    an outer frame skips or [n] is neither; after [endif] as before the
    [if], and the level is the one before. *)
Theorem if_else_endif (n : Z) (r1 r2 : string) (s : Asm) :
  0 <= n < 2 ^ 31 -> 0 <= rd IfLevel s < 9 ->
  isym (hd r1) = false -> isym (hd r2) = false ->
  let L := rd IfLevel s in
  let outer := or_SkipLine (Z.to_nat L) s in
  let skip := b2i ((n =? UNDEF) || (n =? 0)) in
  exists s1 s2 s3,
    CheckCondition ("if " ++ decimal n) s = Done (1, s1)
    /\ rd Skipping s1 = Z.lor outer skip
    /\ CheckCondition ("else" ++ r1) s1 = Done (1, s2)
    /\ rd Skipping s2 = Z.lor outer (1 - skip)
    /\ CheckCondition ("endif" ++ r2) s2 = Done (1, s3)
    /\ rd Skipping s3 = outer /\ rd IfLevel s3 = L.
Proof.
  intros Hn HL H1 H2 L outer skip.
  set (s0 := wr IfLevel (L + 1) s).
  set (s1 := CheckSkip (wra SkipLine (L + 1) skip s0)).
  set (s2 := CheckSkip (wra SkipLine (L + 1) (b2i (skip =? 0)) s1)).
  set (s3 := CheckSkip (wr IfLevel L s2)).
  assert (EL1 : rd IfLevel s1 = L + 1) by reflexivity.
  assert (EL2 : rd IfLevel s2 = L + 1) by reflexivity.
  assert (ES1 : rda SkipLine (L + 1) s1 = skip).
  { unfold s1, CheckSkip. rewrite rda_wr. apply rda_wra_same. }
  assert (Enat : Z.to_nat (L + 1) = S (Z.to_nat L)) by (fold L in HL; lia).
  assert (Eidx : Z.of_nat (S (Z.to_nat L)) = L + 1) by (fold L in HL; lia).
  assert (F1 : forall i, i <> L + 1 -> rda SkipLine i s1 = rda SkipLine i s).
  { intros i Hi. unfold s1, CheckSkip. rewrite rda_wr, rda_wra_idx by exact Hi.
    reflexivity. }
  assert (F2 : forall i, i <> L + 1 -> rda SkipLine i s2 = rda SkipLine i s).
  { intros i Hi. unfold s2, CheckSkip. rewrite rda_wr, rda_wra_idx by exact Hi.
    now apply F1. }
  set (t1 := wra SkipLine (L + 1) skip s0).
  set (t2 := wra SkipLine (L + 1) (b2i (skip =? 0)) s1).
  assert (O1 : or_SkipLine (Z.to_nat L) t1 = outer).
  { apply or_SkipLine_ext. intros i Hi. rewrite <- (F1 i) by (fold L in HL; lia).
    reflexivity. }
  assert (O2 : or_SkipLine (Z.to_nat L) t2 = outer).
  { apply or_SkipLine_ext. intros i Hi. rewrite <- (F2 i) by (fold L in HL; lia).
    reflexivity. }
  exists s1, s2, s3.
  split; [apply CheckCondition_if; [exact Hn|fold L in HL; fold L; lia]|].
  split.
  { change (rd Skipping s1) with (or_SkipLine (Z.to_nat (L + 1)) t1).
    rewrite Enat. cbn [or_SkipLine]. rewrite Eidx, O1. f_equal.
    apply rda_wra_same. }
  split.
  { rewrite CheckCondition_else by exact H1. rewrite EL1, ES1. reflexivity. }
  split.
  { change (rd Skipping s2) with (or_SkipLine (Z.to_nat (L + 1)) t2).
    rewrite Enat. cbn [or_SkipLine]. rewrite Eidx, O2. f_equal.
    unfold t2. rewrite rda_wra_same.
    unfold skip. destruct ((n =? UNDEF) || (n =? 0)); reflexivity. }
  split.
  { rewrite CheckCondition_endif by exact H2. rewrite EL2.
    replace (L + 1 - 1) with L by lia.
    replace (L <? 0) with false by (symmetry; apply Z.ltb_ge; fold L in HL; lia).
    reflexivity. }
  split; [|reflexivity].
  change (rd Skipping s3) with (or_SkipLine (Z.to_nat L) (wr IfLevel L s2)).
  rewrite <- O2. apply or_SkipLine_ext. intros i Hi. reflexivity.
Qed.

Lemma if_else_endif_witness :
  exists s1 s2 s3,
    CheckCondition ("if " ++ decimal 0) init_Asm = Done (1, s1)
    /\ rd Skipping s1 = 1
    /\ CheckCondition ("else" ++ "") s1 = Done (1, s2)
    /\ rd Skipping s2 = 0
    /\ CheckCondition ("endif" ++ " ; done") s2 = Done (1, s3)
    /\ rd Skipping s3 = 0 /\ rd IfLevel s3 = 0.
Proof.
  destruct (if_else_endif 0 "" " ; done" init_Asm) as (s1 & s2 & s3 & H);
    try reflexivity; try (change (rd IfLevel init_Asm) with 0; lia); try lia.
  exists s1, s2, s3. exact H.
Defined.

(** X14.  An [endif] at level 0 (or below) ends the run with
    [endif without if].  An [else] is never an error: it leaves the
    level and the error count alone, and at level 0 nothing is
    skipped after it. *)
Theorem stray_endif_and_else (rest : string) (s : Asm) :
  isym (hd rest) = false ->
  (rd IfLevel s <= 0 ->
   CheckCondition ("endif" ++ rest) s = Exit "endif without if")
  /\ (exists s', CheckCondition ("else" ++ rest) s = Done (1, s')
                 /\ rd IfLevel s' = rd IfLevel s
                 /\ rd ErrNum s' = rd ErrNum s
                 /\ (rd IfLevel s <= 0 -> rd Skipping s' = 0)).
Proof.
  intros Hr. split.
  - intros HL. rewrite CheckCondition_endif by exact Hr.
    now replace (rd IfLevel s - 1 <? 0) with true
      by (symmetry; apply Z.ltb_lt; lia).
  - eexists. split; [apply CheckCondition_else; exact Hr|].
    split; [reflexivity|]. split; [reflexivity|].
    intros HL. unfold CheckSkip. rewrite rd_wr_same.
    change (rd IfLevel (wra SkipLine _ _ s)) with (rd IfLevel s).
    replace (Z.to_nat (rd IfLevel s)) with O by lia. reflexivity.
Qed.

Lemma stray_endif_and_else_witness :
  CheckCondition ("endif" ++ "") init_Asm = Exit "endif without if".
Proof.
  apply (proj1 (stray_endif_and_else "" init_Asm eq_refl)).
  change (rd IfLevel init_Asm) with 0. lia.
Defined.

(** ** The search for a mnemonic *)

Lemma find_index_spec {A : Type} (f : A -> bool) (d : A) (l : list A) :
  forall i0,
    let r := find_index f l i0 in
    (r = -1 /\ (forall x, In x l -> f x = false) \/
     (i0 <= r < i0 + Z.of_nat (List.length l)
      /\ f (nth (Z.to_nat (r - i0)) l d) = true
      /\ forall j, (j < Z.to_nat (r - i0))%nat -> f (nth j l d) = false))
    /\ (0 <= i0 -> -1 <= r).
Proof.
  induction l as [|x l IH]; intros i0; cbv zeta; simpl find_index.
  - split; [left; split; [reflexivity|intros x []]|lia].
  - destruct (f x) eqn:E.
    + split; [|lia]. right. split; [simpl List.length; lia|].
      rewrite Z.sub_diag. split; [exact E|]. intros j Hj. simpl in Hj. lia.
    + destruct (IH (i0 + 1)) as [[[Hr Hall]|(Hr & Hf & Hfirst)] Hge].
      * split; [|lia]. left. split; [exact Hr|].
        intros y [<-|Hy]; [exact E|now apply Hall].
      * split; [|lia]. right.
        replace (Z.to_nat (find_index f l (i0 + 1) - i0))
          with (S (Z.to_nat (find_index f l (i0 + 1) - (i0 + 1)))) by lia.
        split; [simpl List.length; lia|]. split; [exact Hf|].
        intros [|j] Hj; [exact E|]. apply Hfirst. lia.
Qed.

(** X15.  [IsInstruction] returns the index of the first entry of
    [Mat], among the first [DimOp], whose mnemonic stands at [p], case
    ignored, and is not followed by a symbol character; it returns -1
    exactly when there is no such entry. *)
Theorem IsInstruction_first_match (p : string) (s : Asm) :
  let r := IsInstruction p s in
  let known (m : MatStruct) :=
    (StrNCaseCmp p (Mne m) (strlen (Mne m)) =? 0)
    && negb (isym (hd (adv (strlen (Mne m)) p))) in
  -1 <= r
  /\ r < Z.max 0 (Z.min (rd DimOp s) (Z.of_nat (List.length Mat)))
  /\ (r = -1 ->
      forall i, 0 <= i < rd DimOp s -> i < Z.of_nat (List.length Mat) ->
                known (Mat_at i) = false)
  /\ (0 <= r ->
      known (Mat_at r) = true
      /\ forall i, 0 <= i < r -> known (Mat_at i) = false).
Proof.
  cbv zeta. unfold IsInstruction.
  set (f := fun m : MatStruct =>
              (StrNCaseCmp p (Mne m) (strlen (Mne m)) =? 0)
              && negb (isym (hd (adv (strlen (Mne m)) p)))).
  set (l := firstn (Z.to_nat (rd DimOp s)) Mat).
  assert (Hlen : Z.of_nat (List.length l)
                 = Z.max 0 (Z.min (rd DimOp s) (Z.of_nat (List.length Mat)))).
  { unfold l. rewrite length_firstn. lia. }
  assert (Hnth : forall j, (j < List.length l)%nat ->
                           nth j l (mne "" []) = Mat_at (Z.of_nat j)).
  { intros j Hj. unfold l, Mat_at. rewrite Nat2Z.id.
    unfold l in Hj. rewrite length_firstn in Hj.
    rewrite <- (firstn_skipn (Z.to_nat (rd DimOp s)) Mat) at 2.
    rewrite app_nth1 by (rewrite length_firstn; lia). reflexivity. }
  destruct (find_index_spec f (mne "" []) l 0) as [[[Hr Hall]|(Hr & Hf & Hfirst)] Hge].
  - rewrite Hr. split; [lia|]. split; [lia|]. split; [|lia].
    intros _ i Hi Hi'.
    rewrite <- (Z2Nat.id i) by lia. rewrite <- Hnth by lia.
    apply Hall, nth_In. lia.
  - rewrite Z.sub_0_r in *. set (r := find_index f l 0) in *.
    split; [lia|]. split; [lia|]. split; [lia|].
    intros _. split.
    + rewrite <- (Z2Nat.id r) by lia. rewrite <- Hnth by lia. exact Hf.
    + intros i Hi. rewrite <- (Z2Nat.id i) by lia. rewrite <- Hnth by lia.
      apply Hfirst. lia.
Qed.

Lemma IsInstruction_first_match_witness :
  (StrNCaseCmp "ldx #1" (Mne (Mat_at 93)) (strlen (Mne (Mat_at 93))) =? 0)
  && negb (isym (hd (adv (strlen (Mne (Mat_at 93))) "ldx #1"))) = true.
Proof.
  assert (E : IsInstruction "ldx #1" init_Asm = 93) by reflexivity.
  pose proof (IsInstruction_first_match "ldx #1" init_Asm) as H.
  cbv zeta in H. rewrite E in H.
  destruct H as (_ & _ & _ & H). apply H. lia.
Defined.

(** ** The length of an instruction, recorded in pass 1 *)

Lemma Put_ADL (i v : Z) (s s' : Asm) (j : Z) :
  Put i v s = Done s' -> rda ADL j s' = rda ADL j s.
Proof.
  intros H. apply Put_Done in H as [-> _].
  now rewrite !rda_wra_arr by discriminate.
Qed.

Lemma mark_ADL_spec (n : nat) :
  forall a s,
    (forall x, rd x (mark_ADL n a s) = rd x s)
    /\ (forall arr j, arr <> ADL -> rda arr j (mark_ADL n a s) = rda arr j s)
    /\ (forall j, a <= j < a + Z.of_nat n -> rda ADL j (mark_ADL n a s) = -1)
    /\ (forall j, ~ (a <= j < a + Z.of_nat n) ->
                  rda ADL j (mark_ADL n a s) = rda ADL j s).
Proof.
  induction n as [|n IH]; intros a s; cbn [mark_ADL].
  - repeat split; try reflexivity. intros j Hj. lia.
  - destruct (IH (a + 1) (wra ADL a (-1) s)) as (I & A & M & F).
    split; [intros x; now rewrite I|].
    split; [intros arr j Harr; rewrite A by exact Harr;
            now apply rda_wra_arr|].
    split.
    + intros j Hj. destruct (Z.eq_dec j a) as [->|Hne].
      * rewrite F by lia. apply rda_wra_same.
      * apply M. lia.
    + intros j Hj. rewrite F by lia. apply rda_wra_idx. lia.
Qed.

Lemma Put_returns_or_exits (i v : Z) (s : Asm) :
  (exists s', Put i v s = Done s') \/ (exists msg, Put i v s = Exit msg).
Proof.
  unfold Put. destruct (_ && _); [right|left]; eexists; reflexivity.
Qed.

Lemma signed_char_small (z : Z) : -128 <= z <= 127 -> signed_char z = z.
Proof. intros H. unfold signed_char. rewrite Z.mod_small; lia. Qed.

(** X16.  [SetInstructionLength] at a [pc] within the 64 KB, for an
    instruction that ends within them and a length [il] that a
    [signed char] holds: when it returns, [ADL[pc]] was 0 or already
    [il], it now holds [il], the following [il - 1] entries hold -1,
    the other entries and all variables are as before.  An [ADL[pc]]
    that is neither 0 nor [il] ends the run (the phase error). *)
Theorem SetInstructionLength_records_the_length (s : Asm) :
  0 <= rd pc s < 0x10000 ->
  rd pc s + rd il s <= 0x10000 ->
  -128 <= rd il s <= 127 ->
  (forall s', SetInstructionLength s = Done s' ->
     (rda ADL (rd pc s) s = 0 \/ rda ADL (rd pc s) s = rd il s)
     /\ rda ADL (rd pc s) s' = rd il s
     /\ (forall k, 1 <= k < rd il s -> rda ADL (rd pc s + k) s' = -1)
     /\ (forall j, ~ (rd pc s <= j < rd pc s + Z.max 1 (rd il s)) ->
                   rda ADL j s' = rda ADL j s)
     /\ (forall x, rd x s' = rd x s))
  /\ (rda ADL (rd pc s) s <> 0 -> rda ADL (rd pc s) s <> rd il s ->
      exists msg, SetInstructionLength s = Exit msg)
  /\ (rd oc s < 0 ->
      rda ADL (rd pc s) s = 0 \/ rda ADL (rd pc s) s = rd il s ->
      exists s', SetInstructionLength s = Done s').
Proof.
  intros Hpc Hend Hil.
  assert (Hin : (0 <=? rd pc s) && (rd pc s <? 65536) = true)
    by (apply andb_true_iff; split; [apply Z.leb_le|apply Z.ltb_lt]; lia).
  assert (Hfits : (65536 <? rd pc s + rd il s) = false)
    by (apply Z.ltb_ge; lia).
  (* the state after the opcode is stored agrees with [s] on [ADL] and
     on the variables *)
  assert (Hput : forall s1,
             (if 0 <=? rd oc s then
                if rd oc s <? 256 then Put (rd pc s) (rd oc s) s
                else s1 <- Put (rd pc s) (Z.shiftr (rd oc s) 8) s ;;
                     Put (rd pc s + 1) (Z.land (rd oc s) 0xff) s1
              else Done s) = Done s1 ->
             (forall x, rd x s1 = rd x s)
             /\ (forall j, rda ADL j s1 = rda ADL j s)).
  { intros s1. destruct (0 <=? rd oc s); [|intros H; injection H as <-; now split].
    destruct (rd oc s <? 256).
    - intros H. split; [intros x; exact (Put_ints _ _ _ _ x H)
                       |intros j; exact (Put_ADL _ _ _ _ j H)].
    - intros H. destruct (Put (rd pc s) _ s) as [s0| | |] eqn:E0;
        try discriminate H. cbn [bind] in H.
      split.
      + intros x. now rewrite (Put_ints _ _ _ _ x H), (Put_ints _ _ _ _ x E0).
      + intros j. now rewrite (Put_ADL _ _ _ _ j H), (Put_ADL _ _ _ _ j E0). }
  split; [|split].
  - intros s' H. unfold SetInstructionLength in H.
    destruct (if 0 <=? rd oc s then _ else _) as [s1| | |] eqn:E1;
      try discriminate H.
    destruct (Hput s1 eq_refl) as [I1 A1]. cbn [bind] in H.
    rewrite !I1, A1, Hin in H.
    destruct (negb (rda ADL (rd pc s) s =? 0)
              && negb (rda ADL (rd pc s) s =? rd il s)) eqn:Ephase;
      [discriminate H|].
    rewrite Hfits, signed_char_small in H by exact Hil.
    injection H as <-.
    destruct (mark_ADL_spec (Z.to_nat (rd il s - 1)) (rd pc s + 1)
                            (wra ADL (rd pc s) (rd il s) s1))
      as (I & A & M & F).
    split.
    { apply andb_false_iff in Ephase as [E|E]; apply negb_false_iff, Z.eqb_eq in E;
        [now left|now right]. }
    split; [rewrite F by lia; apply rda_wra_same|].
    split; [intros k Hk; apply M; lia|].
    split.
    + intros j Hj. rewrite F by lia. rewrite rda_wra_idx by lia. apply A1.
    + intros x. rewrite I. apply I1.
  - intros H0 Hne. unfold SetInstructionLength.
    destruct (if 0 <=? rd oc s then _ else _) as [s1|msg|why|] eqn:E1;
      cbn [bind].
    + destruct (Hput s1 eq_refl) as [I1 A1].
      rewrite !I1, A1, Hin.
      replace (rda ADL (rd pc s) s =? 0) with false
        by (symmetry; now apply Z.eqb_neq).
      replace (rda ADL (rd pc s) s =? rd il s) with false
        by (symmetry; now apply Z.eqb_neq).
      now exists "Phase error".
    + now exists msg.
    + exfalso. destruct (0 <=? rd oc s); [|discriminate E1].
      destruct (rd oc s <? 256).
      * destruct (Put_returns_or_exits (rd pc s) (rd oc s) s) as [[x E]|[x E]];
          rewrite E in E1; discriminate E1.
      * destruct (Put_returns_or_exits (rd pc s) (Z.shiftr (rd oc s) 8) s)
          as [[x E]|[x E]]; rewrite E in E1; [|discriminate E1].
        cbn [bind] in E1.
        destruct (Put_returns_or_exits (rd pc s + 1) (Z.land (rd oc s) 255) x)
          as [[y F]|[y F]]; rewrite F in E1; discriminate E1.
    + exfalso. destruct (0 <=? rd oc s); [|discriminate E1].
      destruct (rd oc s <? 256).
      * destruct (Put_returns_or_exits (rd pc s) (rd oc s) s) as [[x E]|[x E]];
          rewrite E in E1; discriminate E1.
      * destruct (Put_returns_or_exits (rd pc s) (Z.shiftr (rd oc s) 8) s)
          as [[x E]|[x E]]; rewrite E in E1; [|discriminate E1].
        cbn [bind] in E1.
        destruct (Put_returns_or_exits (rd pc s + 1) (Z.land (rd oc s) 255) x)
          as [[y F]|[y F]]; rewrite F in E1; discriminate E1.
  - intros Hoc Hadl. unfold SetInstructionLength.
    replace (0 <=? rd oc s) with false by (symmetry; apply Z.leb_gt; lia).
    cbn [bind]. rewrite Hin.
    replace (negb (rda ADL (rd pc s) s =? 0)
             && negb (rda ADL (rd pc s) s =? rd il s)) with false.
    + rewrite Hfits. eexists. reflexivity.
    + symmetry. apply andb_false_iff.
      destruct Hadl as [H|H]; [left|right]; rewrite H, Z.eqb_refl; reflexivity.
Qed.

Lemma SetInstructionLength_witness :
  (exists msg, SetInstructionLength
                 (wra ADL 0x1000 3 (wr il 2 (wr pc 0x1000 init_Asm))) = Exit msg)
  /\ (exists s', SetInstructionLength
                   (wra ADL 0x1000 2 (wr il 2 (wr oc (-1) (wr pc 0x1000 init_Asm))))
                 = Done s').
Proof.
  split.
  - apply (proj1 (proj2 (SetInstructionLength_records_the_length
                           (wra ADL 0x1000 3 (wr il 2 (wr pc 0x1000 init_Asm)))
                           ltac:(change (0 <= 0x1000 < 0x10000); lia)
                           ltac:(change (0x1000 + 2 <= 0x10000); lia)
                           ltac:(change (-128 <= 2 <= 127); lia))));
      vm_compute; discriminate.
  - apply (proj2 (proj2 (SetInstructionLength_records_the_length
                           (wra ADL 0x1000 2 (wr il 2 (wr oc (-1) (wr pc 0x1000 init_Asm))))
                           ltac:(change (0 <= 0x1000 < 0x10000); lia)
                           ltac:(change (0x1000 + 2 <= 0x10000); lia)
                           ltac:(change (-128 <= 2 <= 127); lia)))).
    + vm_compute. reflexivity.
    + right. reflexivity.
Defined.

(** ** Short branches that do not reach *)



(** ** The bytes of an instruction in the ROM image *)

Lemma ROM_bytes_snoc (n : nat) :
  forall a s, ROM_bytes (S n) a s
              = (ROM_bytes n a s ++ [rda ROM (a + Z.of_nat n) s])%list.
Proof.
  induction n as [|n IH]; intros a s.
  - simpl. now rewrite Z.add_0_r.
  - change (ROM_bytes (S (S n)) a s)
      with (rda ROM a s :: ROM_bytes (S n) (a + 1) s).
    rewrite IH. replace (a + Z.of_nat (S n)) with (a + 1 + Z.of_nat n) by lia.
    reflexivity.
Qed.

Lemma ROM_bytes_agree (n : nat) :
  forall a s s',
    (forall k, 0 <= k < Z.of_nat n -> rda ROM (a + k) s' = rda ROM (a + k) s) ->
    ROM_bytes n a s' = ROM_bytes n a s.
Proof.
  induction n as [|n IH]; intros a s s' H; [reflexivity|].
  cbn [ROM_bytes]. f_equal.
  - rewrite <- (Z.add_0_r a). apply H. lia.
  - apply IH. intros k Hk.
    replace (a + 1 + k) with (a + (k + 1)) by lia. apply H. lia.
Qed.

Lemma slot_holds_nil (a : Z) (s : Asm) : slot_holds a [] s.
Proof. split; [reflexivity|]. intros k Hk. simpl in Hk. lia. Qed.

Lemma Put_extends (a : Z) (l : list Z) (b : Z) (s s1 : Asm) :
  slot_holds a l s ->
  Put (a + Z.of_nat (List.length l)) b s = Done s1 ->
  slot_holds a (l ++ [b]) s1.
Proof.
  intros [HR HL] HP.
  pose proof (Put_Done _ _ _ _ HP) as [E _].
  split.
  - rewrite length_app. simpl List.length. rewrite Nat.add_1_r.
    rewrite ROM_bytes_snoc, map_app. f_equal.
    + rewrite <- HR. apply ROM_bytes_agree. intros k Hk.
      apply (Put_frame _ _ _ _ _ _ HP). lia.
    + simpl. f_equal. rewrite E.
      rewrite rda_wra_arr by discriminate. apply rda_wra_same.
  - intros k Hk. rewrite length_app in Hk. simpl List.length in Hk.
    destruct (Z.eq_dec k (Z.of_nat (List.length l))) as [->|Hne].
    + rewrite E. apply rda_wra_same.
    + rewrite (Put_frame _ _ _ _ _ _ HP) by lia. apply HL. lia.
Qed.

Lemma slot_holds_app_nil (a : Z) (l : list Z) (s : Asm) :
  slot_holds a l s -> slot_holds a (l ++ []) s.
Proof. now rewrite app_nil_r. Qed.

Lemma put_nops_extends (n : nat) :
  forall ibi s r s' l,
    put_nops n ibi s = Done (r, s') ->
    slot_holds (rd pc s) l s -> ibi = Z.of_nat (List.length l) ->
    r = ibi + Z.of_nat n
    /\ slot_holds (rd pc s) (l ++ repeat 0x12 n) s'
    /\ (forall x, rd x s' = rd x s).
Proof.
  induction n as [|n IH]; intros ibi s r s' l H Hl Hi.
  - simpl in H. injection H as <- <-. simpl. rewrite app_nil_r.
    split; [lia|]. split; [exact Hl|reflexivity].
  - cbn [put_nops] in H. apply bind_Done in H as (s1 & HP & H).
    rewrite Hi in HP.
    pose proof (Put_extends _ _ _ _ _ Hl HP) as Hl1.
    assert (Epc : rd pc s1 = rd pc s) by exact (Put_ints _ _ _ _ pc HP).
    rewrite <- Epc in Hl1.
    destruct (IH (ibi + 1) s1 r s' (l ++ [0x12])%list H Hl1) as (Hr & Hs & Hx).
    { rewrite length_app. simpl. lia. }
    split; [lia|]. split.
    + rewrite Epc in Hs. rewrite <- app_assoc in Hs. exact Hs.
    + intros x. rewrite Hx. exact (Put_ints _ _ _ _ x HP).
Qed.

(** One more [Put] at the end of the bytes stored so far. *)
Lemma Put_step (b : Z) (l : list Z) (i : Z) (s s1 : Asm) :
  slot_holds (rd pc s) l s -> i = Z.of_nat (List.length l) ->
  Put (rd pc s + i) b s = Done s1 ->
  slot_holds (rd pc s1) (l ++ [b]) s1
  /\ i + 1 = Z.of_nat (List.length (l ++ [b]))
  /\ (forall x, rd x s1 = rd x s).
Proof.
  intros Hl -> HP.
  assert (Hx : forall x, rd x s1 = rd x s)
    by (intros x; exact (Put_ints _ _ _ _ x HP)).
  rewrite Hx. split; [exact (Put_extends _ _ _ _ _ Hl HP)|].
  split; [rewrite length_app; simpl; lia|exact Hx].
Qed.

Lemma insert_opcode_layout (s s' : Asm) (i' : Z) :
  insert_opcode s = Done (i', s') ->
  let bytes := if 255 <? rd oc s then [Z.shiftr (rd oc s) 8; rd oc s]
               else [rd oc s] in
  slot_holds (rd pc s') bytes s'
  /\ i' = Z.of_nat (List.length bytes)
  /\ (forall x, rd x s' = rd x s).
Proof.
  unfold insert_opcode. cbv zeta. destruct (255 <? rd oc s).
  - intros H. apply bind_Done in H as (s1 & H1 & H).
    apply bind_Done in H as (s2 & H2 & H). injection H as <- <-.
    rewrite <- (Z.add_0_r (rd pc s)) in H1.
    destruct (Put_step _ [] 0 _ _ (slot_holds_nil _ _) eq_refl H1) as (L1 & _ & X1).
    rewrite <- (X1 pc) in H2.
    destruct (Put_step _ _ 1 _ _ L1 eq_refl H2) as (L2 & _ & X2).
    split; [exact L2|]. split; [reflexivity|].
    intros x. now rewrite X2, X1.
  - intros H. apply bind_Done in H as (s1 & H1 & H). injection H as <- <-.
    rewrite <- (Z.add_0_r (rd pc s)) in H1.
    destruct (Put_step _ [] 0 _ _ (slot_holds_nil _ _) eq_refl H1) as (L1 & _ & X1).
    split; [exact L1|]. split; [reflexivity|exact X1].
Qed.

Lemma insert_postbyte_layout (l : list Z) (i : Z) (s s' : Asm) (i' : Z) :
  insert_postbyte i s = Done (i', s') ->
  slot_holds (rd pc s) l s -> i = Z.of_nat (List.length l) ->
  let bytes := (l ++ if 0 <=? rd pb s then [rd pb s] else [])%list in
  slot_holds (rd pc s') bytes s'
  /\ i' = Z.of_nat (List.length bytes)
  /\ (forall x, rd x s' = rd x s).
Proof.
  unfold insert_postbyte. cbv zeta. intros H Hl Hi.
  destruct (0 <=? rd pb s).
  - apply bind_Done in H as (s1 & H1 & H). injection H as <- <-.
    exact (Put_step _ _ _ _ _ Hl Hi H1).
  - injection H as <- <-. rewrite app_nil_r.
    split; [exact Hl|]. split; [exact Hi|reflexivity].
Qed.

Lemma insert_value32_layout (v : Z) (l : list Z) (i : Z) (s s' : Asm) (i' : Z) :
  insert_value32 v i s = Done (i', s') ->
  slot_holds (rd pc s) l s -> i = Z.of_nat (List.length l) ->
  let bytes := (l ++ if rd ql s =? 4
                     then [Z.shiftr v 24; Z.shiftr v 16; Z.shiftr v 8; v]
                     else [])%list in
  slot_holds (rd pc s') bytes s'
  /\ i' = Z.of_nat (List.length bytes)
  /\ (forall x, rd x s' = rd x s).
Proof.
  unfold insert_value32. cbv zeta. intros H Hl Hi.
  destruct (rd ql s =? 4).
  - apply bind_Done in H as (s1 & H1 & H).
    apply bind_Done in H as (s2 & H2 & H).
    apply bind_Done in H as (s3 & H3 & H).
    apply bind_Done in H as (s4 & H4 & H). injection H as <- <-.
    destruct (Put_step _ _ _ _ _ Hl Hi H1) as (L1 & I1 & X1).
    rewrite <- (X1 pc) in H2.
    destruct (Put_step _ _ _ _ _ L1 I1 H2) as (L2 & I2 & X2).
    rewrite <- (X1 pc), <- (X2 pc) in H3.
    replace (i + 2) with (i + 1 + 1) in H3 by lia.
    destruct (Put_step _ _ _ _ _ L2 I2 H3) as (L3 & I3 & X3).
    rewrite <- (X1 pc), <- (X2 pc), <- (X3 pc) in H4.
    replace (i + 3) with (i + 1 + 1 + 1) in H4 by lia.
    destruct (Put_step _ _ _ _ _ L3 I3 H4) as (L4 & I4 & X4).
    rewrite <- !app_assoc in L4, I4. cbn [app] in L4, I4.
    split; [exact L4|]. split; [lia|].
    intros x. now rewrite X4, X3, X2, X1.
  - injection H as <- <-. rewrite app_nil_r.
    split; [exact Hl|]. split; [exact Hi|reflexivity].
Qed.

Lemma insert_value16_layout (v : Z) (l : list Z) (i : Z) (s s' : Asm) (i' : Z) :
  insert_value16 v i s = Done (i', s') ->
  slot_holds (rd pc s) l s -> i = Z.of_nat (List.length l) ->
  let bytes := (l ++ if rd ql s =? 2 then [Z.shiftr v 8; v] else [])%list in
  slot_holds (rd pc s') bytes s'
  /\ i' = Z.of_nat (List.length bytes)
  /\ (forall x, rd x s' = rd x s).
Proof.
  unfold insert_value16. cbv zeta. intros H Hl Hi.
  destruct (rd ql s =? 2).
  - destruct (_ || _); [discriminate H|].
    apply bind_Done in H as (s1 & H1 & H).
    apply bind_Done in H as (s2 & H2 & H). injection H as <- <-.
    destruct (Put_step _ _ _ _ _ Hl Hi H1) as (L1 & I1 & X1).
    rewrite <- (X1 pc) in H2.
    destruct (Put_step _ _ _ _ _ L1 I1 H2) as (L2 & I2 & X2).
    rewrite <- !app_assoc in L2, I2. cbn [app] in L2, I2.
    split; [exact L2|]. split; [lia|].
    intros x. now rewrite X2, X1.
  - injection H as <- <-. rewrite app_nil_r.
    split; [exact Hl|]. split; [exact Hi|reflexivity].
Qed.

Lemma insert_value8_layout (v : Z) (l : list Z) (i : Z) (s s' : Asm) (i' : Z) :
  insert_value8 v i s = Done (i', s') ->
  slot_holds (rd pc s) l s -> i = Z.of_nat (List.length l) ->
  let bytes := (l ++ if rd ql s =? 1 then [byte_operand (rd DP s) v] else [])%list in
  slot_holds (rd pc s') bytes s'
  /\ i' = Z.of_nat (List.length bytes)
  /\ (forall x, rd x s' = rd x s).
Proof.
  unfold insert_value8. cbv zeta. intros H Hl Hi.
  destruct (rd ql s =? 1).
  - destruct (_ || _); [discriminate H|].
    apply bind_Done in H as (s1 & H1 & H). injection H as <- <-.
    exact (Put_step _ _ _ _ _ Hl Hi H1).
  - injection H as <- <-. rewrite app_nil_r.
    split; [exact Hl|]. split; [exact Hi|reflexivity].
Qed.

(** What the insertion of pass 2 leaves in the ROM. *)
Lemma insert_layout (v : Z) (s s' : Asm) (ibi : Z) :
  GenerateCode_insert v s = Done (ibi, s') ->
  let bytes :=
    (code_bytes (rd oc s) (rd pb s) (rd ql s) v (rd DP s)
     ++ repeat 0x12 (Z.to_nat (rda ADL (rd pc s) s - rd il s)))%list in
  ibi = Z.of_nat (List.length bytes)
  /\ ROM_bytes (List.length bytes) (rd pc s) s'
     = map (fun b => Z.land b 0xff) bytes
  /\ (forall k, 0 <= k < ibi -> rda LOCK (rd pc s + k) s' = 1)
  /\ (v <> UNDEF \/ rd ql s <= 0).
Proof.
  intros H. cbv zeta. unfold GenerateCode_insert in H. cbv zeta in H.
  destruct (Synchronize_facts s)
    as (Spc & Soc & Spb & Sql & SDP & _ & _ & Snops & _).
  cbv zeta in *.
  destruct ((v =? UNDEF) && (0 <? rd ql (Synchronize s))) eqn:EU;
    [discriminate H|].
  apply bind_Done in H as ([i1 s1] & H1 & H).
  apply bind_Done in H as ([i2 s2] & H2 & H).
  apply bind_Done in H as ([i3 s3] & H3 & H).
  apply bind_Done in H as ([i4 s4] & H4 & H).
  apply bind_Done in H as ([i5 s5] & H5 & H).
  destruct (insert_opcode_layout _ _ _ H1) as (L1 & I1 & X1).
  destruct (insert_postbyte_layout _ _ _ _ _ H2 L1 I1) as (L2 & I2 & X2).
  destruct (insert_value32_layout _ _ _ _ _ _ H3 L2 I2) as (L3 & I3 & X3).
  destruct (insert_value16_layout _ _ _ _ _ _ H4 L3 I3) as (L4 & I4 & X4).
  destruct (insert_value8_layout _ _ _ _ _ _ H5 L4 I4) as (L5 & I5 & X5).
  destruct (put_nops_extends _ _ _ _ _ _ H L5 I5) as (Hr & L6 & X6).
  assert (Eq : forall x, rd x s5 = rd x (Synchronize s))
    by (intros x; now rewrite X5, X4, X3, X2, X1).
  rewrite !Eq in *. rewrite !X4, !X3, !X2, !X1 in *.
  rewrite Spc, Soc, Spb, Sql, SDP, Snops in *.
  unfold code_bytes. rewrite !app_assoc.
  set (pre := (((((if 255 <? rd oc s then _ else _) ++ _) ++ _) ++ _) ++ _)%list) in *.
  assert (Elen : List.length (pre ++ repeat 18 (Z.to_nat (rda ADL (rd pc s) s - rd il s)))
                 = (List.length pre + Z.to_nat (rda ADL (rd pc s) s - rd il s))%nat)
    by (now rewrite length_app, repeat_length).
  split; [rewrite Elen; lia|]. split; [exact (proj1 L6)|]. split.
  - intros k Hk. apply (proj2 L6). rewrite Elen. lia.
  - apply andb_false_iff in EU as [E|E].
    + left. now apply Z.eqb_neq.
    + right. apply Z.ltb_ge in E. lia.
Qed.



(** Pass 2 at a slot of the recorded length whose bytes are free or
    hold the opcode: the instruction is stored and [pc] moves on. *)
Lemma finish_emits (v : Z) (s : Asm) :
  rd Phase s = 2 ->
  In (rd ql s) [0; 1; 2; 4] ->
  rd il s = encoded_length s ->
  rda ADL (rd pc s) s = rd il s ->
  rd il s <= 5 ->
  rd pc s + rd il s <= 0xffff ->
  (v <> UNDEF \/ rd ql s = 0) ->
  (rd ql s = 2 -> -32768 <= v <= 0xffff) ->
  (rd ql s = 1 -> -128 <= byte_operand (rd DP s) v <= 255) ->
  opcode_writable s ->
  (forall k, opcode_length (rd oc s) <= k < rd il s ->
             rda LOCK (rd pc s + k) s = 0) ->
  exists s',
    GenerateCode_finish v s = Done s'
    /\ ROM_bytes (Z.to_nat (rd il s)) (rd pc s) s'
       = map (fun b => Z.land b 0xff)
             (code_bytes (rd oc s) (rd pb s) (rd ql s) v (rd DP s))
    /\ rd pc s' = rd pc s + rd il s
    /\ rd ErrNum s' = rd ErrNum s
    /\ (forall arr j, ~ (rd pc s <= j < rd pc s + rd il s) ->
                      rda arr j s' = rda arr j s).
Proof.
  intros HPh Hql Hil HADL H5 Hpc Hv Hv16 Hv8 Hop Hfree.
  assert (HL : rd il s <= rda ADL (rd pc s) s) by lia.
  rewrite <- HADL in Hfree.
  destruct (insert_fills_the_slot v s Hql Hil HL Hv Hv16 Hv8 Hop Hfree)
    as (s1 & HI & _ & HF & _ & _ & Eil & Epc & _ & EErr).
  pose proof (encoded_length_pos s Hql) as H1. rewrite <- Hil in H1.
  exists (wr pc (rd pc s + rda ADL (rd pc s) s) s1).
  split; [apply finish_after_insert; try assumption; lia|].
  destruct (insert_layout _ _ _ _ HI) as (Hlen & HR & _).
  cbv zeta in Hlen, HR. rewrite HADL, Z.sub_diag in Hlen, HR.
  simpl repeat in Hlen, HR. rewrite app_nil_r in Hlen, HR.
  split.
  { rewrite Hlen, Nat2Z.id, <- HR. apply ROM_bytes_agree.
    intros k Hk. reflexivity. }
  split; [rewrite HADL; apply rd_wr_same|].
  split; [exact EErr|].
  intros arr j Hj. rewrite rda_wr. apply HF. rewrite HADL. exact Hj.
Qed.

(** ** Inherent instructions *)

Lemma Mat_at_In (k : Z) : 0 <= k < DIMOP_6309 -> In (Mat_at k) Mat.
Proof.
  intros Hk. unfold Mat_at. apply nth_In. unfold DIMOP_6309 in Hk. lia.
Qed.

Lemma inherent_table :
  forallb (fun m => implb (0 <=? nth AM_Inherent (Opc m) (-1))
                          (negb (is_char (hd (adv 1 (Mne m))) "I"
                                 && is_char (hd (adv 2 (Mne m))) "M")
                           && (nth AM_Inherent (Opc m) (-1) <=? 0xffff)))
          Mat = true.
Proof. vm_compute. reflexivity. Qed.

Lemma inherent_facts (k : Z) :
  0 <= k < DIMOP_6309 -> 0 <= Mat_Opc k AM_Inherent ->
  is_char (hd (adv 1 (Mne (Mat_at k)))) "I"
  && is_char (hd (adv 2 (Mne (Mat_at k)))) "M" = false
  /\ Mat_Opc k AM_Inherent <= 0xffff.
Proof.
  intros Hk Ho.
  pose proof (proj1 (forallb_forall _ _) inherent_table _ (Mat_at_In k Hk)) as H.
  cbv beta in H. fold (Mat_Opc k AM_Inherent) in H.
  replace (0 <=? Mat_Opc k AM_Inherent) with true in H
    by (symmetry; apply Z.leb_le; exact Ho).
  cbn [implb] in H. apply andb_prop in H as [H1 H2].
  split; [now apply negb_true_iff|now apply Z.leb_le].
Qed.

Lemma GenerateCode_inherent (s : Asm) :
  0 <= rd MneIndex s < DIMOP_6309 -> 0 <= rd pc s ->
  0 <= Mat_Opc (rd MneIndex s) AM_Inherent ->
  let o := Mat_Opc (rd MneIndex s) AM_Inherent in
  GenerateCode s
  = GenerateCode_finish UNDEF
      (wr il (opcode_length o) (wr ol (opcode_length o)
         (wr oc o (wr ql 0 (wr pb (-1) s))))).
Proof.
  intros Hk Hpc Ho. cbv zeta.
  destruct (inherent_facts _ Hk Ho) as [Hx _].
  unfold GenerateCode. cbv zeta.
  rewrite !rd_wr_other by reflexivity.
  replace (rd pc s <? 0) with false by (symmetry; apply Z.ltb_ge; lia).
  rewrite Hx. rewrite !rd_wr_same.
  replace (0 <=? Mat_Opc (rd MneIndex s) AM_Inherent) with true
    by (symmetry; apply Z.leb_le; exact Ho).
  reflexivity.
Qed.

Lemma opcode_bytes_low (o : Z) :
  0 <= o <= 0xffff ->
  map (fun b => Z.land b 0xff) (if 255 <? o then [Z.shiftr o 8; o] else [o])
  = opcode_bytes o.
Proof.
  intros Ho. unfold opcode_bytes.
  destruct (255 <? o) eqn:E; cbn [map].
  - f_equal. change 255 with (Z.ones 8). rewrite Z.land_ones by lia.
    apply Z.mod_small. rewrite Z.shiftr_div_pow2 by lia.
    split; [apply Z.div_pos; lia|apply Z.div_lt_upper_bound; lia].
  - apply Z.ltb_ge in E. f_equal.
    change 255 with (Z.ones 8). rewrite Z.land_ones by lia.
    apply Z.mod_small. lia.
Qed.

Lemma slot_ready_writable (o L : Z) (s sp : Asm) :
  0 <= o <= 0xffff ->
  slot_ready o L s ->
  rd oc sp = o -> rd pc sp = rd pc s ->
  (forall arr a, rda arr a sp = rda arr a s) ->
  opcode_writable sp.
Proof.
  intros Ho [Hlock _] Eoc Epc Earr.
  unfold opcode_writable. rewrite Eoc, Epc, !Earr.
  unfold opcode_length, opcode_bytes in Hlock.
  destruct (255 <? o) eqn:Ebig.
  - split.
    + destruct (Hlock 0) as [H|H]; [simpl; lia| |];
        rewrite Z.add_0_r in H; [now left|right].
      rewrite H. simpl. apply Z.ltb_lt in Ebig.
      change 255 with (Z.ones 8). rewrite Z.land_ones by lia.
      symmetry. apply Z.mod_small. rewrite Z.shiftr_div_pow2 by lia.
      split; [apply Z.div_pos; lia|apply Z.div_lt_upper_bound; lia].
    + destruct (Hlock 1) as [H|H]; [simpl; lia|now left|right]. exact H.
  - destruct (Hlock 0) as [H|H]; [simpl; lia| |];
      rewrite Z.add_0_r in H; [now left|right].
    rewrite H. simpl. apply Z.ltb_ge in Ebig.
    change 255 with (Z.ones 8). rewrite Z.land_ones by lia.
    symmetry. apply Z.mod_small. lia.
Qed.

(** X19.  An instruction with an inherent opcode is assembled
    without looking at its operand text: in pass 2, at a slot of the
    recorded length, the opcode bytes are stored, [pc] advances by their
    number and no error is counted, whatever [OpText] holds. *)
Theorem inherent_instruction_ignores_operand (s : Asm) :
  let o := Mat_Opc (rd MneIndex s) AM_Inherent in
  let L := opcode_length o in
  0 <= rd MneIndex s < DIMOP_6309 -> 0 <= o ->
  rd Phase s = 2 -> 0 <= rd pc s ->
  rda ADL (rd pc s) s = L -> rd pc s + L <= 0xffff -> slot_ready o L s ->
  exists s',
    GenerateCode s = Done s'
    /\ ROM_bytes (Z.to_nat L) (rd pc s) s' = opcode_bytes o
    /\ rd pc s' = rd pc s + L
    /\ rd ErrNum s' = rd ErrNum s.
Proof.
  cbv zeta. intros Hk Ho HPh Hpc HADL Hend Hready.
  destruct (inherent_facts _ Hk Ho) as [_ Hmax].
  set (o := Mat_Opc (rd MneIndex s) AM_Inherent) in *.
  rewrite (GenerateCode_inherent s Hk Hpc Ho). fold o.
  set (sp := wr il _ _).
  assert (A1 : rd Phase sp = 2) by exact HPh.
  assert (A2 : In (rd ql sp) [0; 1; 2; 4]) by (left; reflexivity).
  assert (A3 : rd il sp = encoded_length sp).
  { unfold encoded_length. change (rd il sp) with (opcode_length o).
    change (rd oc sp) with o. change (rd pb sp) with (-1).
    change (rd ql sp) with 0. simpl. lia. }
  assert (A4 : rda ADL (rd pc sp) sp = rd il sp) by exact HADL.
  assert (A5 : rd il sp <= 5).
  { change (rd il sp) with (opcode_length o). unfold opcode_length.
    destruct (255 <? o); simpl; lia. }
  assert (A6 : rd pc sp + rd il sp <= 0xffff) by exact Hend.
  assert (A7 : UNDEF <> UNDEF \/ rd ql sp = 0) by (right; reflexivity).
  assert (A8 : rd ql sp = 2 -> -32768 <= UNDEF <= 0xffff)
    by (intros H; discriminate H).
  assert (A9 : rd ql sp = 1 -> -128 <= byte_operand (rd DP sp) UNDEF <= 255)
    by (intros H; discriminate H).
  assert (A10 : opcode_writable sp).
  { apply (slot_ready_writable o (opcode_length o) s sp); auto; lia. }
  assert (A11 : forall k, opcode_length (rd oc sp) <= k < rd il sp ->
                          rda LOCK (rd pc sp + k) sp = 0).
  { intros k Hk'. change (rd il sp) with (opcode_length o) in Hk'.
    change (rd oc sp) with o in Hk'. lia. }
  destruct (finish_emits UNDEF sp A1 A2 A3 A4 A5 A6 A7 A8 A9 A10 A11)
    as (s' & HG & HR & Hpc' & HE & _).
  exists s'. split; [exact HG|]. split; [|split; [exact Hpc'|exact HE]].
  change (rd il sp) with (opcode_length o) in HR.
  change (rd pc sp) with (rd pc s) in HR.
  rewrite HR. unfold code_bytes.
  change (rd oc sp) with o. change (rd pb sp) with (-1).
  change (rd ql sp) with 0. cbn [Z.leb Z.compare Z.eqb app].
  rewrite app_nil_r. apply opcode_bytes_low. lia.
Qed.

Lemma inherent_instruction_witness :
  exists s',
    GenerateCode NOP_with_operand = Done s'
    /\ ROM_bytes 1 0x1000 s' = [0x12]
    /\ rd pc s' = 0x1001
    /\ rd ErrNum s' = 0.
Proof.
  apply (inherent_instruction_ignores_operand NOP_with_operand);
    try (vm_compute; intuition discriminate).
  split; intros j Hj.
  - assert (Hj' : 0 <= j < 1) by exact Hj.
    assert (j = 0) as -> by lia. right. reflexivity.
  - assert (Hj' : 1 <= j < 1) by exact Hj. lia.
Defined.

(** ** Immediate operands *)

Lemma immediate_table :
  forallb (fun m => implb (0 <=? nth AM_Immediate (Opc m) (-1))
                          (negb (is_char (hd (adv 1 (Mne m))) "I"
                                 && is_char (hd (adv 2 (Mne m))) "M")
                           && (nth AM_Immediate (Opc m) (-1) <=? 0xffff)
                           && (nth AM_Inherent (Opc m) (-1) <? 0)
                           && (nth AM_Register (Opc m) (-1) <? 0)
                           && (nth AM_Relative (Opc m) (-1) <? 0)))
          Mat = true.
Proof. vm_compute. reflexivity. Qed.

Lemma immediate_facts (k : Z) :
  0 <= k < DIMOP_6309 -> 0 <= Mat_Opc k AM_Immediate ->
  is_char (hd (adv 1 (Mne (Mat_at k)))) "I"
  && is_char (hd (adv 2 (Mne (Mat_at k)))) "M" = false
  /\ Mat_Opc k AM_Immediate <= 0xffff
  /\ Mat_Opc k AM_Inherent < 0 /\ Mat_Opc k AM_Register < 0
  /\ Mat_Opc k AM_Relative < 0.
Proof.
  intros Hk Ho.
  pose proof (proj1 (forallb_forall _ _) immediate_table _ (Mat_at_In k Hk)) as H.
  cbv beta in H.
  fold (Mat_Opc k AM_Immediate) (Mat_Opc k AM_Inherent)
       (Mat_Opc k AM_Register) (Mat_Opc k AM_Relative) in H.
  replace (0 <=? Mat_Opc k AM_Immediate) with true in H
    by (symmetry; apply Z.leb_le; exact Ho).
  cbn [implb] in H.
  apply andb_prop in H as [H H5]. apply andb_prop in H as [H H4].
  apply andb_prop in H as [H H3]. apply andb_prop in H as [H1 H2].
  split; [now apply negb_true_iff|].
  split; [now apply Z.leb_le|].
  split; [now apply Z.ltb_lt|]. split; now apply Z.ltb_lt.
Qed.

Lemma byte_operand_low (dp v : Z) :
  Z.land (byte_operand dp v) 0xff = v mod 256.
Proof.
  unfold byte_operand. cbv zeta.
  assert (E1 : (if (0xff00 <=? v) && (v <=? 0xffff) then Z.land v 0xff else v)
               mod 256 = v mod 256).
  { destruct (_ && _); [|reflexivity].
    change 255 with (Z.ones 8). rewrite Z.land_ones by lia.
    change (2 ^ 8) with 256. apply Z.mod_mod. lia. }
  remember (if (0xff00 <=? v) && (v <=? 0xffff) then Z.land v 0xff else v) as v1.
  clear Heqv1.
  change (Z.land ?x 255) with (Z.land x (Z.ones 8)).
  rewrite Z.land_ones by lia. change (2 ^ 8) with 256.
  destruct (_ && _); [|exact E1].
  rewrite Z.shiftl_mul_pow2 by lia. change (2 ^ 8) with 256.
  rewrite <- E1.
  replace (v1 - dp * 256) with (v1 + (- dp) * 256) by lia.
  apply Z.mod_add. lia.
Qed.

Lemma land_255_mod (z : Z) : Z.land z 0xff = z mod 256.
Proof. change 255 with (Z.ones 8). now rewrite Z.land_ones. Qed.

Lemma value_bytes_big_endian (q v dp : Z) :
  In q [1; 2; 4] ->
  map (fun b => Z.land b 0xff)
      ((if q =? 4 then [Z.shiftr v 24; Z.shiftr v 16; Z.shiftr v 8; v] else [])
       ++ (if q =? 2 then [Z.shiftr v 8; v] else [])
       ++ (if q =? 1 then [byte_operand dp v] else []))
  = big_endian (Z.to_nat q) v.
Proof.
  simpl. intros [<-|[<-|[<-|[]]]]; cbn [Z.eqb Pos.eqb app map];
    rewrite ?byte_operand_low, ?land_255_mod; reflexivity.
Qed.

Lemma RegisterSize_values (k size : Z) :
  RegisterSize k = Done size -> In size [1; 2; 4].
Proof.
  unfold RegisterSize. cbv zeta.
  destruct (_ =? 0); [intros H; injection H as <-; simpl; tauto|].
  destruct (_ =? 0); [intros H; injection H as <-; simpl; tauto|].
  destruct (strchr "ABCEF" _); [intros H; injection H as <-; simpl; tauto|].
  destruct (strchr "DXYW" _); [intros H; injection H as <-; simpl; tauto|].
  destruct (strchr "SU" _); [intros H; injection H as <-; simpl; tauto|].
  destruct (is_char _ "Q"); [intros H; injection H as <-; simpl; tauto|].
  discriminate.
Qed.


Lemma GenerateCode_immediate_decimal (s : Asm) (n size : Z) :
  let k := rd MneIndex s in
  let o := Mat_Opc k AM_Immediate in
  let q := if (size =? 4) && negb (o =? 0xcd) then 2 else size in
  0 <= k < DIMOP_6309 -> 0 <= o -> RegisterSize k = Done size ->
  OpText s = ("#" ++ decimal n)%string -> 0 <= n < 2 ^ 31 ->
  0 <= rd pc s ->
  GenerateCode s
  = if (rd Phase s =? 2) && (n =? UNDEF) then Exit "Undefined immediate value"
    else if (q =? 1) && (rd Phase s =? 2) && ((n <? -128) || (255 <? n))
    then Exit "Immediate value out of range"
    else if (q =? 2) && (rd Phase s =? 2) && ((n <? -32768) || (0xffff <? n))
    then Exit "Immediate value out of range"
    else GenerateCode_finish n (after_immediate o q s).
Proof.
  cbv zeta. intros Hk Ho Hsize HT Hn Hpc.
  destruct (immediate_facts _ Hk Ho) as (Hx & Hmax & Hinh & Hreg & Hrel).
  unfold GenerateCode. cbv zeta.
  rewrite !rd_wr_other by reflexivity.
  replace (rd pc s <? 0) with false by (symmetry; apply Z.ltb_ge; lia).
  rewrite Hx.
  do 4 (rewrite ?OpText_wr, ?rd_wr_same; rewrite ?rd_wr_other by reflexivity).
  rewrite HT.
  replace (0 <=? Mat_Opc (rd MneIndex s) AM_Inherent) with false
    by (symmetry; apply Z.leb_gt; lia).
  replace (0 <=? Mat_Opc (rd MneIndex s) AM_Register) with false
    by (symmetry; apply Z.leb_gt; lia).
  replace (0 <=? Mat_Opc (rd MneIndex s) AM_Relative) with false
    by (symmetry; apply Z.leb_gt; lia).
  change (is_char (hd ("#" ++ decimal n)) NUL) with false.
  change (is_char (hd ("#" ++ decimal n)) apostrophe) with false.
  change (SkipSpace ("#" ++ decimal n)) with ("#" ++ decimal n)%string.
  change (is_char (hd ("#" ++ decimal n)) "#") with true.
  cbv iota.
  unfold GenerateCode_immediate. cbv zeta.
  do 4 (rewrite ?OpText_wr, ?rd_wr_same; rewrite ?rd_wr_other by reflexivity).
  rewrite HT.
  replace (Mat_Opc (rd MneIndex s) AM_Immediate <? 0) with false
    by (symmetry; apply Z.ltb_ge; lia).
  change (adv 1 ("#" ++ decimal n)) with (decimal n).
  assert (EV : forall s0, EvalOperand (decimal n) 0 s0 = Done ("", Some n, s0)).
  { intros s0. unfold EvalOperand.
    pose proof (decimal_len n (proj1 Hn)) as L.
    destruct (strlen (decimal n)) as [|f]; [lia|].
    now apply EvalOperand_fuel_decimal. }
  rewrite EV. cbn [bind stored hd]. change (is_char NUL NUL) with true.
  cbn [negb].
  do 2 (rewrite ?OpText_wr, ?rd_wr_same; rewrite ?rd_wr_other by reflexivity).
  rewrite Hsize. cbn [bind].
  do 4 (rewrite ?OpText_wr, ?rd_wr_same; rewrite ?rd_wr_other by reflexivity).
  unfold after_immediate.
  repeat match goal with |- context [if ?b then _ else _] =>
    lazymatch b with
    | context [if _ then _ else _] => fail
    | _ => destruct b
    end end; reflexivity.
Qed.

Lemma byte_operand_range (dp v : Z) :
  0 <= v <= 255 -> -128 <= byte_operand dp v <= 255.
Proof.
  intros Hv. unfold byte_operand. cbv zeta.
  replace ((0xff00 <=? v) && (v <=? 0xffff)) with false
    by (symmetry; apply andb_false_iff; left; apply Z.leb_gt; lia).
  destruct (_ && _) eqn:E; [|lia].
  apply andb_true_iff in E. destruct E as [E1 E2].
  apply Z.ltb_lt in E1. apply Z.leb_le in E2. lia.
Qed.

(** X20.  Immediate mode with a decimal constant, pass 2: the opcode
    is followed by the constant in [q] bytes, the high byte first,
    where [q] is the register size (2 for a 4-byte register other than
    in [LDQ]); a constant that does not fit into one or two bytes ends
    the run with [Immediate value out of range]. *)
Theorem immediate_operand_is_stored_big_endian (s : Asm) (n size : Z) :
  let k := rd MneIndex s in
  let o := Mat_Opc k AM_Immediate in
  let q := if (size =? 4) && negb (o =? 0xcd) then 2 else size in
  let L := opcode_length o + q in
  0 <= k < DIMOP_6309 -> 0 <= o -> RegisterSize k = Done size ->
  OpText s = ("#" ++ decimal n)%string -> 0 <= n < 2 ^ 31 -> n <> UNDEF ->
  rd Phase s = 2 -> 0 <= rd pc s ->
  (n < 2 ^ (8 * q) ->
   rda ADL (rd pc s) s = L -> rd pc s + L <= 0xffff -> slot_ready o L s ->
   exists s',
     GenerateCode s = Done s'
     /\ ROM_bytes (Z.to_nat L) (rd pc s) s'
        = (opcode_bytes o ++ big_endian (Z.to_nat q) n)%list
     /\ rd pc s' = rd pc s + L
     /\ rd ErrNum s' = rd ErrNum s)
  /\ (2 ^ (8 * q) <= n -> q <> 4 ->
      GenerateCode s = Exit "Immediate value out of range").
Proof.
  cbv zeta. intros Hk Ho Hsize HT Hn HU HPh Hpc.
  rewrite (GenerateCode_immediate_decimal s n size Hk Ho Hsize HT Hn Hpc).
  destruct (immediate_facts _ Hk Ho) as (_ & Hmax & _).
  pose proof (RegisterSize_values _ _ Hsize) as Hsz.
  set (o := Mat_Opc (rd MneIndex s) AM_Immediate) in *.
  set (q := if (size =? 4) && negb (o =? 0xcd) then 2 else size).
  assert (Hq : In q [1; 2; 4] /\ (q = 4 -> o = 0xcd)).
  { subst q. simpl in Hsz. destruct Hsz as [<-|[<-|[<-|[]]]].
    - split; [simpl; tauto|intros H; discriminate H].
    - split; [simpl; tauto|intros H; discriminate H].
    - destruct (o =? 0xcd) eqn:E.
      + apply Z.eqb_eq in E. split; [simpl; tauto|intros _; exact E].
      + split; [simpl; tauto|intros H; discriminate H]. }
  destruct Hq as [Hq Hq4].
  rewrite HPh, Z.eqb_refl, !andb_true_r. cbn [andb].
  replace (n =? UNDEF) with false by (symmetry; apply Z.eqb_neq; exact HU).
  replace (n <? -128) with false by (symmetry; apply Z.ltb_ge; lia).
  replace (n <? -32768) with false by (symmetry; apply Z.ltb_ge; lia).
  cbn [orb].
  split.
  - intros Hfit HADL Hend Hready.
    assert (Hno1 : (q =? 1) && (255 <? n) = false).
    { destruct (q =? 1) eqn:E; [|reflexivity]. apply Z.eqb_eq in E.
      rewrite E in Hfit. change (2 ^ (8 * 1)) with 256 in Hfit.
      apply Z.ltb_ge. lia. }
    assert (Hno2 : (q =? 2) && (0xffff <? n) = false).
    { destruct (q =? 2) eqn:E; [|reflexivity]. apply Z.eqb_eq in E.
      rewrite E in Hfit. change (2 ^ (8 * 2)) with 65536 in Hfit.
      apply Z.ltb_ge. lia. }
    rewrite Hno1, Hno2.
    set (sp := after_immediate o q s).
    assert (Eil : rd il sp = opcode_length o + q) by reflexivity.
    assert (Eoc : rd oc sp = o) by reflexivity.
    assert (Eql : rd ql sp = q) by reflexivity.
    assert (Epb : rd pb sp = -1) by reflexivity.
    assert (Epc : rd pc sp = rd pc s) by reflexivity.
    assert (Earr : forall arr a, rda arr a sp = rda arr a s) by reflexivity.
    assert (Hol : 1 <= opcode_length o <= 2)
      by (unfold opcode_length; destruct (255 <? o); simpl; lia).
    assert (A1 : rd Phase sp = 2) by exact HPh.
    assert (A2 : In (rd ql sp) [0; 1; 2; 4]) by (rewrite Eql; right; exact Hq).
    assert (A3 : rd il sp = encoded_length sp).
    { unfold encoded_length. rewrite Eil, Eoc, Epb, Eql. simpl. lia. }
    assert (A4 : rda ADL (rd pc sp) sp = rd il sp)
      by (rewrite Earr, Epc, Eil; exact HADL).
    assert (A5 : rd il sp <= 5).
    { rewrite Eil. simpl in Hq. destruct Hq as [E|[E|[E|[]]]]; try lia.
      rewrite (Hq4 (eq_sym E)). rewrite <- E. reflexivity. }
    assert (A6 : rd pc sp + rd il sp <= 0xffff) by (rewrite Epc, Eil; exact Hend).
    assert (A7 : n <> UNDEF \/ rd ql sp = 0) by (left; exact HU).
    assert (A8 : rd ql sp = 2 -> -32768 <= n <= 0xffff).
    { rewrite Eql. intros E. rewrite E in Hfit.
      change (2 ^ (8 * 2)) with 65536 in Hfit. lia. }
    assert (A9 : rd ql sp = 1 -> -128 <= byte_operand (rd DP sp) n <= 255).
    { rewrite Eql. intros E. rewrite E in Hfit.
      change (2 ^ (8 * 1)) with 256 in Hfit. apply byte_operand_range. lia. }
    assert (A10 : opcode_writable sp).
    { apply (slot_ready_writable o (opcode_length o + q) s sp); auto; lia. }
    assert (A11 : forall j, opcode_length (rd oc sp) <= j < rd il sp ->
                            rda LOCK (rd pc sp + j) sp = 0).
    { intros j Hj. rewrite Eoc, Eil in Hj. rewrite Earr, Epc.
      apply (proj2 Hready). exact Hj. }
    destruct (finish_emits n sp A1 A2 A3 A4 A5 A6 A7 A8 A9 A10 A11)
      as (s' & HG & HR & Hpc' & HE & _).
    exists s'. split; [exact HG|].
    split; [|split; [rewrite Hpc', Epc, Eil; reflexivity|exact HE]].
    rewrite Eil, Epc, Eoc, Epb, Eql in HR. rewrite HR.
    unfold code_bytes. cbn [Z.leb Z.compare app].
    rewrite map_app, opcode_bytes_low by lia.
    f_equal. apply value_bytes_big_endian. exact Hq.
  - intros Hbig Hq4'.
    simpl in Hq. destruct Hq as [E|[E|[E|[]]]]; [| |congruence].
    + rewrite <- E in *. change (2 ^ (8 * 1)) with 256 in Hbig.
      replace (255 <? n) with true by (symmetry; apply Z.ltb_lt; lia).
      reflexivity.
    + rewrite <- E in *. change (2 ^ (8 * 2)) with 65536 in Hbig.
      replace (0xffff <? n) with true by (symmetry; apply Z.ltb_lt; lia).
      reflexivity.
Qed.

Lemma immediate_operand_witness :
  exists s',
    GenerateCode CMPY_4660 = Done s'
    /\ ROM_bytes 4 0x1000 s' = [0x10; 0x8c; 0x12; 0x34]
    /\ rd pc s' = 0x1004
    /\ rd ErrNum s' = 0.
Proof.
  apply (proj1 (immediate_operand_is_stored_big_endian CMPY_4660 4660 2
                  ltac:(vm_compute; intuition discriminate)
                  ltac:(vm_compute; discriminate)
                  ltac:(reflexivity) ltac:(reflexivity)
                  ltac:(vm_compute; intuition discriminate)
                  ltac:(vm_compute; discriminate)
                  ltac:(reflexivity)
                  ltac:(vm_compute; discriminate)));
    try (vm_compute; reflexivity); try (vm_compute; discriminate).
  split; intros j Hj.
  - assert (Hj' : 0 <= j < 2) by exact Hj.
    assert (j = 0 \/ j = 1) as [-> | ->] by lia; right; reflexivity.
  - assert (Hj' : 2 <= j < 4) by exact Hj.
    assert (j = 2 \/ j = 3) as [-> | ->] by lia; reflexivity.
Defined.

(** ** Relative branches *)

Lemma relative_table :
  forallb (fun m => implb (0 <=? nth AM_Relative (Opc m) (-1))
                          (negb (is_char (hd (adv 1 (Mne m))) "I"
                                 && is_char (hd (adv 2 (Mne m))) "M")
                           && (nth AM_Relative (Opc m) (-1) <=? 0xffff)
                           && (nth AM_Inherent (Opc m) (-1) <? 0)
                           && (nth AM_Register (Opc m) (-1) <? 0)))
          Mat = true.
Proof. vm_compute. reflexivity. Qed.

Lemma relative_facts (k : Z) :
  0 <= k < DIMOP_6309 -> 0 <= Mat_Opc k AM_Relative ->
  is_char (hd (adv 1 (Mne (Mat_at k)))) "I"
  && is_char (hd (adv 2 (Mne (Mat_at k)))) "M" = false
  /\ Mat_Opc k AM_Relative <= 0xffff
  /\ Mat_Opc k AM_Inherent < 0 /\ Mat_Opc k AM_Register < 0.
Proof.
  intros Hk Ho.
  pose proof (proj1 (forallb_forall _ _) relative_table _ (Mat_at_In k Hk)) as H.
  cbv beta in H.
  fold (Mat_Opc k AM_Relative) (Mat_Opc k AM_Inherent)
       (Mat_Opc k AM_Register) in H.
  replace (0 <=? Mat_Opc k AM_Relative) with true in H
    by (symmetry; apply Z.leb_le; exact Ho).
  cbn [implb] in H.
  apply andb_prop in H as [H H4].
  apply andb_prop in H as [H H3]. apply andb_prop in H as [H1 H2].
  split; [now apply negb_true_iff|].
  split; [now apply Z.leb_le|].
  split; now apply Z.ltb_lt.
Qed.

Lemma digit_not_sign (c : ascii) :
  isdigit c = true ->
  is_char c NUL = false /\ is_char c apostrophe = false
  /\ is_char c "-" = false /\ is_char c "+" = false /\ is_char c "#" = false.
Proof. each_char c; intros H; try discriminate H; repeat split; reflexivity. Qed.

Lemma int_wrap_small (z : Z) : - 2 ^ 31 <= z < 2 ^ 31 -> int_wrap z = z.
Proof.
  intros Hz. unfold int_wrap.
  rewrite Z.mod_small; [lia|]. change (2 ^ 31) with 2147483648 in Hz. lia.
Qed.


Lemma GenerateCode_relative_decimal (s : Asm) (t : Z) :
  let k := rd MneIndex s in
  let o := Mat_Opc k AM_Relative in
  let q := 1 + b2i (is_char (hd (Mne (Mat_at k))) "L") in
  let d := t - (rd pc s + (opcode_length o + q)) in
  0 <= k < DIMOP_6309 -> 0 <= o ->
  OpText s = decimal t -> 0 <= t <= 0xffff ->
  rd Phase s = 2 -> rd Optimize s = 0 -> 0 <= rd pc s <= 0xffff ->
  GenerateCode s
  = if (q =? 1) && ((d <? -128) || (127 <? d))
    then Exit "Short Branch out of range"
    else GenerateCode_finish (Z.land d 0xffff) (after_relative o q s).
Proof.
  cbv zeta. intros Hk Ho HT Ht HPh HOpt Hpc.
  destruct (relative_facts _ Hk Ho) as (Hx & Hmax & Hinh & Hreg).
  destruct (decimal_head t "" (proj1 Ht)) as (c & u & Ec & Hc).
  rewrite append_nil in Ec.
  destruct (digit_not_sign c Hc) as (C0 & C1 & C2 & C3 & C4).
  unfold GenerateCode. cbv zeta.
  rewrite !rd_wr_other by reflexivity.
  replace (rd pc s <? 0) with false by (symmetry; apply Z.ltb_ge; lia).
  rewrite Hx.
  do 4 (rewrite ?OpText_wr, ?rd_wr_same; rewrite ?rd_wr_other by reflexivity).
  rewrite HT.
  replace (0 <=? Mat_Opc (rd MneIndex s) AM_Inherent) with false
    by (symmetry; apply Z.leb_gt; lia).
  replace (0 <=? Mat_Opc (rd MneIndex s) AM_Register) with false
    by (symmetry; apply Z.leb_gt; lia).
  replace (0 <=? Mat_Opc (rd MneIndex s) AM_Relative) with true
    by (symmetry; apply Z.leb_le; lia).
  replace (is_char (hd (decimal t)) NUL) with false
    by (rewrite Ec; symmetry; exact C0).
  replace (is_char (hd (decimal t)) apostrophe) with false
    by (rewrite Ec; symmetry; exact C1).
  cbv iota.
  unfold GenerateCode_relative. cbv zeta.
  do 6 (rewrite ?OpText_wr, ?rd_wr_same; rewrite ?rd_wr_other by reflexivity).
  rewrite HT.
  replace (is_char (hd (decimal t)) "-") with false
    by (rewrite Ec; symmetry; exact C2).
  replace (is_char (hd (decimal t)) "+") with false
    by (rewrite Ec; symmetry; exact C3).
  assert (EV : forall s0, EvalOperand (decimal t) 0 s0 = Done ("", Some t, s0)).
  { intros s0. unfold EvalOperand.
    pose proof (decimal_len t (proj1 Ht)) as L.
    destruct (strlen (decimal t)) as [|f]; [lia|].
    apply EvalOperand_fuel_decimal. lia. }
  rewrite EV. cbn [bind stored].
  do 6 (rewrite ?OpText_wr, ?rd_wr_same; rewrite ?rd_wr_other by reflexivity).
  set (o := Mat_Opc (rd MneIndex s) AM_Relative) in *.
  set (q := 1 + b2i (is_char (hd (Mne (Mat_at (rd MneIndex s)))) "L")).
  assert (Hq : 1 <= q <= 2) by (subst q; unfold b2i; destruct (is_char (hd (Mne _)) _); lia).
  assert (Hol : 1 <= opcode_length o <= 2)
    by (unfold opcode_length, b2i; destruct (255 <? o); lia).
  replace (t =? UNDEF) with false
    by (symmetry; apply Z.eqb_neq; unfold UNDEF; lia).
  cbn [negb].
  rewrite int_wrap_small by lia.
  set (d := t - (rd pc s + (opcode_length o + q))).
  replace (d =? UNDEF) with false
    by (symmetry; apply Z.eqb_neq; unfold UNDEF; lia).
  rewrite andb_false_r.
  unfold optimize_branch.
  do 2 (rewrite ?OpText_wr, ?rd_wr_same; rewrite ?rd_wr_other by reflexivity).
  rewrite HOpt. change (truthy 0) with false. cbv iota.
  do 6 (rewrite ?OpText_wr, ?rd_wr_same; rewrite ?rd_wr_other by reflexivity).
  rewrite HPh, Z.eqb_refl, HOpt. change (truthy 0) with false. cbn [andb].
  destruct ((q =? 1) && ((d <? -128) || (127 <? d))); reflexivity.
Qed.

Lemma byte_operand_branch (dp v : Z) :
  0 <= v <= 255 \/ 0xff00 <= v <= 0xffff ->
  -128 <= byte_operand dp v <= 255.
Proof.
  intros Hv. unfold byte_operand. cbv zeta.
  assert (H1 : 0 <= (if (0xff00 <=? v) && (v <=? 0xffff)
                     then Z.land v 0xff else v) <= 255).
  { destruct ((0xff00 <=? v) && (v <=? 0xffff)) eqn:E.
    - rewrite land_255_mod. pose proof (Z.mod_pos_bound v 256). lia.
    - apply andb_false_iff in E.
      destruct E as [E|E]; [apply Z.leb_gt in E|apply Z.leb_gt in E]; lia. }
  remember (if (0xff00 <=? v) && (v <=? 0xffff) then Z.land v 0xff else v) as v1.
  clear Heqv1.
  destruct (_ && _) eqn:E; [|lia].
  apply andb_true_iff in E. destruct E as [E1 E2].
  apply Z.ltb_lt in E1. apply Z.leb_le in E2. lia.
Qed.

Lemma big_endian_low16 (q : nat) (d : Z) :
  (q <= 2)%nat -> big_endian q (Z.land d 0xffff) = big_endian q d.
Proof.
  assert (E0 : forall z, Z.land z 0xffff mod 256 = z mod 256).
  { intros z. rewrite <- !land_255_mod, <- Z.land_assoc. reflexivity. }
  assert (E1 : forall z, Z.shiftr (Z.land z 0xffff) 8 mod 256
                         = Z.shiftr z 8 mod 256).
  { intros z. rewrite <- !land_255_mod, Z.shiftr_land, <- Z.land_assoc.
    reflexivity. }
  intros Hq. destruct q as [|[|[|q]]]; [reflexivity| | |lia].
  - cbn [big_endian]. change (8 * Z.of_nat 0) with 0.
    rewrite !Z.shiftr_0_r, E0. reflexivity.
  - cbn [big_endian]. change (8 * Z.of_nat 1) with 8.
    change (8 * Z.of_nat 0) with 0.
    rewrite !Z.shiftr_0_r, E0, E1. reflexivity.
Qed.

Lemma low16_of_displacement (d : Z) :
  -128 <= d <= 127 ->
  0 <= Z.land d 0xffff <= 255 \/ 0xff00 <= Z.land d 0xffff <= 0xffff.
Proof.
  intros Hd.
  assert (E : Z.land d 0xffff = d mod 65536).
  { change 0xffff with (Z.ones 16). now rewrite Z.land_ones by lia. }
  rewrite E.
  destruct (Z_lt_le_dec d 0) as [Hneg|Hpos].
  - right.
    assert (E2 : d mod 65536 = d + 65536).
    { replace d with (d + 65536 + (-1) * 65536) at 1 by lia.
      rewrite Z.mod_add by lia. apply Z.mod_small. lia. }
    rewrite E2. lia.
  - left. rewrite Z.mod_small by lia. lia.
Qed.

(** X21.  A branch to the address [t], optimizer off, pass 2: the
    displacement is [t] minus the address after the instruction; it is
    stored after the opcode in one byte, or in two bytes, high byte
    first, for mnemonics that start with [L].  A one-byte displacement
    outside -128 .. 127 ends the run with [Short Branch out of range]. *)
Theorem branch_displacement (s : Asm) (t : Z) :
  let k := rd MneIndex s in
  let o := Mat_Opc k AM_Relative in
  let q := 1 + b2i (is_char (hd (Mne (Mat_at k))) "L") in
  let L := opcode_length o + q in
  let d := t - (rd pc s + L) in
  0 <= k < DIMOP_6309 -> 0 <= o ->
  OpText s = decimal t -> 0 <= t <= 0xffff ->
  rd Phase s = 2 -> rd Optimize s = 0 -> 0 <= rd pc s ->
  rd pc s + L <= 0xffff ->
  ((q = 1 -> -128 <= d <= 127) ->
   rda ADL (rd pc s) s = L -> slot_ready o L s ->
   exists s',
     GenerateCode s = Done s'
     /\ ROM_bytes (Z.to_nat L) (rd pc s) s'
        = (opcode_bytes o ++ big_endian (Z.to_nat q) d)%list
     /\ rd pc s' = rd pc s + L
     /\ rd ErrNum s' = rd ErrNum s)
  /\ (q = 1 -> d < -128 \/ 127 < d ->
      GenerateCode s = Exit "Short Branch out of range").
Proof.
  cbv zeta. intros Hk Ho HT Ht HPh HOpt Hpc Hend.
  assert (Hol : 1 <= opcode_length (Mat_Opc (rd MneIndex s) AM_Relative) <= 2)
    by (unfold opcode_length, b2i; destruct (255 <? _); lia).
  assert (Hq : 1 <= 1 + b2i (is_char (hd (Mne (Mat_at (rd MneIndex s)))) "L")
               <= 2)
    by (unfold b2i; destruct (is_char (hd (Mne _)) _); lia).
  rewrite (GenerateCode_relative_decimal s t Hk Ho HT Ht HPh HOpt
             ltac:(lia)).
  destruct (relative_facts _ Hk Ho) as (_ & Hmax & _).
  set (o := Mat_Opc (rd MneIndex s) AM_Relative) in *.
  set (q := 1 + b2i (is_char (hd (Mne (Mat_at (rd MneIndex s)))) "L")) in *.
  set (d := t - (rd pc s + (opcode_length o + q))).
  split.
  - intros Hfit HADL Hready.
    assert (Hno : (q =? 1) && ((d <? -128) || (127 <? d)) = false).
    { destruct (q =? 1) eqn:E; [|reflexivity]. apply Z.eqb_eq in E.
      specialize (Hfit E). cbn [andb]. apply orb_false_iff.
      split; [apply Z.ltb_ge|apply Z.ltb_ge]; lia. }
    rewrite Hno.
    set (sp := after_relative o q s).
    assert (Eil : rd il sp = opcode_length o + q) by reflexivity.
    assert (Eoc : rd oc sp = o) by reflexivity.
    assert (Eql : rd ql sp = q) by reflexivity.
    assert (Epb : rd pb sp = -1) by reflexivity.
    assert (Epc : rd pc sp = rd pc s) by reflexivity.
    assert (Earr : forall arr a, rda arr a sp = rda arr a s) by reflexivity.
    assert (Hv : 0 <= Z.land d 0xffff <= 0xffff).
    { change 0xffff with (Z.ones 16). rewrite Z.land_ones by lia.
      pose proof (Z.mod_pos_bound d (2 ^ 16)). change (2 ^ 16) with 65536 in *.
      change (Z.ones 16) with 65535. lia. }
    assert (Hq12 : q = 1 \/ q = 2) by lia.
    assert (A1 : rd Phase sp = 2) by exact HPh.
    assert (A2 : In (rd ql sp) [0; 1; 2; 4]).
    { rewrite Eql. simpl. destruct Hq12 as [-> | ->]; tauto. }
    assert (A3 : rd il sp = encoded_length sp).
    { unfold encoded_length. rewrite Eil, Eoc, Epb, Eql. simpl. lia. }
    assert (A4 : rda ADL (rd pc sp) sp = rd il sp)
      by (rewrite Earr, Epc, Eil; exact HADL).
    assert (A5 : rd il sp <= 5) by (rewrite Eil; lia).
    assert (A6 : rd pc sp + rd il sp <= 0xffff) by (rewrite Epc, Eil; exact Hend).
    assert (A7 : Z.land d 0xffff <> UNDEF \/ rd ql sp = 0)
      by (left; unfold UNDEF; lia).
    assert (A8 : rd ql sp = 2 -> -32768 <= Z.land d 0xffff <= 0xffff) by lia.
    assert (A9 : rd ql sp = 1 ->
                 -128 <= byte_operand (rd DP sp) (Z.land d 0xffff) <= 255).
    { rewrite Eql. intros E. specialize (Hfit E). apply byte_operand_branch.
      apply low16_of_displacement. exact Hfit. }
    assert (A10 : opcode_writable sp).
    { apply (slot_ready_writable o (opcode_length o + q) s sp); auto; lia. }
    assert (A11 : forall j, opcode_length (rd oc sp) <= j < rd il sp ->
                            rda LOCK (rd pc sp + j) sp = 0).
    { intros j Hj. rewrite Eoc, Eil in Hj. rewrite Earr, Epc.
      apply (proj2 Hready). exact Hj. }
    destruct (finish_emits (Z.land d 0xffff) sp
                A1 A2 A3 A4 A5 A6 A7 A8 A9 A10 A11)
      as (s' & HG & HR & Hpc' & HE & _).
    exists s'. split; [exact HG|].
    split; [|split; [rewrite Hpc', Epc, Eil; reflexivity|exact HE]].
    rewrite Eil, Epc, Eoc, Epb, Eql in HR. rewrite HR.
    unfold code_bytes. cbn [Z.leb Z.compare app].
    rewrite map_app, opcode_bytes_low by lia.
    f_equal. rewrite value_bytes_big_endian
      by (simpl; destruct Hq12 as [-> | ->]; tauto).
    apply big_endian_low16. destruct Hq12 as [-> | ->]; simpl; lia.
  - intros E Hout.
    replace ((q =? 1) && ((d <? -128) || (127 <? d))) with true; [reflexivity|].
    symmetry. apply andb_true_iff. split; [apply Z.eqb_eq; exact E|].
    apply orb_true_iff.
    destruct Hout as [H|H]; [left|right]; apply Z.ltb_lt; exact H.
Qed.

Lemma branch_displacement_witness :
  (exists s',
     GenerateCode BNE_back = Done s'
     /\ ROM_bytes 2 0x1000 s' = [0x26; 0xee]
     /\ rd pc s' = 0x1002
     /\ rd ErrNum s' = 0)
  /\ GenerateCode BNE_far = Exit "Short Branch out of range".
Proof.
  split.
  - apply (proj1 (branch_displacement BNE_back 4080
                    ltac:(vm_compute; intuition discriminate)
                    ltac:(vm_compute; discriminate)
                    ltac:(reflexivity)
                    ltac:(vm_compute; intuition discriminate)
                    ltac:(reflexivity) ltac:(reflexivity)
                    ltac:(vm_compute; discriminate)
                    ltac:(vm_compute; discriminate)));
      [intros _; vm_compute; intuition discriminate|reflexivity|].
    split; intros j Hj.
    + assert (Hj' : 0 <= j < 1) by exact Hj.
      assert (j = 0) as -> by lia. right. reflexivity.
    + assert (Hj' : 1 <= j < 2) by exact Hj.
      assert (j = 1) as -> by lia. reflexivity.
  - apply (proj2 (branch_displacement BNE_far 8192
                    ltac:(vm_compute; intuition discriminate)
                    ltac:(vm_compute; discriminate)
                    ltac:(reflexivity)
                    ltac:(vm_compute; intuition discriminate)
                    ltac:(reflexivity) ltac:(reflexivity)
                    ltac:(vm_compute; discriminate)
                    ltac:(vm_compute; discriminate)));
      [reflexivity|right; vm_compute; reflexivity].
Defined.

(** ** Storage requests *)

Lemma EvalOperand_local_ons (p : string) (prio0 : Z) (s : Asm)
      (q : string) (v : Z) (s' : Asm) :
  EvalOperand_local p prio0 s = Done (q, v, s') -> only_new_symbols s s'.
Proof.
  unfold EvalOperand_local. intros H.
  apply bind_Done in H as ([[q0 w] s0] & H0 & H).
  destruct w as [v0|]; [|discriminate H].
  injection H as _ _ <-. exact (EvalOperand_fuel_ons _ _ _ _ _ _ _ H0).
Qed.

(** The scan for the closing quote stops at a quote or at the end. *)
Lemma until_quote_stops (p : string) :
  snd (until_quote p) = "" \/ hd (snd (until_quote p)) = dquote.
Proof.
  induction p as [|c p IH]; [left; reflexivity|].
  cbn [until_quote]. destruct (is_char c dquote) eqn:E.
  - right. apply is_char_true in E. subst c. reflexivity.
  - destruct (until_quote p) as [f r]. exact IH.
Qed.

Lemma no_comma_after_filename (p : string) :
  NeedChar (snd (until_quote p)) "," = None.
Proof.
  unfold NeedChar. cbv zeta.
  destruct (until_quote_stops p) as [E|E].
  - rewrite E. reflexivity.
  - destruct (snd (until_quote p)) as [|c r]; [reflexivity|].
    simpl in E. subst c. reflexivity.
Qed.



(** With [SFMAX] requests recorded, one more [STORE] line is stored
    behind the tables: the run has no defined result, and the error
    exit of [ParseStoreData] is not what ends it. *)
Lemma STORE_behind_the_table :
  ParseStoreData STORE_S19_operand
    (set_stores (repeat (mkStore 0 1 "rom.bin" (-1) BINARY) 20)
                (wr Phase 2 init_Asm))
  = Stuck "SFA[StoreCount] lies behind the SFMAX entries of the table".
Proof. vm_compute. reflexivity. Qed.

(** ** The operand text of a line *)


Lemma space_is_plain (c : ascii) : isspace c = true -> plain c = true.
Proof. each_char c; intros H; try discriminate H; reflexivity. Qed.

Lemma cut_operand_comment (rest : string) :
  rest = "" \/ hd rest = ";"%char -> cut_operand rest false false = ("", rest).
Proof.
  intros [->|H]; [reflexivity|].
  destruct rest as [|c r]; [reflexivity|]. simpl in H. subst c. reflexivity.
Qed.

Lemma cut_operand_plain (o more : string) :
  all_chars plain o = true ->
  cut_operand (o ++ more) false false
  = (o ++ fst (cut_operand more false false),
     snd (cut_operand more false false))%string.
Proof.
  intros Ho. induction o as [|c o IH].
  - simpl. now destruct (cut_operand more false false).
  - simpl in Ho. apply andb_prop in Ho as [Hc Ho].
    cbn [append cut_operand]. unfold plain in Hc.
    apply negb_true_iff in Hc.
    apply orb_false_iff in Hc as [Hc H3].
    apply orb_false_iff in Hc as [H1 H2].
    rewrite H1, H2, H3. cbn [andb negb]. rewrite (IH Ho). reflexivity.
Qed.

(** Between two quotes or two apostrophes nothing opens a comment. *)
Lemma cut_operand_inside (q : ascii) (t more : string) :
  q = dquote \/ q = apostrophe ->
  all_chars (fun x => negb (is_char x q)) t = true ->
  cut_operand (t ++ String q more) (is_char q dquote) (is_char q apostrophe)
  = (t ++ String q (fst (cut_operand more false false)),
     snd (cut_operand more false false))%string.
Proof.
  intros Hq Ht. induction t as [|c t IH].
  - destruct Hq as [-> | ->]; cbn; now destruct (cut_operand more false false).
  - simpl in Ht. apply andb_prop in Ht as [Hc Ht].
    apply negb_true_iff in Hc. specialize (IH Ht).
    cbn [append cut_operand].
    destruct Hq as [-> | ->].
    + change (is_char dquote dquote) with true in *.
      change (is_char dquote apostrophe) with false in *.
      rewrite Hc. cbn [andb negb]. rewrite andb_false_r. cbn [andb].
      rewrite andb_false_r. rewrite IH. reflexivity.
    + change (is_char apostrophe dquote) with false in *.
      change (is_char apostrophe apostrophe) with true in *.
      rewrite Hc. cbn [andb negb]. rewrite andb_false_r. cbn [andb negb].
      rewrite andb_false_r. rewrite IH. reflexivity.
Qed.

Lemma cut_operand_quoted (q : ascii) (t more : string) :
  q = dquote \/ q = apostrophe ->
  all_chars (fun x => negb (is_char x q)) t = true ->
  cut_operand (String q (t ++ String q more)) false false
  = (String q (t ++ String q (fst (cut_operand more false false))),
     snd (cut_operand more false false)).
Proof.
  intros Hq Ht. pose proof (cut_operand_inside q t more Hq Ht) as H.
  cbn [cut_operand].
  destruct Hq as [-> | ->].
  - change (is_char dquote dquote) with true in *.
    change (is_char dquote apostrophe) with false in *.
    change (is_char dquote ";") with false.
    cbn [andb negb]. rewrite H. reflexivity.
  - change (is_char apostrophe dquote) with false in *.
    change (is_char apostrophe apostrophe) with true in *.
    change (is_char apostrophe ";") with false.
    cbn [andb negb]. rewrite H. reflexivity.
Qed.

Lemma trim_right_blanks (t : string) :
  all_chars isspace t = true -> trim_right t = "".
Proof.
  induction t as [|c t IH]; [reflexivity|].
  simpl. intros H. apply andb_prop in H as [Hc Ht].
  rewrite (IH Ht), Hc. reflexivity.
Qed.

Lemma trim_right_body (x : string) (c : ascii) (trail : string) :
  isspace c = false -> all_chars isspace trail = true ->
  trim_right (x ++ String c trail) = (x ++ String c "")%string.
Proof.
  intros Hc Ht. induction x as [|a x IH].
  - cbn [append trim_right]. rewrite (trim_right_blanks _ Ht), Hc. reflexivity.
  - cbn [append trim_right]. rewrite IH.
    destruct x; reflexivity.
Qed.

Lemma cut_operand_tail (trail rest : string) :
  all_chars isspace trail = true -> rest = "" \/ hd rest = ";"%char ->
  cut_operand (trail ++ rest) false false = (trail, rest).
Proof.
  intros Ht Hr. rewrite cut_operand_plain.
  - rewrite (cut_operand_comment rest Hr). cbn [fst snd].
    now rewrite append_nil.
  - clear Hr. induction trail as [|c t IH]; [reflexivity|].
    simpl in *. apply andb_prop in Ht as [Hc Ht].
    rewrite (space_is_plain c Hc). now apply IH.
Qed.

Lemma starts_operand_facts (c : ascii) :
  starts_operand c = true ->
  isspace c = false /\ is_char c "<" || is_char c ">" = false.
Proof.
  unfold starts_operand. intros H. apply negb_true_iff in H.
  apply orb_false_iff in H as [H H3]. apply orb_false_iff in H as [H1 H2].
  now rewrite H1, H2, H3.
Qed.

(** [ExtractOpText] on a line whose operand [x ++ c] is cut off at
    [rest]. *)
Lemma ExtractOpText_body (lead x trail rest : string) (c : ascii) (s : Asm) :
  rd CodeStyle s <> 1 ->
  all_chars isspace lead = true -> all_chars isspace trail = true ->
  isspace c = false ->
  starts_operand (hd (x ++ String c "")) = true ->
  is_char (hd (x ++ String c "")) NUL = false ->
  cut_operand ((x ++ String c "") ++ trail ++ rest) false false
  = ((x ++ String c "") ++ trail, rest)%string ->
  ExtractOpText (lead ++ (x ++ String c "") ++ trail ++ rest) s
  = (rest, set_OpText (x ++ String c "") (wr ForcedMode 0 s)).
Proof.
  intros HCS Hl Ht Hc Hstart Hnul Hcut.
  destruct (starts_operand_facts _ Hstart) as [Hsp Hmode].
  assert (Hhd : forall more, hd ((x ++ String c "") ++ more)
                             = hd (x ++ String c "")).
  { intros more. destruct x; reflexivity. }
  unfold ExtractOpText. cbv zeta.
  rewrite SkipSpace_lead by (rewrite ?Hhd; assumption).
  rewrite Hhd, Hnul, Hmode.
  replace (rd CodeStyle (set_OpText "" (wr ForcedMode 0 s)) =? 1) with false
    by (symmetry; apply Z.eqb_neq; exact HCS).
  rewrite Hcut. f_equal.
  rewrite append_assoc. cbn [append].
  rewrite (trim_right_body x c trail Hc Ht). reflexivity.
Qed.

Lemma no_NUL_hd (t u : string) :
  no_NUL (t ++ u) = true -> t <> "" -> is_char (hd (t ++ u)) NUL = false.
Proof.
  destruct t as [|a t]; [intros _ H; now contradiction H|].
  simpl. intros H _. apply andb_prop in H as [H _]. now apply negb_true_iff.
Qed.

(** X23.  [ExtractOpText] (outside the Thomson style) strips the
    blanks before and after the operand and stops at the comment: for
    an operand without quote, apostrophe and semicolon, and for one
    that ends in a quoted or apostrophized text, in which a semicolon
    does not start a comment.  [ForcedMode] is reset to 0. *)
Theorem ExtractOpText_strips_blanks_and_comment
        (lead trail rest : string) (s : Asm) :
  rd CodeStyle s <> 1 ->
  all_chars isspace lead = true -> all_chars isspace trail = true ->
  rest = "" \/ hd rest = ";"%char ->
  (forall o c,
      all_chars plain (o ++ String c "") = true ->
      no_NUL (o ++ String c "") = true ->
      starts_operand (hd (o ++ String c "")) = true -> isspace c = false ->
      (strlen ((o ++ String c "") ++ trail) < 256)%nat ->
      ExtractOpText (lead ++ (o ++ String c "") ++ trail ++ rest) s
      = (rest, set_OpText (o ++ String c "") (wr ForcedMode 0 s)))
  /\ (forall pre q t,
         q = dquote \/ q = apostrophe ->
         all_chars plain pre = true ->
         all_chars (fun x => negb (is_char x q)) t = true ->
         no_NUL (pre ++ String q (t ++ String q "")) = true ->
         starts_operand (hd (pre ++ String q "")) = true ->
         (strlen ((pre ++ String q (t ++ String q "")) ++ trail) < 256)%nat ->
         ExtractOpText (lead ++ (pre ++ String q (t ++ String q ""))
                             ++ trail ++ rest) s
         = (rest, set_OpText (pre ++ String q (t ++ String q ""))
                             (wr ForcedMode 0 s))).
Proof.
  intros HCS Hl Ht Hr. split.
  - intros o c Hplain Hnul Hstart Hc _.
    apply ExtractOpText_body; try assumption.
    + rewrite <- (append_nil (o ++ String c "")).
      apply no_NUL_hd; [now rewrite append_nil|]. destruct o; discriminate.
    + rewrite (cut_operand_plain _ _ Hplain).
      rewrite (cut_operand_tail _ _ Ht Hr). reflexivity.
  - intros pre q t Hq Hpre Hin Hnul Hstart _.
    assert (Eq : (pre ++ String q (t ++ String q ""))%string
                 = ((pre ++ String q t) ++ String q "")%string).
    { rewrite append_assoc. reflexivity. }
    assert (Hqs : isspace q = false) by (destruct Hq as [-> | ->]; reflexivity).
    assert (Hhd : hd (pre ++ String q (t ++ String q ""))
                  = hd (pre ++ String q "")) by (destruct pre; reflexivity).
    rewrite Eq. apply ExtractOpText_body; try assumption.
    + rewrite <- Eq, Hhd. exact Hstart.
    + rewrite <- Eq. rewrite <- (append_nil (pre ++ _)).
      apply no_NUL_hd; [now rewrite append_nil|]. destruct pre; discriminate.
    + rewrite <- Eq. rewrite append_assoc.
      rewrite (cut_operand_plain _ _ Hpre). cbn [append].
      rewrite (append_assoc t). cbn [append].
      rewrite (cut_operand_quoted q t _ Hq Hin).
      rewrite (cut_operand_tail _ _ Ht Hr). cbn [fst snd].
      rewrite append_assoc. cbn [append]. rewrite append_assoc. reflexivity.
Qed.

Lemma ExtractOpText_witness :
  ExtractOpText " #';'  ; a semicolon" init_Asm
  = ("; a semicolon", set_OpText "#';'" (wr ForcedMode 0 init_Asm)).
Proof.
  apply (proj2 (ExtractOpText_strips_blanks_and_comment
                  " " "  " "; a semicolon" init_Asm
                  ltac:(vm_compute; discriminate)
                  ltac:(reflexivity) ltac:(reflexivity)
                  ltac:(right; reflexivity))
               "#" apostrophe ";").
  - right. reflexivity.
  - reflexivity.
  - reflexivity.
  - reflexivity.
  - reflexivity.
  - vm_compute. lia.
Defined.

(** ** Source lines and the passes *)

(** X24.  While [Skipping] is set, a line that is no conditional
    directive is dropped: [ParseLine] returns without storing code,
    defining anything or reporting an error; only the variables of the
    line, [oc] and [OpText], are reset. *)
Theorem skipped_line_is_ignored (cp : string) (s : Asm) :
  rd Skipping s <> 0 ->
  conditional_directive cp = false ->
  has_hex_dump cp = false ->
  ParseLine cp s = Done (set_OpText "" (wr oc (-1) s)).
Proof.
  intros Hskip Hdir Hhex.
  unfold conditional_directive in Hdir. cbv zeta in Hdir.
  cbn [existsb] in Hdir.
  repeat (apply orb_false_iff in Hdir; destruct Hdir as [?E Hdir]).
  unfold ParseLine. cbv zeta. rewrite Hhex.
  unfold CheckCondition. cbv zeta.
  rewrite E, E0, E1, E2, E3. cbn [andb orb bind]. rewrite E4. cbn [bind].
  replace (truthy 0) with false by reflexivity.
  replace (truthy (rd Skipping (set_OpText "" (wr oc (-1) s)))) with true
    by (symmetry; apply truthy_true; exact Hskip).
  reflexivity.
Qed.

Lemma skipped_line_witness :
  ParseLine "  LDA #300 ,bogus" (wr Skipping 1 init_Asm)
  = Done (set_OpText "" (wr oc (-1) (wr Skipping 1 init_Asm))).
Proof.
  apply skipped_line_is_ignored.
  - vm_compute. discriminate.
  - vm_compute. reflexivity.
  - vm_compute. reflexivity.
Defined.

Lemma reset_minlab_ints (n : nat) (s : Asm) (x : ivar) :
  rd x (reset_minlab n s) = rd x s.
Proof. induction n as [|n IH]; [reflexivity|]. cbn [reset_minlab]. exact IH. Qed.

(** X25.  A source whose conditions are not all closed when pass 1
    ends is not assembled: [Phase2] stops the run before its first
    line, and no output file is written. *)
Theorem missing_endif_is_fatal (src : list string) (s s1 : Asm) :
  Phase1 src s = Done s1 ->
  rd IfLevel s1 <> 0 ->
  main src s = Exit "Error in conditional assembly".
Proof.
  intros H1 Hlev. unfold main, main_with. unfold Phase1 in H1. rewrite H1.
  cbn [bind]. unfold Phase2_with. cbv zeta.
  replace (truthy (rd IfLevel (Phase2_reset s1))) with true; [reflexivity|].
  symmetry. apply truthy_true. unfold Phase2_reset.
  rewrite reset_minlab_ints. exact Hlev.
Qed.

Lemma missing_endif_witness :
  main ["if 1"; "; no endif"] init_Asm = Exit "Error in conditional assembly".
Proof.
  apply (missing_endif_is_fatal ["if 1"; "; no endif"] init_Asm
           (after (Phase1 ["if 1"; "; no endif"] init_Asm))).
  - apply returns_after. vm_compute. exact I.
  - vm_compute. discriminate.
Defined.

(** ** The directives that set [pc] and [DP] *)

Lemma last_char (t : string) :
  t <> "" ->
  exists x c, t = (x ++ String c "")%string
              /\ forall P, all_chars P t = true -> P c = true.
Proof.
  induction t as [|a t IH]; [intros H; now contradiction H|]. intros _.
  destruct t as [|b t].
  - exists "", a. split; [reflexivity|]. intros P H. simpl in H.
    now apply andb_prop in H as [H _].
  - destruct IH as (x & c & E & HP); [discriminate|].
    exists (String a x), c. split; [cbn [append]; now rewrite <- E|].
    intros P H. simpl in H. apply andb_prop in H as [_ H]. now apply HP.
Qed.

Lemma digit_in_operand (c : ascii) :
  isdigit c = true ->
  plain c = true /\ starts_operand c = true /\ isspace c = false
  /\ is_char c NUL = false.
Proof. each_char c; intros H; try discriminate H; repeat split; reflexivity. Qed.

Lemma all_chars_impl (P Q : ascii -> bool) (t : string) :
  (forall c, P c = true -> Q c = true) ->
  all_chars P t = true -> all_chars Q t = true.
Proof.
  intros HPQ. induction t as [|c t IH]; [reflexivity|]. simpl. intros H.
  apply andb_prop in H as [Hc Ht]. now rewrite (HPQ c Hc), IH.
Qed.

(** [ExtractValue] on a decimal constant after one blank. *)
Lemma ExtractValue_decimal (n : Z) (s : Asm) :
  0 <= n < 2 ^ 31 -> rd CodeStyle s <> 1 ->
  ExtractValue (" " ++ decimal n) s
  = Done ("", Some n, set_OpText (decimal n) (wr ForcedMode 0 s)).
Proof.
  intros Hn HCS.
  destruct (decimal_shape n (proj1 Hn)) as [Hall Hne].
  destruct (last_char _ Hne) as (x & c & E & HP).
  pose proof (HP _ Hall) as Hc.
  destruct (digit_in_operand c Hc) as (_ & _ & Hsp & _).
  assert (Hhd : isdigit (hd (decimal n)) = true).
  { destruct (decimal n) as [|d t]; [now contradiction Hne|].
    simpl in Hall. now apply andb_prop in Hall as [H _]. }
  destruct (digit_in_operand _ Hhd) as (_ & Hstart & _ & Hnul).
  assert (Hplain : all_chars plain (decimal n) = true).
  { apply (all_chars_impl isdigit); [|exact Hall].
    intros d Hd. now destruct (digit_in_operand d Hd). }
  assert (EX : ExtractOpText (" " ++ decimal n) s
               = ("", set_OpText (decimal n) (wr ForcedMode 0 s))).
  { pose proof (ExtractOpText_body " " x "" "" c s HCS eq_refl eq_refl Hsp) as H.
    rewrite <- E in H. cbn [append] in H. rewrite append_nil in H.
    apply H; try assumption.
    rewrite <- (append_nil (decimal n)) at 1.
    rewrite (cut_operand_plain _ _ Hplain). cbn [cut_operand fst snd].
    now rewrite append_nil. }
  unfold ExtractValue. rewrite EX.
  change (OpText (set_OpText (decimal n) (wr ForcedMode 0 s))) with (decimal n).
  rewrite Hnul.
  assert (EV : forall s0, EvalOperand (decimal n) 0 s0 = Done ("", Some n, s0)).
  { intros s0. unfold EvalOperand.
    pose proof (decimal_len n (proj1 Hn)) as L.
    destruct (strlen (decimal n)) as [|f]; [lia|].
    now apply EvalOperand_fuel_decimal. }
  rewrite EV. reflexivity.
Qed.

Lemma find_ORG (t : string) :
  find (fun k => strcmpword ("ORG " ++ t) k =? 0) PseudoTab = Some "ORG".
Proof. reflexivity. Qed.

Lemma find_RMB (t : string) :
  find (fun k => strcmpword ("RMB " ++ t) k =? 0) PseudoTab = Some "RMB".
Proof. reflexivity. Qed.

Lemma find_SETDP (t : string) :
  find (fun k => strcmpword ("SETDP " ++ t) k =? 0) PseudoTab = Some "SETDP".
Proof. reflexivity. Qed.

(** X26.  The directives with a decimal constant [n]: [ORG n] sets
    [pc] to [n]; [RMB n] advances [pc] by [n], the sum being within
    the range of [int]; [SETDP n] sets [DP] to [n], or to [n >> 8] when
    [n] is above 255, so that the page may be given by its number or by
    its address.  A [pc] above [$10000] after the directive ends the
    run with the overflow error.  Nothing else changes but [OpText] and
    [ForcedMode]. *)
Theorem ORG_RMB_SETDP (n : Z) (s : Asm) :
  0 <= n < 2 ^ 31 -> rd CodeStyle s <> 1 ->
  - 2 ^ 31 <= rd pc s -> rd pc s + n < 2 ^ 31 ->
  let s0 := set_OpText (decimal n) (wr ForcedMode 0 s) in
  CheckPseudo ("ORG " ++ decimal n) s
  = (if 0x10000 <? n then Exit "Program counter overflow"
     else Done (None, wr pc n s0))
  /\ CheckPseudo ("RMB " ++ decimal n) s
     = (if 0x10000 <? rd pc s + n then Exit "Program counter overflow"
        else Done (None, wr pc (rd pc s + n) s0))
  /\ CheckPseudo ("SETDP " ++ decimal n) s
     = (if 0x10000 <? rd pc s then Exit "Program counter overflow"
        else Done (None, wr DP (if 255 <? n then Z.shiftr n 8 else n) s0)).
Proof.
  intros Hn HCS Hlo Hhi. cbv zeta.
  pose proof (ExtractValue_decimal n s Hn HCS) as EX.
  remember (decimal n) as t eqn:Et.
  unfold CheckPseudo. cbv zeta.
  change (SkipSpace ("ORG " ++ t)) with ("ORG " ++ t)%string.
  change (SkipSpace ("RMB " ++ t)) with ("RMB " ++ t)%string.
  change (SkipSpace ("SETDP " ++ t)) with ("SETDP " ++ t)%string.
  rewrite find_ORG, find_RMB, find_SETDP.
  change (adv (strlen "ORG") ("ORG " ++ t)) with (" " ++ t)%string.
  change (adv (strlen "RMB") ("RMB " ++ t)) with (" " ++ t)%string.
  change (adv (strlen "SETDP") ("SETDP " ++ t)) with (" " ++ t)%string.
  change (pseudo_handler "ORG" (" " ++ t) s) with (ps_org (" " ++ t) s).
  change (pseudo_handler "RMB" (" " ++ t) s) with (ps_rmb (" " ++ t) s).
  change (pseudo_handler "SETDP" (" " ++ t) s) with (ps_setdp (" " ++ t) s).
  unfold ps_org, ps_rmb, ps_setdp. rewrite EX. cbn [bind stored].
  replace (n <? 0) with false by (symmetry; apply Z.ltb_ge; lia).
  cbn [bind]. cbv zeta.
  change (rd pc (set_OpText t (wr ForcedMode 0 s))) with (rd pc s).
  replace (rd pc s + n <? - 2 ^ 31) with false
    by (symmetry; apply Z.ltb_ge; lia).
  replace (2 ^ 31 <=? rd pc s + n) with false
    by (symmetry; apply Z.leb_gt; lia).
  cbn [orb bind]. rewrite !rd_wr_same.
  repeat split.
Qed.

Lemma ORG_RMB_SETDP_witness :
  CheckPseudo ("RMB " ++ decimal 16) (wr pc 0x1000 init_Asm)
  = Done (None, wr pc 0x1010 (set_OpText (decimal 16)
                                (wr ForcedMode 0 (wr pc 0x1000 init_Asm))))
  /\ CheckPseudo ("SETDP " ++ decimal 8192) (wr pc 0x1000 init_Asm)
     = Done (None, wr DP 32 (set_OpText (decimal 8192)
                               (wr ForcedMode 0 (wr pc 0x1000 init_Asm)))).
Proof.
  split.
  - apply (proj1 (proj2 (ORG_RMB_SETDP 16 (wr pc 0x1000 init_Asm)
                           ltac:(lia) ltac:(vm_compute; discriminate)
                           ltac:(vm_compute; discriminate)
                           ltac:(vm_compute; reflexivity)))).
  - apply (proj2 (proj2 (ORG_RMB_SETDP 8192 (wr pc 0x1000 init_Asm)
                           ltac:(lia) ltac:(vm_compute; discriminate)
                           ltac:(vm_compute; discriminate)
                           ltac:(vm_compute; reflexivity)))).
Defined.

(** ** Prefixes *)

Lemma left_operand_prefix (rec : string -> Z -> Asm -> parse (option Z))
      (u : ascii) (T rest : string) (a : Z) (s : Asm) :
  In u ["+"; "-"; "!"; "~"; "<"; ">"]%char ->
  0 <= a < 2 ^ 31 ->
  rec T 12 s = Done (rest, Some a, s) ->
  left_operand rec (String u T) s
  = Done (rest, prefix_value u a, prefix_mode u s).
Proof.
  intros Hu Ha Hrec.
  assert (Hneg : int_wrap (- a) = - a).
  { unfold int_wrap. change (2 ^ 31) with 2147483648 in Ha.
    rewrite Z.mod_small by lia. lia. }
  simpl in Hu.
  destruct Hu as [<-|[<-|[<-|[<-|[<-|[<-|[]]]]]]];
    unfold left_operand; cbn [hd]; cbv beta iota zeta;
    change (adv 1 (String ?x T)) with T;
    cbn -[int_wrap Z.lnot decimal];
    unfold op_plu, op_min, op_lno, op_bno, op_low, op_hig, operand_after;
    change (adv 1 (String ?x T)) with T;
    rewrite Hrec; cbn [bind stored]; rewrite ?Hneg; reflexivity.
Qed.

Lemma prefix_is_no_blank (u : ascii) :
  In u ["+"; "-"; "!"; "~"; "<"; ">"]%char ->
  isspace u = false /\ is_char u "," = false.
Proof.
  simpl. intros [<-|[<-|[<-|[<-|[<-|[<-|[]]]]]]]; split; reflexivity.
Qed.

Lemma prefix_mode_CodeStyle (u : ascii) (s : Asm) :
  rd CodeStyle (prefix_mode u s) = rd CodeStyle s.
Proof.
  unfold prefix_mode. destruct (is_char u "<"); [reflexivity|].
  destruct (is_char u ">"); reflexivity.
Qed.

(** X27.  A prefix binds tighter than every binary operator: the
    text [u a b c], with a prefix [u] of [+ - ! ~ < >], decimal
    constants and a shift being by a count in 0 .. 31, is [(u a) b c].
    [-], [!] and [~] negate, test for zero and complement; [<] and [>]
    leave the value as it is and only set [ForcedMode] to -1 and 1. *)
Theorem unary_prefix_binds_tighter (u : ascii) (a c : Z) (b : binop_struct)
        (s : Asm) :
  In u ["+"; "-"; "!"; "~"; "<"; ">"]%char -> In b binop ->
  0 <= a < 2 ^ 31 -> 0 <= c < 2 ^ 31 -> shift_in_range b c ->
  EvalOperand (String u (decimal a)) 0 s
  = Done ("", Some (prefix_value u a), prefix_mode u s)
  /\ EvalOperand (String u (decimal a ++ op b ++ decimal c)) 0 s
     = Done ("", Some (apply_binop b (prefix_value u a) c), prefix_mode u s).
Proof.
  intros Hu Hb Ha Hc Hsh.
  destruct (prefix_is_no_blank u Hu) as [Hsp Hco].
  split.
  - unfold EvalOperand. cbn [strlen].
    pose proof (decimal_len a (proj1 Ha)) as L.
    destruct (strlen (decimal a)) as [|f]; [lia|].
    rewrite EvalOperand_fuel_S. unfold EvalOperand_body.
    rewrite SkipSpace_fixed by exact Hsp. cbn [hd]. rewrite Hco.
    rewrite (left_operand_prefix _ u (decimal a) "" a s Hu Ha)
      by (apply EvalOperand_fuel_decimal; exact Ha).
    cbn [bind]. change (is_char (hd "") " ") with false.
    rewrite andb_false_r. cbn [SkipSpace].
    rewrite binop_loop_end by reflexivity.
    now rewrite style_rest_nil.
  - destruct (decimal_head c "" (proj1 Hc)) as (d & t & E & Hd).
    rewrite append_nil in E.
    destruct (binop_facts b (decimal c) Hb) as (Hprio & _ & Hbsp & Hadv).
    assert (Hblank : is_char (hd (op b ++ decimal c)) " " = false).
    { revert Hbsp. generalize (hd (op b ++ decimal c)). clear. intros x.
      each_char x; intros H; try discriminate H; reflexivity. }
    unfold EvalOperand. cbn [strlen].
    set (T := (decimal a ++ op b ++ decimal c)%string).
    assert (L : (1 <= strlen T)%nat).
    { subst T. rewrite strlen_append.
      pose proof (decimal_len a (proj1 Ha)). lia. }
    destruct (strlen T) as [|f]; [lia|].
    rewrite EvalOperand_fuel_S.
    rewrite (EvalOperand_one_binop _ (String u T) 0 s
               (op b ++ decimal c) (prefix_value u a) (prefix_mode u s)
               b "" c (prefix_mode u s)).
    + now rewrite style_rest_nil.
    + rewrite SkipSpace_fixed by exact Hsp. exact Hco.
    + rewrite SkipSpace_fixed by exact Hsp.
      apply left_operand_prefix; [exact Hu|exact Ha|].
      subst T. rewrite E.
      apply EvalOperand_fuel_yields; [exact Hb|exact Ha|exact Hd|lia].
    + rewrite Hblank. apply andb_false_r.
    + rewrite SkipSpace_fixed by exact Hbsp. rewrite E.
      now apply find_binop_digit.
    + lia.
    + rewrite SkipSpace_fixed by exact Hbsp. rewrite Hadv.
      now apply EvalOperand_fuel_decimal.
    + apply binop_defined_in_range; [exact Hb|exact Hsh|lia].
    + reflexivity.
Qed.

Lemma unary_prefix_witness :
  EvalOperand (String "-" (decimal 2 ++ "+" ++ decimal 3)) 0 init_Asm
  = Done ("", Some 1, init_Asm).
Proof.
  apply (proj2 (unary_prefix_binds_tighter "-" 2 3 (mkBinop "+" 10 op_add)
                  init_Asm
                  ltac:(simpl; tauto) ltac:(simpl; tauto)
                  ltac:(lia) ltac:(lia)
                  ltac:(intros [H|H]; discriminate H))).
Defined.

(** ** The post byte of the indexed modes *)

(** X28.  Indexed modes without offset: for every index register
    [X Y U S], in either case, and every form [,R+ ,R++ ,-R ,--R ,R]
    the post byte is [$80] plus the register bits plus the mode bits
    0 .. 4; [ql] is set to 0 and no value is stored.  In brackets the
    indirect bit [$10] is added, and the closing bracket is cut off
    the buffer. *)
Theorem auto_increment_post_byte (r : ascii) (bits : Z) (pre post : string)
        (amo : Z) (s : Asm) :
  In (r, bits) index_registers -> In (pre, post, amo) auto_forms ->
  let t := ("," ++ pre ++ String r post)%string in
  SetPostByte t s = Done (0x80 + bits + amo, None, t, wr ql 0 s)
  /\ SetPostByte ("[" ++ t ++ "]") s
     = Done (0x90 + bits + amo, None, ("[" ++ t)%string, wr ql 0 s).
Proof.
  intros Hr Hf. simpl in Hr, Hf.
  repeat (destruct Hr as [Hr|Hr]; [injection Hr as <- <-|]);
    try contradiction;
    repeat (destruct Hf as [Hf|Hf]; [injection Hf as <- <- <-|]);
    try contradiction; split; reflexivity.
Qed.

Lemma auto_increment_witness :
  SetPostByte ",--Y" init_Asm = Done (0xa3, None, ",--Y", wr ql 0 init_Asm).
Proof.
  exact (proj1 (auto_increment_post_byte "Y" 0x20 "--" "" 0x03 init_Asm
                  ltac:(simpl; tauto) ltac:(simpl; tauto))).
Defined.

(** X29.  Accumulator offsets: [A,R] [B,R] [D,R] [E,R] [F,R] [W,R]
    give [$80] plus the register bits plus [6 5 $B 7 $A $E], with [ql]
    0; brackets add [$10].  Any character after the register name is a
    syntax error. *)
Theorem accumulator_offset_post_byte (a r : ascii) (code bits : Z) (s : Asm) :
  In (a, code) accumulator_offsets -> In (r, bits) index_registers ->
  let t := String a (String "," (String r "")) in
  SetPostByte t s = Done (0x80 + bits + code, None, t, wr ql 0 s)
  /\ SetPostByte ("[" ++ t ++ "]") s
     = Done (0x90 + bits + code, None, ("[" ++ t)%string, wr ql 0 s)
  /\ (forall c rest, is_char c NUL = false ->
        SetPostByte (String a (String "," (String r (String c rest)))) s
        = Exit "Syntax error in operand").
Proof.
  intros Ha Hr. simpl in Ha, Hr.
  repeat (destruct Ha as [Ha|Ha]; [injection Ha as <- <-|]);
    try contradiction;
    repeat (destruct Hr as [Hr|Hr]; [injection Hr as <- <-|]);
    try contradiction;
    (split; [reflexivity|split; [reflexivity|]]);
    intros c rest Hc; unfold SetPostByte; cbn [hd is_char andb];
    cbv beta iota zeta;
    unfold SetPostByte_body, PostIndexReg, PostIndex; cbn; rewrite Hc;
    reflexivity.
Qed.

Lemma accumulator_offset_witness :
  SetPostByte "D,U" init_Asm = Done (0xcb, None, "D,U", wr ql 0 init_Asm).
Proof.
  exact (proj1 (accumulator_offset_post_byte "D" "U" 0x0b 0x40 init_Asm
                  ltac:(simpl; tauto) ltac:(simpl; tauto))).
Defined.

Lemma hd_adv_all_chars (P : ascii -> bool) (x rest : string) :
  all_chars P x = true ->
  forall k, (k < strlen x)%nat -> P (hd (adv k (x ++ rest))) = true.
Proof.
  induction x as [|c x IH]; intros H k Hk; [simpl in Hk; lia|].
  simpl in H. apply andb_prop in H as [Hc Hx].
  destruct k as [|k]; [exact Hc|].
  cbn [append adv]. apply IH; [exact Hx|]. simpl in Hk. lia.
Qed.

Lemma digit_is_no_comma (a m : string) (j : nat) :
  isdigit (hd a) = true -> (StrNCaseCmp a (String "," m) (S j) =? 0) = false.
Proof.
  destruct a as [|x a]; [discriminate|]. cbn [hd StrNCaseCmp].
  each_char x; intros H; try discriminate H; reflexivity.
Qed.

Lemma digit_is_no_accumulator (d : ascii) :
  isdigit d = true ->
  is_char d "[" = false /\ is_char d "," = false
  /\ is_char (toupper d) "A" = false /\ is_char (toupper d) "B" = false
  /\ is_char (toupper d) "D" = false /\ is_char (toupper d) "E" = false
  /\ is_char (toupper d) "F" = false /\ is_char (toupper d) "W" = false.
Proof. each_char d; intros H; try discriminate H; repeat split; reflexivity. Qed.

Lemma drop_last_snoc (x : string) (c : ascii) :
  drop_last (x ++ String c "") = x.
Proof.
  induction x as [|a x IH]; [reflexivity|].
  cbn [append drop_last]. rewrite IH. destruct x; reflexivity.
Qed.

(** The brackets of an indirect operand are taken off. *)
Lemma SetPostByte_brackets (t : string) (s : Asm) :
  SetPostByte ("[" ++ t ++ "]") s
  = SetPostByte_body 0x10 ("[" ++ t) t s.
Proof.
  unfold SetPostByte. cbv zeta.
  change ("[" ++ t ++ "]")%string with (String "[" (t ++ "]")).
  cbn [hd strlen String.length].
  replace (S (String.length (t ++ "]")) - 1)%nat
    with (S (strlen t)).
  2:{ change (String.length (t ++ "]")) with (strlen (t ++ "]")).
      rewrite strlen_append. simpl. lia. }
  cbn [adv]. rewrite adv_append.
  change (is_char "[" "[" && is_char (hd "]") "]") with true. cbv iota.
  change (String "[" (t ++ "]")) with (String "[" t ++ "]")%string.
  rewrite drop_last_snoc. reflexivity.
Qed.

(** The operand [n,R] behind the test for brackets. *)
Lemma SetPostByte_body_constant (ind : Z) (buf : string) (n : Z) (r : ascii)
      (bits : Z) (s : Asm) :
  0 <= n < 2 ^ 31 -> In (r, bits) index_registers -> ind = 0 \/ ind = 0x10 ->
  SetPostByte_body ind buf (decimal n ++ String "," (String r "")) s
  = (if n =? 0 then Done (0x84 + bits + ind, None, buf, wr ql 0 s)
     else if (rd ForcedMode s <=? 0) && (n <? 16) && (ind =? 0)
     then Done (bits + n, Some n, buf, wr ql 0 s)
     else if (rd ForcedMode s <? 0) || (n <? 128)
     then Done (0x88 + bits + ind, Some n, buf, wr ql 1 s)
     else Done (0x89 + bits + ind, Some n, buf, wr ql 2 s)).
Proof.
  intros Hn Hr Hind.
  destruct (decimal_shape n (proj1 Hn)) as [Hall Hne].
  pose proof (decimal_len n (proj1 Hn)) as Hlen.
  set (rest := String "," (String r "")).
  assert (Hhd : isdigit (hd (decimal n ++ rest)) = true).
  { apply (hd_adv_all_chars isdigit _ rest Hall 0). lia. }
  destruct (digit_is_no_accumulator _ Hhd)
    as (_ & Hco & HA & HB & HD & HE & HF & HW).
  assert (Hopl : strlen (decimal n ++ rest) = (strlen (decimal n) + 2)%nat)
    by (rewrite strlen_append; reflexivity).
  assert (EV : EvalOperand (decimal n ++ rest) 0 s = Done (rest, Some n, s)).
  { unfold EvalOperand. rewrite EvalOperand_fuel_S.
    apply EvalOperand_body_decimal; [exact Hn|..];
      subst rest; simpl in Hr;
      repeat (destruct Hr as [Hr|Hr]; [injection Hr as <- <-; reflexivity|]);
      contradiction. }
  unfold SetPostByte_body. cbv zeta.
  rewrite HA, HB, HD, HE, HF, HW. cbn [andb]. cbv iota.
  rewrite (digit_is_no_comma _ "PCR" 3)
    by (rewrite Hopl; apply (hd_adv_all_chars isdigit _ rest Hall); lia).
  rewrite (digit_is_no_comma _ "PC" 2)
    by (rewrite Hopl; apply (hd_adv_all_chars isdigit _ rest Hall); lia).
  rewrite !andb_false_r. cbn [orb]. cbv iota.
  rewrite Hco. cbn [negb]. cbv iota. rewrite EV. cbn [bind stored].
  subst rest. cbn [hd]. change (is_char "," ",") with true. cbn [andb].
  assert (H5 : 0 < n < 16 -> Z.land n 31 = n).
  { intros H. change 31 with (Z.ones 5). rewrite Z.land_ones by lia.
    apply Z.mod_small. change (2 ^ 5) with 32. lia. }
  replace (-16 <=? n) with true by (symmetry; apply Z.leb_le; lia).
  replace (-128 <=? n) with true by (symmetry; apply Z.leb_le; lia).
  cbn [andb]. rewrite !andb_true_r.
  destruct (n =? 0) eqn:E0.
  - simpl in Hr.
    repeat (destruct Hr as [Hr|Hr];
            [injection Hr as <- <-; destruct Hind as [-> | ->]; reflexivity|]).
    contradiction.
  - apply Z.eqb_neq in E0.
    assert (Hreg : PostIndexW (-1) (adv 1 (String "," (String r "")))
                   = Done bits /\ (bits =? 15) = false
                   /\ (forall k, 0 <= k < 16 -> Z.lor bits k = bits + k)
                   /\ Z.lor (Z.lor (Z.lor 128 bits) ind) 8 = 0x88 + bits + ind
                   /\ Z.lor (Z.lor (Z.lor 128 bits) ind) 9 = 0x89 + bits + ind).
    { simpl in Hr.
      repeat (destruct Hr as [Hr|Hr];
              [injection Hr as <- <-;
               (split; [reflexivity|split; [reflexivity|split]]);
               [intros k Hk;
                assert (C : k = 0 \/ k = 1 \/ k = 2 \/ k = 3 \/ k = 4 \/ k = 5
                            \/ k = 6 \/ k = 7 \/ k = 8 \/ k = 9 \/ k = 10
                            \/ k = 11 \/ k = 12 \/ k = 13 \/ k = 14 \/ k = 15)
                  by lia;
                repeat (destruct C as [->|C]; [reflexivity|]); now subst k
               |destruct Hind as [-> | ->]; split; reflexivity]|]).
      contradiction. }
    destruct Hreg as (HP & H15 & Hlor & H8 & H9).
    rewrite HP. cbn [bind]. rewrite H15.
    destruct ((rd ForcedMode s <=? 0) && (n <? 16) && (ind =? 0)) eqn:E5.
    + apply andb_prop in E5 as [E5 _]. apply andb_prop in E5 as [_ E5].
      apply Z.ltb_lt in E5. rewrite H5 by lia. rewrite Hlor by lia.
      reflexivity.
    + rewrite H8, H9. reflexivity.
Qed.

(** X30.  A constant offset [n,R], [n] a decimal constant: [0,R] is
    assembled as [,R]; an offset below 16 goes into the post byte
    unless [ForcedMode] is positive; otherwise an offset below 128, or
    any offset under a negative [ForcedMode], takes one byte ([$88]
    plus the register bits), the others two bytes ([$89] plus the
    register bits).  In brackets [$10] is added and the post byte
    never holds the offset. *)
Theorem constant_offset_post_byte (n : Z) (r : ascii) (bits : Z) (s : Asm) :
  0 <= n < 2 ^ 31 -> In (r, bits) index_registers ->
  let t := (decimal n ++ String "," (String r ""))%string in
  let F := rd ForcedMode s in
  SetPostByte t s
  = (if n =? 0 then Done (0x84 + bits, None, t, wr ql 0 s)
     else if (F <=? 0) && (n <? 16)
     then Done (bits + n, Some n, t, wr ql 0 s)
     else if (F <? 0) || (n <? 128)
     then Done (0x88 + bits, Some n, t, wr ql 1 s)
     else Done (0x89 + bits, Some n, t, wr ql 2 s))
  /\ SetPostByte ("[" ++ t ++ "]") s
     = (if n =? 0 then Done (0x94 + bits, None, ("[" ++ t)%string, wr ql 0 s)
        else if (F <? 0) || (n <? 128)
        then Done (0x98 + bits, Some n, ("[" ++ t)%string, wr ql 1 s)
        else Done (0x99 + bits, Some n, ("[" ++ t)%string, wr ql 2 s)).
Proof.
  intros Hn Hr. cbv zeta. split.
  - destruct (decimal_shape n (proj1 Hn)) as [Hall Hne].
    pose proof (decimal_len n (proj1 Hn)) as Hlen.
    assert (Hhd : isdigit (hd (decimal n ++ String "," (String r ""))) = true).
    { apply (hd_adv_all_chars isdigit _ _ Hall 0). lia. }
    destruct (digit_is_no_accumulator _ Hhd) as (Hbr & _).
    unfold SetPostByte. cbv zeta. rewrite Hbr. cbn [andb]. cbv iota.
    rewrite (SetPostByte_body_constant 0 _ n r bits s Hn Hr (or_introl eq_refl)).
    change (0 =? 0) with true. rewrite andb_true_r, !Z.add_0_r. reflexivity.
  - rewrite SetPostByte_brackets.
    rewrite (SetPostByte_body_constant 0x10 _ n r bits s Hn Hr
               (or_intror eq_refl)).
    change (16 =? 0) with false. rewrite andb_false_r.
    replace (0x84 + bits + 16) with (0x94 + bits) by lia.
    replace (0x88 + bits + 16) with (0x98 + bits) by lia.
    replace (0x89 + bits + 16) with (0x99 + bits) by lia.
    reflexivity.
Qed.

Lemma constant_offset_witness :
  SetPostByte (decimal 100 ++ ",Y") init_Asm
  = Done (0xa8, Some 100, (decimal 100 ++ ",Y")%string, wr ql 1 init_Asm).
Proof.
  exact (proj1 (constant_offset_post_byte 100 "Y" 0x20 init_Asm
                  ltac:(lia) ltac:(simpl; tauto))).
Defined.

